(* ===== verification/_CoqProject ===== *)
-Q . S2P
Prelude.v
GoStrings.v
Proto.v
Db.v
Queries.v
AccountQueries.v
Demo.v
InstanceState.v
InstanceRepo.v
SlotRepo.v
CreditRepo.v
GoCrypto.v
AgentRegistry.v
Dispatcher.v
Billing.v
NodeRepo.v
Http.v
AgentStream.v
StreamProof.v
Auth.v
RateLimiter.v
AuthHandlers.v
Views.v
Router.v
SSHKeys.v
SSHTicket.v
TicketEndpoint.v
AgentAuth.v
AdminInstances.v
CreateProof.v
CreateGates.v
UserInstances.v
DeleteProof.v
DomainXML.v
LibvirtManager.v
IOMMU.v
Topology.v
GPUProfile.v
PassthroughProof.v
CloudInit.v
VMOps.v
VMHandler.v
VMProof.v
VMLifecycle.v
MuxRegistry.v
Wire.v
MuxServer.v
InternalAPI.v
MuxAuthProof.v
MuxRevocation.v
SSHProxy.v
StreamClient.v
MuxClient.v
ReconnectProof.v
Relay.v
AgentRelay.v
TunnelProof.v
AdminCLI.v
AdminCLIProof.v
Config.v
Boot.v
StreamSession.v
ServerLoop.v
Metrics.v
AcceptLoops.v
EndToEnd.v
ProxyBoot.v
AgentBoot.v
ControlPump.v
Schema.v
StoredRows.v
Shutdown.v
SpareQueries.v
SlotConcurrency.v
CreditConcurrency.v
EnumScan.v
