(* ===== verification/Prelude.v ===== *)
(** * Hybrid-cloud: a verification library

    The repository is a GPU cloud in three services.  main-api
    (src/services/main-api) is the control plane: it keeps users, nodes, GPU
    slots, instances and credits in Postgres, serves the REST API of operators
    and users, bills running instances by the minute, and signs tickets.
    compute-agent (src/services/compute-agent) runs on each GPU node: it
    reports the node's GPUs over a gRPC stream, creates and destroys VMs with
    libvirt on main-api's orders, and keeps a session to ssh-proxy.  ssh-proxy
    (src/services/ssh-proxy) takes users' SSH connections, has main-api check
    them, and relays their bytes over the session of the VM's node.  This
    library models the three programs and proves what makes them correct, each
    by itself and composed.

    ** How the model is built

    - The database is a record of tables ([Db.DB], after db/migrations).  Each
      query of db/dbstore is one [Db.Stmt]: a function from the server's clock
      and random draw and the tables to rows or a constraint error, and tables
      (Queries.v, AccountQueries.v).
    - [Db.Pg] is the server as the program sees it: the tables, and the fates
      of the round trips to come.  A round trip may be served, refused, or
      executed with its answer lost; every error path of the program is
      reached by some choice of fates.  [Db.inTx] is a transaction with its
      deferred rollback.  Theorems speak about any fates, about fates where no
      answer is lost ([answered]), or about served round trips ([clean]).
    - Go code is a state-passing function ([ST], with [bindR] for the early
      return on error); errors are values of [error] with [errors_Is] on the
      wrapping chain.  Handlers run on a [Dispatcher.World]: the database and
      the registry of connected agents behind the class [Dispatcher.Dispatcher]
      (what the REST handlers and the billing worker rely on), which
      AgentRegistry.v implements.  The agent's VM handler runs on a
      [VMHandler.Host]: files, sysfs, a libvirt manager, and the fates of the
      system calls to come.
    - Where goroutines or calls interleave there is a step relation and
      theorems about every reachable state: [istep] are the steps of the
      modelled goroutines, [step] adds what comes from outside.
    - Calls between the services go through interfaces: [Wire.MainAPI] is what
      ssh-proxy posts to, implemented by main-api's router in InternalAPI.v.
    - Integers are [Z]; where Go's width shows (uint32 conversions, bigint
      columns, durations, backoff) the wrap or the range error is written out.
      Times are nanoseconds.  Texts are byte strings; case and white space
      follow Go on ASCII.

    ** Files: shared

    - Prelude (this file): errors, results, state passing, loops, weakest
      preconditions and invariants, tables as maps, automation ([solve_pres],
      the hint database [pres]).  GoStrings: package strings, strconv, net.
      GoCrypto: SHA-256, HMAC, hex and base64, executable.  Proto: the
      messages of shared/proto.  Wire: lines, bounded bodies, JSON and the
      interface between the services.  Demo: a small database for examples.

    ** Files: main-api

    - Db, Queries, AccountQueries: tables and statements.  Schema: the
      constraints of the migrations as the type of a database, kept by every
      statement and operation.  StoredRows: what the rows of users, sessions,
      keys, tokens and the ledger hold, which the Go code alone ensures.
      SpareQueries: the statements no service runs,
      each against the one that is run in its place.  EnumScan: enumerations
      through the driver and back.
    - InstanceState, InstanceRepo (internal/instance): the state machine, and
      the repository with its audit log.  The log replays to the state of the
      row; terminal states are final; every branch of [Transition]; atomicity.
    - SlotRepo (internal/slot): reservations are exact and disjoint, releasing
      undoes reserving, binding is all or nothing, profile synchronisation
      never takes a used slot.  SlotConcurrency: the same transactions running
      concurrently, row by row under READ COMMITTED: with the advisory lock
      reservations stay exclusive and never wait; a profile synchronised in
      between can lose them.
    - CreditRepo, Billing (internal/credit, internal/billing): the balance is
      the sum of the ledger, posting is idempotent, a minute is billed once,
      the bankrupt sweep stops exactly the debtors' machines.
      CreditConcurrency: concurrent posts are serializable.
    - NodeRepo, AgentStream, StreamProof (internal/node, internal/grpc): the
      handshake, status reports, the stale sweep.  ControlPump: the send loop
      of a stream and its channel.  AgentRegistry, Dispatcher
      (grpc/registry.go): the registry over interleaved streams and sends, the
      lookup and the wait of a send being separate steps.
    - Auth, RateLimiter, AuthHandlers (internal/auth, api/auth_handlers.go,
      api/session_*.go): accounts, sessions, the login limit (equivalent to a
      log of all hits), the endpoints.
    - Http, Views, Router (api/admin*.go, api/user_*.go, api/router.go):
      responses, views, the guards in front of every route.
    - SSHKeys, SSHTicket, TicketEndpoint (internal/sshkeys,
      internal/sshticket, api/internal_ssh_ticket.go): keys, tickets, and who
      gets a ticket for what.  AgentAuth (internal/agentauth): agent
      credentials and how fast a revocation takes effect.
    - AdminInstances, UserInstances with CreateProof, CreateGates, DeleteProof
      (api/admin_instances.go, api/user_instances.go): creating and deleting
      instances on every error path, the gates in front of a create, and the
      PCI devices passed through.
    - AdminCLI, AdminCLIProof (cmd/admin): the operator's commands; a created
      token works until it is revoked.  Config, Boot (internal/config,
      cmd/main-api): settings, and which handlers main mounts with which
      secrets.  Metrics (internal/metrics): the domain gauges and the request
      durations.  Shutdown (cmd/main-api, and Wait of the agent's internal/vm):
      the goroutines of main under their WaitGroup, and when the process ends
      after a signal (only once every agent has gone).

    ** Files: compute-agent

    - IOMMU, Topology, GPUProfile, PassthroughProof (internal/gpu, topology,
      profile): sysfs queries, the reported topology, slot layouts; the
      devices of different slots never overlap on a host whose groups are
      separate.
    - DomainXML, LibvirtManager, CloudInit (internal/libvirt, cloudinit):
      domain definitions both ways, the manager over any libvirt connection
      (a call that returns an error may have taken effect or not), seeds.
    - VMOps (internal/vm, the table of operations): the goroutines refine a
      lock per instance, and drain.  VMHandler, VMProof, VMLifecycle: what a
      create and a destroy do on every error path; a destroy undoes a create.
    - StreamClient, StreamSession (internal/stream): registration and
      reconnecting, and the goroutines inside one session.  MuxClient,
      ReconnectProof, AgentRelay (internal/muxclient): the session to
      ssh-proxy, the waits between attempts, one inbound stream.
    - AgentBoot (cmd/compute-agent): settings, what is wired, the one mux
      client, the exit code.

    ** Files: ssh-proxy and compositions

    - MuxRegistry, MuxServer (internal/muxregistry, muxserver): which session
      leads to a node; which agents may attach.  SSHProxy (internal/router,
      server, ticketclient, tunnelhandler): from a channel to the node.
      ServerLoop: the server's goroutines, cap, timers and shutdown.
      AcceptLoops: the loops of the mux server and of the agent.  ProxyBoot
      (cmd/ssh-proxy, internal/hostkey): settings, the host key, what is
      wired.  Relay: the copy in both directions with its teardown, over
      connections that fill up and fail at any point.
    - InternalAPI, MuxAuthProof, MuxRevocation, TunnelProof: ssh-proxy against
      main-api's endpoints, and the tunnel to the address the agent dials.
      EndToEnd: main-api and the agent over the life of an instance.

    ** Parameters

    Code the program calls but does not contain is a parameter: uuid text
    ([Proto.UUIDLib]), bcrypt ([Auth.Bcrypt]), authorized_keys parsing
    ([SSHKeys.SSHLib]), the SSH payload of a channel ([SSHProxy.SSHWire]), keys
    in PEM ([ProxyBoot.HostKeyLib]), encoding/json ([SSHTicket.TicketJSON],
    [Wire.JSON], [SSHProxy.PayloadJSON]), encoding/xml ([DomainXML.XMLLib]),
    YAML ([CloudInit.YAMLLib], [AgentBoot.ProfileYAML], the rate file), the ISO
    writer ([CloudInit.ISO9660]), go-libvirt ([LibvirtManager.Connector]),
    protojson, netip, the database's collation ([Queries.Collation]).  Laws
    used are classes named [...Laws] that state documented behaviour, and
    every theorem that assumes one has a witness with a concrete instance.

    ** Fuel and bounds

    Three definitions take fuel: the chunking of a padded SHA-256 message and
    ParseDuration, where it is the length of the text (each turn consumes at
    least a byte), and the decoder of the example XML library.  Loops are over
    finite lists: rows, received messages, the turns of a reconnect loop, the
    ticks of a ticker.  The clock, the entropy source, the draws of the jitter
    and the ends of waits are arguments.  Step relations come with theorems
    that their own steps end, and where they come to rest.

    ** Not modelled

    The transports (TCP, TLS, HTTP, gRPC, SSH, yamux) beyond their outcomes;
    the buckets, registration and exposition of Prometheus; the running of
    migrations by goose (the constraints they create are in Schema.v) and the
    table gpu_profiles, which nothing uses; the delivery of signals; qemu-img;
    generated code (shared/proto, the plumbing of dbstore); the web front end.
    Concurrent transactions are modelled for slots and credits
    (SlotConcurrency.v, CreditConcurrency.v) and for two transitions of one
    instance ([InstanceRepo.interleaved]); in the other files transactions run
    one at a time. *)

From Stdlib Require Export ZArith Lia.
From stdpp Require Export base gmap strings sorting fin_maps option numbers list.

#[global] Set Default Goal Selector "!".

(** Errors are Go error values.  [Sentinel] is a package-level
    [var ErrX = errors.New(..)] (compared by identity, here by its text, which
    is unique per sentinel); [ErrNew] an anonymous [errors.New] or a formatted
    error that wraps nothing; [ErrSQL] a Postgres error carrying its SQLSTATE;
    [ErrWrap pre e post] is [fmt.Errorf] with one [%w]. *)
Inductive error :=
  | Sentinel (msg : string)
  | ErrNew (msg : string)
  | ErrSQL (sqlstate msg : string)
  | ErrWrap (pre : string) (inner : error) (post : string).

#[export] Instance error_eq_dec : EqDecision error.
Proof. solve_decision. Defined.

(** [err.Error()]. *)
Fixpoint Error (e : error) : string :=
  match e with
  | Sentinel m | ErrNew m | ErrSQL _ m => m
  | ErrWrap pre e' post => pre +:+ Error e' +:+ post
  end.

(** [errors.Is(e, target)] for a sentinel target: walk the [%w] chain. *)
Fixpoint errors_Is (e target : error) : bool :=
  bool_decide (e = target) ||
  match e with ErrWrap _ e' _ => errors_Is e' target | _ => false end.

(** [errors.As(e, &pgErr)] followed by [pgErr.SQLState()]: the first error of
    the chain that carries a SQLSTATE. *)
Fixpoint errors_As_SQLState (e : error) : option string :=
  match e with
  | ErrSQL c _ => Some c
  | ErrWrap _ e' _ => errors_As_SQLState e'
  | _ => None
  end.

(** A Go [(T, error)] result: the value is only used when the error is nil. *)
Inductive result (A : Type) :=
  | Ok (a : A)
  | Err (e : error).
Arguments Ok {A} a.
Arguments Err {A} e.

Definition is_ok {A} (r : result A) : bool := if r is Ok _ then true else false.

Definition result_map {A B} (f : A -> B) (r : result A) : result B :=
  match r with Ok a => Ok (f a) | Err e => Err e end.

(** [time.Second], [time.Minute], [time.Hour] in nanoseconds. *)
Definition second : Z := 1000000000.
Definition minute : Z := 60 * second.
Definition hour : Z := 60 * minute.

(** ** State passing *)

(** A computation over a state [S]. *)
Definition ST (S A : Type) : Type := S -> A * S.

Definition ret {S A} (a : A) : ST S A := fun s => (a, s).

Definition bind {S A B} (m : ST S A) (k : A -> ST S B) : ST S B :=
  fun s => let '(a, s') := m s in k a s'.

(** Early return on error: [x, err := m; if err != nil { return err }]. *)
Definition bindR {S A B} (m : ST S (result A)) (k : A -> ST S (result B))
  : ST S (result B) :=
  bind m (fun r => match r with Ok a => k a | Err e => ret (Err e) end).

(** [x, err := m; if err != nil { return fmt.Errorf("pre%w", err) }]. *)
Definition wrapErr {S A} (pre : string) (m : ST S (result A)) : ST S (result A) :=
  bind m (fun r => ret match r with
                       | Ok a => Ok a
                       | Err e => Err (ErrWrap pre e "")
                       end).

Declare Scope go_scope.
Delimit Scope go_scope with go.
Notation "x <- m ;; k" := (bind m (fun x => k))
  (at level 100, m at next level, right associativity) : go_scope.
Notation "x <-? m ;; k" := (bindR m (fun x => k))
  (at level 100, m at next level, right associativity) : go_scope.
Notation "m ;;; k" := (bind m (fun _ => k))
  (at level 100, right associativity) : go_scope.

Lemma bindR_eq {S A B} (m : ST S (result A)) (k : A -> ST S (result B)) s :
  bindR m k s = match m s with (Ok a, s1) => k a s1 | (Err e, s1) => (Err e, s1) end.
Proof. unfold bindR, bind. by destruct (m s) as [[a|e] s1]. Qed.

Lemma bind_eq {S A B} (m : ST S A) (k : A -> ST S B) s :
  bind m k s = k (m s).1 (m s).2.
Proof. unfold bind. by destruct (m s). Qed.

Lemma wrapErr_eq {S A} pre (m : ST S (result A)) s :
  wrapErr pre m s = match m s with
                    | (Ok a, s1) => (Ok a, s1)
                    | (Err e, s1) => (Err (ErrWrap pre e ""), s1)
                    end.
Proof. unfold wrapErr, bind. by destruct (m s) as [[a|e] s1]. Qed.

(** [for _, x := range l { body }] whose body only acts on the state. *)
Fixpoint forRange {S A} (l : list A) (body : A -> ST S unit) : ST S unit :=
  match l with
  | [] => ret tt
  | x :: l' => bind (body x) (fun _ => forRange l' body)
  end.

(** [for _, x := range l { if err := body(x); err != nil { return err } }]. *)
Fixpoint forRangeR {S A} (l : list A) (body : A -> ST S (result unit))
  : ST S (result unit) :=
  match l with
  | [] => ret (Ok tt)
  | x :: l' => bindR (body x) (fun _ => forRangeR l' body)
  end.

Lemma forRange_app {S A} (l1 l2 : list A) (body : A -> ST S unit) s :
  forRange (l1 ++ l2) body s = forRange l2 body (forRange l1 body s).2.
Proof.
  revert s. induction l1 as [|x l1 IH]; intros s; simpl; [done|].
  unfold bind. destruct (body x s) as [[] s1]. apply IH.
Qed.

(** ** Weakest preconditions and invariants *)

Definition wp {S A} (m : ST S A) (Q : A -> S -> Prop) (s : S) : Prop :=
  Q (m s).1 (m s).2.

(** [m] keeps the state predicate [I]. *)
Definition preserves {S A} (I : S -> Prop) (m : ST S A) : Prop :=
  forall s, I s -> I (m s).2.

Section st_laws.
Context {S : Type}.
Implicit Types I : S -> Prop.

Lemma wp_ret {A} (a : A) Q (s : S) : wp (ret a) Q s <-> Q a s.
Proof. done. Qed.

Lemma wp_bind {A B} (m : ST S A) (k : A -> ST S B) Q s :
  wp (bind m k) Q s <-> wp m (fun a => wp (k a) Q) s.
Proof. unfold wp, bind. destruct (m s) as [a s']. done. Qed.

Lemma wp_bindR {A B} (m : ST S (result A)) (k : A -> ST S (result B)) Q s :
  wp (bindR m k) Q s <->
  wp m (fun r => match r with Ok a => wp (k a) Q | Err e => Q (Err e) end) s.
Proof. unfold wp, bindR, bind. by destruct (m s) as [[a|e] s']. Qed.

Lemma wp_mono {A} (m : ST S A) (P Q : A -> S -> Prop) s :
  wp m P s -> (forall a s', P a s' -> Q a s') -> wp m Q s.
Proof. unfold wp. auto. Qed.

Lemma preserves_wp {A} I (m : ST S A) :
  preserves I m <-> forall s, I s -> wp m (fun _ s' => I s') s.
Proof. done. Qed.

Lemma preserves_ret {A} I (a : A) : preserves I (ret a).
Proof. by intros s. Qed.

Lemma preserves_bind {A B} I (m : ST S A) (k : A -> ST S B) :
  preserves I m -> (forall a, preserves I (k a)) -> preserves I (bind m k).
Proof.
  intros Hm Hk s Hs. unfold bind. specialize (Hm s Hs).
  destruct (m s) as [a s']. by apply Hk.
Qed.

Lemma preserves_bindR {A B} I (m : ST S (result A)) (k : A -> ST S (result B)) :
  preserves I m -> (forall a, preserves I (k a)) -> preserves I (bindR m k).
Proof.
  intros Hm Hk. apply preserves_bind; [done|].
  intros [a|e]; [apply Hk|apply preserves_ret].
Qed.

Lemma preserves_wrapErr {A} I pre (m : ST S (result A)) :
  preserves I m -> preserves I (wrapErr pre m).
Proof. intros Hm. apply preserves_bind; [done|]. intros; apply preserves_ret. Qed.

Lemma preserves_forRange {A} I (l : list A) body :
  (forall x, preserves I (body x)) -> preserves I (forRange l body).
Proof.
  intros Hb. induction l as [|x l IH]; [apply preserves_ret|].
  apply preserves_bind; auto.
Qed.

Lemma preserves_forRangeR {A} I (l : list A) body :
  (forall x, preserves I (body x)) -> preserves I (forRangeR l body).
Proof.
  intros Hb. induction l as [|x l IH]; [apply preserves_ret|].
  apply preserves_bindR; auto.
Qed.

Lemma preserves_and {A} I J (m : ST S A) :
  preserves I m -> preserves J m -> preserves (fun s => I s /\ J s) m.
Proof. intros HI HJ s [??]. split; auto. Qed.
End st_laws.

(** The hint database of invariant preservation: one [preserves] lemma per
    operation; [solve_pres] walks the control structure of a computation. *)
Create HintDb pres discriminated.
#[export] Hint Resolve preserves_ret : pres.

Ltac pres_step :=
  match goal with
  | |- preserves _ (bind _ _) => apply preserves_bind; [|intros ?]
  | |- preserves _ (bindR _ _) => apply preserves_bindR; [|intros ?]
  | |- preserves _ (wrapErr _ _) => apply preserves_wrapErr
  | |- preserves _ (forRange _ _) => apply preserves_forRange; intros ?
  | |- preserves _ (forRangeR _ _) => apply preserves_forRangeR; intros ?
  | |- preserves _ (ret _) => apply preserves_ret
  | |- preserves _ (match ?x with _ => _ end) => destruct x
  | |- preserves _ (let _ := _ in _) => cbv zeta
  end.
Ltac solve_pres := repeat first [solve [eauto 4 with pres nocore] | pres_step]; eauto with pres.

(** Symbolic execution of goals of the form [wp .. s]. *)
Ltac wp_step :=
  match goal with
  | |- wp (bind _ _) _ _ => apply wp_bind
  | |- wp (bindR _ _) _ _ => apply wp_bindR
  | |- wp (ret _) _ _ => apply wp_ret
  | |- wp (wrapErr _ _) _ _ => apply wp_bind
  end.
Ltac wp_steps := repeat (wp_step; cbv beta iota).

(** Case analysis on the scrutinee of the first [match] of the goal. *)
Ltac case_goal :=
  match goal with
  | |- context [match ?x with _ => _ end] =>
      lazymatch x with context [match _ with _ => _ end] => fail | _ => destruct x eqn:? end
  end.

(** ** Lists and maps *)

Section lists.
Context {A : Type}.

Lemma take_sublist (n : nat) (l : list A) : take n l `sublist_of` l.
Proof. apply sublist_take. Qed.

Lemma elem_of_take_1 (n : nat) (l : list A) x : x ∈ take n l -> x ∈ l.
Proof.
  intros Hx. apply list_elem_of_lookup in Hx as [i Hi].
  apply lookup_take_Some in Hi as [Hi _]. by eapply list_elem_of_lookup_2.
Qed.

Lemma elem_of_take_drop (n : nat) (l : list A) x :
  x ∈ l <-> x ∈ take n l \/ x ∈ drop n l.
Proof. rewrite <- elem_of_app. by rewrite take_drop. Qed.
End lists.

(** [UPDATE .. SET f WHERE P] on a table, and the rows it touched. *)
Definition update_where {V} (P : V -> bool) (f : V -> V) (m : gmap N V) : gmap N V :=
  (fun v => if P v then f v else v) <$> m.

(** The rows of a table, in the scan order of the model. *)
Definition rows {V} (m : gmap N V) : list V := (map_to_list m).*2.

Definition count_where {V} (P : V -> bool) (m : gmap N V) : Z :=
  Z.of_nat (length (List.filter P (rows m))).

Section tables.
Context {V : Type}.
Implicit Types (m : gmap N V) (P : V -> bool).

Lemma lookup_update_where P f m i :
  update_where P f m !! i = (fun v => if P v then f v else v) <$> m !! i.
Proof. unfold update_where. apply lookup_fmap. Qed.

Lemma lookup_update_where_Some P f m i v' :
  update_where P f m !! i = Some v' <->
  exists v, m !! i = Some v /\ v' = (if P v then f v else v).
Proof.
  rewrite lookup_update_where. destruct (m !! i); simpl; split.
  - intros [= <-]. eauto.
  - intros (? & [= ->] & ->). done.
  - done.
  - by intros (? & ? & ?).
Qed.

Lemma dom_update_where P f m : dom (update_where P f m) = dom m.
Proof. unfold update_where. apply dom_fmap_L. Qed.

Lemma elem_of_rows m v : v ∈ rows m <-> exists i, m !! i = Some v.
Proof.
  unfold rows. rewrite list_elem_of_fmap. split.
  - intros ([i v'] & -> & Hin). exists i. by apply elem_of_map_to_list in Hin.
  - intros [i Hi]. exists (i, v). split; [done|]. by apply elem_of_map_to_list.
Qed.

Lemma elem_of_filter_rows P m v :
  v ∈ List.filter P (rows m) <-> P v = true /\ exists i, m !! i = Some v.
Proof.
  rewrite list_elem_of_In, List.filter_In, <- list_elem_of_In, elem_of_rows. tauto.
Qed.

Lemma count_where_0 P m :
  count_where P m = 0%Z <-> forall i v, m !! i = Some v -> P v = false.
Proof.
  unfold count_where. split.
  - intros Hlen i v Hi. destruct (P v) eqn:HP; [|done].
    assert (v ∈ List.filter P (rows m)) as Hin.
    { apply elem_of_filter_rows. eauto. }
    destruct (List.filter P (rows m)); [by apply not_elem_of_nil in Hin|done].
  - intros Hall. destruct (List.filter P (rows m)) as [|v l] eqn:E; [done|].
    assert (v ∈ List.filter P (rows m)) as Hin by (rewrite E; left).
    apply elem_of_filter_rows in Hin as [HP [i Hi]].
    by rewrite (Hall i v Hi) in HP.
Qed.

Lemma count_where_pos P m :
  (0 < count_where P m)%Z <-> exists i v, m !! i = Some v /\ P v = true.
Proof.
  unfold count_where. split.
  - intros Hlen. destruct (List.filter P (rows m)) as [|v l] eqn:E; [simpl in Hlen; lia|].
    assert (v ∈ List.filter P (rows m)) as Hin by (rewrite E; left).
    apply elem_of_filter_rows in Hin as [HP [i Hi]]. eauto.
  - intros (i & v & Hi & HP).
    assert (v ∈ List.filter P (rows m)) as Hin by (apply elem_of_filter_rows; eauto).
    destruct (List.filter P (rows m)); [by apply not_elem_of_nil in Hin|simpl; lia].
Qed.
End tables.

(** Tables whose rows carry their key. *)
Section keyed.
Context {V : Type} (key : V -> N) (m : gmap N V).
Hypothesis Hkey : forall i v, m !! i = Some v -> key v = i.

Lemma rows_keys : key <$> rows m = (map_to_list m).*1.
Proof.
  unfold rows. rewrite <- list_fmap_compose. apply list_fmap_ext.
  intros n [i v] Hn. apply Hkey, elem_of_map_to_list. by eapply list_elem_of_lookup_2.
Qed.

Lemma rows_keys_NoDup : NoDup (key <$> rows m).
Proof. rewrite rows_keys. apply NoDup_fst_map_to_list. Qed.

Lemma filter_sublist (P : V -> bool) (l : list V) : List.filter P l `sublist_of` l.
Proof. induction l as [|v l IH]; simpl; [done|]. destruct (P v); by constructor. Qed.

Lemma filter_rows_keys_NoDup (P : V -> bool) : NoDup (key <$> List.filter P (rows m)).
Proof.
  eapply sublist_NoDup; [apply rows_keys_NoDup|]. apply fmap_sublist, filter_sublist.
Qed.

Lemma row_key v : v ∈ rows m -> m !! key v = Some v.
Proof. intros [i Hi]%elem_of_rows. by rewrite (Hkey i v Hi). Qed.
End keyed.

Create Rewrite HintDb tables.
#[export] Hint Rewrite @lookup_update_where @dom_update_where : tables.

(** The first row of a table that satisfies [P], and whether there is one. *)
Definition row_where {V} (P : V -> bool) (m : gmap N V) : option V :=
  head (List.filter P (rows m)).

Definition exists_row {V} (P : V -> bool) (m : gmap N V) : bool :=
  existsb P (rows m).

Section row_lookup.
Context {V : Type}.
Implicit Types (m : gmap N V) (P : V -> bool).

Lemma row_where_Some P m v :
  row_where P m = Some v -> P v = true /\ exists i, m !! i = Some v.
Proof.
  unfold row_where. intros Hh. apply elem_of_filter_rows.
  destruct (List.filter P (rows m)); simplify_eq/=. left.
Qed.

Lemma row_where_None P m :
  row_where P m = None <-> forall i v, m !! i = Some v -> P v = false.
Proof.
  rewrite <- count_where_0. unfold row_where, count_where.
  destruct (List.filter P (rows m)); simpl; split; intros; try done; lia.
Qed.

Lemma exists_row_false P m :
  exists_row P m = false <-> forall i v, m !! i = Some v -> P v = false.
Proof.
  unfold exists_row. split.
  - intros He i v Hi. destruct (P v) eqn:HP; [|done].
    assert (existsb P (rows m) = true) as Ht; [|congruence].
    apply existsb_exists. exists v. split; [|done].
    apply list_elem_of_In, elem_of_rows. eauto.
  - intros Hall. apply not_true_iff_false. intros (v & Hin & HP)%existsb_exists.
    apply list_elem_of_In, elem_of_rows in Hin as [i Hi].
    by rewrite (Hall i v Hi) in HP.
Qed.
End row_lookup.
