(* ===== verification/GoStrings.v ===== *)
(** * The [strings] functions of the Go standard library the program uses

    Go strings are byte strings, here [string] (a list of bytes).  [ToLower]
    and [TrimSpace] are exact on ASCII input; Go additionally maps the
    multi-byte letters and spaces of Unicode, which these leave alone. *)

From S2P Require Import Prelude.
From Stdlib Require Import Ascii String.
From stdpp Require Import pretty.

#[local] Open Scope string_scope.
#[local] Arguments String.append !s1 s2 / : simpl nomatch.
#[local] Arguments String.length !s / : simpl nomatch.

(** ** Bytes *)

Definition ascii_leb (a b : ascii) : bool := N.leb (N_of_ascii a) (N_of_ascii b).
Definition is_upper (c : ascii) : bool := ascii_leb "A" c && ascii_leb c "Z".
Definition lower_byte (c : ascii) : ascii :=
  if is_upper c then ascii_of_N (N_of_ascii c + 32) else c.

(** The ASCII members of [unicode.IsSpace]: tab, LF, VT, FF, CR and space. *)
Definition is_space (c : ascii) : bool :=
  let n := N_of_ascii c in (n =? 32)%N || ((9 <=? n) && (n <=? 13))%N.

Fixpoint str_map (f : ascii -> ascii) (s : string) : string :=
  match s with EmptyString => EmptyString | String c s' => String (f c) (str_map f s') end.

Fixpoint str_forall (p : ascii -> bool) (s : string) : bool :=
  match s with EmptyString => true | String c s' => p c && str_forall p s' end.

(** ** Prefixes and suffixes *)

Fixpoint strip_prefix (p s : string) : option string :=
  match p, s with
  | EmptyString, _ => Some s
  | String a p', String b s' => if Ascii.eqb a b then strip_prefix p' s' else None
  | String _ _, EmptyString => None
  end.

Fixpoint strip_suffix (suf s : string) : option string :=
  if String.eqb s suf then Some "" else
  match s with
  | EmptyString => None
  | String c s' => String c <$> strip_suffix suf s'
  end.

Definition HasPrefix (s p : string) : bool :=
  if strip_prefix p s is Some _ then true else false.
Definition TrimPrefix (s p : string) : string := default s (strip_prefix p s).
Definition HasSuffix (s suf : string) : bool :=
  if strip_suffix suf s is Some _ then true else false.
Definition TrimSuffix (s suf : string) : string := default s (strip_suffix suf s).

(** [strings.Contains]. *)
Fixpoint Contains (s sub : string) : bool :=
  HasPrefix s sub || match s with EmptyString => false | String _ s' => Contains s' sub end.

(** [strings.Index(s, string(c))], -1 as [None]. *)
Fixpoint IndexByte (s : string) (c : ascii) : option nat :=
  match s with
  | EmptyString => None
  | String b s' => if Ascii.eqb b c then Some 0 else S <$> IndexByte s' c
  end.

(** [strings.Split] for a separator of one byte. *)
Fixpoint Split (s : string) (sep : ascii) : list string :=
  match s with
  | EmptyString => [""]
  | String c s' =>
      if Ascii.eqb c sep then "" :: Split s' sep
      else match Split s' sep with
           | [] => [String c ""]
           | w :: ws => String c w :: ws
           end
  end.

Definition ToLower (s : string) : string := str_map lower_byte s.

Fixpoint trim_left (s : string) : string :=
  match s with
  | EmptyString => ""
  | String c s' => if is_space c then trim_left s' else s
  end.

Fixpoint trim_right (s : string) : string :=
  match s with
  | EmptyString => ""
  | String c s' =>
      match trim_right s' with
      | EmptyString => if is_space c then "" else String c ""
      | s'' => String c s''
      end
  end.

Definition TrimSpace (s : string) : string := trim_right (trim_left s).

(** The [%q] verb, for texts without characters it escapes. *)
Definition Quote (s : string) : string :=
  String "034" s ++ String "034" EmptyString.

(** [strconv.Itoa] and the [%d] verb. *)
Definition Itoa (z : Z) : string := pretty z.

(** ** Bytewise order of strings (Go's [<] and the C collation) *)

Fixpoint str_leb (s t : string) : bool :=
  match s, t with
  | EmptyString, _ => true
  | String _ _, EmptyString => false
  | String a s', String b t' =>
      let x := N_of_ascii a in let y := N_of_ascii b in
      (x <? y)%N || ((x =? y)%N && str_leb s' t')
  end.

Definition str_le (s t : string) : Prop := str_leb s t = true.
#[export] Instance str_le_dec : RelDecision str_le.
Proof. intros s t. unfold str_le. apply _. Defined.

(** ** Laws *)

Lemma strip_prefix_Some p s r : strip_prefix p s = Some r <-> s = p ++ r.
Proof.
  revert s. induction p as [|a p IH]; intros s; simpl.
  - split; [by intros [= ->]|by intros ->].
  - destruct s as [|b s]; [split; discriminate|].
    destruct (Ascii.eqb_spec a b) as [->|Hne].
    + rewrite IH. split; [by intros ->|by intros [= ->]].
    + split; [done|]. by intros [= -> ->].
Qed.

Lemma str_length_app (s t : string) :
  String.length (s ++ t) = String.length s + String.length t.
Proof. induction s as [|c s IH]; [done|]. simpl. by rewrite IH. Qed.

Lemma str_app_nil_r (s : string) : s ++ "" = s.
Proof. induction s as [|c s IH]; [done|]. simpl. by rewrite IH. Qed.

Lemma str_app_assoc (s t u : string) : (s ++ t) ++ u = s ++ (t ++ u).
Proof. induction s as [|c s IH]; [done|]. simpl. by rewrite IH. Qed.

Lemma strip_suffix_Some suf s r : strip_suffix suf s = Some r <-> s = r ++ suf.
Proof.
  assert (forall t u : string, u = t ++ u -> t = "") as Happ.
  { intros t u Hu. apply (f_equal String.length) in Hu.
    rewrite str_length_app in Hu. destruct t; [done|simpl in Hu; lia]. }
  revert r. induction s as [|c s IH]; intros r; cbn [strip_suffix].
  - destruct (String.eqb_spec "" suf) as [<-|Hne].
    + rewrite str_app_nil_r. split; congruence.
    + split; [done|]. destruct r; [intros Hs; by rewrite Hs in Hne|done].
  - destruct (String.eqb_spec (String c s) suf) as [<-|Hne].
    { split; [intros Hr; by injection Hr as <-|]. intros Hr%Happ. by subst. }
    rewrite fmap_Some. setoid_rewrite IH. split.
    + intros (? & -> & ->). done.
    + destruct r as [|c' r]; simpl; intros Hr; [by subst|].
      injection Hr as -> ->. eauto.
Qed.

Lemma HasPrefix_spec s p : HasPrefix s p = true <-> exists r, s = p ++ r.
Proof.
  unfold HasPrefix. destruct (strip_prefix p s) as [r|] eqn:E.
  - apply strip_prefix_Some in E. naive_solver.
  - split; [done|]. intros [r Hr]. apply strip_prefix_Some in Hr. congruence.
Qed.

Lemma TrimPrefix_app p s : TrimPrefix (p ++ s) p = s.
Proof.
  unfold TrimPrefix.
  by rewrite (proj2 (strip_prefix_Some p (p ++ s) s) eq_refl).
Qed.

Lemma TrimSuffix_app suf s : TrimSuffix (s ++ suf) suf = s.
Proof.
  unfold TrimSuffix.
  by rewrite (proj2 (strip_suffix_Some suf (s ++ suf) s) eq_refl).
Qed.

Lemma HasSuffix_spec s suf : HasSuffix s suf = true <-> exists r, s = r ++ suf.
Proof.
  unfold HasSuffix. destruct (strip_suffix suf s) as [r|] eqn:E.
  - apply strip_suffix_Some in E. naive_solver.
  - split; [done|]. intros [r Hr]. apply strip_suffix_Some in Hr. congruence.
Qed.

Lemma str_map_app f s t : str_map f (s ++ t) = str_map f s ++ str_map f t.
Proof. induction s as [|c s IH]; [done|]. simpl. by rewrite IH. Qed.

Lemma str_forall_app p s t : str_forall p (s ++ t) = str_forall p s && str_forall p t.
Proof. induction s; simpl; [done|]. rewrite IHs. by rewrite andb_assoc. Qed.

Lemma str_forall_imp (p q : ascii -> bool) s :
  (forall c, p c = true -> q c = true) -> str_forall p s = true -> str_forall q s = true.
Proof.
  intros Hpq. induction s as [|c s IH]; simpl; [done|].
  rewrite !andb_true_iff. intros [??]. auto.
Qed.

Lemma lower_byte_idem c : lower_byte (lower_byte c) = lower_byte c.
Proof.
  destruct c as [b0 b1 b2 b3 b4 b5 b6 b7].
  destruct b0, b1, b2, b3, b4, b5, b6, b7; reflexivity.
Qed.

Lemma ToLower_idem s : ToLower (ToLower s) = ToLower s.
Proof. unfold ToLower. induction s; simpl; rewrite ?lower_byte_idem; congruence. Qed.

Lemma ToLower_app s t : ToLower (s ++ t) = ToLower s ++ ToLower t.
Proof. apply str_map_app. Qed.

Lemma is_space_lower c : is_space (lower_byte c) = is_space c.
Proof.
  destruct c as [b0 b1 b2 b3 b4 b5 b6 b7].
  destruct b0, b1, b2, b3, b4, b5, b6, b7; reflexivity.
Qed.

Lemma trim_left_lower s : trim_left (ToLower s) = ToLower (trim_left s).
Proof.
  induction s as [|c s IH]; simpl; [done|]. rewrite is_space_lower.
  destruct (is_space c); [done|reflexivity].
Qed.

Lemma trim_right_lower s : trim_right (ToLower s) = ToLower (trim_right s).
Proof.
  induction s as [|c s IH]; simpl; [done|]. rewrite is_space_lower.
  unfold ToLower in *. rewrite IH.
  destruct (trim_right s); simpl; [by destruct (is_space c)|done].
Qed.

Lemma TrimSpace_lower s : TrimSpace (ToLower s) = ToLower (TrimSpace s).
Proof. unfold TrimSpace. by rewrite trim_left_lower, trim_right_lower. Qed.

Lemma trim_right_idem s : trim_right (trim_right s) = trim_right s.
Proof.
  induction s as [|c s IH]; simpl; [done|].
  destruct (trim_right s) as [|c' s'] eqn:E.
  - destruct (is_space c) eqn:Hc; simpl; [done|by rewrite Hc].
  - cbn [trim_right] in IH |- *. by rewrite IH.
Qed.

Lemma trim_left_trim_right s :
  trim_left s = s -> trim_left (trim_right s) = trim_right s.
Proof.
  destruct s as [|c s]; simpl; [done|].
  destruct (is_space c) eqn:Hc.
  - intros Hs. exfalso.
    assert (forall t, String.length (trim_left t) <= String.length t) as Hlen.
    { induction t as [|d t IH]; simpl; [lia|]. destruct (is_space d); simpl; lia. }
    specialize (Hlen s). rewrite Hs in Hlen. simpl in Hlen. lia.
  - intros _. destruct (trim_right s); simpl; by rewrite Hc.
Qed.

Lemma trim_left_idem s : trim_left (trim_left s) = trim_left s.
Proof.
  induction s as [|c s IH]; simpl; [done|].
  destruct (is_space c) eqn:Hc; [done|]. simpl. by rewrite Hc.
Qed.

Lemma TrimSpace_idem s : TrimSpace (TrimSpace s) = TrimSpace s.
Proof.
  unfold TrimSpace. rewrite (trim_left_trim_right (trim_left s)).
  - apply trim_right_idem.
  - apply trim_left_idem.
Qed.

(** ** The bytewise order is a total order *)

#[export] Instance str_le_reflexive : Reflexive str_le.
Proof.
  intros s. unfold str_le. induction s as [|c s IH]; simpl; [done|].
  rewrite N.eqb_refl, IH. by rewrite orb_true_r.
Qed.

Lemma str_leb_cons a s b t :
  str_leb (String a s) (String b t) = true <->
  (N_of_ascii a < N_of_ascii b)%N \/ (a = b /\ str_leb s t = true).
Proof.
  simpl. rewrite orb_true_iff, andb_true_iff, N.ltb_lt, N.eqb_eq. split.
  - intros [?|[Heq ?]]; [auto|]. right. split; [|done].
    rewrite <- (ascii_N_embedding a), <- (ascii_N_embedding b). by rewrite Heq.
  - intros [?|[-> ?]]; auto.
Qed.

#[export] Instance str_le_transitive : Transitive str_le.
Proof.
  unfold str_le. intros s. induction s as [|a s IH]; intros [|b t] [|c u]; try done.
  rewrite !str_leb_cons. intros [?|[-> ?]] [?|[-> ?]].
  - left. lia.
  - left. done.
  - left. done.
  - right. eauto.
Qed.

#[export] Instance str_le_total : Total str_le.
Proof.
  unfold Total, str_le. intros s.
  induction s as [|a s IH]; intros [|b t]; try (by auto).
  rewrite !str_leb_cons.
  destruct (N.lt_trichotomy (N_of_ascii a) (N_of_ascii b)) as [?|[Heq|?]]; [auto| |auto].
  assert (a = b) as ->.
  { rewrite <- (ascii_N_embedding a), <- (ascii_N_embedding b). by rewrite Heq. }
  destruct (IH t); auto.
Qed.

#[export] Instance str_le_antisymm : AntiSymm (=) str_le.
Proof.
  unfold AntiSymm, str_le. intros s. induction s as [|a s IH]; intros [|b t]; try done.
  rewrite !str_leb_cons. intros [?|[-> ?]] [?|[Hba ?]]; try lia; f_equal; eauto.
  - subst. lia.
Qed.

Lemma Itoa_inj a b : Itoa a = Itoa b -> a = b.
Proof. unfold Itoa. apply (inj pretty). Qed.

(** ** [net.SplitHostPort] *)

Definition LastIndexByte (s : string) (c : ascii) : option nat :=
  let fix go (s : string) (i : nat) (last : option nat) : option nat :=
    match s with
    | EmptyString => last
    | String b s' => go s' (S i) (if Ascii.eqb b c then Some i else last)
    end in
  go s 0 None.

(** [s[i:]] and [s[:i]]. *)
Definition str_drop (i : nat) (s : string) : string := String.substring i (String.length s - i) s.
Definition str_take (i : nat) (s : string) : string := String.substring 0 i s.

Definition has_byte (s : string) (c : ascii) : bool := if IndexByte s c is Some _ then true else false.

Definition SplitHostPort (hostport : string) : option (string * string) :=
  match LastIndexByte hostport ":" with
  | None => None                                           (* missing port *)
  | Some i =>
      let finish (host : string) (j k : nat) :=
        if has_byte (str_drop j hostport) "[" then None
        else if has_byte (str_drop k hostport) "]" then None
        else Some (host, str_drop (S i) hostport) in
      match hostport with
      | String "[" _ =>
          match IndexByte hostport "]" with
          | None => None
          | Some e => if Nat.eqb (S e) i
                      then finish (String.substring 1 (e - 1) hostport) 1 (S e) else None
          end
      | _ => let host := str_take i hostport in
             if has_byte host ":" then None else finish host 0 0
      end
  end.

Example SplitHostPort_v4 : SplitHostPort "10.0.0.7:443" = Some ("10.0.0.7", "443").
Proof. reflexivity. Qed.
Example SplitHostPort_v6 : SplitHostPort "[::1]:22" = Some ("::1", "22").
Proof. reflexivity. Qed.
Example SplitHostPort_bare : SplitHostPort "::1:22" = None.
Proof. reflexivity. Qed.

(** ** [strconv.ParseUint(s, 16, bits)] *)

Definition hex_value (c : ascii) : option Z :=
  let n := Z.of_N (N_of_ascii c) in
  if (48 <=? n)%Z && (n <=? 57)%Z then Some (n - 48)%Z
  else if (97 <=? n)%Z && (n <=? 102)%Z then Some (n - 87)%Z
  else if (65 <=? n)%Z && (n <=? 70)%Z then Some (n - 55)%Z
  else None.

Fixpoint parse_hex (acc : Z) (s : string) : option Z :=
  match s with
  | EmptyString => Some acc
  | String c s' => match hex_value c with
                   | Some d => parse_hex (16 * acc + d)%Z s'
                   | None => None
                   end
  end.

Definition ErrSyntax : error := Sentinel "invalid syntax".
Definition ErrRange : error := Sentinel "value out of range".

(** The error is a [*strconv.NumError], which unwraps to the sentinel. *)
Definition num_error (fn s : string) (e : error) : error :=
  ErrWrap ("strconv." ++ fn ++ ": parsing " ++ Quote s ++ ": ") e "".

Definition ParseUint16 (bits : Z) (s : string) : result Z :=
  if String.eqb s "" then Err (num_error "ParseUint" s ErrSyntax)
  else match parse_hex 0 s with
       | None => Err (num_error "ParseUint" s ErrSyntax)
       | Some z => if (z <? 2 ^ bits)%Z then Ok z else Err (num_error "ParseUint" s ErrRange)
       end.

Definition is_hex (c : ascii) : bool := if hex_value c is Some _ then true else false.

Lemma ParseUint16_Ok bits s z :
  ParseUint16 bits s = Ok z -> s <> "" /\ str_forall is_hex s = true /\ (z < 2 ^ bits)%Z.
Proof.
  unfold ParseUint16. destruct (String.eqb_spec s "") as [->|Hne]; [done|].
  destruct (parse_hex 0 s) as [z'|] eqn:E; [|done].
  destruct (z' <? 2 ^ bits)%Z eqn:Hlt; [|done]. intros [= <-].
  split; [done|]. split; [|lia]. clear Hlt Hne. revert E. generalize 0%Z.
  induction s as [|c s IH]; intros acc; simpl; [done|]. unfold is_hex.
  destruct (hex_value c); [|done]. apply IH.
Qed.

(** ** [strings.Split] and joining *)

Fixpoint join_byte (sep : ascii) (l : list string) : string :=
  match l with
  | [] => ""
  | [w] => w
  | w :: l' => w ++ String sep (join_byte sep l')
  end.

Lemma Split_join s sep : join_byte sep (Split s sep) = s.
Proof.
  induction s as [|c s IH]; [done|]. simpl.
  destruct (Ascii.eqb_spec c sep) as [->|Hne].
  - destruct (Split s sep) as [|w ws] eqn:E; simpl in *; [by subst|by rewrite IH].
  - destruct (Split s sep) as [|w ws]; simpl in *; [by subst|].
    destruct ws; simpl in *; by subst.
Qed.

Lemma Split_pieces s sep :
  Forall (fun w => str_forall (fun c => negb (Ascii.eqb c sep)) w = true) (Split s sep).
Proof.
  induction s as [|c s IH]; simpl; [by repeat constructor|].
  destruct (Ascii.eqb_spec c sep) as [->|Hne]; [by constructor|].
  destruct (Split s sep) as [|w ws]; [constructor; [|done]|].
  - simpl. by apply Ascii.eqb_neq in Hne as ->.
  - inversion IH; subst. constructor; [|done]. simpl.
    apply Ascii.eqb_neq in Hne as ->. done.
Qed.

(** ** [strings.Fields] and decimal integers *)

Fixpoint fields_from (cur : string) (s : string) : list string :=
  match s with
  | EmptyString => if String.eqb cur "" then [] else [cur]
  | String c s' =>
      if is_space c then (if String.eqb cur "" then [] else [cur]) ++ fields_from "" s'
      else fields_from (cur ++ String c "") s'
  end%list.
Definition Fields (s : string) : list string := fields_from "" s.

Definition digit_value (c : ascii) : option Z :=
  let n := Z.of_N (N_of_ascii c) in
  if (48 <=? n)%Z && (n <=? 57)%Z then Some (n - 48)%Z else None.

(** The leading digits of a text, and their value. *)
Fixpoint scan_digits (acc : option Z) (s : string) : option Z :=
  match s with
  | EmptyString => acc
  | String c s' => match digit_value c with
                   | Some d => scan_digits (Some (10 * default 0 acc + d)%Z) s'
                   | None => acc
                   end
  end.

(** [fmt.Sscanf(s, "%d", &u)] for a [uint64]: leading spaces, then digits;
    what follows is left unread. *)
Definition Sscanf_uint64 (s : string) : option Z :=
  match scan_digits None (trim_left s) with
  | Some z => if (z <? 2 ^ 64)%Z then Some z else None
  | None => None
  end.

(** Go's conversions to [int32] and [uint64] (two's complement). *)
Definition int32 (z : Z) : Z := ((z + 2 ^ 31) mod 2 ^ 32 - 2 ^ 31)%Z.
Definition uint64 (z : Z) : Z := (z mod 2 ^ 64)%Z.

Lemma int32_id z : (- 2 ^ 31 <= z < 2 ^ 31)%Z -> int32 z = z.
Proof. intros Hz. unfold int32. rewrite Z.mod_small; lia. Qed.

(** ** [filepath.Join], [strings.TrimRight] and [strings.ReplaceAll] *)

(** The elements of a cleaned path, built in reverse. *)
Fixpoint clean_elems (rooted : bool) (out l : list string) : list string :=
  match l with
  | [] => rev out
  | w :: l' =>
      if String.eqb w "" || String.eqb w "." then clean_elems rooted out l'
      else if String.eqb w ".." then
        match out with
        | x :: out' => if String.eqb x ".." then clean_elems rooted (w :: out) l' else clean_elems rooted out' l'
        | [] => clean_elems rooted (if rooted then [] else [w]) l'
        end
      else clean_elems rooted (w :: out) l'
  end%list.

Definition Clean (p : string) : string :=
  let rooted := HasPrefix p "/" in
  let body := join_byte "/" (clean_elems rooted [] (Split p "/")) in
  if rooted then "/" ++ body else if String.eqb body "" then "." else body.

(** [filepath.Join(dir, name)], [name] not empty. *)
Definition Join (dir name : string) : string :=
  if String.eqb dir "" then Clean name else Clean (dir ++ "/" ++ name).

Fixpoint TrimRightByte (s : string) (c : ascii) : string :=
  match s with
  | EmptyString => ""
  | String d s' => match TrimRightByte s' c with
                   | EmptyString => if Ascii.eqb d c then "" else String d ""
                   | s'' => String d s''
                   end
  end.

(** Replacing one byte by a text. *)
Fixpoint ReplaceByte (s : string) (c : ascii) (by_text : string) : string :=
  match s with
  | EmptyString => ""
  | String d s' => (if Ascii.eqb d c then by_text else String d "") ++ ReplaceByte s' c by_text
  end.

Example Join_clean : Join "/var/lib/hybrid/images/" "5.qcow2" = "/var/lib/hybrid/images/5.qcow2".
Proof. reflexivity. Qed.
Example Join_dots : Join "/a" "../../b" = "/b".
Proof. reflexivity. Qed.

(** ** A text code of the positive numbers, for the codecs of the witnesses *)

Fixpoint bits_of (p : positive) : string :=
  match p with xH => "" | xO q => String "0" (bits_of q) | xI q => String "1" (bits_of q) end.

Fixpoint of_bits (s : string) : positive :=
  match s with
  | EmptyString => xH
  | String c s' => if Ascii.eqb c "0" then xO (of_bits s') else xI (of_bits s')
  end.

Lemma of_bits_of p : of_bits (bits_of p) = p.
Proof. induction p as [p IH|p IH|]; simpl; by rewrite ?IH. Qed.
