(* ===== verification/Proto.v ===== *)
(** * Messages between main-api and the compute agents (proto/agent.proto)

    The Go structs of shared/proto are generated from proto/agent.proto; the
    model has the message types with the fields the program reads or writes.
    UUIDs are 128-bit values; their text form belongs to the
    google/uuid package, which the class [UUIDLib] stands for. *)

From S2P Require Import Prelude GoStrings.
From Stdlib Require Import Ascii.

(** [uuid.UUID]; [uuid.Nil] is 0. *)
Abbreviation UUID := N.

(** github.com/google/uuid: [UUID.String] and [uuid.Parse]. *)
Class UUIDLib := {
  uuid_String : UUID -> string;
  uuid_Parse : string -> result UUID
}.

(** Documented: [Parse] accepts the canonical form [String] produces. *)
Class UUIDLaws `{UUIDLib} : Prop := {
  uuid_Parse_String u : uuid_Parse (uuid_String u) = Ok u
}.

(** Agent-reported instance state (enum [InstanceState] of the proto). *)
Inductive ProtoState :=
  | INSTANCE_STATE_UNSPECIFIED
  | INSTANCE_STATE_PROVISIONING
  | INSTANCE_STATE_RUNNING
  | INSTANCE_STATE_STOPPING
  | INSTANCE_STATE_STOPPED
  | INSTANCE_STATE_FAILED.

Record SlotSpec := {
  ss_SlotIndex : Z;
  ss_GpuCount : Z;
  ss_GpuIndices : list Z;
  ss_NvlinkDomain : string
}.

Record Profile := {
  pf_Name : string;
  pf_Hash : string;
  pf_Slots : list SlotSpec
}.

Record Gpu := {
  gpu_Index : Z;
  gpu_PciAddress : string;
  gpu_Model : string;
  gpu_MemoryBytes : Z;
  gpu_IommuGroup : string;
  gpu_Driver : string;
  gpu_CompanionPciAddresses : list string;
  gpu_VfioReady : bool;
  gpu_BindBlocker : string
}.

Record Topology := {
  top_Gpus : list Gpu;
  top_IommuEnabled : bool;
  top_Profile : option Profile
}.

Record RegisterMsg := {
  rg_NodeName : string;
  rg_Hostname : string;
  rg_AgentVersion : string;
  rg_AgentToken : string;
  rg_Topology : option Topology;
  rg_AgentTunnelEndpoint : string
}.

Record InstanceStatus := {
  st_InstanceId : string;
  st_State : ProtoState;
  st_VmInternalIp : string;
  st_ErrorMessage : string
}.

(** The oneof of [AgentMessage]; [AM_None] is a message whose payload is unset
    or of a kind this binary does not know. *)
Inductive AgentMessage :=
  | AM_Register (r : RegisterMsg)
  | AM_Heartbeat
  | AM_Topology (t : option Topology)
  | AM_InstanceStatus (s : InstanceStatus)
  | AM_Ack
  | AM_None.

Record CreateInstanceMsg := {
  ci_InstanceId : string;
  ci_Name : string;
  ci_MemoryMb : Z;
  ci_Vcpus : Z;
  ci_SshPubkeys : list string;
  ci_SlotIndices : list Z;
  ci_ImageRef : string;
  ci_PassthroughPciAddresses : list string
}.

Inductive ControlMessage :=
  | CM_RegisterAck (nodeId : string) (heartbeatSeconds : Z)
  | CM_CreateInstance (m : CreateInstanceMsg)
  | CM_DestroyInstance (instanceId : string)
  | CM_Ping
  | CM_None.

#[export] Instance ProtoState_eq_dec : EqDecision ProtoState.
Proof. solve_decision. Defined.
#[export] Instance InstanceStatus_eq_dec : EqDecision InstanceStatus.
Proof. solve_decision. Defined.
#[export] Instance CreateInstanceMsg_eq_dec : EqDecision CreateInstanceMsg.
Proof. solve_decision. Defined.
#[export] Instance ControlMessage_eq_dec : EqDecision ControlMessage.
Proof. solve_decision. Defined.

(** Go conversion of an [int32] to [uint32] (two's complement). *)
Definition uint32 (z : Z) : Z := z mod 2 ^ 32.

(** ** A concrete UUID library, for the witnesses

    Not google/uuid's text form: an injective spelling of the bits. *)
Module DemoUUID.
#[local] Open Scope string_scope.
#[local] Open Scope char_scope.

Fixpoint pos_text (p : positive) : string :=
  match p with
  | xH => String "h" EmptyString
  | xO p' => String "o" (pos_text p')
  | xI p' => String "i" (pos_text p')
  end.

Fixpoint text_pos (s : string) : option positive :=
  match s with
  | EmptyString => None
  | String c s' =>
      if Ascii.eqb c "h" then (if String.eqb s' EmptyString then Some xH else None)
      else if Ascii.eqb c "o" then xO <$> text_pos s'
      else if Ascii.eqb c "i" then xI <$> text_pos s'
      else None
  end.

Lemma text_pos_text p : text_pos (pos_text p) = Some p.
Proof. induction p as [p IH|p IH|]; simpl; rewrite ?IH; done. Qed.

#[export] Instance lib : UUIDLib := {
  uuid_String u :=
    match u with N0 => String "z" EmptyString | Npos p => pos_text p end;
  uuid_Parse s :=
    if String.eqb s (String "z" EmptyString) then Ok 0%N
    else match text_pos s with
         | Some p => Ok (Npos p)
         | None => Err (ErrNew "invalid UUID length")
         end
}.

#[export] Instance laws : UUIDLaws.
Proof.
  constructor. intros [|p]; [done|]. simpl. rewrite text_pos_text.
  by destruct p.
Qed.
End DemoUUID.
