(* ===== verification/Db.v ===== *)
(** * The database main-api works against (internal/db)

    The row types of dbstore/models.go, the tables of db/migrations with the
    constraints the statements of Queries.v enforce, and the way the program
    reaches them: a round trip that can be refused or lose its answer, and the
    transaction bracket [inTx] that the instance, slot and credit repositories
    share.

    A nullable column is an [option]; timestamps are nanoseconds; a jsonb or
    bytea column holds its text. *)

From S2P Require Import Prelude GoStrings Proto.

#[local] Open Scope string_scope.

Abbreviation Time := Z.

(** [netip.Addr], by its text; the invalid zero address is the empty text. *)
Abbreviation Addr := string.

(** ** Row types (dbstore/models.go) *)

(** A Go string type whose constants are the enum's values; any other string
    converts to it too. *)
Inductive InstanceState :=
  | InstanceStatePending
  | InstanceStateProvisioning
  | InstanceStateRunning
  | InstanceStateStopping
  | InstanceStateStopped
  | InstanceStateFailed
  | InstanceStateOther (s : string).

#[export] Instance InstanceState_eq_dec : EqDecision InstanceState.
Proof. solve_decision. Defined.

(** [string(state)]. *)
Definition InstanceState_text (s : InstanceState) : string :=
  match s with
  | InstanceStatePending => "pending"
  | InstanceStateProvisioning => "provisioning"
  | InstanceStateRunning => "running"
  | InstanceStateStopping => "stopping"
  | InstanceStateStopped => "stopped"
  | InstanceStateFailed => "failed"
  | InstanceStateOther t => t
  end.

(** The Postgres enum [instance_state] has the six values only. *)
Definition is_instance_state (s : InstanceState) : bool :=
  match s with InstanceStateOther _ => false | _ => true end.

Inductive NodeStatus :=
  | NodeStatusOffline | NodeStatusOnline | NodeStatusDegraded | NodeStatusDraining.

#[export] Instance NodeStatus_eq_dec : EqDecision NodeStatus.
Proof. solve_decision. Defined.

Inductive SlotStatus :=
  | SlotStatusFree | SlotStatusReserved | SlotStatusInUse | SlotStatusDraining.

#[export] Instance SlotStatus_eq_dec : EqDecision SlotStatus.
Proof. solve_decision. Defined.

Record Credit := {
  cr_UserID : UUID;
  cr_BalanceMilli : Z;
  cr_UpdatedAt : Time
}.

Record CreditLedger := {
  cl_ID : N;
  cl_UserID : UUID;
  cl_DeltaMilli : Z;
  cl_Reason : string;
  cl_InstanceID : option UUID;
  cl_IdempotencyKey : string;
  cl_Metadata : string;
  cl_CreatedAt : Time
}.

Record GpuSlot := {
  gs_ID : UUID;
  gs_NodeID : UUID;
  gs_SlotIndex : Z;
  gs_GpuCount : Z;
  gs_GpuIndices : list Z;
  gs_NvlinkDomain : string;
  gs_Status : SlotStatus;
  gs_CurrentInstanceID : option UUID
}.

Record InstanceRow := {
  in_ID : UUID;
  in_OwnerID : option UUID;
  in_NodeID : UUID;
  in_Name : string;
  in_State : InstanceState;
  in_MemoryMb : Z;
  in_Vcpus : Z;
  in_GpuCount : Z;
  in_SlotIndices : list Z;
  in_SshPubkeys : list string;
  in_VmInternalIp : option Addr;
  in_ImageRef : string;
  in_ErrorMessage : string;
  in_CreatedAt : Time;
  in_UpdatedAt : Time
}.

Record InstanceEvent := {
  ev_ID : N;
  ev_InstanceID : UUID;
  ev_FromState : option InstanceState;
  ev_ToState : InstanceState;
  ev_Reason : string;
  ev_Metadata : string;
  ev_CreatedAt : Time
}.

Record Node := {
  nd_ID : UUID;
  nd_ZoneID : UUID;
  nd_NodeName : string;
  nd_Hostname : string;
  nd_AgentVersion : string;
  nd_Status : NodeStatus;
  nd_TopologyJson : string;
  nd_ProfileHash : string;
  nd_LastHeartbeatAt : option Time;
  nd_RegisteredAt : Time;
  nd_UpdatedAt : Time;
  nd_AccessPolicy : string;
  nd_OwnerTeamID : option UUID;
  nd_LastDataPlaneAt : option Time;
  nd_NodeState : string
}.

Record NodeToken := {
  nt_ID : UUID;
  nt_NodeID : UUID;
  nt_TokenHash : string;
  nt_CreatedAt : Time;
  nt_RevokedAt : option Time;
  nt_CreatedBy : option UUID
}.

Record Session := {
  se_ID : UUID;
  se_UserID : UUID;
  se_TokenHash : string;
  se_ExpiresAt : Time;
  se_CreatedAt : Time
}.

Record SshKey := {
  sk_ID : UUID;
  sk_UserID : UUID;
  sk_Label : string;
  sk_Pubkey : string;
  sk_Fingerprint : string;
  sk_CreatedAt : Time
}.

Record Team := {
  te_ID : UUID;
  te_Name : string;
  te_Description : string;
  te_CreatedAt : Time
}.

Record User := {
  us_ID : UUID;
  us_Email : string;
  us_PasswordHash : string;
  us_IsAdmin : bool;
  us_CreatedAt : Time;
  us_UpdatedAt : Time
}.

Record Zone := {
  zn_ID : UUID;
  zn_Name : string;
  zn_Description : string;
  zn_IsDefault : bool;
  zn_CreatedAt : Time
}.

(** ** The tables

    Keyed by primary key; the two logs are lists in insertion order. *)
Record DB := {
  db_users : gmap UUID User;
  db_sessions : gmap UUID Session;
  db_zones : gmap UUID Zone;
  db_nodes : gmap UUID Node;
  db_gpu_slots : gmap UUID GpuSlot;
  db_instances : gmap UUID InstanceRow;
  db_instance_events : list InstanceEvent;
  db_credits : gmap UUID Credit;
  db_credit_ledger : list CreditLedger;
  db_ssh_keys : gmap UUID SshKey;
  db_node_tokens : gmap UUID NodeToken;
  db_teams : gmap UUID Team;
  db_team_members : gmap (UUID * UUID) Time      (* (team, user) -> joined_at *)
}.

Definition empty_db : DB :=
  {| db_users := ∅; db_sessions := ∅; db_zones := ∅; db_nodes := ∅;
     db_gpu_slots := ∅; db_instances := ∅; db_instance_events := [];
     db_credits := ∅; db_credit_ledger := []; db_ssh_keys := ∅;
     db_node_tokens := ∅; db_teams := ∅; db_team_members := ∅ |}.

Definition set_users m d := {| db_users := m; db_sessions := db_sessions d; db_zones := db_zones d; db_nodes := db_nodes d; db_gpu_slots := db_gpu_slots d; db_instances := db_instances d; db_instance_events := db_instance_events d; db_credits := db_credits d; db_credit_ledger := db_credit_ledger d; db_ssh_keys := db_ssh_keys d; db_node_tokens := db_node_tokens d; db_teams := db_teams d; db_team_members := db_team_members d |}.
Definition set_sessions m d := {| db_users := db_users d; db_sessions := m; db_zones := db_zones d; db_nodes := db_nodes d; db_gpu_slots := db_gpu_slots d; db_instances := db_instances d; db_instance_events := db_instance_events d; db_credits := db_credits d; db_credit_ledger := db_credit_ledger d; db_ssh_keys := db_ssh_keys d; db_node_tokens := db_node_tokens d; db_teams := db_teams d; db_team_members := db_team_members d |}.
Definition set_nodes m d := {| db_users := db_users d; db_sessions := db_sessions d; db_zones := db_zones d; db_nodes := m; db_gpu_slots := db_gpu_slots d; db_instances := db_instances d; db_instance_events := db_instance_events d; db_credits := db_credits d; db_credit_ledger := db_credit_ledger d; db_ssh_keys := db_ssh_keys d; db_node_tokens := db_node_tokens d; db_teams := db_teams d; db_team_members := db_team_members d |}.
Definition set_gpu_slots m d := {| db_users := db_users d; db_sessions := db_sessions d; db_zones := db_zones d; db_nodes := db_nodes d; db_gpu_slots := m; db_instances := db_instances d; db_instance_events := db_instance_events d; db_credits := db_credits d; db_credit_ledger := db_credit_ledger d; db_ssh_keys := db_ssh_keys d; db_node_tokens := db_node_tokens d; db_teams := db_teams d; db_team_members := db_team_members d |}.
Definition set_instances m d := {| db_users := db_users d; db_sessions := db_sessions d; db_zones := db_zones d; db_nodes := db_nodes d; db_gpu_slots := db_gpu_slots d; db_instances := m; db_instance_events := db_instance_events d; db_credits := db_credits d; db_credit_ledger := db_credit_ledger d; db_ssh_keys := db_ssh_keys d; db_node_tokens := db_node_tokens d; db_teams := db_teams d; db_team_members := db_team_members d |}.
Definition set_instance_events m d := {| db_users := db_users d; db_sessions := db_sessions d; db_zones := db_zones d; db_nodes := db_nodes d; db_gpu_slots := db_gpu_slots d; db_instances := db_instances d; db_instance_events := m; db_credits := db_credits d; db_credit_ledger := db_credit_ledger d; db_ssh_keys := db_ssh_keys d; db_node_tokens := db_node_tokens d; db_teams := db_teams d; db_team_members := db_team_members d |}.
Definition set_credits m d := {| db_users := db_users d; db_sessions := db_sessions d; db_zones := db_zones d; db_nodes := db_nodes d; db_gpu_slots := db_gpu_slots d; db_instances := db_instances d; db_instance_events := db_instance_events d; db_credits := m; db_credit_ledger := db_credit_ledger d; db_ssh_keys := db_ssh_keys d; db_node_tokens := db_node_tokens d; db_teams := db_teams d; db_team_members := db_team_members d |}.
Definition set_credit_ledger m d := {| db_users := db_users d; db_sessions := db_sessions d; db_zones := db_zones d; db_nodes := db_nodes d; db_gpu_slots := db_gpu_slots d; db_instances := db_instances d; db_instance_events := db_instance_events d; db_credits := db_credits d; db_credit_ledger := m; db_ssh_keys := db_ssh_keys d; db_node_tokens := db_node_tokens d; db_teams := db_teams d; db_team_members := db_team_members d |}.
Definition set_ssh_keys m d := {| db_users := db_users d; db_sessions := db_sessions d; db_zones := db_zones d; db_nodes := db_nodes d; db_gpu_slots := db_gpu_slots d; db_instances := db_instances d; db_instance_events := db_instance_events d; db_credits := db_credits d; db_credit_ledger := db_credit_ledger d; db_ssh_keys := m; db_node_tokens := db_node_tokens d; db_teams := db_teams d; db_team_members := db_team_members d |}.
Definition set_node_tokens m d := {| db_users := db_users d; db_sessions := db_sessions d; db_zones := db_zones d; db_nodes := db_nodes d; db_gpu_slots := db_gpu_slots d; db_instances := db_instances d; db_instance_events := db_instance_events d; db_credits := db_credits d; db_credit_ledger := db_credit_ledger d; db_ssh_keys := db_ssh_keys d; db_node_tokens := m; db_teams := db_teams d; db_team_members := db_team_members d |}.
Definition set_teams m d := {| db_users := db_users d; db_sessions := db_sessions d; db_zones := db_zones d; db_nodes := db_nodes d; db_gpu_slots := db_gpu_slots d; db_instances := db_instances d; db_instance_events := db_instance_events d; db_credits := db_credits d; db_credit_ledger := db_credit_ledger d; db_ssh_keys := db_ssh_keys d; db_node_tokens := db_node_tokens d; db_teams := m; db_team_members := db_team_members d |}.
Definition set_team_members m d := {| db_users := db_users d; db_sessions := db_sessions d; db_zones := db_zones d; db_nodes := db_nodes d; db_gpu_slots := db_gpu_slots d; db_instances := db_instances d; db_instance_events := db_instance_events d; db_credits := db_credits d; db_credit_ledger := db_credit_ledger d; db_ssh_keys := db_ssh_keys d; db_node_tokens := db_node_tokens d; db_teams := db_teams d; db_team_members := m |}.

(** ** Statements and round trips *)

(** [pgx.ErrNoRows], and the SQLSTATE classes the tables raise. *)
Definition ErrNoRows : error := Sentinel "no rows in result set".
Definition UniqueViolation (constr : string) : error := ErrSQL "23505" constr.
Definition ForeignKeyViolation (constr : string) : error := ErrSQL "23503" constr.
Definition CheckViolation (constr : string) : error := ErrSQL "23514" constr.
Definition NumericOutOfRange : error := ErrSQL "22003" "bigint out of range".
Definition InvalidText : error := ErrSQL "22P02" "invalid input value for enum".

(** What the server adds to a statement: [now()], a draw of
    [gen_random_uuid()] and a sequence value. *)
Record Env := { env_now : Time; env_uuid : UUID; env_seq : N }.

(** A statement: reads the tables, returns rows or a constraint error; on an
    error the tables are those before it. *)
Definition Stmt (A : Type) : Type := Env -> DB -> result A * DB.

(** The fate of one round trip to the server. *)
Inductive fault :=
  | Served
  | Refused (e : error)     (* never executed *)
  | Lost (e : error).       (* executed, but the answer was lost *)

(** The server with the fates of the round trips to come (after them, every
    round trip is served), its clock and its random source. *)
Record Pg := {
  pg_db : DB;
  pg_faults : list fault;
  pg_now : Time;
  pg_rand : nat -> UUID;
  pg_calls : nat
}.

Definition env_of (s : Pg) : Env :=
  {| env_now := pg_now s; env_uuid := pg_rand s (pg_calls s); env_seq := N.of_nat (pg_calls s) |}.

Definition next_fault (s : Pg) : fault := default Served (head (pg_faults s)).

(** One round trip later. *)
Definition tick (d : DB) (s : Pg) : Pg :=
  {| pg_db := d; pg_faults := tail (pg_faults s); pg_now := pg_now s;
     pg_rand := pg_rand s; pg_calls := S (pg_calls s) |}.

Definition set_pg_db (d : DB) (s : Pg) : Pg :=
  {| pg_db := d; pg_faults := pg_faults s; pg_now := pg_now s;
     pg_rand := pg_rand s; pg_calls := pg_calls s |}.

Definition exec {A} (q : Stmt A) : ST Pg (result A) := fun s =>
  let '(r, d) := q (env_of s) (pg_db s) in
  match next_fault s with
  | Served => (r, tick d s)
  | Refused e => (Err e, tick (pg_db s) s)
  | Lost e => (Err e, tick d s)
  end.

(** [BeginTx]. *)
Definition begin_tx : ST Pg (result unit) := exec (fun _ d => (Ok tt, d)).

(** [Commit] of a transaction that began on the tables [d0]: when it is
    refused the transaction is gone, when its answer is lost it happened. *)
Definition commit_tx {A} (d0 : DB) (a : A) : ST Pg (result A) := fun s =>
  match next_fault s with
  | Served => (Ok a, tick (pg_db s) s)
  | Refused e => (Err e, tick d0 s)
  | Lost e => (Err e, tick (pg_db s) s)
  end.

(** [inTx] of the instance, slot and credit repositories: begin, run the
    body, commit; the deferred [Rollback] undoes everything when the body or
    the commit failed. *)
Definition inTx {A} (fn : ST Pg (result A)) : ST Pg (result A) := fun s =>
  (_ <-? wrapErr "begin tx: " begin_tx ;;
   r <- fn ;;
   match r with
   | Err e => fun s2 => (Err e, set_pg_db (pg_db s) s2)
   | Ok a => commit_tx (pg_db s) a
   end)%go s.

(** ** Laws *)

(** A statement keeps a property of the tables. *)
Definition keeps {A} (I : DB -> Prop) (q : Stmt A) : Prop :=
  forall e d, I d -> I (q e d).2.

Definition on_db (I : DB -> Prop) (s : Pg) : Prop := I (pg_db s).

(** No round trip to come fails. *)
Definition clean (s : Pg) : Prop := pg_faults s = [].

(** Round trips may be refused, but no answer is lost. *)
Definition not_lost (f : fault) : bool := match f with Lost _ => false | _ => true end.
Definition answered (s : Pg) : Prop := Forall (fun f => not_lost f = true) (pg_faults s).

Section laws.
Context {A : Type}.
Implicit Types (I : DB -> Prop) (q : Stmt A) (s : Pg).

Lemma exec_Ok q s a s' :
  exec q s = (Ok a, s') ->
  q (env_of s) (pg_db s) = (Ok a, pg_db s') /\ s' = tick (pg_db s') s.
Proof.
  unfold exec. destruct (q _ _) as [r d]. destruct (next_fault s);
    intros [= <- <-]; done.
Qed.

Lemma exec_keeps I q : keeps I q -> preserves (on_db I) (exec q).
Proof.
  intros Hk s Hs. unfold exec. specialize (Hk (env_of s) (pg_db s) Hs).
  destruct (q _ _) as [r d]. destruct (next_fault s); done.
Qed.

Lemma exec_clean q s :
  clean s ->
  exec q s = ((q (env_of s) (pg_db s)).1, tick (q (env_of s) (pg_db s)).2 s).
Proof.
  unfold clean, exec, next_fault. intros ->. by destruct (q _ _).
Qed.

Lemma tick_clean d s : clean s -> clean (tick d s).
Proof. unfold clean. simpl. by intros ->. Qed.

Lemma exec_clean_after q s : clean s -> clean (exec q s).2.
Proof. intros Hs. rewrite exec_clean by done. by apply tick_clean. Qed.

(** The body of a transaction commits, or the tables are the old ones. *)
Lemma inTx_cases (fn : ST Pg (result A)) s :
  (exists s1 s2 a, pg_db s1 = pg_db s /\ fn s1 = (Ok a, s2) /\
     pg_db (inTx fn s).2 = pg_db s2 /\
     ((inTx fn s).1 = Ok a \/ exists e, (inTx fn s).1 = Err e)) \/
  (pg_db (inTx fn s).2 = pg_db s /\ exists e, (inTx fn s).1 = Err e).
Proof.
  unfold inTx, bindR, bind, wrapErr, begin_tx, exec, ret, bind.
  destruct (next_fault s) eqn:Hf.
  - destruct (fn (tick (pg_db s) s)) as [[a|e] s2] eqn:Hb; simpl.
    + unfold commit_tx. destruct (next_fault s2); simpl.
      * left. exists (tick (pg_db s) s), s2, a. eauto.
      * right. eauto.
      * left. exists (tick (pg_db s) s), s2, a. eauto 7.
    + right. simpl. eauto.
  - right. simpl. eauto.
  - right. simpl. eauto.
Qed.

Lemma inTx_Ok (fn : ST Pg (result A)) s a s' :
  inTx fn s = (Ok a, s') ->
  exists s2, fn (tick (pg_db s) s) = (Ok a, s2) /\ s' = tick (pg_db s2) s2.
Proof.
  unfold inTx, bindR, bind, wrapErr, begin_tx, exec, ret, bind.
  destruct (next_fault s); [|done..].
  destruct (fn (tick (pg_db s) s)) as [[b|e] s2]; [|done].
  unfold commit_tx. destruct (next_fault s2); [|done..].
  intros [= -> <-]. eauto.
Qed.

(** A transaction whose body, run on tables satisfying [I], succeeds only on
    tables satisfying [I] keeps [I] whatever happens to its round trips. *)
Lemma inTx_preserves I (fn : ST Pg (result A)) :
  (forall s a s', on_db I s -> fn s = (Ok a, s') -> on_db I s') ->
  preserves (on_db I) (inTx fn).
Proof.
  intros Hfn s Hs. destruct (inTx_cases fn s) as [(s1 & s2 & a & Hd & Hb & Hd2 & _)|[Hd _]].
  - unfold on_db. rewrite Hd2. apply (Hfn s1 a); [|done]. unfold on_db. by rewrite Hd.
  - unfold on_db. by rewrite Hd.
Qed.

Lemma inTx_body_preserves I (fn : ST Pg (result A)) :
  preserves (on_db I) fn -> preserves (on_db I) (inTx fn).
Proof.
  intros Hfn. apply inTx_preserves. intros s a s' Hs Hb.
  specialize (Hfn s Hs). by rewrite Hb in Hfn.
Qed.

Lemma inTx_clean (fn : ST Pg (result A)) s :
  clean s -> (forall s0, clean s0 -> clean (fn s0).2) ->
  inTx fn s =
  let '(r, s2) := fn (tick (pg_db s) s) in
  match r with
  | Ok a => (Ok a, tick (pg_db s2) s2)
  | Err e => (Err e, set_pg_db (pg_db s) s2)
  end.
Proof.
  intros Hs Hfn. unfold inTx, bindR, bind, wrapErr, begin_tx, exec, ret, bind.
  specialize (Hfn (tick (pg_db s) s) (tick_clean _ _ Hs)).
  unfold clean, next_fault in *. rewrite Hs. simpl.
  destruct (fn (tick (pg_db s) s)) as [[a|e] s2]; [|done].
  unfold commit_tx, next_fault. simpl in Hfn. by rewrite Hfn.
Qed.
End laws.

(** The fates to come after a computation are those left of the fates before,
    so a computation over answered round trips stays answered. *)
Definition uses_suffix {A} (m : ST Pg A) : Prop :=
  forall s, exists n, pg_faults (m s).2 = drop n (pg_faults s).

Lemma uses_suffix_answered {A} (m : ST Pg A) s :
  uses_suffix m -> answered s -> answered (m s).2.
Proof.
  intros Hm Hs. destruct (Hm s) as [n Hn]. unfold answered. rewrite Hn.
  by apply Forall_drop.
Qed.

Lemma uses_suffix_clean {A} (m : ST Pg A) s :
  uses_suffix m -> clean s -> clean (m s).2.
Proof.
  intros Hm Hs. destruct (Hm s) as [n Hn]. unfold clean in *. rewrite Hn, Hs.
  apply drop_nil.
Qed.

Lemma uses_suffix_ret {A} (a : A) : uses_suffix (ret a).
Proof. intros s. by exists 0. Qed.

Lemma uses_suffix_exec {A} (q : Stmt A) : uses_suffix (exec q).
Proof.
  intros s. exists 1. unfold exec. destruct (q _ _) as [r d].
  destruct (next_fault s); simpl; by destruct (pg_faults s).
Qed.

Lemma uses_suffix_bind {A B} (m : ST Pg A) (k : A -> ST Pg B) :
  uses_suffix m -> (forall a, uses_suffix (k a)) -> uses_suffix (bind m k).
Proof.
  intros Hm Hk s. destruct (Hm s) as [n Hn]. unfold bind.
  destruct (m s) as [a s1]. destruct (Hk a s1) as [n' Hn'].
  exists (n + n'). rewrite Hn'. simpl in Hn. by rewrite Hn, drop_drop.
Qed.

Lemma uses_suffix_bindR {A B} (m : ST Pg (result A)) (k : A -> ST Pg (result B)) :
  uses_suffix m -> (forall a, uses_suffix (k a)) -> uses_suffix (bindR m k).
Proof.
  intros Hm Hk. apply uses_suffix_bind; [done|]. intros [a|e]; [done|].
  apply uses_suffix_ret.
Qed.

Lemma uses_suffix_wrapErr {A} pre (m : ST Pg (result A)) :
  uses_suffix m -> uses_suffix (wrapErr pre m).
Proof. intros Hm. apply uses_suffix_bind; [done|]. intros; apply uses_suffix_ret. Qed.

Lemma uses_suffix_forRangeR {A} (l : list A) body :
  (forall x, uses_suffix (body x)) -> uses_suffix (forRangeR l body).
Proof.
  intros Hb. induction l as [|x l IH]; [apply uses_suffix_ret|].
  by apply uses_suffix_bindR.
Qed.

Lemma uses_suffix_commit {A} d0 (a : A) : uses_suffix (commit_tx d0 a).
Proof.
  intros s. exists 1. unfold commit_tx.
  destruct (next_fault s); simpl; by destruct (pg_faults s).
Qed.

Lemma uses_suffix_inTx {A} (fn : ST Pg (result A)) :
  uses_suffix fn -> uses_suffix (inTx fn).
Proof.
  intros Hfn s. unfold inTx. generalize (pg_db s) as d0. intros d0.
  refine (uses_suffix_bindR (wrapErr "begin tx: " begin_tx) (fun _ => bind fn _) _ _ s).
  - apply uses_suffix_wrapErr, uses_suffix_exec.
  - intros _. apply uses_suffix_bind; [done|]. intros [a|e].
    + apply uses_suffix_commit.
    + intros s2. by exists 0.
Qed.

(** A statement changes nothing when it fails. *)
Definition no_partial {A} (q : Stmt A) : Prop :=
  forall e d err, (q e d).1 = Err err -> (q e d).2 = d.

Lemma exec_Err {A} (q : Stmt A) s e :
  no_partial q -> answered s -> (exec q s).1 = Err e -> pg_db (exec q s).2 = pg_db s.
Proof.
  intros Hq Ha. unfold exec, answered, next_fault in *.
  specialize (Hq (env_of s) (pg_db s)). destruct (q _ _) as [r d]. simpl in Hq.
  destruct Ha as [|[| |] ? Hf]; simpl; [apply Hq|apply Hq|done|done].
Qed.

(** Every answered transaction is atomic: an error means nothing happened. *)
Lemma inTx_atomic {A} (fn : ST Pg (result A)) s e :
  uses_suffix fn -> answered s -> (inTx fn s).1 = Err e ->
  pg_db (inTx fn s).2 = pg_db s.
Proof.
  intros Hfn Hs. unfold inTx, bindR, bind, wrapErr, begin_tx, exec, ret, bind.
  destruct (next_fault s) eqn:Hf; [|done..].
  assert (answered (tick (pg_db s) s)) as Ht.
  { unfold answered in *. simpl. destruct Hs; simpl; [done|]. done. }
  pose proof (uses_suffix_answered fn _ Hfn Ht) as Ha.
  destruct (fn (tick (pg_db s) s)) as [[a|e'] s2]; simpl in *; [|done].
  unfold commit_tx, next_fault. destruct (pg_faults s2) as [|[| |] ?] eqn:Hf2;
    simpl; try done. intros _. unfold answered in Ha. rewrite Hf2 in Ha.
  by inversion Ha.
Qed.

Ltac suffix_step :=
  match goal with
  | |- uses_suffix (bind _ _) => apply uses_suffix_bind; [|intros ?]
  | |- uses_suffix (bindR _ _) => apply uses_suffix_bindR; [|intros ?]
  | |- uses_suffix (wrapErr _ _) => apply uses_suffix_wrapErr
  | |- uses_suffix (forRangeR _ _) => apply uses_suffix_forRangeR; intros ?
  | |- uses_suffix (inTx _) => apply uses_suffix_inTx
  | |- uses_suffix (exec _) => apply uses_suffix_exec
  | |- uses_suffix (ret _) => apply uses_suffix_ret
  | |- uses_suffix (match ?x with _ => _ end) => destruct x
  | |- uses_suffix (let _ := _ in _) => cbv zeta
  end.
Ltac solve_suffix := repeat suffix_step.

(** Success of a computation, inverted through its control structure. *)
Lemma bindR_Ok {S A B} (m : ST S (result A)) (k : A -> ST S (result B)) s b s' :
  bindR m k s = (Ok b, s') ->
  exists a s1, m s = (Ok a, s1) /\ k a s1 = (Ok b, s').
Proof.
  unfold bindR, bind. destruct (m s) as [[a|e] s1]; [|done]. eauto.
Qed.

Lemma wrapErr_Ok {S A} pre (m : ST S (result A)) s a s' :
  wrapErr pre m s = (Ok a, s') -> m s = (Ok a, s').
Proof.
  unfold wrapErr, bind, ret. destruct (m s) as [[b|e] s1]; [|done].
  by intros [= -> ->].
Qed.

Ltac inv_ok :=
  repeat match goal with
  | H : bindR _ _ _ = (Ok _, _) |- _ =>
      apply bindR_Ok in H; let a := fresh "a" in let s := fresh "s" in
      let H1 := fresh "Hok" in destruct H as (a & s & H1 & H)
  | H : wrapErr _ _ _ = (Ok _, _) |- _ => apply wrapErr_Ok in H
  | H : exec _ _ = (Ok _, _) |- _ =>
      apply exec_Ok in H; let H' := fresh "Hst" in destruct H as [H H']
  | H : ret (Ok _) _ = (Ok _, _) |- _ => unfold ret in H; injection H as ? ?; subst
  | H : ret (Err _) _ = (Ok _, _) |- _ => discriminate H
  end.

#[export] Hint Resolve exec_keeps : pres.
