(* ===== verification/Queries.v ===== *)
(** * The SQL statements (internal/db/queries, internal/db/dbstore)

    One statement of [Db.Stmt] per query of dbstore/*.sql.go that the modelled
    code runs, with the constraint errors of db/migrations.  Row order is what
    the query's ORDER BY asks for; where it asks for nothing, the scan order
    of the table.  The order of texts is the database's collation, a
    parameter. *)

From S2P Require Import Prelude GoStrings Proto Db.

#[local] Open Scope string_scope.

(** The collation of the database: a total order on texts. *)
Class Collation := {
  coll_leb : string -> string -> bool;
  coll_total a b : coll_leb a b = true \/ coll_leb b a = true;
  coll_trans a b c : coll_leb a b = true -> coll_leb b c = true -> coll_leb a c = true;
  coll_antisymm a b : coll_leb a b = true -> coll_leb b a = true -> a = b
}.

(** The "C" collation compares bytes. *)
Definition C_collation : Collation := {|
  coll_leb := str_leb;
  coll_total a b := total str_le a b;
  coll_trans a b c := @transitivity string str_le _ a b c;
  coll_antisymm a b := @anti_symm string eq str_le _ a b
|}.

(** ORDER BY a boolean comparison. *)
Definition leb_rel {A} (leb : A -> A -> bool) : relation A := fun a b => leb a b = true.
#[export] Instance leb_rel_dec {A} (leb : A -> A -> bool) : RelDecision (leb_rel leb).
Proof. intros a b. unfold leb_rel. apply _. Defined.

Definition order_by {A} (leb : A -> A -> bool) (l : list A) : list A :=
  merge_sort (leb_rel leb) l.

(** ORDER BY a timestamp DESC. *)
Definition newest_first {A} (at_ : A -> Time) (a b : A) : bool := (at_ b <=? at_ a)%Z.

Definition query {A} (f : DB -> A) : Stmt A := fun _ d => (Ok (f d), d).
Definition query_one {A} (f : DB -> option A) : Stmt A :=
  fun _ d => match f d with Some a => (Ok a, d) | None => (Err ErrNoRows, d) end.

(** [int64] and [int32] ranges of bigint and integer columns. *)
Definition is_int64 (z : Z) : bool := (- 2 ^ 63 <=? z)%Z && (z <? 2 ^ 63)%Z.

(** ** instances.sql *)

Record CreateInstanceParams := {
  cip_OwnerID : option UUID;
  cip_NodeID : UUID;
  cip_Name : string;
  cip_MemoryMb : Z;
  cip_Vcpus : Z;
  cip_GpuCount : Z;
  cip_SlotIndices : list Z;
  cip_SshPubkeys : list string;
  cip_ImageRef : string
}.

Definition new_instance (env : Env) (arg : CreateInstanceParams) : InstanceRow :=
  {| in_ID := env_uuid env; in_OwnerID := cip_OwnerID arg; in_NodeID := cip_NodeID arg;
     in_Name := cip_Name arg; in_State := InstanceStatePending;
     in_MemoryMb := cip_MemoryMb arg; in_Vcpus := cip_Vcpus arg;
     in_GpuCount := cip_GpuCount arg; in_SlotIndices := cip_SlotIndices arg;
     in_SshPubkeys := cip_SshPubkeys arg; in_VmInternalIp := None;
     in_ImageRef := cip_ImageRef arg; in_ErrorMessage := "";
     in_CreatedAt := env_now env; in_UpdatedAt := env_now env |}.

(** The foreign key of a nullable column. *)
Definition fk_ok {V} (k : option UUID) (m : gmap UUID V) : bool :=
  match k with None => true | Some i => bool_decide (is_Some (m !! i)) end.

Definition createInstance (arg : CreateInstanceParams) : Stmt InstanceRow := fun env d =>
  let row := new_instance env arg in
  if negb (0 <? cip_MemoryMb arg)%Z then (Err (CheckViolation "instances_memory_mb_check"), d)
  else if negb (0 <? cip_Vcpus arg)%Z then (Err (CheckViolation "instances_vcpus_check"), d)
  else if negb (0 <=? cip_GpuCount arg)%Z then (Err (CheckViolation "instances_gpu_count_check"), d)
  else if fk_ok (Some (in_ID row)) (db_instances d) then (Err (UniqueViolation "instances_pkey"), d)
  else if negb (fk_ok (cip_OwnerID arg) (db_users d)) then
    (Err (ForeignKeyViolation "instances_owner_id_fkey"), d)
  else if negb (fk_ok (Some (cip_NodeID arg)) (db_nodes d)) then
    (Err (ForeignKeyViolation "instances_node_id_fkey"), d)
  else (Ok row, set_instances (<[in_ID row := row]> (db_instances d)) d).

Definition getInstance (id : UUID) : Stmt InstanceRow :=
  query_one (fun d => db_instances d !! id).

Definition unlink_slot (id : UUID) (s : GpuSlot) : GpuSlot :=
  {| gs_ID := gs_ID s; gs_NodeID := gs_NodeID s; gs_SlotIndex := gs_SlotIndex s;
     gs_GpuCount := gs_GpuCount s; gs_GpuIndices := gs_GpuIndices s;
     gs_NvlinkDomain := gs_NvlinkDomain s; gs_Status := gs_Status s;
     gs_CurrentInstanceID := None |}.

Definition slot_of_instance (id : UUID) (s : GpuSlot) : bool :=
  bool_decide (gs_CurrentInstanceID s = Some id).

(** The row goes with its events (ON DELETE CASCADE); slots that point to it
    lose the pointer and nothing else (ON DELETE SET NULL); the ledger's
    instance_id is a soft reference. *)
Definition deleteInstance (id : UUID) : Stmt unit := fun _ d =>
  match db_instances d !! id with
  | None => (Ok tt, d)
  | Some _ =>
      (Ok tt,
       set_instances (delete id (db_instances d))
         (set_instance_events (filter (fun e => ev_InstanceID e <> id) (db_instance_events d))
            (set_gpu_slots (update_where (slot_of_instance id) (unlink_slot id) (db_gpu_slots d)) d)))
  end.

Record InsertInstanceEventParams := {
  iep_InstanceID : UUID;
  iep_FromState : option InstanceState;
  iep_ToState : InstanceState;
  iep_Reason : string;
  iep_Metadata : string
}.

Definition new_event (env : Env) (arg : InsertInstanceEventParams) : InstanceEvent :=
  {| ev_ID := env_seq env; ev_InstanceID := iep_InstanceID arg;
     ev_FromState := iep_FromState arg; ev_ToState := iep_ToState arg;
     ev_Reason := iep_Reason arg; ev_Metadata := iep_Metadata arg;
     ev_CreatedAt := env_now env |}.

Definition insertInstanceEvent (arg : InsertInstanceEventParams) : Stmt unit := fun env d =>
  if negb (is_instance_state (iep_ToState arg)) then (Err InvalidText, d)
  else if negb (match iep_FromState arg with Some f => is_instance_state f | None => true end)
  then (Err InvalidText, d)
  else if negb (fk_ok (Some (iep_InstanceID arg)) (db_instances d)) then
    (Err (ForeignKeyViolation "instance_events_instance_id_fkey"), d)
  else (Ok tt, set_instance_events (db_instance_events d ++ [new_event env arg]) d).

Definition instances_of (ownerID : option UUID) (d : DB) : list InstanceRow :=
  order_by (newest_first in_CreatedAt)
    (List.filter (fun i => match ownerID with
                           | None => true
                           | Some o => bool_decide (in_OwnerID i = Some o)
                           end) (rows (db_instances d))).

Definition listInstances (ownerID : option UUID) : Stmt (list InstanceRow) :=
  query (instances_of ownerID).

Record UpdateInstanceStateParams := {
  usp_ID : UUID;
  usp_State : InstanceState;
  usp_ErrorMessage : option string;
  usp_VmInternalIp : option Addr
}.

Definition with_state (env : Env) (arg : UpdateInstanceStateParams) (i : InstanceRow) : InstanceRow :=
  {| in_ID := in_ID i; in_OwnerID := in_OwnerID i; in_NodeID := in_NodeID i;
     in_Name := in_Name i; in_State := usp_State arg; in_MemoryMb := in_MemoryMb i;
     in_Vcpus := in_Vcpus i; in_GpuCount := in_GpuCount i;
     in_SlotIndices := in_SlotIndices i; in_SshPubkeys := in_SshPubkeys i;
     in_VmInternalIp := match usp_VmInternalIp arg with Some a => Some a | None => in_VmInternalIp i end;
     in_ImageRef := in_ImageRef i;
     in_ErrorMessage := default (in_ErrorMessage i) (usp_ErrorMessage arg);
     in_CreatedAt := in_CreatedAt i; in_UpdatedAt := env_now env |}.

Definition updateInstanceState (arg : UpdateInstanceStateParams) : Stmt InstanceRow := fun env d =>
  if negb (is_instance_state (usp_State arg)) then (Err InvalidText, d)
  else match db_instances d !! usp_ID arg with
       | None => (Err ErrNoRows, d)
       | Some i => (Ok (with_state env arg i),
                    set_instances (<[usp_ID arg := with_state env arg i]> (db_instances d)) d)
       end.

(** ** slots.sql *)

Definition slot_with (st : SlotStatus) (inst : option UUID) (s : GpuSlot) : GpuSlot :=
  {| gs_ID := gs_ID s; gs_NodeID := gs_NodeID s; gs_SlotIndex := gs_SlotIndex s;
     gs_GpuCount := gs_GpuCount s; gs_GpuIndices := gs_GpuIndices s;
     gs_NvlinkDomain := gs_NvlinkDomain s; gs_Status := st; gs_CurrentInstanceID := inst |}.

Definition bindSlotToInstance (id : UUID) (inst : option UUID) : Stmt GpuSlot := fun _ d =>
  match db_gpu_slots d !! id with
  | Some s =>
      if decide (gs_Status s = SlotStatusReserved) then
        if fk_ok inst (db_instances d) then
          let s' := slot_with SlotStatusInUse inst s in
          (Ok s', set_gpu_slots (<[id := s']> (db_gpu_slots d)) d)
        else (Err (ForeignKeyViolation "gpu_slots_current_instance_fkey"), d)
      else (Err ErrNoRows, d)
  | None => (Err ErrNoRows, d)
  end.

Definition countNonFreeSlotsForNode (node : UUID) : Stmt Z :=
  query (fun d => count_where (fun s => bool_decide (gs_NodeID s = node /\ gs_Status s <> SlotStatusFree))
                              (db_gpu_slots d)).

Definition deleteSlotsForNode (node : UUID) : Stmt Z := fun _ d =>
  (Ok (count_where (fun s => bool_decide (gs_NodeID s = node)) (db_gpu_slots d)),
   set_gpu_slots (filter (fun kv => gs_NodeID kv.2 <> node) (db_gpu_slots d)) d).

(** [GpuIndices] is a Go slice: a nil slice is sent as NULL. *)
Record InsertSlotParams := {
  isp_NodeID : UUID;
  isp_SlotIndex : Z;
  isp_GpuCount : Z;
  isp_GpuIndices : option (list Z);
  isp_NvlinkDomain : string
}.

Definition new_slot (env : Env) (arg : InsertSlotParams) (indices : list Z) : GpuSlot :=
  {| gs_ID := env_uuid env; gs_NodeID := isp_NodeID arg; gs_SlotIndex := isp_SlotIndex arg;
     gs_GpuCount := isp_GpuCount arg; gs_GpuIndices := indices;
     gs_NvlinkDomain := isp_NvlinkDomain arg; gs_Status := SlotStatusFree;
     gs_CurrentInstanceID := None |}.

Definition insertSlot (arg : InsertSlotParams) : Stmt GpuSlot := fun env d =>
  match isp_GpuIndices arg with
  | None => (Err (ErrSQL "23502" "gpu_indices"), d)
  | Some indices =>
      if negb (0 <? isp_GpuCount arg)%Z then (Err (CheckViolation "gpu_slots_gpu_count_check"), d)
      else if fk_ok (Some (env_uuid env)) (db_gpu_slots d) then (Err (UniqueViolation "gpu_slots_pkey"), d)
      else if exists_row (fun s => bool_decide (gs_NodeID s = isp_NodeID arg /\
                                                gs_SlotIndex s = isp_SlotIndex arg)) (db_gpu_slots d)
      then (Err (UniqueViolation "gpu_slots_node_id_slot_index_key"), d)
      else if negb (fk_ok (Some (isp_NodeID arg)) (db_nodes d)) then
        (Err (ForeignKeyViolation "gpu_slots_node_id_fkey"), d)
      else let s := new_slot env arg indices in
           (Ok s, set_gpu_slots (<[gs_ID s := s]> (db_gpu_slots d)) d)
  end.

(** The advisory lock: it orders transactions and touches no table. *)
Definition lockNodeForReservation (key : string) : Stmt unit := query (fun _ => tt).

Definition orphan_reserved (s : GpuSlot) : bool :=
  bool_decide (gs_Status s = SlotStatusReserved /\ gs_CurrentInstanceID s = None).

Definition releaseAllOrphanReservedSlots : Stmt Z := fun _ d =>
  (Ok (count_where orphan_reserved (db_gpu_slots d)),
   set_gpu_slots (update_where orphan_reserved (slot_with SlotStatusFree None) (db_gpu_slots d)) d).

Definition reserved_in (ids : list UUID) (s : GpuSlot) : bool :=
  bool_decide (gs_ID s ∈ ids /\ gs_Status s = SlotStatusReserved).

Definition releaseReservedSlots (ids : list UUID) : Stmt Z := fun _ d =>
  (Ok (count_where (reserved_in ids) (db_gpu_slots d)),
   set_gpu_slots (update_where (reserved_in ids) (slot_with SlotStatusFree None) (db_gpu_slots d)) d).

Definition releaseSlotsForInstance (inst : UUID) : Stmt Z := fun _ d =>
  (Ok (count_where (slot_of_instance inst) (db_gpu_slots d)),
   set_gpu_slots (update_where (slot_of_instance inst) (slot_with SlotStatusFree None) (db_gpu_slots d)) d).

Section reserve.
Context `{Collation}.

(** order by (case when nvlink_domain <> '' then 0 else 1 end),
    nvlink_domain, slot_index *)
Definition slot_leb (a b : GpuSlot) : bool :=
  let rank s := if String.eqb (gs_NvlinkDomain s) "" then 1%Z else 0%Z in
  if (rank a <? rank b)%Z then true
  else if (rank b <? rank a)%Z then false
  else if String.eqb (gs_NvlinkDomain a) (gs_NvlinkDomain b)
       then (gs_SlotIndex a <=? gs_SlotIndex b)%Z
       else coll_leb (gs_NvlinkDomain a) (gs_NvlinkDomain b).

Definition free_slot (node : UUID) (size : Z) (s : GpuSlot) : bool :=
  bool_decide (gs_NodeID s = node /\ gs_Status s = SlotStatusFree /\ gs_GpuCount s = size).

Definition pick_slots (node : UUID) (size limit : Z) (m : gmap UUID GpuSlot) : list GpuSlot :=
  take (Z.to_nat limit) (order_by slot_leb (List.filter (free_slot node size) (rows m))).

Definition reserve_slot (s : GpuSlot) : GpuSlot :=
  slot_with SlotStatusReserved (gs_CurrentInstanceID s) s.

Definition reserveFreeSlots (node : UUID) (size limit : Z) : Stmt (list GpuSlot) := fun _ d =>
  let picked := pick_slots node size limit (db_gpu_slots d) in
  (Ok (reserve_slot <$> picked),
   set_gpu_slots (update_where (fun s => bool_decide (gs_ID s ∈ gs_ID <$> picked)) reserve_slot
                               (db_gpu_slots d)) d).
End reserve.

Definition set_profile_hash (env : Env) (h : string) (n : Node) : Node :=
  {| nd_ID := nd_ID n; nd_ZoneID := nd_ZoneID n; nd_NodeName := nd_NodeName n;
     nd_Hostname := nd_Hostname n; nd_AgentVersion := nd_AgentVersion n;
     nd_Status := nd_Status n; nd_TopologyJson := nd_TopologyJson n; nd_ProfileHash := h;
     nd_LastHeartbeatAt := nd_LastHeartbeatAt n; nd_RegisteredAt := nd_RegisteredAt n;
     nd_UpdatedAt := env_now env; nd_AccessPolicy := nd_AccessPolicy n;
     nd_OwnerTeamID := nd_OwnerTeamID n; nd_LastDataPlaneAt := nd_LastDataPlaneAt n;
     nd_NodeState := nd_NodeState n |}.

Definition updateNodeProfileHash (id : UUID) (h : string) : Stmt unit := fun env d =>
  (Ok tt, set_nodes (alter (set_profile_hash env h) id (db_nodes d)) d).

(** ** nodes.sql *)

Record UpsertNodeParams := {
  unp_ZoneID : UUID;
  unp_NodeName : string;
  unp_Hostname : string;
  unp_AgentVersion : string;
  unp_TopologyJson : string
}.

Definition new_node (env : Env) (arg : UpsertNodeParams) : Node :=
  {| nd_ID := env_uuid env; nd_ZoneID := unp_ZoneID arg; nd_NodeName := unp_NodeName arg;
     nd_Hostname := unp_Hostname arg; nd_AgentVersion := unp_AgentVersion arg;
     nd_Status := NodeStatusOnline; nd_TopologyJson := unp_TopologyJson arg;
     nd_ProfileHash := ""; nd_LastHeartbeatAt := Some (env_now env);
     nd_RegisteredAt := env_now env; nd_UpdatedAt := env_now env;
     nd_AccessPolicy := "public"; nd_OwnerTeamID := None; nd_LastDataPlaneAt := None;
     nd_NodeState := "online" |}.

Definition refresh_node (env : Env) (arg : UpsertNodeParams) (n : Node) : Node :=
  {| nd_ID := nd_ID n; nd_ZoneID := nd_ZoneID n; nd_NodeName := nd_NodeName n;
     nd_Hostname := unp_Hostname arg; nd_AgentVersion := unp_AgentVersion arg;
     nd_Status := NodeStatusOnline; nd_TopologyJson := unp_TopologyJson arg;
     nd_ProfileHash := nd_ProfileHash n; nd_LastHeartbeatAt := Some (env_now env);
     nd_RegisteredAt := nd_RegisteredAt n; nd_UpdatedAt := env_now env;
     nd_AccessPolicy := nd_AccessPolicy n; nd_OwnerTeamID := nd_OwnerTeamID n;
     nd_LastDataPlaneAt := nd_LastDataPlaneAt n; nd_NodeState := nd_NodeState n |}.

Definition named (name : string) (n : Node) : bool := String.eqb (nd_NodeName n) name.

(** insert .. on conflict (node_name) do update *)
Definition upsertNode (arg : UpsertNodeParams) : Stmt Node := fun env d =>
  match row_where (named (unp_NodeName arg)) (db_nodes d) with
  | Some n =>
      let n' := refresh_node env arg n in
      (Ok n', set_nodes (<[nd_ID n := n']> (db_nodes d)) d)
  | None =>
      let n := new_node env arg in
      if fk_ok (Some (nd_ID n)) (db_nodes d) then (Err (UniqueViolation "nodes_pkey"), d)
      else if negb (fk_ok (Some (unp_ZoneID arg)) (db_zones d)) then
        (Err (ForeignKeyViolation "nodes_zone_id_fkey"), d)
      else (Ok n, set_nodes (<[nd_ID n := n]> (db_nodes d)) d)
  end.

Definition getNode (id : UUID) : Stmt Node := query_one (fun d => db_nodes d !! id).

Definition getNodeByName (name : string) : Stmt Node :=
  query_one (fun d => row_where (named name) (db_nodes d)).

Definition with_status (env : Env) (st : NodeStatus) (hb : option Time) (n : Node) : Node :=
  {| nd_ID := nd_ID n; nd_ZoneID := nd_ZoneID n; nd_NodeName := nd_NodeName n;
     nd_Hostname := nd_Hostname n; nd_AgentVersion := nd_AgentVersion n;
     nd_Status := st; nd_TopologyJson := nd_TopologyJson n; nd_ProfileHash := nd_ProfileHash n;
     nd_LastHeartbeatAt := hb; nd_RegisteredAt := nd_RegisteredAt n;
     nd_UpdatedAt := env_now env; nd_AccessPolicy := nd_AccessPolicy n;
     nd_OwnerTeamID := nd_OwnerTeamID n; nd_LastDataPlaneAt := nd_LastDataPlaneAt n;
     nd_NodeState := nd_NodeState n |}.

Definition touchNodeHeartbeat (id : UUID) : Stmt unit := fun env d =>
  (Ok tt,
   set_nodes (alter (fun n => with_status env
                (if decide (nd_Status n = NodeStatusOffline) then NodeStatusOnline else nd_Status n)
                (Some (env_now env)) n) id (db_nodes d)) d).

Definition stale (cutoff : Time) (n : Node) : bool :=
  bool_decide (nd_Status n <> NodeStatusOffline) &&
  match nd_LastHeartbeatAt n with None => true | Some t => (t <? cutoff)%Z end.

Definition markStaleNodesOfflineReturning (cutoff : Time) : Stmt (list UUID) := fun env d =>
  (Ok (nd_ID <$> List.filter (stale cutoff) (rows (db_nodes d))),
   set_nodes (update_where (stale cutoff)
                (fun n => with_status env NodeStatusOffline (nd_LastHeartbeatAt n) n) (db_nodes d)) d).

Definition reapable (s : InstanceState) : bool :=
  match s with
  | InstanceStatePending | InstanceStateProvisioning | InstanceStateRunning => true
  | _ => false
  end.

Definition listNonTerminalInstancesForNode (node : UUID) : Stmt (list (UUID * InstanceState)) :=
  query (fun d => (fun i => (in_ID i, in_State i)) <$>
    List.filter (fun i => bool_decide (in_NodeID i = node) && reapable (in_State i))
                (rows (db_instances d))).

Definition getDefaultZone : Stmt Zone :=
  query_one (fun d => row_where zn_IsDefault (db_zones d)).

Section node_lists.
Context `{Collation}.

Definition by_node_name (a b : Node) : bool := coll_leb (nd_NodeName a) (nd_NodeName b).

Definition listNodes : Stmt (list Node) :=
  query (fun d => order_by by_node_name (rows (db_nodes d))).

(** access_policy = 'public' or (access_policy = 'owner_team' and
    owner_team_id is one of the user's teams) *)
Definition node_accessible (d : DB) (user : UUID) (n : Node) : bool :=
  String.eqb (nd_AccessPolicy n) "public" ||
  (String.eqb (nd_AccessPolicy n) "owner_team" &&
   match nd_OwnerTeamID n with
   | Some t => bool_decide (is_Some (db_team_members d !! (t, user)))
   | None => false
   end).

Definition listNodesAccessibleToUser (user : UUID) : Stmt (list Node) :=
  query (fun d => order_by by_node_name (List.filter (node_accessible d user) (rows (db_nodes d)))).
End node_lists.

(** ** credits.sql *)

Record InsertCreditLedgerEntryParams := {
  lep_UserID : UUID;
  lep_DeltaMilli : Z;
  lep_Reason : string;
  lep_InstanceID : option UUID;
  lep_IdempotencyKey : string;
  lep_Metadata : string
}.

Definition new_entry (env : Env) (arg : InsertCreditLedgerEntryParams) : CreditLedger :=
  {| cl_ID := env_seq env; cl_UserID := lep_UserID arg; cl_DeltaMilli := lep_DeltaMilli arg;
     cl_Reason := lep_Reason arg; cl_InstanceID := lep_InstanceID arg;
     cl_IdempotencyKey := lep_IdempotencyKey arg; cl_Metadata := lep_Metadata arg;
     cl_CreatedAt := env_now env |}.

Definition has_key (key : string) (e : CreditLedger) : bool :=
  String.eqb (cl_IdempotencyKey e) key.

Definition insertCreditLedgerEntry (arg : InsertCreditLedgerEntryParams) : Stmt CreditLedger :=
  fun env d =>
  if existsb (has_key (lep_IdempotencyKey arg)) (db_credit_ledger d) then
    (Err (UniqueViolation "credit_ledger_idempotency_key_key"), d)
  else if negb (fk_ok (Some (lep_UserID arg)) (db_users d)) then
    (Err (ForeignKeyViolation "credit_ledger_user_id_fkey"), d)
  else (Ok (new_entry env arg), set_credit_ledger (db_credit_ledger d ++ [new_entry env arg]) d).

(** insert into credits .. on conflict (user_id) do update set balance_milli
    = credits.balance_milli + excluded.balance_milli, a bigint addition. *)
Definition upsertCredits (user : UUID) (delta : Z) : Stmt unit := fun env d =>
  match db_credits d !! user with
  | Some c =>
      let b := (cr_BalanceMilli c + delta)%Z in
      if is_int64 b then
        (Ok tt, set_credits (<[user := {| cr_UserID := user; cr_BalanceMilli := b;
                                         cr_UpdatedAt := env_now env |}]> (db_credits d)) d)
      else (Err NumericOutOfRange, d)
  | None =>
      if negb (fk_ok (Some user) (db_users d)) then
        (Err (ForeignKeyViolation "credits_user_id_fkey"), d)
      else (Ok tt, set_credits (<[user := {| cr_UserID := user; cr_BalanceMilli := delta;
                                             cr_UpdatedAt := env_now env |}]> (db_credits d)) d)
  end.

Definition getCredits (user : UUID) : Stmt Credit :=
  query_one (fun d => db_credits d !! user).

(** order by created_at desc, id desc *)
Definition newer_entry (a b : CreditLedger) : bool :=
  (cl_CreatedAt b <? cl_CreatedAt a)%Z ||
  ((cl_CreatedAt b =? cl_CreatedAt a)%Z && (cl_ID b <=? cl_ID a)%N).

Definition listCreditLedgerEntries (user : UUID) (limit : Z) : Stmt (list CreditLedger) :=
  query (fun d => take (Z.to_nat limit)
    (order_by newer_entry (List.filter (fun e => bool_decide (cl_UserID e = user)) (db_credit_ledger d)))).

Record BillableRow := {
  br_ID : UUID;
  br_OwnerID : option UUID;
  br_GpuCount : Z;
  br_UpdatedAt : Time
}.

Definition billable (i : InstanceRow) : bool :=
  bool_decide (in_State i = InstanceStateRunning /\ is_Some (in_OwnerID i)).

Definition billable_rows (d : DB) : list BillableRow :=
  (fun i => {| br_ID := in_ID i; br_OwnerID := in_OwnerID i;
               br_GpuCount := in_GpuCount i; br_UpdatedAt := in_UpdatedAt i |}) <$>
    List.filter billable (rows (db_instances d)).

Definition listBillableRunningInstances : Stmt (list BillableRow) := query billable_rows.

Definition bankrupt_users (d : DB) : list UUID :=
  cr_UserID <$> List.filter (fun c => (cr_BalanceMilli c <=? 0)%Z) (rows (db_credits d)).

Definition listUsersWithNegativeBalance : Stmt (list UUID) := query bankrupt_users.

(** ** Laws shared by the repositories *)

Lemma fk_ok_Some {V} (i : UUID) (m : gmap UUID V) : fk_ok (Some i) m = true <-> is_Some (m !! i).
Proof. apply bool_decide_eq_true. Qed.

Lemma fk_ok_None_lookup {V} (i : UUID) (m : gmap UUID V) : fk_ok (Some i) m = false <-> m !! i = None.
Proof. unfold fk_ok. rewrite bool_decide_eq_false. by rewrite <- eq_None_not_Some. Qed.

Lemma keeps_query {A} (I : DB -> Prop) (f : DB -> A) : keeps I (query f).
Proof. by intros e d Hd. Qed.

Lemma keeps_query_one {A} (I : DB -> Prop) (f : DB -> option A) : keeps I (query_one f).
Proof. intros e d Hd. unfold query_one. by destruct (f d). Qed.

Lemma query_one_Ok {A} (f : DB -> option A) e d a d' :
  query_one f e d = (Ok a, d') -> f d = Some a /\ d' = d.
Proof. unfold query_one. destruct (f d); [|done]. by intros [= -> ->]. Qed.

#[export] Hint Resolve keeps_query keeps_query_one : pres.

(** Destruct the constraint tests of a statement that succeeded. *)
Ltac inv_stmt H :=
  repeat (case_match; try discriminate H); injection H as ? ?; subst.

Section order.
Context {A : Type}.

Lemma elem_of_order_by (leb : A -> A -> bool) l x : x ∈ order_by leb l <-> x ∈ l.
Proof.
  unfold order_by. by rewrite (merge_sort_Permutation (leb_rel leb) l).
Qed.

Lemma order_by_Permutation (leb : A -> A -> bool) l : order_by leb l ≡ₚ l.
Proof. apply merge_sort_Permutation. Qed.

Lemma order_by_sorted (leb : A -> A -> bool) l :
  (forall a b, leb a b = true \/ leb b a = true) ->
  (forall a b c, leb a b = true -> leb b c = true -> leb a c = true) ->
  StronglySorted (leb_rel leb) (order_by leb l).
Proof.
  intros Htot Htr. apply StronglySorted_merge_sort; [|intros a b; apply Htot].
  intros a b c. apply Htr.
Qed.
End order.

Section slot_order.
Context `{Collation}.

Lemma slot_leb_total a b : slot_leb a b = true \/ slot_leb b a = true.
Proof.
  unfold slot_leb.
  destruct (String.eqb_spec (gs_NvlinkDomain a) (gs_NvlinkDomain b)) as [E|E].
  - rewrite E. rewrite String.eqb_refl, !Z.ltb_irrefl.
    rewrite !Z.leb_le. lia.
  - destruct (String.eqb_spec (gs_NvlinkDomain b) (gs_NvlinkDomain a)); [congruence|].
    destruct (String.eqb (gs_NvlinkDomain a) ""), (String.eqb (gs_NvlinkDomain b) "");
      simpl; auto using coll_total.
Qed.

Lemma slot_leb_trans a b c : slot_leb a b = true -> slot_leb b c = true -> slot_leb a c = true.
Proof.
  unfold slot_leb.
  destruct (String.eqb_spec (gs_NvlinkDomain a) ""), (String.eqb_spec (gs_NvlinkDomain b) ""),
    (String.eqb_spec (gs_NvlinkDomain c) ""); simpl; try done;
  destruct (String.eqb_spec (gs_NvlinkDomain a) (gs_NvlinkDomain b)),
    (String.eqb_spec (gs_NvlinkDomain b) (gs_NvlinkDomain c)),
    (String.eqb_spec (gs_NvlinkDomain a) (gs_NvlinkDomain c)); try congruence;
  rewrite ?Z.leb_le; try lia; intros; eauto using coll_trans.
  exfalso. apply n2. apply coll_antisymm; [done|]. congruence.
Qed.
End slot_order.

(** ** Statements that succeeded, inverted *)

Lemma createInstance_Ok arg e d row d' :
  createInstance arg e d = (Ok row, d') ->
  row = new_instance e arg /\ db_instances d !! in_ID row = None /\
  fk_ok (cip_OwnerID arg) (db_users d) = true /\ is_Some (db_nodes d !! cip_NodeID arg) /\
  d' = set_instances (<[in_ID row := row]> (db_instances d)) d.
Proof.
  unfold createInstance. intros H.
  destruct (fk_ok (Some _) (db_instances d)) eqn:Hk; [by repeat case_match|].
  destruct (fk_ok (cip_OwnerID arg) _) eqn:Ho; [|by repeat case_match].
  destruct (fk_ok (Some (cip_NodeID arg)) _) eqn:Hn; [|by repeat case_match].
  inv_stmt H. apply fk_ok_None_lookup in Hk. by apply fk_ok_Some in Hn.
Qed.

Lemma insertInstanceEvent_Ok arg e d a d' :
  insertInstanceEvent arg e d = (Ok a, d') ->
  d' = set_instance_events (db_instance_events d ++ [new_event e arg])%list d.
Proof. unfold insertInstanceEvent. intros H. by inv_stmt H. Qed.

Lemma updateInstanceState_Ok arg e d row d' :
  updateInstanceState arg e d = (Ok row, d') ->
  exists i, db_instances d !! usp_ID arg = Some i /\ row = with_state e arg i /\
    d' = set_instances (<[usp_ID arg := row]> (db_instances d)) d.
Proof. unfold updateInstanceState. intros H. inv_stmt H. eauto. Qed.

Lemma getInstance_Ok id e d i d' :
  getInstance id e d = (Ok i, d') -> db_instances d !! id = Some i /\ d' = d.
Proof. apply (query_one_Ok (fun d => db_instances d !! id)). Qed.
