(* ===== verification/AccountQueries.v ===== *)
(** * SQL statements on users, sessions, keys, tokens and teams

    The rest of internal/db/dbstore: users.sql.go, ssh_keys.sql.go,
    node_tokens.sql.go, teams.sql.go, admin.sql.go, and the projection of
    nodes.sql.go that agent authentication reads. *)

From S2P Require Import Prelude GoStrings Proto Db Queries.

#[local] Open Scope string_scope.

(** ** users.sql *)

Record CreateUserParams := {
  cup_Email : string;
  cup_PasswordHash : string;
  cup_IsAdmin : bool
}.

Definition new_user (env : Env) (arg : CreateUserParams) : User :=
  {| us_ID := env_uuid env; us_Email := cup_Email arg; us_PasswordHash := cup_PasswordHash arg;
     us_IsAdmin := cup_IsAdmin arg; us_CreatedAt := env_now env; us_UpdatedAt := env_now env |}.

Definition has_email (email : string) (u : User) : bool := String.eqb (us_Email u) email.

Definition createUser (arg : CreateUserParams) : Stmt User := fun env d =>
  if fk_ok (Some (env_uuid env)) (db_users d) then (Err (UniqueViolation "users_pkey"), d)
  else if exists_row (has_email (cup_Email arg)) (db_users d) then
    (Err (UniqueViolation "users_email_key"), d)
  else (Ok (new_user env arg), set_users (<[env_uuid env := new_user env arg]> (db_users d)) d).

Definition getUserByEmail (email : string) : Stmt User :=
  query_one (fun d => row_where (has_email email) (db_users d)).

Definition getUser (id : UUID) : Stmt User := query_one (fun d => db_users d !! id).

Record CreateSessionParams := {
  csp_UserID : UUID;
  csp_TokenHash : string;
  csp_ExpiresAt : Time
}.

Definition new_session (env : Env) (arg : CreateSessionParams) : Session :=
  {| se_ID := env_uuid env; se_UserID := csp_UserID arg; se_TokenHash := csp_TokenHash arg;
     se_ExpiresAt := csp_ExpiresAt arg; se_CreatedAt := env_now env |}.

Definition has_token (hash : string) (s : Session) : bool := String.eqb (se_TokenHash s) hash.

Definition createSession (arg : CreateSessionParams) : Stmt Session := fun env d =>
  if fk_ok (Some (env_uuid env)) (db_sessions d) then (Err (UniqueViolation "sessions_pkey"), d)
  else if exists_row (has_token (csp_TokenHash arg)) (db_sessions d) then
    (Err (UniqueViolation "sessions_token_hash_key"), d)
  else if negb (fk_ok (Some (csp_UserID arg)) (db_users d)) then
    (Err (ForeignKeyViolation "sessions_user_id_fkey"), d)
  else (Ok (new_session env arg),
        set_sessions (<[env_uuid env := new_session env arg]> (db_sessions d)) d).

(** where token_hash = $1 and expires_at > now() *)
Definition getSessionByTokenHash (hash : string) : Stmt Session := fun env d =>
  match row_where (fun s => has_token hash s && (env_now env <? se_ExpiresAt s)%Z) (db_sessions d) with
  | Some s => (Ok s, d)
  | None => (Err ErrNoRows, d)
  end.

Definition deleteSessionByTokenHash (hash : string) : Stmt unit := fun _ d =>
  (Ok tt, set_sessions (filter (fun kv => has_token hash kv.2 = false) (db_sessions d)) d).

Definition deleteExpiredSessions : Stmt Z := fun env d =>
  (Ok (count_where (fun s => (se_ExpiresAt s <=? env_now env)%Z) (db_sessions d)),
   set_sessions (filter (fun kv => (env_now env < se_ExpiresAt kv.2)%Z) (db_sessions d)) d).

(** ** ssh_keys.sql *)

Record CreateSSHKeyParams := {
  ckp_UserID : UUID;
  ckp_Label : string;
  ckp_Pubkey : string;
  ckp_Fingerprint : string
}.

Definition new_key (env : Env) (arg : CreateSSHKeyParams) : SshKey :=
  {| sk_ID := env_uuid env; sk_UserID := ckp_UserID arg; sk_Label := ckp_Label arg;
     sk_Pubkey := ckp_Pubkey arg; sk_Fingerprint := ckp_Fingerprint arg;
     sk_CreatedAt := env_now env |}.

Definition key_of (user : UUID) (fp : string) (k : SshKey) : bool :=
  bool_decide (sk_UserID k = user) && String.eqb (sk_Fingerprint k) fp.

(** unique (user_id, fingerprint) *)
Definition createSSHKey (arg : CreateSSHKeyParams) : Stmt SshKey := fun env d =>
  if fk_ok (Some (env_uuid env)) (db_ssh_keys d) then (Err (UniqueViolation "ssh_keys_pkey"), d)
  else if exists_row (key_of (ckp_UserID arg) (ckp_Fingerprint arg)) (db_ssh_keys d) then
    (Err (UniqueViolation "ssh_keys_user_id_fingerprint_key"), d)
  else if negb (fk_ok (Some (ckp_UserID arg)) (db_users d)) then
    (Err (ForeignKeyViolation "ssh_keys_user_id_fkey"), d)
  else (Ok (new_key env arg), set_ssh_keys (<[env_uuid env := new_key env arg]> (db_ssh_keys d)) d).

Definition keys_of (user : UUID) (d : DB) : list SshKey :=
  order_by (newest_first sk_CreatedAt)
    (List.filter (fun k => bool_decide (sk_UserID k = user)) (rows (db_ssh_keys d))).

Definition listSSHKeysForUser (user : UUID) : Stmt (list SshKey) := query (keys_of user).

Definition deleteSSHKeyForUser (id user : UUID) : Stmt Z := fun _ d =>
  match db_ssh_keys d !! id with
  | Some k => if decide (sk_UserID k = user)
              then (Ok 1%Z, set_ssh_keys (delete id (db_ssh_keys d)) d) else (Ok 0%Z, d)
  | None => (Ok 0%Z, d)
  end.

(** where fingerprint = $1 limit 1: no order, whoever's row comes first *)
Definition lookupSSHKeyByFingerprint (fp : string) : Stmt SshKey :=
  query_one (fun d => row_where (fun k => String.eqb (sk_Fingerprint k) fp) (db_ssh_keys d)).

(** ** node_tokens.sql *)

Record NodeTokenInsertParams := {
  ntp_NodeID : UUID;
  ntp_TokenHash : string;
  ntp_CreatedBy : option UUID
}.

Definition new_token (env : Env) (arg : NodeTokenInsertParams) : NodeToken :=
  {| nt_ID := env_uuid env; nt_NodeID := ntp_NodeID arg; nt_TokenHash := ntp_TokenHash arg;
     nt_CreatedAt := env_now env; nt_RevokedAt := None; nt_CreatedBy := ntp_CreatedBy arg |}.

(** unique (node_id, token_hash) *)
Definition nodeTokenInsert (arg : NodeTokenInsertParams) : Stmt NodeToken := fun env d =>
  if fk_ok (Some (env_uuid env)) (db_node_tokens d) then (Err (UniqueViolation "node_tokens_pkey"), d)
  else if exists_row (fun t => bool_decide (nt_NodeID t = ntp_NodeID arg) &&
                               String.eqb (nt_TokenHash t) (ntp_TokenHash arg)) (db_node_tokens d) then
    (Err (UniqueViolation "node_tokens_node_hash_idx"), d)
  else if negb (fk_ok (Some (ntp_NodeID arg)) (db_nodes d)) then
    (Err (ForeignKeyViolation "node_tokens_node_id_fkey"), d)
  else if negb (fk_ok (ntp_CreatedBy arg) (db_users d)) then
    (Err (ForeignKeyViolation "node_tokens_created_by_fkey"), d)
  else (Ok (new_token env arg),
        set_node_tokens (<[env_uuid env := new_token env arg]> (db_node_tokens d)) d).

Definition revoke_at (t : Time) (n : NodeToken) : NodeToken :=
  {| nt_ID := nt_ID n; nt_NodeID := nt_NodeID n; nt_TokenHash := nt_TokenHash n;
     nt_CreatedAt := nt_CreatedAt n; nt_RevokedAt := Some t; nt_CreatedBy := nt_CreatedBy n |}.

(** where id = $1 and revoked_at is null *)
Definition nodeTokenRevoke (id : UUID) : Stmt unit := fun env d =>
  (Ok tt,
   set_node_tokens
     (alter (fun n => match nt_RevokedAt n with None => revoke_at (env_now env) n | Some _ => n end)
            id (db_node_tokens d)) d).

Definition listNodeTokens (node : UUID) : Stmt (list NodeToken) :=
  query (fun d => order_by (newest_first nt_CreatedAt)
    (List.filter (fun t => bool_decide (nt_NodeID t = node)) (rows (db_node_tokens d)))).

Definition active_tokens (node : UUID) (d : DB) : list NodeToken :=
  List.filter (fun t => bool_decide (nt_NodeID t = node /\ nt_RevokedAt t = None))
              (rows (db_node_tokens d)).

Definition listActiveNodeTokens (node : UUID) : Stmt (list NodeToken) := query (active_tokens node).

(** ** teams.sql *)

Definition team_named (name : string) (t : Team) : bool := String.eqb (te_Name t) name.

Definition new_team (env : Env) (name description : string) : Team :=
  {| te_ID := env_uuid env; te_Name := name; te_Description := description;
     te_CreatedAt := env_now env |}.

Definition teamCreate (name description : string) : Stmt Team := fun env d =>
  if fk_ok (Some (env_uuid env)) (db_teams d) then (Err (UniqueViolation "teams_pkey"), d)
  else if exists_row (team_named name) (db_teams d) then (Err (UniqueViolation "teams_name_key"), d)
  else (Ok (new_team env name description),
        set_teams (<[env_uuid env := new_team env name description]> (db_teams d)) d).

Definition teamGetByName (name : string) : Stmt Team :=
  query_one (fun d => row_where (team_named name) (db_teams d)).

(** on conflict (team_id, user_id) do nothing *)
Definition teamMemberAdd (team user : UUID) : Stmt unit := fun env d =>
  match db_team_members d !! (team, user) with
  | Some _ => (Ok tt, d)
  | None =>
      if negb (fk_ok (Some team) (db_teams d)) then
        (Err (ForeignKeyViolation "team_members_team_id_fkey"), d)
      else if negb (fk_ok (Some user) (db_users d)) then
        (Err (ForeignKeyViolation "team_members_user_id_fkey"), d)
      else (Ok tt, set_team_members (<[(team, user) := env_now env]> (db_team_members d)) d)
  end.

Definition teamMemberRemove (team user : UUID) : Stmt unit := fun _ d =>
  (Ok tt, set_team_members (delete (team, user) (db_team_members d)) d).

Definition isUserInTeam (user team : UUID) : Stmt bool :=
  query (fun d => bool_decide (is_Some (db_team_members d !! (team, user)))).

(** ** admin.sql *)

Record UserAdminRow := {
  ua_ID : UUID;
  ua_Email : string;
  ua_IsAdmin : bool;
  ua_CreatedAt : Time;
  ua_BalanceMilli : Z;
  ua_ActiveInstanceCount : Z
}.

Definition is_active (s : InstanceState) : bool :=
  match s with
  | InstanceStatePending | InstanceStateProvisioning | InstanceStateRunning | InstanceStateStopping => true
  | _ => false
  end.

Definition user_admin_row (d : DB) (u : User) : UserAdminRow :=
  {| ua_ID := us_ID u; ua_Email := us_Email u; ua_IsAdmin := us_IsAdmin u;
     ua_CreatedAt := us_CreatedAt u;
     ua_BalanceMilli := match db_credits d !! us_ID u with Some c => cr_BalanceMilli c | None => 0 end;
     ua_ActiveInstanceCount :=
       count_where (fun i => bool_decide (in_OwnerID i = Some (us_ID u)) && is_active (in_State i))
                   (db_instances d) |}.

Definition listUsersAdminView (limit : Z) : Stmt (list UserAdminRow) :=
  query (fun d => take (Z.to_nat limit)
    (user_admin_row d <$> order_by (newest_first us_CreatedAt) (rows (db_users d)))).

Record SlotAdminRow := { sa_Slot : GpuSlot; sa_NodeName : string }.

(** join nodes, order by node_name, slot_index *)
Definition listSlotsForAdminView `{Collation} : Stmt (list SlotAdminRow) :=
  query (fun d =>
    order_by (fun a b => if String.eqb (sa_NodeName a) (sa_NodeName b)
                         then (gs_SlotIndex (sa_Slot a) <=? gs_SlotIndex (sa_Slot b))%Z
                         else coll_leb (sa_NodeName a) (sa_NodeName b))
      (omap (fun s => (fun n => {| sa_Slot := s; sa_NodeName := nd_NodeName n |}) <$>
                      db_nodes d !! gs_NodeID s) (rows (db_gpu_slots d)))).

(** ** The ACL inputs of a node (nodes.sql, NodeAccessPolicy) *)

Record NodeAccessPolicyRow := {
  nap_ID : UUID;
  nap_AccessPolicy : string;
  nap_OwnerTeamID : option UUID;
  nap_NodeState : string;
  nap_LastDataPlaneAt : option Time
}.

Definition nodeAccessPolicy (id : UUID) : Stmt NodeAccessPolicyRow :=
  query_one (fun d => (fun n => {| nap_ID := nd_ID n; nap_AccessPolicy := nd_AccessPolicy n;
                                   nap_OwnerTeamID := nd_OwnerTeamID n; nap_NodeState := nd_NodeState n;
                                   nap_LastDataPlaneAt := nd_LastDataPlaneAt n |}) <$> db_nodes d !! id).
