(* ===== verification/Demo.v ===== *)
(** * A small concrete database

    One zone, one online node with two GPU slots, one user with credit and one
    running instance with its audit log: the state the examples run on. *)

From S2P Require Import Prelude GoStrings Proto Db.

#[local] Open Scope string_scope.

Definition demo_user : User :=
  {| us_ID := 1; us_Email := "a@x"; us_PasswordHash := "h"; us_IsAdmin := false;
     us_CreatedAt := 0; us_UpdatedAt := 0 |}.

Definition demo_node : Node :=
  {| nd_ID := 3; nd_ZoneID := 2; nd_NodeName := "n1"; nd_Hostname := "h1";
     nd_AgentVersion := "v1"; nd_Status := NodeStatusOnline; nd_TopologyJson := "top";
     nd_ProfileHash := "p0"; nd_LastHeartbeatAt := Some 0%Z; nd_RegisteredAt := 0;
     nd_UpdatedAt := 0; nd_AccessPolicy := "public"; nd_OwnerTeamID := None;
     nd_LastDataPlaneAt := None; nd_NodeState := "online" |}.

Definition demo_slot (id : UUID) (idx : Z) (domain : string) (st : SlotStatus)
    (inst : option UUID) : GpuSlot :=
  {| gs_ID := id; gs_NodeID := 3; gs_SlotIndex := idx; gs_GpuCount := 1;
     gs_GpuIndices := [idx]; gs_NvlinkDomain := domain; gs_Status := st;
     gs_CurrentInstanceID := inst |}.

Definition demo_instance (st : InstanceState) : InstanceRow :=
  {| in_ID := 5; in_OwnerID := Some 1%N; in_NodeID := 3; in_Name := "vm"; in_State := st;
     in_MemoryMb := 1024; in_Vcpus := 2; in_GpuCount := 1; in_SlotIndices := [0%Z];
     in_SshPubkeys := []; in_VmInternalIp := None; in_ImageRef := ""; in_ErrorMessage := "";
     in_CreatedAt := 0; in_UpdatedAt := 0 |}.

Definition demo_event (n : N) (from : option InstanceState) (to : InstanceState) : InstanceEvent :=
  {| ev_ID := n; ev_InstanceID := 5; ev_FromState := from; ev_ToState := to;
     ev_Reason := ""; ev_Metadata := "{}"; ev_CreatedAt := 0 |}.

Definition demo_db : DB :=
  {| db_users := {[ 1%N := demo_user ]};
     db_sessions := ∅;
     db_zones := {[ 2%N := {| zn_ID := 2; zn_Name := "z"; zn_Description := "";
                              zn_IsDefault := true; zn_CreatedAt := 0 |} ]};
     db_nodes := {[ 3%N := demo_node ]};
     db_gpu_slots := {[ 10%N := demo_slot 10 0 "" SlotStatusInUse (Some 5%N);
                        11%N := demo_slot 11 1 "nv0" SlotStatusFree None;
                        12%N := demo_slot 12 2 "" SlotStatusFree None ]};
     db_instances := {[ 5%N := demo_instance InstanceStateRunning ]};
     db_instance_events :=
       [demo_event 1 None InstanceStatePending;
        demo_event 2 (Some InstanceStatePending) InstanceStateProvisioning;
        demo_event 3 (Some InstanceStateProvisioning) InstanceStateRunning];
     db_credits := {[ 1%N := {| cr_UserID := 1; cr_BalanceMilli := 500; cr_UpdatedAt := 0 |} ]};
     db_credit_ledger :=
       [{| cl_ID := 1; cl_UserID := 1; cl_DeltaMilli := 500; cl_Reason := "recharge";
           cl_InstanceID := None; cl_IdempotencyKey := "k0"; cl_Metadata := "{}"; cl_CreatedAt := 0 |}];
     db_ssh_keys := ∅; db_node_tokens := ∅; db_teams := ∅; db_team_members := ∅ |}.

(** The server on those tables, with the given fates of round trips. *)
Definition demo (faults : list fault) : Pg :=
  {| pg_db := demo_db; pg_faults := faults; pg_now := 60 * second;
     pg_rand := fun n => N.of_nat (100 + n); pg_calls := 1 |}.

Definition on_demo (d : DB) : Pg := set_pg_db d (demo []).

Lemma demo_clean : clean (demo []).
Proof. reflexivity. Qed.
