(* ===== verification/InstanceState.v ===== *)
(** * The instance lifecycle state machine (internal/instance/state.go) *)

From S2P Require Import Prelude GoStrings Db.

#[local] Open Scope string_scope.

(** The package's friendlier alias. *)
Abbreviation State := InstanceState.

Definition AllStates : list State :=
  [InstanceStatePending; InstanceStateProvisioning; InstanceStateRunning;
   InstanceStateStopping; InstanceStateStopped; InstanceStateFailed].

(** The map from a state to the states reachable in one step; a state that is
    no key of it has no entry. *)
Definition allowedTransitions (from : State) : option (list State) :=
  match from with
  | InstanceStatePending =>
      Some [InstanceStateProvisioning; InstanceStateFailed; InstanceStateStopped]
  | InstanceStateProvisioning =>
      Some [InstanceStateRunning; InstanceStateFailed; InstanceStateStopping]
  | InstanceStateRunning => Some [InstanceStateStopping; InstanceStateFailed]
  | InstanceStateStopping => Some [InstanceStateStopped; InstanceStateFailed]
  | InstanceStateStopped => Some []
  | InstanceStateFailed => Some []
  | InstanceStateOther _ => None
  end.

Definition IsTerminal (s : State) : bool :=
  bool_decide (s = InstanceStateStopped) || bool_decide (s = InstanceStateFailed).

Definition ErrInvalidTransition : error := Sentinel "instance: invalid state transition".

Definition CanTransition (from to : State) : bool :=
  if decide (from = to) then true
  else match allowedTransitions from with
       | None => false
       | Some allowed => bool_decide (to ∈ allowed)
       end.

Definition Validate (s : State) : result unit :=
  match s with
  | InstanceStatePending | InstanceStateProvisioning | InstanceStateRunning
  | InstanceStateStopping | InstanceStateStopped | InstanceStateFailed => Ok tt
  | InstanceStateOther t => Err (ErrNew ("instance: unknown state " ++ Quote t))
  end.

(** A state other than the string constants is never entered. *)
Lemma Validate_Ok s : Validate s = Ok tt <-> s ∈ AllStates.
Proof.
  split.
  - destruct s; try done; intros _; by apply (bool_decide_unpack _).
  - unfold AllStates. rewrite !elem_of_cons, elem_of_nil. intros H. by destruct_or! H; subst.
Qed.

Lemma Validate_enum s : Validate s = Ok tt -> is_instance_state s = true.
Proof. by destruct s. Qed.

Lemma CanTransition_refl s : CanTransition s s = true.
Proof. unfold CanTransition. by rewrite decide_True. Qed.

(** Nothing leaves a terminal state. *)
Lemma CanTransition_terminal from to :
  IsTerminal from = true -> CanTransition from to = true -> to = from.
Proof.
  unfold CanTransition. case_decide; [done|].
  by destruct from.
Qed.

Lemma CanTransition_enum from to :
  CanTransition from to = true -> is_instance_state from = true -> is_instance_state to = true.
Proof.
  unfold CanTransition. case_decide; subst; [done|].
  destruct from; simpl; try done; intros Hin _; apply bool_decide_eq_true in Hin;
    rewrite ?elem_of_cons, ?elem_of_nil in Hin; by destruct_or? Hin; subst.
Qed.

(** Reachability by allowed steps. *)
Definition steps_to (from to : State) : Prop :=
  rtc (fun a b => CanTransition a b = true) from to.

(** How many proper steps a state is away from the end, at most. *)
Definition rank (s : State) : nat :=
  match s with
  | InstanceStatePending => 4
  | InstanceStateProvisioning => 3
  | InstanceStateRunning => 2
  | InstanceStateStopping => 1
  | _ => 0
  end.

Lemma CanTransition_rank from to :
  CanTransition from to = true -> from = to \/ rank to < rank from.
Proof.
  unfold CanTransition. case_decide; [by left|]. right.
  destruct from; simpl in *; try done;
    match goal with H : bool_decide _ = true |- _ => apply bool_decide_eq_true in H end;
    rewrite ?elem_of_cons, ?elem_of_nil in *; destruct_or?; subst; simpl; (lia || done).
Qed.

(** The states a client sees are one life: from [pending] every state of the
    enum is reached, states only move towards the end, and the terminal states
    are exactly those nothing else can be reached from. *)
Lemma state_machine_shape :
  (forall s, s ∈ AllStates -> steps_to InstanceStatePending s) /\
  (forall s t, steps_to s t -> s = t \/ rank t < rank s) /\
  (forall s, s ∈ AllStates ->
     (IsTerminal s = true <-> forall t, steps_to s t -> t = s)).
Proof.
  split_and!.
  - intros s Hs. unfold AllStates in Hs. rewrite !elem_of_cons, elem_of_nil in Hs.
    assert (steps_to InstanceStatePending InstanceStateProvisioning) as H1 by by apply rtc_once.
    assert (steps_to InstanceStatePending InstanceStateRunning) as H2 by by eapply rtc_r; [apply H1|].
    assert (steps_to InstanceStatePending InstanceStateStopping) as H3 by by eapply rtc_r; [apply H2|].
    destruct_or! Hs; subst; try done; [apply rtc_refl| |];
      (eapply rtc_r; [exact H3|done]).
  - intros s t Hst. induction Hst as [s|s u t Hsu _ IH]; [by left|].
    apply CanTransition_rank in Hsu as [->|]; [done|]. destruct IH as [->|]; right; lia.
  - intros s Hs. split.
    + intros Ht t Hst. induction Hst as [|s u t Hsu _ IH]; [done|].
      apply CanTransition_terminal in Hsu as ->; auto.
    + intros Hall. unfold AllStates in Hs. rewrite !elem_of_cons, elem_of_nil in Hs.
      destruct_or! Hs; subst; try done;
        [assert (InstanceStateFailed = InstanceStatePending)
        |assert (InstanceStateFailed = InstanceStateProvisioning)
        |assert (InstanceStateFailed = InstanceStateRunning)
        |assert (InstanceStateFailed = InstanceStateStopping)]; try done;
        apply Hall, rtc_once; done.
Qed.
