(* ===== verification/InstanceRepo.v ===== *)
(** * The instance repository (internal/instance/repo.go)

    [Create], [Transition], [Get], [Delete] and the two lookups, over the
    database of Db.v; the audit log they keep beside the rows. *)

From S2P Require Import Prelude GoStrings Proto Db Queries Demo InstanceState.

#[local] Open Scope string_scope.
#[local] Open Scope list_scope.
#[local] Open Scope go_scope.

(** A Go slice argument may be nil ([None]). *)
Record CreateInput := {
  cin_OwnerID : option UUID;
  cin_NodeID : UUID;
  cin_Name : string;
  cin_MemoryMiB : Z;
  cin_VCPUs : Z;
  cin_GPUCount : Z;
  cin_SlotIndices : option (list Z);
  cin_SSHPubkeys : option (list string);
  cin_ImageRef : string
}.

Definition Create (inp : CreateInput) : ST Pg (result InstanceRow) :=
  let slotIdx := default [] (cin_SlotIndices inp) in
  let pubkeys := default [] (cin_SSHPubkeys inp) in
  inTx
    (created <-? wrapErr "insert instance: " (exec (createInstance
       {| cip_OwnerID := cin_OwnerID inp; cip_NodeID := cin_NodeID inp;
          cip_Name := cin_Name inp; cip_MemoryMb := cin_MemoryMiB inp;
          cip_Vcpus := cin_VCPUs inp; cip_GpuCount := cin_GPUCount inp;
          cip_SlotIndices := slotIdx; cip_SshPubkeys := pubkeys;
          cip_ImageRef := cin_ImageRef inp |})) ;;
     _ <-? wrapErr "insert event: " (exec (insertInstanceEvent
       {| iep_InstanceID := in_ID created; iep_FromState := None;
          iep_ToState := InstanceStatePending; iep_Reason := "created";
          iep_Metadata := "{}" |})) ;;
     ret (Ok created)).

(** The zero value of an optional field means it is not set. *)
Record TransitionOptions := {
  to_Reason : string;
  to_ErrorMessage : string;
  to_VMInternalIP : Addr;
  to_EventMetadata : string;
  to_SkipIdempotent : bool
}.

Definition no_options : TransitionOptions :=
  {| to_Reason := ""; to_ErrorMessage := ""; to_VMInternalIP := "";
     to_EventMetadata := ""; to_SkipIdempotent := false |}.

Definition non_empty (s : string) : option string :=
  if String.eqb s "" then None else Some s.

Definition update_params (id : UUID) (to : State) (opts : TransitionOptions)
    : UpdateInstanceStateParams :=
  {| usp_ID := id; usp_State := to;
     usp_ErrorMessage := non_empty (to_ErrorMessage opts);
     usp_VmInternalIp := non_empty (to_VMInternalIP opts) |}.

Definition event_params (id : UUID) (from to : State) (opts : TransitionOptions)
    : InsertInstanceEventParams :=
  {| iep_InstanceID := id; iep_FromState := Some from; iep_ToState := to;
     iep_Reason := to_Reason opts;
     iep_Metadata := if String.eqb (to_EventMetadata opts) "" then "{}" else to_EventMetadata opts |}.

(** The tests of [Transition] on the state it read: [None] when it goes on. *)
Definition transition_refused (from to : State) (opts : TransitionOptions) : option error :=
  let arrow := InstanceState_text from +:+ "->" +:+ InstanceState_text to in
  if bool_decide (from = to) && to_SkipIdempotent opts then
    Some (ErrWrap "" ErrInvalidTransition (": idempotent " +:+ arrow +:+ " rejected"))
  else if negb (CanTransition from to) then
    Some (ErrWrap "" ErrInvalidTransition (": " +:+ arrow))
  else None.

(** What the transaction does once the state it read was accepted. *)
Definition transition_store (id : UUID) (from to : State) (opts : TransitionOptions)
    : ST Pg (result InstanceRow) :=
  updated <-? wrapErr "update state: " (exec (updateInstanceState (update_params id to opts))) ;;
  _ <-? wrapErr "insert event: " (exec (insertInstanceEvent (event_params id from to opts))) ;;
  ret (Ok updated).

Definition Transition (id : UUID) (to : State) (opts : TransitionOptions)
    : ST Pg (result InstanceRow) :=
  match Validate to with
  | Err e => ret (Err e)
  | Ok _ =>
      inTx
        (current <-? wrapErr "load instance: " (exec (getInstance id)) ;;
         match transition_refused (in_State current) to opts with
         | Some e => ret (Err e)
         | None => transition_store id (in_State current) to opts
         end)
  end.

Definition Get (id : UUID) : ST Pg (result InstanceRow) := exec (getInstance id).
Definition Delete (id : UUID) : ST Pg (result unit) := exec (deleteInstance id).
Definition ListForOwner (ownerID : option UUID) : ST Pg (result (list InstanceRow)) :=
  exec (listInstances ownerID).

(** ** The audit log

    The events of an instance, replayed, are a run of the state machine from
    its creation to the state of its row. *)
Definition events_of (id : UUID) (l : list InstanceEvent) : list InstanceEvent :=
  filter (fun e => ev_InstanceID e = id) l.

Definition replay1 (st : option State) (e : InstanceEvent) : option State :=
  if decide (ev_FromState e = st) then
    match st with
    | None => if decide (ev_ToState e = InstanceStatePending) then Some InstanceStatePending else None
    | Some f => if CanTransition f (ev_ToState e) then Some (ev_ToState e) else None
    end
  else None.

Fixpoint replay (st : option State) (l : list InstanceEvent) : option (option State) :=
  match l with
  | [] => Some st
  | e :: l' => match replay1 st e with Some st' => replay (Some st') l' | None => None end
  end.

Definition audit_ok (d : DB) : Prop :=
  forall id,
    match db_instances d !! id with
    | Some i => in_ID i = id /\ is_instance_state (in_State i) = true /\
                replay None (events_of id (db_instance_events d)) = Some (Some (in_State i))
    | None => events_of id (db_instance_events d) = []
    end.

(** ** Lemmas *)

Lemma replay_app st l1 l2 :
  replay st (l1 ++ l2) =
  match replay st l1 with Some st' => replay st' l2 | None => None end.
Proof.
  revert st. induction l1 as [|e l1 IH]; intros st; simpl; [done|].
  destruct (replay1 st e); [apply IH|done].
Qed.

Lemma events_of_app id l1 l2 : events_of id (l1 ++ l2) = events_of id l1 ++ events_of id l2.
Proof. apply filter_app. Qed.

Lemma events_of_other id id' l :
  id <> id' -> events_of id (filter (fun e => ev_InstanceID e <> id') l) = events_of id l.
Proof.
  intros Hne. unfold events_of. rewrite list_filter_filter. apply list_filter_iff.
  intros e. split; [tauto|]. intros <-. split; [done|]. congruence.
Qed.

Lemma events_of_deleted id l : events_of id (filter (fun e => ev_InstanceID e <> id) l) = [].
Proof.
  unfold events_of. rewrite list_filter_filter.
  induction l as [|e l IH]; [done|]. rewrite filter_cons_False; [done|]. intros [? ?]. done.
Qed.

(** The audit property depends on the instance rows and the log only. *)
Lemma audit_ok_frame d d' :
  db_instances d' = db_instances d -> db_instance_events d' = db_instance_events d ->
  audit_ok d -> audit_ok d'.
Proof. intros Hi He Hd id. specialize (Hd id). by rewrite Hi, He. Qed.

Lemma audit_ok_update d id i env arg ev :
  audit_ok d -> db_instances d !! id = Some i -> usp_ID arg = id ->
  CanTransition (in_State i) (usp_State arg) = true ->
  ev_InstanceID ev = id -> ev_FromState ev = Some (in_State i) -> ev_ToState ev = usp_State arg ->
  audit_ok (set_instance_events (db_instance_events d ++ [ev])
              (set_instances (<[id := with_state env arg i]> (db_instances d)) d)).
Proof.
  intros Hd Hi Ha Hct Hid Hfrom Hto id'. simpl. rewrite events_of_app, lookup_insert.
  specialize (Hd id'). case_decide as Hc.
  - subst id'. rewrite Hi in Hd. destruct Hd as (? & Hen & Hr). split_and!; [done| |].
    + simpl. by eapply CanTransition_enum.
    + rewrite replay_app, Hr. unfold events_of. rewrite filter_cons_True by done.
      simpl. unfold replay1. rewrite decide_True by done. by rewrite Hto, Hct.
  - unfold events_of in *. rewrite (filter_cons_False _ ev) by congruence.
    rewrite filter_nil, app_nil_r. done.
Qed.

Lemma audit_ok_create d row ev :
  audit_ok d -> db_instances d !! in_ID row = None -> in_State row = InstanceStatePending ->
  ev_InstanceID ev = in_ID row -> ev_FromState ev = None -> ev_ToState ev = InstanceStatePending ->
  audit_ok (set_instance_events (db_instance_events d ++ [ev])
              (set_instances (<[in_ID row := row]> (db_instances d)) d)).
Proof.
  intros Hd Hnone Hp Hid Hfrom Hto id'. simpl. rewrite events_of_app, lookup_insert.
  specialize (Hd id'). case_decide as Hc.
  - subst id'. rewrite Hnone in Hd. rewrite Hp. split_and!; [done..|].
    rewrite Hd. unfold events_of. rewrite filter_cons_True by done. simpl.
    unfold replay1. rewrite decide_True by done. by rewrite Hto.
  - unfold events_of in *. rewrite (filter_cons_False _ ev) by congruence.
    rewrite filter_nil, app_nil_r. done.
Qed.

Lemma audit_ok_delete id : keeps audit_ok (deleteInstance id).
Proof.
  intros env d Hd. unfold deleteInstance. destruct (db_instances d !! id) eqn:Hi; [|done].
  intros id'. simpl. specialize (Hd id'). rewrite lookup_delete. case_decide as Hc.
  - subst. apply events_of_deleted.
  - by rewrite events_of_other.
Qed.

(** The store step, inverted on success. *)
Lemma transition_store_Ok id from to opts s row s' :
  transition_store id from to opts s = (Ok row, s') ->
  exists i env env', db_instances (pg_db s) !! id = Some i /\
    row = with_state env (update_params id to opts) i /\
    pg_db s' = set_instance_events
                 (db_instance_events (pg_db s) ++ [new_event env' (event_params id from to opts)])
                 (set_instances (<[id := row]> (db_instances (pg_db s))) (pg_db s)).
Proof.
  unfold transition_store. intros H. inv_ok.
  apply updateInstanceState_Ok in Hok as (i & Hi & -> & Hd).
  apply insertInstanceEvent_Ok in Hok0. exists i. eexists _, _.
  split; [done|]. split; [done|]. by rewrite Hok0, Hd.
Qed.

Lemma transition_refused_None from to opts :
  transition_refused from to opts = None -> CanTransition from to = true.
Proof. unfold transition_refused. repeat case_match; try done. by destruct (CanTransition from to). Qed.

Lemma transition_refused_Some from to opts e :
  transition_refused from to opts = Some e ->
  errors_Is e ErrInvalidTransition = true.
Proof. unfold transition_refused. intros H. repeat case_match; simplify_eq; done. Qed.

Lemma suffix_transition_store id from to opts : uses_suffix (transition_store id from to opts).
Proof. unfold transition_store. solve_suffix. Qed.

Lemma suffix_Transition id to opts : uses_suffix (Transition id to opts).
Proof.
  unfold Transition. destruct (Validate to); [|apply uses_suffix_ret].
  solve_suffix. apply suffix_transition_store.
Qed.

Lemma suffix_Create inp : uses_suffix (Create inp).
Proof. unfold Create. solve_suffix. Qed.

(** ** The operations keep the audit property, whatever their round trips do *)

Lemma Create_audit inp : preserves (on_db audit_ok) (Create inp).
Proof.
  unfold Create. apply inTx_preserves. intros s row s' Hs H. inv_ok.
  apply createInstance_Ok in Hok as (-> & Hnone & _ & _ & Hd).
  apply insertInstanceEvent_Ok in Hok0. unfold on_db in *. rewrite Hok0, Hd.
  by apply (audit_ok_create (pg_db s) (new_instance _ _)).
Qed.

Lemma Transition_audit id to opts : preserves (on_db audit_ok) (Transition id to opts).
Proof.
  unfold Transition. destruct (Validate to) eqn:Hv; [|apply preserves_ret].
  apply inTx_preserves. intros s row s' Hs H. inv_ok.
  apply getInstance_Ok in Hok as [Hi Hd].
  destruct (transition_refused _ _ _) eqn:Hr; [inv_ok|].
  apply transition_refused_None in Hr. rewrite <- Hd in Hi.
  apply transition_store_Ok in H as (i & env & env' & Hi' & -> & Hd').
  simplify_eq. unfold on_db in *. rewrite Hd'. rewrite <- Hd in Hs.
  by apply (audit_ok_update _ _ _ env (update_params id to opts)).
Qed.

Lemma Delete_audit id : preserves (on_db audit_ok) (Delete id).
Proof. apply exec_keeps, audit_ok_delete. Qed.

#[export] Hint Resolve Create_audit Transition_audit Delete_audit : pres.

(** [Transition] when every round trip is served. *)
Lemma Transition_clean id to opts s :
  clean s ->
  let d := pg_db s in
  match Validate to, db_instances d !! id with
  | Ok _, Some i =>
      match transition_refused (in_State i) to opts with
      | None => exists env env', env_now env = pg_now s /\ env_now env' = pg_now s /\
          let row := with_state env (update_params id to opts) i in
          (Transition id to opts s).1 = Ok row /\
          pg_db (Transition id to opts s).2 =
            set_instance_events (db_instance_events d ++ [new_event env' (event_params id (in_State i) to opts)])
              (set_instances (<[id := row]> (db_instances d)) d)
      | Some e => (Transition id to opts s).1 = Err e /\ pg_db (Transition id to opts s).2 = d
      end
  | Ok _, None => (Transition id to opts s).1 = Err (ErrWrap "load instance: " ErrNoRows "") /\
                  pg_db (Transition id to opts s).2 = d
  | Err e, _ => (Transition id to opts s).1 = Err e /\ pg_db (Transition id to opts s).2 = d
  end.
Proof.
  intros Hs d. unfold Transition. destruct (Validate to) as [[]|e] eqn:Hv; [|done].
  rewrite inTx_clean; [|done|].
  2:{ intros s0. apply uses_suffix_clean. solve_suffix. apply suffix_transition_store. }
  assert (clean (tick (pg_db s) s)) as Ht by by apply tick_clean.
  unfold wrapErr, bindR, bind, ret. rewrite exec_clean by done. unfold getInstance, query_one.
  change (pg_db (tick (pg_db s) s)) with d. destruct (db_instances d !! id) as [i|] eqn:Hi; [|done].
  simpl. destruct (transition_refused (in_State i) to opts) as [e|] eqn:Hr; [done|].
  unfold transition_store, wrapErr, bindR, bind, ret.
  rewrite exec_clean by by apply tick_clean.
  unfold updateInstanceState. simpl. rewrite (Validate_enum _ Hv), Hi. simpl.
  rewrite exec_clean by by apply tick_clean, tick_clean.
  unfold insertInstanceEvent. simpl. rewrite (Validate_enum _ Hv). simpl.
  assert (is_instance_state (in_State i) = true) as ->.
  { apply transition_refused_None in Hr. unfold CanTransition in Hr.
    case_decide; [subst; by apply Validate_enum|]. by destruct (in_State i). }
  simpl. rewrite bool_decide_eq_true_2 by (rewrite lookup_insert_eq; eauto). simpl.
  exists (env_of (tick d (tick d s))). eexists (env_of (tick _ _)).
  split_and!; cycle 2; reflexivity.
Qed.

Lemma suffix_Delete id : uses_suffix (Delete id).
Proof. apply uses_suffix_exec. Qed.

(** An audited run that has reached a terminal state stays there. *)
Lemma replay_terminal l s st' :
  IsTerminal s = true -> replay (Some s) l = Some st' ->
  st' = Some s /\ Forall (fun e => ev_ToState e = s) l.
Proof.
  intros Ht. induction l as [|e l IH]; simpl; [by intros [= <-]|].
  unfold replay1. destruct (decide _); [|done].
  destruct (CanTransition s (ev_ToState e)) eqn:Hc; [|done].
  apply CanTransition_terminal in Hc; [|done]. rewrite Hc. intros [? ?]%IH. auto.
Qed.

(** ** Properties *)

(** What happens to the two tables in a life of the control plane, one
    repository call at a time: a create, a transition or a delete, each with
    whatever its round trips meet (served, refused, or executed with the
    answer lost), and everything the rest of the control plane does, which
    leaves the two tables alone. *)
Inductive repo_step : DB -> DB -> Prop :=
| repo_create s inp : repo_step (pg_db s) (pg_db (Create inp s).2)
| repo_transition s id to opts : repo_step (pg_db s) (pg_db (Transition id to opts s).2)
| repo_delete s id : repo_step (pg_db s) (pg_db (Delete id s).2)
| repo_other d d' :
    db_instances d' = db_instances d -> db_instance_events d' = db_instance_events d ->
    repo_step d d'.

Definition no_instances (d : DB) : Prop := db_instances d = ∅ /\ db_instance_events d = [].

Lemma no_instances_audit d : no_instances d -> audit_ok d.
Proof. intros [Hi He] id. by rewrite Hi, He, lookup_empty. Qed.

Lemma repo_step_audit d d' : repo_step d d' -> audit_ok d -> audit_ok d'.
Proof.
  intros [s inp|s id to opts|s id|d0 d1 Hi He] Hd;
    [by apply Create_audit|by apply Transition_audit|by apply Delete_audit|by eapply audit_ok_frame].
Qed.

Lemma repo_steps_audit d d' : rtc repo_step d d' -> audit_ok d -> audit_ok d'.
Proof. induction 1; eauto using repo_step_audit. Qed.

(** C10: the audit log replays.  Start from a database without instances and
    let the repository create, transition and delete instances in any order,
    one call at a time, whatever the database round trips of each call do
    (served, refused, or executed with the answer lost), among changes of the
    other tables.  At every point the events of an instance form a run of the
    state machine that starts with its creation and ends in the state of its
    row, and an id without a row has no events.  The calls must not overlap:
    a transition reads the row without locking it, and two overlapping ones
    can break the property ([concurrent_transitions_leave_terminal]). *)
Theorem audit_log_replays d0 d id :
  no_instances d0 -> rtc repo_step d0 d ->
  match db_instances d !! id with
  | Some i => in_ID i = id /\ in_State i ∈ AllStates /\
              replay None (events_of id (db_instance_events d)) = Some (Some (in_State i))
  | None => events_of id (db_instance_events d) = []
  end.
Proof.
  intros H0 Hd. pose proof (repo_steps_audit _ _ Hd (no_instances_audit _ H0) id) as H.
  destruct (db_instances d !! id) as [i|]; [|done]. destruct H as (? & Hs & ?).
  split_and!; [done| |done]. destruct (in_State i); by repeat constructor || done.
Qed.

(** A terminal state is final.  Once the log of an instance contains an
    event into [stopped] or [failed], every later event of the instance is
    into that same state, and so is the row. *)
Theorem terminal_state_is_final d id l1 e l2 :
  audit_ok d ->
  events_of id (db_instance_events d) = l1 ++ e :: l2 ->
  IsTerminal (ev_ToState e) = true ->
  Forall (fun e' => ev_ToState e' = ev_ToState e) l2 /\
  exists i, db_instances d !! id = Some i /\ in_State i = ev_ToState e.
Proof.
  intros Hd He Ht. specialize (Hd id). rewrite He in Hd.
  destruct (db_instances d !! id) as [i|]; [|by destruct l1].
  destruct Hd as (_ & _ & Hr). rewrite replay_app in Hr.
  destruct (replay None l1) as [st|]; [|done]. simpl in Hr.
  destruct (replay1 st e) as [s1|] eqn:H1; [|done].
  assert (s1 = ev_ToState e) as ->.
  { unfold replay1 in H1. repeat case_match; simplify_eq; done. }
  apply replay_terminal in Hr as [[= Hs] Hall]; [|done]. eauto.
Qed.

(** C11: [Transition], every branch.  With its round trips served it succeeds
    exactly when the target is a state of the enum, the row exists, the state
    machine allows the step (the same state counts, unless the caller asked
    for a real change); it then returns the row with the new state, the error
    text and address of the options where given, and [updated_at] set, every
    other column unchanged, stores that row and appends exactly one event from
    the old state to the new one.  Otherwise no table changes. *)
Theorem Transition_spec id to opts s :
  clean s ->
  let '(r, s') := Transition id to opts s in
  (is_ok r = true <->
     to ∈ AllStates /\ exists i, db_instances (pg_db s) !! id = Some i /\
       CanTransition (in_State i) to = true /\
       (in_State i = to -> to_SkipIdempotent opts = false)) /\
  match r with
  | Ok row =>
      exists i ev, db_instances (pg_db s) !! id = Some i /\
        row = {| in_ID := in_ID i; in_OwnerID := in_OwnerID i; in_NodeID := in_NodeID i;
                 in_Name := in_Name i; in_State := to; in_MemoryMb := in_MemoryMb i;
                 in_Vcpus := in_Vcpus i; in_GpuCount := in_GpuCount i;
                 in_SlotIndices := in_SlotIndices i; in_SshPubkeys := in_SshPubkeys i;
                 in_VmInternalIp := if String.eqb (to_VMInternalIP opts) "" then in_VmInternalIp i
                                    else Some (to_VMInternalIP opts);
                 in_ImageRef := in_ImageRef i;
                 in_ErrorMessage := if String.eqb (to_ErrorMessage opts) "" then in_ErrorMessage i
                                    else to_ErrorMessage opts;
                 in_CreatedAt := in_CreatedAt i; in_UpdatedAt := pg_now s |} /\
        ev_InstanceID ev = id /\ ev_FromState ev = Some (in_State i) /\ ev_ToState ev = to /\
        ev_Reason ev = to_Reason opts /\ ev_CreatedAt ev = pg_now s /\
        ev_Metadata ev = (if String.eqb (to_EventMetadata opts) "" then "{}" else to_EventMetadata opts) /\
        pg_db s' = set_instance_events (db_instance_events (pg_db s) ++ [ev])
                     (set_instances (<[id := row]> (db_instances (pg_db s))) (pg_db s))
  | Err e =>
      pg_db s' = pg_db s /\
      (errors_Is e ErrInvalidTransition = true <->
         to ∈ AllStates /\ is_Some (db_instances (pg_db s) !! id))
  end.
Proof.
  intros Hs. pose proof (Transition_clean id to opts s Hs) as H. cbv zeta in H.
  destruct (Transition id to opts s) as [r s']. simpl in H.
  pose proof (Validate_Ok to) as Hto. destruct (Validate to) as [[]|e] eqn:Hv.
  2:{ destruct H as [-> ->]. assert (to ∉ AllStates) as Hno by by rewrite <- Hto.
      destruct to; simplify_eq/=. split; [naive_solver|]. split; [done|].
      split; [done|]. naive_solver. }
  assert (to ∈ AllStates) as Hin by by apply Hto.
  destruct (db_instances (pg_db s) !! id) as [i|] eqn:Hi.
  2:{ destruct H as [-> ->]. split; [split; [done|naive_solver]|]. split; [done|].
      split; [done|]. intros [_ [? ?]]. done. }
  destruct (transition_refused (in_State i) to opts) as [e|] eqn:Hr.
  - destruct H as [-> ->]. rewrite (transition_refused_Some _ _ _ _ Hr).
    split; [|naive_solver]. split; [done|]. intros (_ & i' & [= <-] & Hc & Hskip).
    unfold transition_refused in Hr. rewrite Hc in Hr. simpl in Hr.
    case_bool_decide as Heq; [|done]. rewrite Hskip in Hr by done. done.
  - destruct H as (env & env' & He & He' & -> & ->). split.
    + split; [|done]. intros _. split; [done|]. exists i. split; [done|].
      split; [by eapply transition_refused_None|]. intros Heq.
      unfold transition_refused in Hr. rewrite bool_decide_eq_true_2 in Hr by done.
      by destruct (to_SkipIdempotent opts).
    + exists i, (new_event env' (event_params id (in_State i) to opts)). simpl.
      split_and!; try done. unfold with_state. rewrite He. simpl. unfold non_empty.
      by destruct (String.eqb (to_VMInternalIP opts) ""), (String.eqb (to_ErrorMessage opts) "").
Qed.

(** C38: [Create] and [Transition] are atomic: an error, from whichever of
    their round trips or tests, means that no table changed, as long as no
    answer of the server was lost. *)
Theorem instance_writes_atomic s inp id to opts :
  answered s ->
  (is_ok (Create inp s).1 = false -> pg_db (Create inp s).2 = pg_db s) /\
  (is_ok (Transition id to opts s).1 = false -> pg_db (Transition id to opts s).2 = pg_db s).
Proof.
  intros Hs. split.
  - destruct (Create inp s).1 as [|e] eqn:He; [done|]. intros _.
    unfold Create in *. eapply inTx_atomic; [|done|done]. solve_suffix.
  - destruct (Transition id to opts s).1 as [|e] eqn:He; [done|]. intros _.
    unfold Transition in *. destruct (Validate to); [|done].
    eapply inTx_atomic; [|done|done]. solve_suffix. apply suffix_transition_store.
Qed.

(** ** Witnesses *)

Lemma demo_audit_ok : audit_ok demo_db.
Proof.
  intros id. unfold demo_db; simpl. destruct (decide (id = 5%N)) as [->|Hne].
  - by vm_compute.
  - rewrite lookup_singleton_ne by done. unfold events_of.
    repeat (rewrite filter_cons_False by (simpl; congruence)). done.
Qed.

(** A control plane that created an instance, failed it, and lost the answer
    of a last transition. *)
Definition audit_start : DB := set_instance_events [] (set_instances ∅ demo_db).

Definition audit_input : CreateInput :=
  {| cin_OwnerID := None; cin_NodeID := 3; cin_Name := "x"; cin_MemoryMiB := 1; cin_VCPUs := 1;
     cin_GPUCount := 0; cin_SlotIndices := None; cin_SSHPubkeys := None; cin_ImageRef := "" |}.

Definition audit_created : Pg :=
  (Create audit_input (tick audit_start (demo []))).2.

Definition audit_id : UUID :=
  match (Create audit_input (tick audit_start (demo []))).1 with Ok i => in_ID i | Err _ => 0%N end.

Definition audit_failed : Pg := (Transition audit_id InstanceStateFailed no_options audit_created).2.

Lemma audit_log_replays_witness :
  exists i, db_instances (pg_db audit_failed) !! audit_id = Some i /\
    in_State i = InstanceStateFailed /\
    length (events_of audit_id (db_instance_events (pg_db audit_failed))) = 2 /\
    replay None (events_of audit_id (db_instance_events (pg_db audit_failed))) =
      Some (Some (in_State i)).
Proof.
  assert (rtc repo_step audit_start (pg_db audit_failed)) as Hr.
  { apply (rtc_l _ _ (pg_db audit_created)); [apply (repo_create (tick audit_start (demo [])))|].
    apply rtc_once, repo_transition. }
  pose proof (audit_log_replays audit_start _ audit_id (conj eq_refl eq_refl) Hr) as H.
  eexists. split; [vm_compute; reflexivity|]. split; [reflexivity|].
  split; [vm_compute; reflexivity|]. vm_compute in H |- *. apply H.
Defined.

(** A database whose instance failed and then got a repeated report. *)
Definition failed_db : DB :=
  pg_db (Transition 5 InstanceStateFailed no_options
           (Transition 5 InstanceStateFailed no_options (demo [])).2).2.

Lemma failed_audit_ok : audit_ok failed_db.
Proof. unfold failed_db. do 2 apply Transition_audit. apply demo_audit_ok. Qed.

Lemma terminal_state_is_final_witness :
  exists i, db_instances failed_db !! 5%N = Some i /\ in_State i = InstanceStateFailed.
Proof.
  exact (proj2 (terminal_state_is_final failed_db 5 (take 3 (db_instance_events failed_db))
    (nth 3 (db_instance_events failed_db) (demo_event 0 None InstanceStatePending))
    (drop 4 (db_instance_events failed_db)) failed_audit_ok eq_refl eq_refl)).
Defined.

Lemma Transition_spec_witness :
  is_ok (Transition 5 InstanceStateStopping no_options (demo [])).1 = true.
Proof.
  pose proof (Transition_spec 5 InstanceStateStopping no_options (demo []) eq_refl) as H.
  destruct (Transition 5 InstanceStateStopping no_options (demo [])) as [r s'].
  apply H. split; [repeat constructor|].
  exists (demo_instance InstanceStateRunning). repeat split.
Defined.

Lemma instance_writes_atomic_witness :
  pg_db (Transition 5 InstanceStateStopping no_options
           (demo [Served; Served; Served; Served; Refused ErrNoRows])).2 = demo_db.
Proof.
  apply (instance_writes_atomic (demo [Served; Served; Served; Served; Refused ErrNoRows])
    {| cin_OwnerID := None; cin_NodeID := 3; cin_Name := "x"; cin_MemoryMiB := 1; cin_VCPUs := 1;
       cin_GPUCount := 0; cin_SlotIndices := None; cin_SSHPubkeys := None; cin_ImageRef := "" |}).
  - repeat constructor.
  - vm_compute. reflexivity.
Defined.

(** ** Two transitions of one instance, interleaved

    The transaction runs at READ COMMITTED and reads the row without locking
    it, so another transition can commit between its read and its update; the
    row lock taken by the update orders what follows. *)
Definition transition_rest (id : UUID) (to : State) (opts : TransitionOptions) (current : InstanceRow)
    : ST Pg (result InstanceRow) :=
  match transition_refused (in_State current) to opts with
  | Some e => ret (Err e)
  | None => inTx (transition_store id (in_State current) to opts)
  end.

Definition interleaved (id : UUID) (to1 to2 : State) : ST Pg (result (InstanceRow * InstanceRow)) :=
  c1 <-? exec (getInstance id) ;;
  c2 <-? exec (getInstance id) ;;
  r1 <-? transition_rest id to1 no_options c1 ;;
  r2 <-? transition_rest id to2 no_options c2 ;;
  ret (Ok (r1, r2)).

(** Concurrent transitions can revive a dead instance.  Two transitions
    that both read a running instance, one failing it and one asking it to
    stop, can both succeed; the row then leaves the terminal state the log
    records, and the audit log no longer replays. *)
Theorem concurrent_transitions_leave_terminal :
  exists s s' r1 r2 i,
    audit_ok (pg_db s) /\ clean s /\
    interleaved 5 InstanceStateFailed InstanceStateStopping s = (Ok (r1, r2), s') /\
    in_State r1 = InstanceStateFailed /\
    db_instances (pg_db s') !! 5%N = Some i /\ in_State i = InstanceStateStopping /\
    ~ audit_ok (pg_db s').
Proof.
  exists (demo []). eexists _, _, _, _. split; [apply demo_audit_ok|]. split; [done|].
  split; [vm_compute; reflexivity|]. split; [reflexivity|]. split; [vm_compute; reflexivity|].
  split; [reflexivity|]. intros H. specialize (H 5%N). vm_compute in H. by destruct H as (_ & _ & ?).
Qed.
