(* ===== verification/SlotRepo.v ===== *)
(** * GPU slot reservation (internal/slot/repo.go)

    [Reserve], [BindToInstance], the three releases and [SyncFromProfile],
    with the invariant of the slot table and the effect of each operation on
    it. *)

From S2P Require Import Prelude GoStrings Proto Db Queries Demo InstanceRepo.

#[local] Open Scope string_scope.
#[local] Open Scope list_scope.
#[local] Open Scope go_scope.

Definition ErrNoFreeSlots : error := Sentinel "slot: no free slots for requested size".

Record Reservation := { rsv_Slots : list GpuSlot }.

Definition SlotIndices (r : Reservation) : list Z := gs_SlotIndex <$> rsv_Slots r.
Definition IDs (r : Reservation) : list UUID := gs_ID <$> rsv_Slots r.

Definition count_error (count : Z) : error :=
  ErrNew ("slot: count must be > 0, got " +:+ Itoa count).

Definition short_error (have : nat) (need : Z) : error :=
  ErrWrap "" ErrNoFreeSlots (": have " +:+ Itoa (Z.of_nat have) +:+ ", need " +:+ Itoa need).

Section reserve.
Context `{UUIDLib, Collation}.

Definition Reserve (nodeID : UUID) (gpuSize count : Z) : ST Pg (result Reservation) :=
  if (count <=? 0)%Z then ret (Err (count_error count))
  else inTx
    (_ <-? wrapErr "advisory lock: " (exec (lockNodeForReservation (uuid_String nodeID))) ;;
     slots <-? wrapErr "reserve: " (exec (reserveFreeSlots nodeID gpuSize count)) ;;
     if (Z.of_nat (length slots) <? count)%Z then ret (Err (short_error (length slots) count))
     else ret (Ok {| rsv_Slots := slots |})).

Definition BindToInstance (res : Reservation) (instanceID : UUID) : ST Pg (result unit) :=
  inTx (forRangeR (rsv_Slots res) (fun s =>
    _ <-? wrapErr ("bind slot " +:+ uuid_String (gs_ID s) +:+ ": ")
            (exec (bindSlotToInstance (gs_ID s) (Some instanceID))) ;;
    ret (Ok tt))).
End reserve.

Definition ReleaseReserved (res : Reservation) : ST Pg (result unit) :=
  if decide (length (rsv_Slots res) = 0) then ret (Ok tt)
  else (_ <-? exec (releaseReservedSlots (IDs res)) ;; ret (Ok tt)).

Definition ReleaseForInstance (instanceID : UUID) : ST Pg (result Z) :=
  exec (releaseSlotsForInstance instanceID).

Definition RecoverOrphanReservations : ST Pg (result Z) := exec releaseAllOrphanReservedSlots.

Inductive SyncResult := SyncUnchanged | SyncReplaced | SyncDegraded.

Record ProfileSlot := {
  ps_SlotIndex : Z;
  ps_GpuCount : Z;
  ps_GpuIndices : option (list Z);     (* [None]: a nil slice *)
  ps_NvlinkDomain : string
}.

Definition insert_params (nodeID : UUID) (s : ProfileSlot) : InsertSlotParams :=
  {| isp_NodeID := nodeID; isp_SlotIndex := ps_SlotIndex s; isp_GpuCount := ps_GpuCount s;
     isp_GpuIndices := ps_GpuIndices s; isp_NvlinkDomain := ps_NvlinkDomain s |}.

Definition insert_profile_slots (nodeID : UUID) (slots : list ProfileSlot) : ST Pg (result unit) :=
  forRangeR slots (fun s =>
    _ <-? wrapErr ("insert slot " +:+ Itoa (ps_SlotIndex s) +:+ ": ")
            (exec (insertSlot (insert_params nodeID s))) ;;
    ret (Ok tt)).

Definition SyncFromProfile (nodeID : UUID) (profileHash : string) (slots : list ProfileSlot)
    : ST Pg (result SyncResult) :=
  node <-? wrapErr "load node: " (exec (getNode nodeID)) ;;
  if String.eqb (nd_ProfileHash node) profileHash && negb (String.eqb profileHash "")
  then ret (Ok SyncUnchanged)
  else inTx
    (inUse <-? wrapErr "count non-free: " (exec (countNonFreeSlotsForNode nodeID)) ;;
     if (0 <? inUse)%Z then ret (Ok SyncDegraded)
     else
       _ <-? wrapErr "delete existing: " (exec (deleteSlotsForNode nodeID)) ;;
       _ <-? insert_profile_slots nodeID slots ;;
       _ <-? wrapErr "update profile_hash: " (exec (updateNodeProfileHash nodeID profileHash)) ;;
       ret (Ok SyncReplaced)).

(** ** The invariant of the slot table *)

Record slot_ok (d : DB) (id : UUID) (s : GpuSlot) : Prop := {
  so_key : gs_ID s = id;
  so_count : (0 < gs_GpuCount s)%Z;
  so_node : is_Some (db_nodes d !! gs_NodeID s);
  so_inst : forall i, gs_CurrentInstanceID s = Some i ->
              gs_Status s = SlotStatusInUse /\ is_Some (db_instances d !! i)
}.

(** Every slot is well formed: only a slot in use points to an instance, and
    to one that exists; and a node has one slot per index. *)
Definition slots_ok (d : DB) : Prop :=
  (forall id s, db_gpu_slots d !! id = Some s -> slot_ok d id s) /\
  (forall id id' s s', db_gpu_slots d !! id = Some s -> db_gpu_slots d !! id' = Some s' ->
     gs_NodeID s = gs_NodeID s' -> gs_SlotIndex s = gs_SlotIndex s' -> id = id').

Lemma slots_ok_inst d id s i :
  slots_ok d -> db_gpu_slots d !! id = Some s -> gs_CurrentInstanceID s = Some i ->
  gs_Status s = SlotStatusInUse.
Proof. intros [Hd _] Hs. apply (Hd id s Hs). Qed.

Lemma slots_ok_none d id s :
  slots_ok d -> db_gpu_slots d !! id = Some s -> gs_Status s <> SlotStatusInUse ->
  gs_CurrentInstanceID s = None.
Proof.
  intros Hd Hs Hn. destruct (gs_CurrentInstanceID s) eqn:E; [|done].
  by rewrite (slots_ok_inst d id s _ Hd Hs E) in Hn.
Qed.

(** Updating slots in place: [f] keeps key, node, index and size. *)
Definition same_place (s s' : GpuSlot) : Prop :=
  gs_ID s' = gs_ID s /\ gs_NodeID s' = gs_NodeID s /\ gs_SlotIndex s' = gs_SlotIndex s /\
  gs_GpuCount s' = gs_GpuCount s.

Lemma slots_ok_update d m :
  slots_ok d ->
  (forall id s', m !! id = Some s' -> exists s, db_gpu_slots d !! id = Some s /\ same_place s s' /\
     forall i, gs_CurrentInstanceID s' = Some i ->
       gs_Status s' = SlotStatusInUse /\ is_Some (db_instances d !! i)) ->
  slots_ok (set_gpu_slots m d).
Proof.
  intros [Hd Hu] Hm. split; simpl.
  - intros id s' Hs'. destruct (Hm id s' Hs') as (s & Hs & (E1 & E2 & E3 & E4) & Hi).
    destruct (Hd id s Hs). constructor; simpl; rewrite ?E1, ?E2, ?E4; done.
  - intros id id' s1 s2 H1 H2 Hn Hx.
    destruct (Hm id s1 H1) as (s & Hs & (E1 & E2 & E3 & E4) & _).
    destruct (Hm id' s2 H2) as (s' & Hs' & (E1' & E2' & E3' & E4') & _).
    apply (Hu id id' s s'); congruence.
Qed.

Lemma slots_ok_update_where d P f :
  slots_ok d ->
  (forall id s, db_gpu_slots d !! id = Some s -> P s = true -> same_place s (f s) /\
     forall i, gs_CurrentInstanceID (f s) = Some i ->
       gs_Status (f s) = SlotStatusInUse /\ is_Some (db_instances d !! i)) ->
  slots_ok (set_gpu_slots (update_where P f (db_gpu_slots d)) d).
Proof.
  intros Hd Hf. apply slots_ok_update; [done|]. intros id s' Hs'.
  apply lookup_update_where_Some in Hs' as (s & Hs & ->). exists s. split; [done|].
  destruct (P s) eqn:HP; [by eapply Hf|]. split; [by repeat split|].
  apply (proj1 Hd id s Hs).
Qed.

(** ** Every statement on slots keeps the invariant *)

Lemma keeps_release (P : GpuSlot -> bool) (n : DB -> Z) :
  keeps slots_ok (fun _ d =>
    (Ok (n d), set_gpu_slots (update_where P (slot_with SlotStatusFree None) (db_gpu_slots d)) d)).
Proof. intros e d Hd. apply slots_ok_update_where; [done|]. by intros. Qed.

Lemma keeps_bind id i : keeps slots_ok (bindSlotToInstance id (Some i)).
Proof.
  intros e d Hd. unfold bindSlotToInstance. destruct (db_gpu_slots d !! id) as [s|] eqn:Hs; [|done].
  case_decide as Hr; [|done]. destruct (fk_ok _ _) eqn:Hk; [|done]. apply fk_ok_Some in Hk.
  apply slots_ok_update; [done|]. intros id'. rewrite lookup_insert. case_decide as Hid.
  - intros s' [= <-]. subst id'. exists s. split; [done|]. split; [by repeat split|]. by intros ? [= <-].
  - intros s' Hs'. exists s'. split; [done|]. split; [by repeat split|]. apply (proj1 Hd id' s' Hs').
Qed.

Lemma keeps_delete_slots n : keeps slots_ok (deleteSlotsForNode n).
Proof.
  intros e d Hd. apply slots_ok_update; [done|]. intros id s' [Hs' _]%map_lookup_filter_Some.
  exists s'. split; [done|]. split; [by repeat split|]. apply (proj1 Hd id s' Hs').
Qed.

Lemma keeps_insert_slot arg : keeps slots_ok (insertSlot arg).
Proof.
  intros e d [Hd Hu]. unfold insertSlot. destruct (isp_GpuIndices arg) as [l|]; [|done].
  destruct (0 <? isp_GpuCount arg)%Z eqn:Hc; [|done].
  destruct (fk_ok _ (db_gpu_slots d)) eqn:Hk; [done|].
  destruct (exists_row _ _) eqn:He; [done|].
  destruct (fk_ok _ (db_nodes d)) eqn:Hn; [|done]. simpl.
  apply fk_ok_None_lookup in Hk. apply fk_ok_Some in Hn.
  assert (forall i v, db_gpu_slots d !! i = Some v ->
            ~ (gs_NodeID v = isp_NodeID arg /\ gs_SlotIndex v = isp_SlotIndex arg)) as Hne.
  { intros i v Hv. apply (bool_decide_eq_false_1 _). by apply (proj1 (exists_row_false _ _) He i). }
  split; simpl.
  - intros id s. rewrite lookup_insert. case_decide as Hid.
    + intros [= <-]. subst. constructor; simpl; [done|lia|done|done].
    + intros Hs. by destruct (Hd id s Hs).
  - intros id id' s s'. rewrite !lookup_insert. case_decide; case_decide; subst; try done.
    + intros [= <-] Hs' Hn' Hx. simpl in *. exfalso. by apply (Hne id' s').
    + intros Hs [= <-] Hn' Hx. simpl in *. exfalso. by apply (Hne id s).
    + apply Hu.
Qed.

Lemma keeps_profile_hash id h : keeps slots_ok (updateNodeProfileHash id h).
Proof.
  intros e d [Hd Hu]. split; simpl; [|done]. intros id' s Hs. destruct (Hd id' s Hs).
  constructor; simpl; try done. rewrite lookup_alter. case_decide; subst; [|done]. by apply fmap_is_Some.
Qed.

Section keeps.
Context `{Collation}.

Lemma keeps_reserve node size limit : keeps slots_ok (reserveFreeSlots node size limit).
Proof.
  intros e d Hd. apply slots_ok_update_where; [done|]. intros id s Hs Hp.
  split; [by repeat split|]. intros i Hi. exfalso.
  apply bool_decide_eq_true, list_elem_of_fmap in Hp as (s' & Hid & Hin).
  apply elem_of_take_1, elem_of_order_by, elem_of_filter_rows in Hin as [Hf [id' Hs']].
  apply bool_decide_eq_true in Hf as (_ & Hf & _).
  assert (id' = id) as ->.
  { rewrite <- (so_key _ _ _ (proj1 Hd _ _ Hs)), <- (so_key _ _ _ (proj1 Hd _ _ Hs')). done. }
  simplify_eq. apply (slots_ok_inst d id s i) in Hi; congruence.
Qed.
End keeps.

(** The statements of the instance repository keep it too. *)
Lemma keeps_create_instance arg : keeps slots_ok (createInstance arg).
Proof.
  intros e d Hd. destruct (createInstance arg e d) as [[row|err] d'] eqn:Hc.
  - apply createInstance_Ok in Hc as (_ & _ & _ & _ & ->). destruct Hd as [Hd Hu].
    split; simpl; [|done]. intros id s Hs. destruct (Hd id s Hs). constructor; simpl; try done.
    intros i Hi. destruct (so_inst0 i Hi) as [? ?]. split; [done|].
    rewrite lookup_insert. case_decide; [by eexists|done].
  - unfold createInstance in Hc. by repeat (case_match; simplify_eq/=).
Qed.

Lemma keeps_update_state arg : keeps slots_ok (updateInstanceState arg).
Proof.
  intros e d Hd. destruct (updateInstanceState arg e d) as [[row|err] d'] eqn:Hc.
  - apply updateInstanceState_Ok in Hc as (i & Hi & _ & ->). destruct Hd as [Hd Hu].
    split; simpl; [|done]. intros id s Hs. destruct (Hd id s Hs). constructor; simpl; try done.
    intros k Hk. destruct (so_inst0 k Hk) as [? ?]. split; [done|].
    rewrite lookup_insert. case_decide; [by eexists|done].
  - unfold updateInstanceState in Hc. by repeat (case_match; simplify_eq/=).
Qed.

Lemma keeps_insert_event arg : keeps slots_ok (insertInstanceEvent arg).
Proof.
  intros e d Hd. destruct (insertInstanceEvent arg e d) as [[[]|err] d'] eqn:Hc.
  - apply insertInstanceEvent_Ok in Hc as ->. destruct Hd as [Hd Hu].
    split; simpl; [|done]. intros id s Hs. by destruct (Hd id s Hs).
  - unfold insertInstanceEvent in Hc. by repeat (case_match; simplify_eq/=).
Qed.

Lemma keeps_delete_instance id : keeps slots_ok (deleteInstance id).
Proof.
  intros e d Hd. unfold deleteInstance. destruct (db_instances d !! id) eqn:Hi; [|done].
  destruct Hd as [Hd Hu]. split; simpl.
  - intros k s [s0 [Hs ->]]%lookup_update_where_Some. destruct (Hd k s0 Hs).
    unfold slot_of_instance. case_bool_decide as Hc; constructor; simpl; try done.
    intros k' Hcur. destruct (so_inst0 k' Hcur). split; [done|].
    rewrite lookup_delete. case_decide; [congruence|done].
  - intros k k' s s' [s0 [Hs ->]]%lookup_update_where_Some [s1 [Hs' ->]]%lookup_update_where_Some
      Hn Hx. apply (Hu k k' s0 s1); [done|done| |]; by repeat case_match.
Qed.

#[export] Hint Resolve keeps_bind keeps_delete_slots keeps_insert_slot keeps_profile_hash
  keeps_reserve keeps_create_instance keeps_update_state keeps_insert_event
  keeps_delete_instance : pres.

Section preserved.
Context `{UUIDLib, Collation}.

Lemma Reserve_slots n g c : preserves (on_db slots_ok) (Reserve n g c).
Proof.
  unfold Reserve. destruct (_ <=? _)%Z; [apply preserves_ret|].
  apply inTx_body_preserves. solve_pres.
Qed.

Lemma BindToInstance_slots res i : preserves (on_db slots_ok) (BindToInstance res i).
Proof. apply inTx_body_preserves. solve_pres. Qed.

Lemma ReleaseReserved_slots res : preserves (on_db slots_ok) (ReleaseReserved res).
Proof.
  unfold ReleaseReserved. destruct (decide _); [apply preserves_ret|].
  apply preserves_bindR; [|intros; apply preserves_ret]. apply exec_keeps, keeps_release.
Qed.

Lemma ReleaseForInstance_slots i : preserves (on_db slots_ok) (ReleaseForInstance i).
Proof. apply exec_keeps, keeps_release. Qed.

Lemma Recover_slots : preserves (on_db slots_ok) RecoverOrphanReservations.
Proof. apply exec_keeps, keeps_release. Qed.

Lemma SyncFromProfile_slots n h l : preserves (on_db slots_ok) (SyncFromProfile n h l).
Proof.
  unfold SyncFromProfile, insert_profile_slots. apply preserves_bindR.
  - apply preserves_wrapErr, exec_keeps, keeps_query_one.
  - intros nd. destruct (_ && _); [apply preserves_ret|]. apply inTx_body_preserves.
    apply preserves_bindR; [apply preserves_wrapErr, exec_keeps, keeps_query|].
    intros inUse. destruct (_ <? _)%Z; solve_pres.
Qed.

Lemma Create_slots inp : preserves (on_db slots_ok) (Create inp).
Proof. apply inTx_body_preserves. solve_pres. Qed.

Lemma Transition_slots id to opts : preserves (on_db slots_ok) (Transition id to opts).
Proof.
  unfold Transition. destruct (InstanceState.Validate to); [|apply preserves_ret].
  apply inTx_body_preserves. apply preserves_bindR.
  - apply preserves_wrapErr, exec_keeps, keeps_query_one.
  - intros c. destruct (transition_refused _ _ _); [apply preserves_ret|].
    unfold transition_store. solve_pres.
Qed.

Lemma Delete_slots id : preserves (on_db slots_ok) (Delete id).
Proof. apply exec_keeps, keeps_delete_instance. Qed.
End preserved.

#[export] Hint Resolve Reserve_slots BindToInstance_slots ReleaseReserved_slots
  ReleaseForInstance_slots Recover_slots SyncFromProfile_slots Create_slots
  Transition_slots Delete_slots : pres.

(** ** What [Reserve] does *)

Section reserve_spec.
Context `{UUIDLib, Collation}.
Implicit Types (d : DB) (s : Pg).

Lemma slots_keyed d : slots_ok d -> forall i v, db_gpu_slots d !! i = Some v -> gs_ID v = i.
Proof. intros [Hd _] i v Hv. apply (Hd i v Hv). Qed.

Lemma pick_NoDup d n g c : slots_ok d -> NoDup (gs_ID <$> pick_slots n g c (db_gpu_slots d)).
Proof.
  intros Hd. unfold pick_slots. eapply sublist_NoDup; [|apply fmap_sublist, sublist_take].
  rewrite order_by_Permutation. apply filter_rows_keys_NoDup, slots_keyed, Hd.
Qed.

Lemma pick_free n g c m v :
  v ∈ pick_slots n g c m -> free_slot n g v = true /\ v ∈ rows m.
Proof.
  intros Hin%elem_of_take_1. apply elem_of_order_by, elem_of_filter_rows in Hin as [? ?].
  split; [done|]. by apply elem_of_rows.
Qed.

Lemma pick_length n g c m :
  (0 <= c)%Z ->
  Z.of_nat (length (pick_slots n g c m)) = Z.min c (count_where (free_slot n g) m).
Proof.
  intros Hc. unfold pick_slots, count_where. rewrite length_take.
  rewrite (Permutation_length (order_by_Permutation slot_leb _)). lia.
Qed.

Lemma pick_best n g c m p q :
  p ∈ pick_slots n g c m -> q ∈ rows m -> free_slot n g q = true ->
  q ∉ pick_slots n g c m -> slot_leb p q = true.
Proof.
  unfold pick_slots. set (l := order_by slot_leb _). intros Hp Hq Hf Hn.
  assert (q ∈ l) as Hl.
  { apply elem_of_order_by, elem_of_filter_rows. split; [done|]. by apply elem_of_rows. }
  apply (elem_of_take_drop (Z.to_nat c)) in Hl as [|Hl]; [done|].
  assert (StronglySorted (leb_rel slot_leb) l) as Hs.
  { apply order_by_sorted; [apply slot_leb_total|apply slot_leb_trans]. }
  rewrite <- (take_drop (Z.to_nat c) l) in Hs. apply StronglySorted_app in Hs as (Hs & _).
  by apply Hs.
Qed.

(** The table after a reservation, by slot. *)
Lemma reserve_lookup d n g c id :
  slots_ok d ->
  let ids := gs_ID <$> pick_slots n g c (db_gpu_slots d) in
  update_where (fun v => bool_decide (gs_ID v ∈ ids)) reserve_slot (db_gpu_slots d) !! id =
  if decide (id ∈ ids) then reserve_slot <$> db_gpu_slots d !! id else db_gpu_slots d !! id.
Proof.
  intros Hd ids. rewrite lookup_update_where.
  destruct (db_gpu_slots d !! id) as [v|] eqn:Hv; simpl; [|by case_decide].
  rewrite (slots_keyed d Hd id v Hv). case_bool_decide; case_decide; done.
Qed.

Lemma Reserve_Ok n g c s res s' :
  Reserve n g c s = (Ok res, s') ->
  let picked := pick_slots n g c (db_gpu_slots (pg_db s)) in
  (0 < c)%Z /\ (c <= Z.of_nat (length picked))%Z /\ rsv_Slots res = reserve_slot <$> picked /\
  pg_db s' = set_gpu_slots (update_where (fun v => bool_decide (gs_ID v ∈ gs_ID <$> picked))
               reserve_slot (db_gpu_slots (pg_db s))) (pg_db s).
Proof.
  unfold Reserve. destruct (c <=? 0)%Z eqn:Hc; [done|].
  intros (s2 & Hb & ->)%inTx_Ok. inv_ok. unfold lockNodeForReservation, query, reserveFreeSlots in *.
  simplify_eq/=. rewrite length_fmap in Hb. destruct (_ <? c)%Z eqn:Hl; [done|].
  inv_ok. match goal with E : pg_db s = pg_db _ |- _ => rewrite E end.
  split_and!; [lia|lia|done|done].
Qed.

Lemma Reserve_clean n g c s :
  clean s -> (0 < c)%Z ->
  let picked := pick_slots n g c (db_gpu_slots (pg_db s)) in
  if (Z.of_nat (length picked) <? c)%Z then
    (Reserve n g c s).1 = Err (short_error (length picked) c) /\
    pg_db (Reserve n g c s).2 = pg_db s
  else (Reserve n g c s).1 = Ok {| rsv_Slots := reserve_slot <$> picked |}.
Proof.
  intros Hs Hc picked. unfold Reserve. rewrite (proj2 (Z.leb_gt c 0)) by done.
  rewrite inTx_clean; [|done|].
  2:{ intros s0. apply uses_suffix_clean. solve_suffix. }
  unfold wrapErr, bindR, bind, ret. rewrite exec_clean by by apply tick_clean.
  unfold lockNodeForReservation, query. simpl.
  rewrite exec_clean by by do 2 apply tick_clean. unfold reserveFreeSlots. simpl.
  rewrite length_fmap. fold picked. by destruct (_ <? c)%Z.
Qed.
End reserve_spec.

(** Freed slots, by slot: the three releases. *)
Lemma release_lookup P m id :
  update_where P (slot_with SlotStatusFree None) m !! id =
  (fun v => if P v then slot_with SlotStatusFree None v else v) <$> m !! id.
Proof. apply lookup_update_where. Qed.

Lemma set_gpu_slots_twice m m' d : set_gpu_slots m (set_gpu_slots m' d) = set_gpu_slots m d.
Proof. done. Qed.

Lemma set_gpu_slots_id m d : m = db_gpu_slots d -> set_gpu_slots m d = d.
Proof. intros ->. by destruct d. Qed.

Lemma slot_eta v : slot_with (gs_Status v) (gs_CurrentInstanceID v) v = v.
Proof. by destruct v. Qed.

(** ** Properties of the reservation *)

Section properties.
Context `{UUIDLib, Collation}.

(** [Reserve] is exact.  With its round trips served it succeeds exactly
    when the count is positive and the node has that many free slots of the
    size asked for; it then returns that many distinct slots that were free,
    of that size and on that node, none worse (NVLink domain first, then
    domain, then index) than a free slot it left behind, marks exactly those
    reserved and changes no other slot and no other table.  On failure no
    table changes, and the error is [ErrNoFreeSlots] unless the count was
    not positive. *)
Theorem Reserve_spec n g c s :
  clean s -> slots_ok (pg_db s) ->
  let '(r, s') := Reserve n g c s in
  let slots := db_gpu_slots (pg_db s) in
  (is_ok r = true <-> (0 < c <= count_where (free_slot n g) slots)%Z) /\
  match r with
  | Ok res =>
      Z.of_nat (length (IDs res)) = c /\ NoDup (IDs res) /\
      Forall (fun v => gs_Status v = SlotStatusReserved) (rsv_Slots res) /\
      (forall id, id ∈ IDs res -> exists v, slots !! id = Some v /\ free_slot n g v = true) /\
      (forall p q, gs_ID p ∈ IDs res -> slots !! gs_ID p = Some p ->
         slots !! gs_ID q = Some q -> free_slot n g q = true -> gs_ID q ∉ IDs res ->
         slot_leb p q = true) /\
      exists slots', pg_db s' = set_gpu_slots slots' (pg_db s) /\
        forall id, slots' !! id = if decide (id ∈ IDs res) then reserve_slot <$> slots !! id
                                  else slots !! id
  | Err e => pg_db s' = pg_db s /\ (errors_Is e ErrNoFreeSlots = true <-> (0 < c)%Z)
  end.
Proof.
  intros Hs Hd. destruct (decide (0 < c)%Z) as [Hc|Hc].
  2:{ unfold Reserve. destruct (c <=? 0)%Z eqn:E; [|lia]. simpl. split; [split; [done|lia]|].
      split; [done|]. split; [done|lia]. }
  pose proof (Reserve_clean n g c s Hs Hc) as Hcl. cbv zeta in Hcl.
  destruct (Reserve n g c s) as [r s'] eqn:HR. simpl in Hcl.
  pose proof (pick_length n g c (db_gpu_slots (pg_db s)) ltac:(lia)) as Hlen.
  destruct (_ <? c)%Z eqn:Hlt.
  { destruct Hcl as [-> ->]. split; [split; [done|lia]|]. split; [done|]. split; [done|].
    intros _. reflexivity. }
  subst r. apply Reserve_Ok in HR as (_ & Hle & Hsl & Hdb). cbv zeta in *.
  unfold IDs. simpl. rewrite <- list_fmap_compose.
  change (gs_ID ∘ reserve_slot) with gs_ID. set (picked := pick_slots n g c _) in *.
  split; [split; [lia|done]|]. split_and!.
  - rewrite length_fmap. lia.
  - by apply pick_NoDup.
  - apply Forall_fmap, Forall_forall. done.
  - intros id (v & -> & Hv)%list_elem_of_fmap. apply pick_free in Hv as [Hf Hv].
    exists v. split; [|done]. by apply (row_key gs_ID _ (slots_keyed _ Hd)).
  - intros p q (p' & Hp' & Hin)%list_elem_of_fmap Hp Hq Hf Hn.
    assert (p = p') as <-.
    { apply pick_free in Hin as Hrow. destruct Hrow as [_ Hrow].
      apply (row_key gs_ID _ (slots_keyed _ Hd)) in Hrow. congruence. }
    apply (pick_best n g c (db_gpu_slots (pg_db s))); [done| |done|].
    + apply elem_of_rows. eauto.
    + intros Hq'. apply Hn, list_elem_of_fmap. by exists q.
  - eexists. split; [exact Hdb|]. intros id. by apply reserve_lookup.
Qed.

(** No slot is handed out twice.  Two reservations that both succeed,
    the second on the tables the first left, share no slot, whatever nodes
    and sizes they ask for. *)
Theorem Reserve_disjoint n g c n' g' c' s s1 s2 r1 r2 :
  slots_ok (pg_db s) ->
  Reserve n g c s = (Ok r1, s1) -> Reserve n' g' c' s1 = (Ok r2, s2) ->
  forall id, id ∈ IDs r1 -> id ∈ IDs r2 -> False.
Proof.
  intros Hd H1 H2 id Hin1 Hin2. apply Reserve_Ok in H1 as (_ & _ & E1 & Hdb).
  apply Reserve_Ok in H2 as (_ & _ & E2 & _). cbv zeta in *. unfold IDs in *.
  rewrite E1, <- list_fmap_compose in Hin1. rewrite E2, <- list_fmap_compose in Hin2.
  change (gs_ID ∘ reserve_slot) with gs_ID in *.
  apply list_elem_of_fmap in Hin2 as (v & -> & Hv). apply pick_free in Hv as [Hf Hv].
  apply elem_of_rows in Hv as [i Hv]. rewrite Hdb in Hv. simpl in Hv.
  apply lookup_update_where_Some in Hv as (v0 & Hv0 & ->).
  apply bool_decide_eq_true in Hf as (_ & Hf & _).
  case_bool_decide as Hb; simpl in *; [done|]. done.
Qed.

(** Releasing undoes reserving.  [ReleaseReserved] right after a
    successful [Reserve] brings back the slot table it started from, so a
    failed create costs no capacity. *)
Theorem Reserve_ReleaseReserved n g c s res s' :
  slots_ok (pg_db s) -> Reserve n g c s = (Ok res, s') -> clean s' ->
  is_ok (ReleaseReserved res s').1 = true /\ pg_db (ReleaseReserved res s').2 = pg_db s.
Proof.
  intros Hd HR Hs'. pose proof HR as HR'. apply Reserve_Ok in HR as (Hc & Hle & Hsl & Hdb).
  cbv zeta in *. unfold ReleaseReserved. rewrite decide_False.
  2:{ rewrite Hsl, length_fmap. lia. }
  unfold bindR, bind, ret. rewrite exec_clean by done. simpl. split; [done|].
  rewrite Hdb, set_gpu_slots_twice. simpl. apply set_gpu_slots_id.
  apply map_eq. intros id. rewrite release_lookup, reserve_lookup by done.
  destruct (db_gpu_slots (pg_db s) !! id) as [v|] eqn:Hv; simpl; [|by case_decide].
  pose proof (slots_keyed _ Hd id v Hv) as Hk. unfold reserved_in, IDs. rewrite Hsl.
  rewrite <- list_fmap_compose. change (gs_ID ∘ reserve_slot) with gs_ID.
  case_decide as Hin; simpl; f_equal.
  - rewrite bool_decide_eq_true_2 by (simpl; rewrite Hk; done).
    apply list_elem_of_fmap in Hin as (v' & -> & Hv'). apply pick_free in Hv' as [Hf Hv'].
    apply elem_of_rows in Hv' as [i Hi].
    pose proof (slots_keyed _ Hd i v' Hi) as Hk'. rewrite Hk' in Hv. simplify_eq.
    apply bool_decide_eq_true in Hf as (_ & Hst & _).
    assert (gs_CurrentInstanceID v = None) as Hcur.
    { apply (slots_ok_none _ (gs_ID v) v Hd); [done|]. by rewrite Hst. }
    rewrite <- (slot_eta v) at 2. by rewrite Hst, Hcur.
  - rewrite bool_decide_eq_false_2; [done|]. rewrite Hk. by intros [? _].
Qed.
End properties.

(** ** Binding, recovery and the profile *)

Lemma bindSlot_Ok id i e d v d' :
  bindSlotToInstance id (Some i) e d = (Ok v, d') ->
  exists v0, db_gpu_slots d !! id = Some v0 /\ gs_Status v0 = SlotStatusReserved /\
    is_Some (db_instances d !! i) /\ v = slot_with SlotStatusInUse (Some i) v0 /\
    d' = set_gpu_slots (<[id := v]> (db_gpu_slots d)) d.
Proof.
  unfold bindSlotToInstance. intros Hb. destruct (db_gpu_slots d !! id) as [v0|]; [|done].
  case_decide; [|done]. destruct (fk_ok _ _) eqn:Hk; [|done]. apply fk_ok_Some in Hk.
  injection Hb as <- <-. eauto 7.
Qed.

Lemma bind_loop_Ok `{UUIDLib} i (l : list GpuSlot) s s' :
  forRangeR l (fun v =>
      bindR (wrapErr ("bind slot " +:+ uuid_String (gs_ID v) +:+ ": ")
              (exec (bindSlotToInstance (gs_ID v) (Some i)))) (fun _ => ret (Ok tt))) s = (Ok tt, s') ->
  exists m', pg_db s' = set_gpu_slots m' (pg_db s) /\
    (forall id, m' !! id = if decide (id ∈ gs_ID <$> l)
       then slot_with SlotStatusInUse (Some i) <$> db_gpu_slots (pg_db s) !! id
       else db_gpu_slots (pg_db s) !! id) /\
    (forall id, id ∈ gs_ID <$> l -> exists v, db_gpu_slots (pg_db s) !! id = Some v /\
       gs_Status v = SlotStatusReserved).
Proof.
  revert s. induction l as [|v l IH]; intros s Hl; simpl in Hl.
  - injection Hl as <-. exists (db_gpu_slots (pg_db s)). split; [symmetry; by apply set_gpu_slots_id|].
    split; [|by intros id Hid%not_elem_of_nil].
    intros id. rewrite decide_False; [done|]. apply not_elem_of_nil.
  - inv_ok. rewrite fmap_cons. apply bindSlot_Ok in Hok0 as (v0 & Hv0 & Hst0' & _ & -> & Hd).
    apply IH in Hl as (m' & Hdb & Hm' & Hres). rewrite Hd in *. simpl in *.
    exists m'. split; [done|]. split.
    + intros id. rewrite Hm'. destruct (decide (id = gs_ID v)) as [->|Hne].
      * rewrite lookup_insert_eq, Hv0, (decide_True (P := _ ∈ _ :: _)) by left.
        destruct (decide _) as [Hin|]; [|done].
        destruct (Hres (gs_ID v) Hin) as (v' & Hv' & Hst').
        rewrite lookup_insert_eq in Hv'. by simplify_eq.
      * rewrite lookup_insert_ne by done. apply decide_ext.
        rewrite elem_of_cons. naive_solver.
    + intros id Hid. apply elem_of_cons in Hid as [->|Hin]; [by eauto|].
      destruct (Hres id Hin) as (v' & Hv' & Hst'). rewrite lookup_insert in Hv'.
      case_decide; simplify_eq. eauto.
Qed.

(** What a profile entry says of a slot. *)
Definition matches (n : UUID) (p : ProfileSlot) (v : GpuSlot) : Prop :=
  gs_NodeID v = n /\ gs_SlotIndex v = ps_SlotIndex p /\ gs_GpuCount v = ps_GpuCount p /\
  Some (gs_GpuIndices v) = ps_GpuIndices p /\ gs_NvlinkDomain v = ps_NvlinkDomain p /\
  gs_Status v = SlotStatusFree /\ gs_CurrentInstanceID v = None.

Lemma insertSlot_Ok arg e d v d' :
  insertSlot arg e d = (Ok v, d') ->
  db_gpu_slots d !! gs_ID v = None /\
  d' = set_gpu_slots (<[gs_ID v := v]> (db_gpu_slots d)) d /\
  exists l, isp_GpuIndices arg = Some l /\ v = new_slot e arg l.
Proof.
  unfold insertSlot. intros Hi. destruct (isp_GpuIndices arg) as [l|]; [|done].
  destruct (fk_ok _ (db_gpu_slots d)) eqn:Hk; [by repeat case_match|].
  apply fk_ok_None_lookup in Hk.
  assert (Hi' : v = new_slot e arg l /\ d' = set_gpu_slots (<[gs_ID v := v]> (db_gpu_slots d)) d)
    by (repeat case_match; simplify_eq; done).
  destruct Hi' as [-> ->]. eauto.
Qed.

Lemma insert_loop_Ok n l s s' :
  insert_profile_slots n l s = (Ok tt, s') ->
  exists m', pg_db s' = set_gpu_slots m' (pg_db s) /\
    (forall id v, m' !! id = Some v -> db_gpu_slots (pg_db s) !! id = Some v \/
                                       exists p, p ∈ l /\ matches n p v) /\
    (forall id v, db_gpu_slots (pg_db s) !! id = Some v -> m' !! id = Some v) /\
    (forall p, p ∈ l -> exists id v, m' !! id = Some v /\ matches n p v).
Proof.
  unfold insert_profile_slots. revert s. induction l as [|p l IH]; intros s Hl; simpl in Hl.
  - injection Hl as <-. exists (db_gpu_slots (pg_db s)). split; [symmetry; by apply set_gpu_slots_id|].
    split_and!; [auto|auto|]. by intros p Hp%not_elem_of_nil.
  - inv_ok. apply insertSlot_Ok in Hok0 as (Hnone & Hd & idx & Hidx & Hv).
    apply IH in Hl as (m' & Hdb & Hold & Hkeep & Hnew). rewrite Hd in *. simpl in *.
    match goal with Hx : ?x = new_slot _ _ _ |- _ => rename x into v0 end.
    assert (matches n p v0) as Hm by by rewrite Hv.
    exists m'. split; [done|]. split_and!.
    + intros id v Hid. destruct (Hold id v Hid) as [Ho|(p' & ? & ?)].
      * rewrite lookup_insert in Ho. case_decide; simplify_eq; [|by left].
        right. exists p. split; [left|done].
      * right. exists p'. split; [by right|done].
    + intros id v Hid. apply Hkeep. rewrite lookup_insert_ne; [done|]. intros Heq. congruence.
    + intros p' Hp'. apply elem_of_cons in Hp' as [->|Hp']; [|by apply Hnew].
      exists (gs_ID v0), v0. split; [|done]. apply Hkeep, lookup_insert_eq.
Qed.

Lemma getNode_Ok id e d n d' :
  getNode id e d = (Ok n, d') -> db_nodes d !! id = Some n /\ d' = d.
Proof. apply (query_one_Ok (fun d => db_nodes d !! id)). Qed.

Lemma suffix_insert_profile n l : uses_suffix (insert_profile_slots n l).
Proof. unfold insert_profile_slots. solve_suffix. Qed.

Lemma answered_exec {A} (q : Stmt A) s : answered s -> answered (exec q s).2.
Proof. apply uses_suffix_answered, uses_suffix_exec. Qed.

Lemma Sync_Err n h l s e :
  answered s -> (SyncFromProfile n h l s).1 = Err e ->
  pg_db (SyncFromProfile n h l s).2 = pg_db s.
Proof.
  intros Ha. unfold SyncFromProfile. rewrite bindR_eq, wrapErr_eq.
  pose proof (exec_Err (getNode n) s) as Hget. pose proof (answered_exec (getNode n) s Ha) as Ha1.
  destruct (exec (getNode n) s) as [[nd|e1] s1] eqn:Hg; simpl in *.
  2:{ intros _. apply (Hget e1); [|done|done]. intros e0 d err. unfold getNode, query_one.
      by case_match. }
  apply exec_Ok in Hg as [Hg _]. apply getNode_Ok in Hg as [_ <-].
  case_match; [done|]. apply inTx_atomic; [|done]. solve_suffix. apply suffix_insert_profile.
Qed.

Lemma Sync_Ok n h l s r s' :
  SyncFromProfile n h l s = (Ok r, s') ->
  exists nd, db_nodes (pg_db s) !! n = Some nd /\
  let slots := db_gpu_slots (pg_db s) in
  let kept := filter (fun kv : UUID * GpuSlot => gs_NodeID kv.2 <> n) slots in
  match r with
  | SyncUnchanged => pg_db s' = pg_db s /\ h <> "" /\ nd_ProfileHash nd = h
  | SyncDegraded => pg_db s' = pg_db s /\
      (0 < count_where (fun v => bool_decide (gs_NodeID v = n /\ gs_Status v <> SlotStatusFree)) slots)%Z
  | SyncReplaced =>
      (forall id v, slots !! id = Some v -> gs_NodeID v = n -> gs_Status v = SlotStatusFree) /\
      exists m' env, pg_db s' = set_nodes (alter (set_profile_hash env h) n (db_nodes (pg_db s)))
                                  (set_gpu_slots m' (pg_db s)) /\
        (forall id v, m' !! id = Some v -> kept !! id = Some v \/ exists p, p ∈ l /\ matches n p v) /\
        (forall id v, kept !! id = Some v -> m' !! id = Some v) /\
        (forall p, p ∈ l -> exists id v, m' !! id = Some v /\ matches n p v)
  end.
Proof.
  unfold SyncFromProfile. intros HS. apply bindR_Ok in HS as (nd & s1 & Hg & HS).
  apply wrapErr_Ok, exec_Ok in Hg as [Hg _]. apply getNode_Ok in Hg as [Hn Hd1].
  exists nd. split; [done|]. rewrite <- Hd1. clear Hd1 Hn. destruct (_ && _) eqn:Hh.
  { inv_ok. apply andb_true_iff in Hh as [Hh1%String.eqb_eq Hh2%negb_true_iff].
    apply String.eqb_neq in Hh2. done. }
  apply inTx_Ok in HS as (s2 & Hb & ->). apply bindR_Ok in Hb as (inUse & s3 & Hc & Hb).
  apply wrapErr_Ok, exec_Ok in Hc as [Hc _]. injection Hc as <- Hd3.
  simpl in Hb, Hd3. destruct (0 <? _)%Z eqn:Hpos.
  { inv_ok. simpl. split; [congruence|lia]. }
  apply bindR_Ok in Hb as (cnt & s4 & Hdel & Hb). apply wrapErr_Ok, exec_Ok in Hdel as [Hdel _].
  injection Hdel as _ Hd4. apply bindR_Ok in Hb as ([] & s5 & Hins & Hb).
  apply insert_loop_Ok in Hins as (m' & Hd5 & Hold & Hkeep & Hnew).
  apply bindR_Ok in Hb as ([] & s6 & Hup & Hb). apply wrapErr_Ok, exec_Ok in Hup as [Hup _].
  injection Hup as Hd6. inv_ok. rewrite <- Hd4, <- Hd3 in *. simpl in *. split.
  - intros id v Hv Hnv. destruct (decide (gs_Status v = SlotStatusFree)) as [|Hne]; [done|].
    apply Z.ltb_nlt in Hpos. exfalso. apply Hpos, count_where_pos. exists id, v.
    split; [congruence|]. by apply bool_decide_eq_true.
  - exists m'. eexists. rewrite <- Hd6, Hd5. split; [reflexivity|]. done.
Qed.

Section more_properties.
Context `{UUIDLib, Collation}.

(** Binding is all or nothing.  A successful [BindToInstance] turns every
    slot of the reservation, each of which was still reserved, into a slot
    in use by the instance, and changes nothing else; a failed one changes
    nothing (unless an answer was lost). *)
Theorem BindToInstance_spec res i s :
  answered s ->
  let '(r, s') := BindToInstance res i s in
  let slots := db_gpu_slots (pg_db s) in
  match r with
  | Ok _ =>
      (forall id, id ∈ IDs res -> exists v, slots !! id = Some v /\ gs_Status v = SlotStatusReserved) /\
      exists slots', pg_db s' = set_gpu_slots slots' (pg_db s) /\
        forall id, slots' !! id = if decide (id ∈ IDs res)
          then slot_with SlotStatusInUse (Some i) <$> slots !! id else slots !! id
  | Err _ => pg_db s' = pg_db s
  end.
Proof.
  intros Hs. destruct (BindToInstance res i s) as [[[]|e] s'] eqn:HB.
  - unfold BindToInstance in HB. apply inTx_Ok in HB as (s2 & Hb & ->).
    apply bind_loop_Ok in Hb as (m' & Hd & Hm & Hr). simpl in *. eauto.
  - change s' with ((Err e : result unit, s').2). rewrite <- HB.
    unfold BindToInstance in *. apply (inTx_atomic _ _ e); [solve_suffix|done|by rewrite HB].
Qed.

(** Start-up recovery.  [RecoverOrphanReservations] frees every reserved
    slot (the process that reserved it is gone) and leaves slots in use,
    draining or free as they are; it reports how many it freed. *)
Theorem Recover_spec s :
  clean s -> slots_ok (pg_db s) ->
  let '(r, s') := RecoverOrphanReservations s in
  r = Ok (count_where (fun v => bool_decide (gs_Status v = SlotStatusReserved)) (db_gpu_slots (pg_db s))) /\
  exists slots', pg_db s' = set_gpu_slots slots' (pg_db s) /\
    forall id, slots' !! id =
      (fun v => if decide (gs_Status v = SlotStatusReserved)
                then slot_with SlotStatusFree None v else v) <$> db_gpu_slots (pg_db s) !! id.
Proof.
  intros Hs Hd. unfold RecoverOrphanReservations. rewrite exec_clean by done. simpl.
  assert (forall id v, db_gpu_slots (pg_db s) !! id = Some v ->
    orphan_reserved v = bool_decide (gs_Status v = SlotStatusReserved)) as Ho.
  { intros id v Hv. apply bool_decide_ext. split; [tauto|]. intros Hst. split; [done|].
    apply (slots_ok_none _ id v Hd Hv). by rewrite Hst. }
  split.
  - f_equal. unfold count_where. do 2 f_equal. apply List.filter_ext_in.
    intros v Hin. apply list_elem_of_In, elem_of_rows in Hin as [id Hv]. by apply (Ho id).
  - eexists. split; [done|]. intros id. rewrite release_lookup.
    destruct (db_gpu_slots (pg_db s) !! id) as [v|] eqn:Hv; [|done]. simpl.
    rewrite (Ho id v Hv). by case_bool_decide; case_decide.
Qed.

(** [SyncFromProfile] never takes a slot away from an instance.  It
    leaves every table alone when the stored hash is the reported one, or
    when some slot of the node is not free (degraded), or on an error with
    no answer lost; it replaces the slots only when all of the node's slots
    are free, and then the node's slots are exactly the reported entries,
    one free slot each, the other nodes' slots are untouched and the hash is
    stored. *)
Theorem SyncFromProfile_spec n h l s :
  answered s ->
  let '(r, s') := SyncFromProfile n h l s in
  let slots := db_gpu_slots (pg_db s) in
  match r with
  | Err _ => pg_db s' = pg_db s
  | Ok SyncUnchanged => pg_db s' = pg_db s /\ h <> "" /\
      exists nd, db_nodes (pg_db s) !! n = Some nd /\ nd_ProfileHash nd = h
  | Ok SyncDegraded => pg_db s' = pg_db s /\
      exists id v, slots !! id = Some v /\ gs_NodeID v = n /\ gs_Status v <> SlotStatusFree
  | Ok SyncReplaced =>
      (forall id v, slots !! id = Some v -> gs_NodeID v = n -> gs_Status v = SlotStatusFree) /\
      db_instances (pg_db s') = db_instances (pg_db s) /\
      (forall id v, gs_NodeID v <> n -> (db_gpu_slots (pg_db s') !! id = Some v <-> slots !! id = Some v)) /\
      (forall id v, db_gpu_slots (pg_db s') !! id = Some v -> gs_NodeID v = n ->
         exists p, p ∈ l /\ matches n p v) /\
      (forall p, p ∈ l -> exists id v, db_gpu_slots (pg_db s') !! id = Some v /\ matches n p v) /\
      exists nd, db_nodes (pg_db s') !! n = Some nd /\ nd_ProfileHash nd = h
  end.
Proof.
  intros Ha. pose proof (fun e => Sync_Err n h l s e Ha) as Herr.
  destruct (SyncFromProfile n h l s) as [[r|e] s'] eqn:HS; [clear Herr|by apply (Herr e)].
  apply Sync_Ok in HS as (nd & Hn & Hc). destruct r.
  - naive_solver.
  - destruct Hc as (Hfree & m' & env & Hdb & Hold & Hkeep & Hnew). rewrite Hdb. simpl.
    assert (forall id v, gs_NodeID v <> n ->
      filter (fun kv : UUID * GpuSlot => gs_NodeID kv.2 <> n) (db_gpu_slots (pg_db s)) !! id = Some v <->
      db_gpu_slots (pg_db s) !! id = Some v) as Hother.
    { intros id v Hne. rewrite map_lookup_filter_Some. naive_solver. }
    split_and!; [done|done| | |done|].
    + intros id v Hne. rewrite <- Hother by done. split; [|by apply Hkeep].
      intros Hv. destruct (Hold id v Hv) as [|(p & _ & Hm & _)]; [done|congruence].
    + intros id v Hv Hnv. destruct (Hold id v Hv) as [Ho|?]; [|done].
      by apply map_lookup_filter_Some in Ho as [_ ?].
    + rewrite lookup_alter_eq, Hn. simpl. eauto.
  - destruct Hc as [-> (id & v & Hv & HP)%count_where_pos].
    apply bool_decide_eq_true in HP as [? ?]. split; [done|]. eauto.
Qed.
End more_properties.

(** ** Witnesses *)

Lemma demo_slots_cases id v :
  db_gpu_slots demo_db !! id = Some v ->
  (id, v) ∈ [(10%N, demo_slot 10 0 "" SlotStatusInUse (Some 5%N));
             (11%N, demo_slot 11 1 "nv0" SlotStatusFree None);
             (12%N, demo_slot 12 2 "" SlotStatusFree None)].
Proof.
  unfold demo_db. simpl. intros Hv. rewrite !lookup_insert, lookup_singleton in Hv.
  rewrite !elem_of_cons. repeat case_decide; simplify_eq; auto.
Qed.

Lemma demo_slots_ok : slots_ok demo_db.
Proof.
  split.
  - intros id v Hv%demo_slots_cases. rewrite !elem_of_cons, elem_of_nil in Hv.
    destruct_or! Hv; try done; simplify_eq; (constructor; [done|done|by eexists|]); intros i; simpl;
      try done. intros [= <-]. split; [done|by eexists].
  - intros id id' v v' Hv%demo_slots_cases Hv'%demo_slots_cases _.
    rewrite !elem_of_cons, elem_of_nil in Hv, Hv'.
    destruct_or! Hv; try done; destruct_or! Hv'; try done; by simplify_eq.
Qed.

Section witnesses.
#[local] Existing Instances DemoUUID.lib C_collation.

Lemma Reserve_spec_witness :
  is_ok (Reserve 3 1 2 (demo [])).1 = true /\ is_ok (Reserve 3 1 3 (demo [])).1 = false.
Proof.
  pose proof (Reserve_spec 3 1 2 (demo []) eq_refl demo_slots_ok) as H2.
  pose proof (Reserve_spec 3 1 3 (demo []) eq_refl demo_slots_ok) as H3.
  destruct (Reserve 3 1 2 (demo [])) as [r2 s2], (Reserve 3 1 3 (demo [])) as [r3 s3].
  split.
  - apply H2. vm_compute. done.
  - apply not_true_iff_false. intros E. apply H3 in E. vm_compute in E. by destruct E.
Defined.

Definition res1 : Reservation :=
  {| rsv_Slots := [demo_slot 11 1 "nv0" SlotStatusReserved None] |}.
Definition res2 : Reservation :=
  {| rsv_Slots := [demo_slot 12 2 "" SlotStatusReserved None] |}.

Lemma Reserve_disjoint_witness : 11%N ∈ IDs res1 /\ ~ 11%N ∈ IDs res2.
Proof.
  split; [vm_compute; left|]. intros Hin.
  refine (Reserve_disjoint 3 1 1 3 1 1 (demo []) (Reserve 3 1 1 (demo [])).2
    (Reserve 3 1 1 (Reserve 3 1 1 (demo [])).2).2 res1 res2 demo_slots_ok _ _ 11 _ Hin);
    [vm_compute; reflexivity|vm_compute; reflexivity|vm_compute; left].
Defined.

Lemma Reserve_ReleaseReserved_witness :
  pg_db (ReleaseReserved res1 (Reserve 3 1 1 (demo [])).2).2 = demo_db.
Proof.
  refine (proj2 (Reserve_ReleaseReserved 3 1 1 (demo []) res1 (Reserve 3 1 1 (demo [])).2
    demo_slots_ok _ eq_refl)). vm_compute. reflexivity.
Defined.

(** The second bind of a duplicated slot fails, and the first is undone. *)
Lemma BindToInstance_spec_witness :
  let s := (Reserve 3 1 1 (demo [])).2 in
  pg_db (BindToInstance {| rsv_Slots := rsv_Slots res1 ++ rsv_Slots res1 |} 5 s).2 = pg_db s.
Proof.
  intros s. pose proof (BindToInstance_spec {| rsv_Slots := rsv_Slots res1 ++ rsv_Slots res1 |} 5 s
    ltac:(constructor)) as Hb.
  destruct (BindToInstance _ 5 s) as [[[]|e] s'] eqn:E; [|exact Hb].
  vm_compute in E. discriminate E.
Defined.

Lemma Recover_spec_witness :
  let s := (Reserve 3 1 2 (demo [])).2 in
  clean s /\ slots_ok (pg_db s) /\ (RecoverOrphanReservations s).1 = Ok 2%Z.
Proof.
  intros s. assert (slots_ok (pg_db s)) as Hok by (apply Reserve_slots, demo_slots_ok).
  split; [reflexivity|]. split; [exact Hok|].
  pose proof (Recover_spec s eq_refl Hok) as Hr. destruct (RecoverOrphanReservations s) as [r s'].
  destruct Hr as [-> _]. vm_compute. reflexivity.
Defined.

Lemma SyncFromProfile_spec_witness :
  pg_db (SyncFromProfile 3 "p1" [] (demo [])).2 = demo_db.
Proof.
  pose proof (SyncFromProfile_spec 3 "p1" [] (demo []) ltac:(constructor)) as Hs.
  destruct (SyncFromProfile 3 "p1" [] (demo [])) as [r s'] eqn:E. vm_compute in E.
  injection E as <- <-. exact (proj1 Hs).
Defined.
End witnesses.
