(* ===== verification/CreditRepo.v ===== *)
(** * Credit: ledger and cached balance (internal/credit/repo.go) *)

From S2P Require Import Prelude GoStrings Proto Db Queries Demo.

#[local] Open Scope string_scope.
#[local] Open Scope list_scope.
#[local] Open Scope go_scope.

Definition ErrDuplicateIdempotency : error := Sentinel "credit: duplicate idempotency key".
Definition ErrInsufficientBalance : error := Sentinel "credit: insufficient balance".

Record PostInput := {
  pi_UserID : UUID;
  pi_DeltaMilli : Z;
  pi_Reason : string;
  pi_InstanceID : option UUID;
  pi_IdempotencyKey : string;
  pi_Metadata : string
}.

Definition isUniqueViolation (err : error) : bool :=
  match errors_As_SQLState err with
  | Some c => String.eqb c "23505"
  | None => false
  end.

Definition ledger_params (inp : PostInput) : InsertCreditLedgerEntryParams :=
  {| lep_UserID := pi_UserID inp; lep_DeltaMilli := pi_DeltaMilli inp;
     lep_Reason := pi_Reason inp; lep_InstanceID := pi_InstanceID inp;
     lep_IdempotencyKey := pi_IdempotencyKey inp;
     lep_Metadata := if String.eqb (pi_Metadata inp) "" then "{}" else pi_Metadata inp |}.

Definition insert_error (err : error) : error :=
  if isUniqueViolation err then ErrDuplicateIdempotency else ErrWrap "insert ledger: " err "".

(** The insert, with its error classified. *)
Definition post_insert (inp : PostInput) : ST Pg (result CreditLedger) :=
  r <- exec (insertCreditLedgerEntry (ledger_params inp)) ;;
  ret match r with
      | Ok row => Ok row
      | Err err => Err (insert_error err)
      end.

Definition Post (inp : PostInput) : ST Pg (result CreditLedger) :=
  if String.eqb (pi_IdempotencyKey inp) "" then
    ret (Err (ErrNew "credit: idempotency_key required"))
  else inTx
    (row <-? post_insert inp ;;
     _ <-? wrapErr "update balance: " (exec (upsertCredits (pi_UserID inp) (pi_DeltaMilli inp))) ;;
     ret (Ok row)).

Definition Balance (userID : UUID) : ST Pg (result Z) :=
  r <- exec (getCredits userID) ;;
  ret match r with
      | Ok c => Ok (cr_BalanceMilli c)
      | Err err => if errors_Is err ErrNoRows then Ok 0%Z
                   else Err (ErrWrap "get credits: " err "")
      end.

Definition History (userID : UUID) (limit : Z) : ST Pg (result (list CreditLedger)) :=
  let limit := if (limit <=? 0)%Z || (200 <? limit)%Z then 50%Z else limit in
  exec (listCreditLedgerEntries userID limit).

Definition UsersWithNegativeBalance : ST Pg (result (list UUID)) :=
  exec listUsersWithNegativeBalance.

(** ** The invariant: the balance is the sum of the ledger *)

Fixpoint ledger_sum (u : UUID) (l : list CreditLedger) : Z :=
  match l with
  | [] => 0
  | e :: l' => (if decide (cl_UserID e = u) then cl_DeltaMilli e else 0) + ledger_sum u l'
  end.

Definition balance_of (d : DB) (u : UUID) : Z :=
  match db_credits d !! u with Some c => cr_BalanceMilli c | None => 0 end.

Record ledger_ok (d : DB) : Prop := {
  lo_sum : forall u, balance_of d u = ledger_sum u (db_credit_ledger d);
  lo_keys : NoDup (cl_IdempotencyKey <$> db_credit_ledger d);
  lo_user : forall u c, db_credits d !! u = Some c -> cr_UserID c = u
}.

Lemma ledger_sum_app u l1 l2 : ledger_sum u (l1 ++ l2) = (ledger_sum u l1 + ledger_sum u l2)%Z.
Proof. induction l1 as [|e l1 IH]; simpl; [done|]. rewrite IH. lia. Qed.

Lemma ledger_ok_frame d d' :
  db_credits d' = db_credits d -> db_credit_ledger d' = db_credit_ledger d ->
  ledger_ok d -> ledger_ok d'.
Proof.
  intros Hc Hl [Hs Hk Hu]. constructor; unfold balance_of; rewrite ?Hc, ?Hl; done.
Qed.

Lemma has_key_elem key l :
  existsb (has_key key) l = true <-> key ∈ cl_IdempotencyKey <$> l.
Proof.
  rewrite existsb_exists, list_elem_of_fmap. unfold has_key. split.
  - intros (e & Hin & Hk%String.eqb_eq). exists e. by rewrite list_elem_of_In.
  - intros (e & -> & Hin). exists e. rewrite <- list_elem_of_In, String.eqb_eq. done.
Qed.

Lemma insertLedger_Ok arg e d row d' :
  insertCreditLedgerEntry arg e d = (Ok row, d') ->
  existsb (has_key (lep_IdempotencyKey arg)) (db_credit_ledger d) = false /\
  row = new_entry e arg /\ d' = set_credit_ledger (db_credit_ledger d ++ [row]) d.
Proof.
  unfold insertCreditLedgerEntry. intros H. destruct (existsb _ _); [done|].
  destruct (negb _); [done|]. by simplify_eq.
Qed.

Lemma upsertCredits_Ok u x e d a d' :
  upsertCredits u x e d = (Ok a, d') ->
  exists c, d' = set_credits (<[u := c]> (db_credits d)) d /\ cr_UserID c = u /\
    cr_BalanceMilli c = (balance_of d u + x)%Z.
Proof.
  unfold upsertCredits, balance_of. intros H.
  destruct (db_credits d !! u); [destruct (is_int64 _)|destruct (negb _)]; simplify_eq; eauto.
Qed.

Lemma post_insert_Ok inp s row s' :
  post_insert inp s = (Ok row, s') ->
  exec (insertCreditLedgerEntry (ledger_params inp)) s = (Ok row, s').
Proof.
  unfold post_insert, bind, ret.
  destruct (exec _ s) as [[r|e] s1]; [by intros [= -> ->]|done].
Qed.

(** What a successful [Post] wrote. *)
Lemma Post_Ok inp s row s' :
  Post inp s = (Ok row, s') ->
  exists c, pi_IdempotencyKey inp <> "" /\
    pi_IdempotencyKey inp ∉ cl_IdempotencyKey <$> db_credit_ledger (pg_db s) /\
    cl_UserID row = pi_UserID inp /\ cl_DeltaMilli row = pi_DeltaMilli inp /\
    cl_IdempotencyKey row = pi_IdempotencyKey inp /\ cl_InstanceID row = pi_InstanceID inp /\
    cr_UserID c = pi_UserID inp /\
    cr_BalanceMilli c = (balance_of (pg_db s) (pi_UserID inp) + pi_DeltaMilli inp)%Z /\
    pg_db s' = set_credits (<[pi_UserID inp := c]> (db_credits (pg_db s)))
                 (set_credit_ledger (db_credit_ledger (pg_db s) ++ [row]) (pg_db s)).
Proof.
  unfold Post. destruct (String.eqb_spec (pi_IdempotencyKey inp) ""); [done|].
  intros (s2 & Hb & ->)%inTx_Ok. apply bindR_Ok in Hb as (r & s1 & Hi & Hb).
  apply post_insert_Ok, exec_Ok in Hi as [Hi _]. apply insertLedger_Ok in Hi as (Hk & -> & Hd1).
  inv_ok. apply upsertCredits_Ok in Hok as (c & Hd2 & Hcu & Hcb). exists c. simpl in *.
  rewrite Hd1 in *. apply not_true_iff_false in Hk. rewrite has_key_elem in Hk.
  split_and!; done.
Qed.

(** The two statements keep the invariant. *)
Lemma body_ledger inp e1 e2 d row d1 u d2 :
  ledger_ok d -> insertCreditLedgerEntry (ledger_params inp) e1 d = (Ok row, d1) ->
  upsertCredits (pi_UserID inp) (pi_DeltaMilli inp) e2 d1 = (Ok u, d2) -> ledger_ok d2.
Proof.
  intros [Hs Hkeys Hu] (Hk & -> & Hd1)%insertLedger_Ok (c & Hd2 & Hcu & Hcb)%upsertCredits_Ok. rewrite Hd2, Hd1.
  unfold balance_of in *. rewrite Hd1 in Hcb. simpl in *. constructor; simpl.
  - intros v. unfold balance_of. simpl. rewrite ledger_sum_app, lookup_insert. simpl.
    rewrite <- Hs. destruct (decide (pi_UserID inp = v)); subst; [|lia]. rewrite Hcb. lia.
  - rewrite fmap_app. apply NoDup_app. split; [done|]. split; [|apply NoDup_singleton].
    intros k Hin Hk1%list_elem_of_singleton. subst. apply not_true_iff_false in Hk. apply Hk.
    by apply has_key_elem.
  - intros v c'. rewrite lookup_insert. case_decide; [by intros [= <-]; subst|apply Hu].
Qed.

Lemma Post_ledger inp : preserves (on_db ledger_ok) (Post inp).
Proof.
  unfold Post. case_match; [apply preserves_ret|]. apply inTx_preserves.
  intros s row s' Hs Hb. apply bindR_Ok in Hb as (r & s1 & Hi & Hb). apply post_insert_Ok, exec_Ok in Hi as [Hi _].
  inv_ok. by eapply body_ledger.
Qed.

#[export] Hint Resolve Post_ledger : pres.

Lemma suffix_post_insert inp : uses_suffix (post_insert inp).
Proof. unfold post_insert. solve_suffix. Qed.

Lemma suffix_Post inp : uses_suffix (Post inp).
Proof.
  unfold Post. case_match; [apply uses_suffix_ret|]. solve_suffix. apply suffix_post_insert.
Qed.

(** [Post] when every round trip is served. *)
Lemma Post_clean inp s :
  clean s -> pi_IdempotencyKey inp <> "" ->
  let d := pg_db s in
  let u := pi_UserID inp in
  let '(r, s') := Post inp s in
  clean s' /\
  if existsb (has_key (pi_IdempotencyKey inp)) (db_credit_ledger d) then
    r = Err ErrDuplicateIdempotency /\ pg_db s' = d
  else if decide (is_Some (db_users d !! u) /\
                  (db_credits d !! u = None \/
                   is_int64 (balance_of d u + pi_DeltaMilli inp)%Z = true)) then is_ok r = true
  else is_ok r = false /\ errors_Is (if r is Err e then e else ErrNew "") ErrDuplicateIdempotency = false /\
       pg_db s' = d.
Proof.
  intros Hs Hk d u. pose proof (uses_suffix_clean _ s (suffix_Post inp) Hs) as Hcl.
  destruct (Post inp s) as [r s'] eqn:HP. split; [done|]. clear Hcl. unfold Post in HP.
  destruct (String.eqb_spec (pi_IdempotencyKey inp) ""); [done|].
  rewrite inTx_clean in HP; [|done|].
  2:{ intros s0. apply uses_suffix_clean. solve_suffix. apply suffix_post_insert. }
  unfold post_insert, wrapErr, bindR, bind, ret in HP.
  rewrite exec_clean in HP by by apply tick_clean.
  unfold insertCreditLedgerEntry in HP. simpl in HP. fold d in HP.
  destruct (existsb _ _) eqn:Hex; simpl in HP; [by simplify_eq/=|].
  fold u in HP. case_bool_decide as Hu; simpl in HP.
  2:{ simplify_eq/=. rewrite decide_False by tauto. done. }
  rewrite exec_clean in HP by by do 2 apply tick_clean. unfold upsertCredits in HP. simpl in HP.
  unfold balance_of. destruct (db_credits d !! u) as [c|] eqn:Hc.
  - destruct (is_int64 _) eqn:H64; simpl in HP; simplify_eq/=.
    + rewrite decide_True by auto. done.
    + rewrite decide_False by naive_solver. done.
  - rewrite bool_decide_eq_true_2 in HP by done. simplify_eq/=. rewrite decide_True by auto. done.
Qed.

Lemma newer_entry_true a b :
  newer_entry a b = true <->
  (cl_CreatedAt b < cl_CreatedAt a)%Z \/
  (cl_CreatedAt b = cl_CreatedAt a /\ (cl_ID b <= cl_ID a)%N).
Proof.
  unfold newer_entry. by rewrite orb_true_iff, andb_true_iff, Z.ltb_lt, Z.eqb_eq, N.leb_le.
Qed.

(** ** Properties *)

(** C8: the cached balance is the sum of the ledger.  [Post] keeps every
    user's balance equal to the sum of the user's ledger entries and keeps
    idempotency keys unique, whatever its round trips do. *)
Theorem balance_is_ledger_sum inp s :
  ledger_ok (pg_db s) ->
  ledger_ok (pg_db (Post inp s).2).
Proof. apply Post_ledger. Qed.

(** Posting is idempotent.  With round trips served, once a key is in the
    ledger, posting it again, with any amount, reports
    [ErrDuplicateIdempotency] and changes no table; and a first post that
    succeeds changes the user's balance by exactly its delta and nobody
    else's. *)
Theorem Post_idempotent inp inp' s row s' :
  Post inp s = (Ok row, s') -> clean s' ->
  pi_IdempotencyKey inp' = pi_IdempotencyKey inp ->
  (forall u, balance_of (pg_db s') u =
     (balance_of (pg_db s) u + if decide (u = pi_UserID inp) then pi_DeltaMilli inp else 0)%Z) /\
  (Post inp' s').1 = Err ErrDuplicateIdempotency /\ pg_db (Post inp' s').2 = pg_db s'.
Proof.
  intros HP Hs' Hkey. apply Post_Ok in HP as (c & Hk & _ & _ & _ & Hrow & _ & _ & Hb & Hd).
  split.
  - intros u. unfold balance_of in *. rewrite Hd. simpl. rewrite lookup_insert.
    destruct (decide (u = pi_UserID inp)) as [->|Hne].
    + rewrite decide_True by done. done.
    + rewrite decide_False by done. lia.
  - pose proof (Post_clean inp' s' Hs') as Hc. rewrite Hkey in Hc. specialize (Hc Hk).
    cbv zeta in Hc. destruct (Post inp' s') as [r s2]. destruct Hc as [_ Hc].
    assert (existsb (has_key (pi_IdempotencyKey inp)) (db_credit_ledger (pg_db s')) = true) as Hex.
    { apply has_key_elem. rewrite Hd. simpl. rewrite fmap_app. apply elem_of_app. right.
      simpl. rewrite Hrow. left. }
    rewrite Hex in Hc. done.
Qed.

(** [History] is a bounded, newest-first extract of the user's ledger: at
    most the limit (50 when the caller's is not between 1 and 200) of the
    user's own entries, and no entry left out is newer than one returned. *)
Theorem History_spec u limit s :
  clean s ->
  exists l, (History u limit s).1 = Ok l /\ pg_db (History u limit s).2 = pg_db s /\
    (Z.of_nat (length l) <= if (1 <=? limit)%Z && (limit <=? 200)%Z then limit else 50)%Z /\
    Forall (fun e => cl_UserID e = u /\ e ∈ db_credit_ledger (pg_db s)) l /\
    forall e e', e ∈ l -> e' ∈ db_credit_ledger (pg_db s) -> cl_UserID e' = u -> e' ∉ l ->
      (cl_CreatedAt e' <= cl_CreatedAt e)%Z.
Proof.
  intros Hs. unfold History. rewrite exec_clean by done. simpl.
  set (lim := if _ || _ then 50%Z else limit).
  set (srt := order_by newer_entry _). exists (take (Z.to_nat lim) srt).
  assert (forall e, e ∈ srt <-> cl_UserID e = u /\ e ∈ db_credit_ledger (pg_db s)) as Hin.
  { intros e. unfold srt. rewrite elem_of_order_by, list_elem_of_In, List.filter_In, <- list_elem_of_In.
    rewrite bool_decide_eq_true. tauto. }
  split_and!; [done|done| | |].
  - rewrite length_take. unfold lim. destruct (limit <=? 0)%Z eqn:E1, (200 <? limit)%Z eqn:E2; simpl;
      repeat case_match; lia.
  - apply Forall_forall. intros e He%elem_of_take_1. by apply Hin.
  - intros e e' He He' Hu Hn. assert (newer_entry e e' = true) as Hnew.
    + assert (StronglySorted (leb_rel newer_entry) srt) as Hst.
      { apply order_by_sorted; [intros a b|intros a b x];
          rewrite !newer_entry_true; lia. }
      assert (e' ∈ srt) as Hs2 by by apply Hin.
      apply (elem_of_take_drop (Z.to_nat lim)) in Hs2 as [|Hs2]; [done|].
      rewrite <- (take_drop (Z.to_nat lim) srt) in Hst. apply StronglySorted_app in Hst as (Hst & _).
      by apply Hst.
    + apply newer_entry_true in Hnew. lia.
Qed.

(** ** Witnesses *)

Lemma demo_ledger_ok : ledger_ok demo_db.
Proof.
  constructor.
  - intros u. unfold balance_of, demo_db. simpl. destruct (decide (1%N = u)) as [<-|Hne]; [done|].
    by rewrite lookup_singleton_ne.
  - apply NoDup_singleton.
  - intros u c. unfold demo_db. simpl. rewrite lookup_singleton. case_decide; [|done]. by intros [= <-].
Qed.

Definition recharge (key : string) (x : Z) : PostInput :=
  {| pi_UserID := 1; pi_DeltaMilli := x; pi_Reason := "r"; pi_InstanceID := None;
     pi_IdempotencyKey := key; pi_Metadata := "" |}.

Lemma balance_is_ledger_sum_witness :
  ledger_ok (pg_db (Post (recharge "k1" 70) (demo [])).2) /\
  balance_of (pg_db (Post (recharge "k1" 70) (demo [])).2) 1 = 570%Z.
Proof.
  split; [|vm_compute; reflexivity].
  exact (balance_is_ledger_sum (recharge "k1" 70) (demo []) demo_ledger_ok).
Defined.

Lemma Post_idempotent_witness :
  (Post (recharge "k1" 900) (Post (recharge "k1" 70) (demo [])).2).1 = Err ErrDuplicateIdempotency.
Proof.
  destruct (Post (recharge "k1" 70) (demo [])) as [[row|e] s'] eqn:E; [|vm_compute in E; discriminate E].
  refine (proj1 (proj2 (Post_idempotent (recharge "k1" 70) (recharge "k1" 900) (demo []) row s' E _ eq_refl))).
  vm_compute in E. injection E as _ <-. reflexivity.
Defined.

Lemma History_spec_witness : (History 1 0 (demo [])).1 = Ok (db_credit_ledger demo_db).
Proof.
  destruct (History_spec 1 0 (demo []) eq_refl) as (l & Hl & _). vm_compute in Hl |- *.
  reflexivity.
Defined.
