(* ===== verification/GoCrypto.v ===== *)
(** * Digests and text encodings of the Go standard library

    crypto/sha256, crypto/hmac, encoding/hex and encoding/base64, as far as
    the program uses them: session-token hashes, key fingerprints and ticket
    signatures.  All are executable; the test vectors at the end are those of
    FIPS 180-4, RFC 4231 and RFC 4648. *)

From S2P Require Import Prelude GoStrings.
From Stdlib Require Import Ascii String.

#[local] Open Scope N_scope.
#[local] Open Scope list_scope.

(** ** Bytes of a string *)

Fixpoint bytes_of (s : string) : list N :=
  match s with EmptyString => [] | String c s' => N_of_ascii c :: bytes_of s' end.

Fixpoint of_bytes (l : list N) : string :=
  match l with [] => EmptyString | b :: l' => String (ascii_of_N b) (of_bytes l') end.

(** ** SHA-256 *)
Module SHA256.

Definition w32 (x : N) : N := x mod 4294967296.
Definition add32 (x y : N) : N := w32 (x + y).
Definition rotr (n x : N) : N := N.lor (N.shiftr x n) (w32 (N.shiftl x (32 - n))).
Definition not32 (x : N) : N := 4294967295 - x.

Definition Ch (x y z : N) : N := N.lxor (N.land x y) (N.land (not32 x) z).
Definition Maj (x y z : N) : N := N.lxor (N.lxor (N.land x y) (N.land x z)) (N.land y z).
Definition Sigma0 (x : N) : N := N.lxor (N.lxor (rotr 2 x) (rotr 13 x)) (rotr 22 x).
Definition Sigma1 (x : N) : N := N.lxor (N.lxor (rotr 6 x) (rotr 11 x)) (rotr 25 x).
Definition sigma0 (x : N) : N := N.lxor (N.lxor (rotr 7 x) (rotr 18 x)) (N.shiftr x 3).
Definition sigma1 (x : N) : N := N.lxor (N.lxor (rotr 17 x) (rotr 19 x)) (N.shiftr x 10).

(** The constants, from their definition: the first 32 bits of the fractional
    parts of the square roots of the first eight primes (the initial state)
    and of the cube roots of the first sixty-four (the round constants). *)
Definition is_prime (n : N) : bool :=
  (1 <? n) && forallb (fun d => negb (n mod d =? 0)) (N.of_nat <$> seq 2 (N.to_nat (N.sqrt n) - 1)).

Definition primes (below : nat) : list N :=
  List.filter is_prime (N.of_nat <$> seq 0 below).

(** The greatest [r] below [2 ^ bits] (from [r0] up) with [r ^ 3 <= x]. *)
Fixpoint cube_root (bits : nat) (r0 x : N) : N :=
  match bits with
  | O => r0
  | S b => let r := r0 + N.shiftl 1 (N.of_nat b) in
           cube_root b (if r * r * r <=? x then r else r0) x
  end.

Definition K : list N :=
  Eval vm_compute in (fun p => w32 (cube_root 36 0 (N.shiftl p 96))) <$> primes 312.

Definition H0 : list N :=
  Eval vm_compute in (fun p => w32 (N.sqrt (N.shiftl p 64))) <$> primes 20.

(** [n] bytes of [x], most significant first. *)
Fixpoint be_bytes (n : nat) (x : N) : list N :=
  match n with
  | O => []
  | S n' => N.shiftr x (8 * N.of_nat n') mod 256 :: be_bytes n' x
  end.

Definition be_word (l : list N) : N := fold_left (fun acc b => acc * 256 + b) l 0.

(** The message, a one bit, zeros, and its length in bits, in 64-byte blocks. *)
Definition pad (msg : list N) : list N :=
  let len := List.length msg in
  let zeros := ((119 - (len mod 64)) mod 64)%nat in
  (msg ++ [128] ++ repeat 0 zeros ++ be_bytes 8 (8 * N.of_nat len))%list.

Fixpoint chunks (fuel k : nat) (l : list N) : list (list N) :=
  match fuel, l with
  | S f, _ :: _ => take k l :: chunks f k (drop k l)
  | _, _ => []
  end.

(** The message schedule, newest word first. *)
Fixpoint extend (n : nat) (w : list N) : list N :=
  match n with
  | O => w
  | S n' =>
      let at_ i := nth i w 0 in
      extend n' (add32 (add32 (sigma1 (at_ 1%nat)) (at_ 6%nat))
                       (add32 (sigma0 (at_ 14%nat)) (at_ 15%nat)) :: w)
  end.

Definition schedule (block : list N) : list N :=
  rev (extend 48 (rev (be_word <$> chunks 16 4 block))).

Definition round (st : list N) (kw : N * N) : list N :=
  match st with
  | [a; b; c; d; e; f; g; h] =>
      let t1 := add32 (add32 (add32 h (Sigma1 e)) (add32 (Ch e f g) kw.1)) kw.2 in
      let t2 := add32 (Sigma0 a) (Maj a b c) in
      [add32 t1 t2; a; b; c; add32 d t1; e; f; g]
  | _ => st
  end.

Definition compress (st : list N) (block : list N) : list N :=
  zip_with add32 st (fold_left round (zip K (schedule block)) st).

Definition sum (msg : list N) : list N :=
  let p := pad msg in
  mjoin (be_bytes 4 <$> fold_left compress (chunks (List.length p) 64 p) H0).
End SHA256.

(** [sha256.Sum256]. *)
Definition Sum256 (msg : list N) : list N := SHA256.sum msg.

(** HMAC-SHA256: [hmac.New(sha256.New, key)], one [Write], [Sum(nil)]. *)
Definition HMAC (key msg : list N) : list N :=
  let k := if (64 <? List.length key)%nat then Sum256 key else key in
  let k := k ++ repeat 0 (64 - List.length k)%nat in
  Sum256 ((N.lxor 0x5c <$> k) ++ Sum256 ((N.lxor 0x36 <$> k) ++ msg)).

(** ** encoding/hex *)

Definition hex_digit (n : N) : ascii :=
  match String.get (N.to_nat n) "0123456789abcdef" with Some c => c | None => "0"%char end.

Fixpoint hex_EncodeToString (l : list N) : string :=
  match l with
  | [] => EmptyString
  | b :: l' => String (hex_digit (b / 16)) (String (hex_digit (b mod 16)) (hex_EncodeToString l'))
  end.

(** ** encoding/base64 *)

Definition std_alphabet : string :=
  "ABCDEFGHIJKLMNOPQRSTUVWXYZabcdefghijklmnopqrstuvwxyz0123456789+/".
Definition url_alphabet : string :=
  "ABCDEFGHIJKLMNOPQRSTUVWXYZabcdefghijklmnopqrstuvwxyz0123456789-_".

Definition b64_char (alphabet : string) (n : N) : ascii :=
  match String.get (N.to_nat n) alphabet with Some c => c | None => "A"%char end.

(** [EncodeToString]; [pad]: StdEncoding, without: the Raw encodings. *)
Fixpoint b64_encode (alphabet : string) (padded : bool) (l : list N) : string :=
  let ch n := b64_char alphabet n in
  match l with
  | a :: b :: c :: l' =>
      let v := a * 65536 + b * 256 + c in
      String (ch (v / 262144)) (String (ch (v / 4096 mod 64))
        (String (ch (v / 64 mod 64)) (String (ch (v mod 64)) (b64_encode alphabet padded l'))))
  | [a; b] =>
      let v := a * 65536 + b * 256 in
      String (ch (v / 262144)) (String (ch (v / 4096 mod 64))
        (String (ch (v / 64 mod 64)) (if padded then String "=" EmptyString else EmptyString)))
  | [a] =>
      let v := a * 65536 in
      String (ch (v / 262144)) (String (ch (v / 4096 mod 64))
        (if padded then String "=" (String "=" EmptyString) else EmptyString))
  | [] => EmptyString
  end.

Definition StdEncoding_EncodeToString (l : list N) : string := b64_encode std_alphabet true l.
Definition RawStdEncoding_EncodeToString (l : list N) : string := b64_encode std_alphabet false l.
Definition RawURLEncoding_EncodeToString (l : list N) : string := b64_encode url_alphabet false l.

Definition b64_value (alphabet : string) (c : ascii) : option N :=
  N.of_nat <$> IndexByte alphabet c.

(** [StdEncoding.DecodeString]: carriage returns and line feeds are skipped,
    then groups of four characters, the last possibly padded. *)
Fixpoint strip_newlines (s : string) : string :=
  match s with
  | EmptyString => EmptyString
  | String c s' => if (N_of_ascii c =? 10) || (N_of_ascii c =? 13) then strip_newlines s'
                   else String c (strip_newlines s')
  end.

Fixpoint b64_decode (alphabet : string) (s : string) : option (list N) :=
  let val c := b64_value alphabet c in
  match s with
  | EmptyString => Some []
  | String c1 (String c2 (String c3 (String c4 s'))) =>
      match val c1, val c2 with
      | Some v1, Some v2 =>
          if Ascii.eqb c3 "=" then
            if Ascii.eqb c4 "=" && String.eqb s' EmptyString
            then Some [(v1 * 64 + v2) / 16 mod 256] else None
          else match val c3 with
               | None => None
               | Some v3 =>
                   if Ascii.eqb c4 "=" then
                     if String.eqb s' EmptyString then
                       let v := v1 * 262144 + v2 * 4096 + v3 * 64 in
                       Some [v / 65536 mod 256; v / 256 mod 256]
                     else None
                   else match val c4 with
                        | None => None
                        | Some v4 =>
                            let v := v1 * 262144 + v2 * 4096 + v3 * 64 + v4 in
                            (fun l => v / 65536 mod 256 :: v / 256 mod 256 :: v mod 256 :: l) <$>
                              b64_decode alphabet s'
                        end
               end
      | _, _ => None
      end
  | _ => None
  end.

Definition StdEncoding_DecodeString (s : string) : result (list N) :=
  match b64_decode std_alphabet (strip_newlines s) with
  | Some l => Ok l
  | None => Err (ErrNew "illegal base64 data")
  end.

(** ** Laws *)

Definition is_byte (b : N) : Prop := b < 256.

Lemma of_bytes_of s : of_bytes (bytes_of s) = s.
Proof. induction s as [|c s IH]; simpl; [done|]. by rewrite ascii_N_embedding, IH. Qed.

Lemma bytes_of_bytes s : Forall is_byte (bytes_of s).
Proof.
  induction s as [|c s IH]; simpl; constructor; [|done]. apply N_ascii_bounded.
Qed.

Lemma below_64 (P : N -> Prop) :
  Forall P (N.of_nat <$> seq 0 64) -> forall n, n < 64 -> P n.
Proof.
  intros HP n Hn. eapply Forall_forall; [exact HP|]. apply list_elem_of_fmap.
  exists (N.to_nat n). split; [lia|]. apply elem_of_seq. lia.
Qed.

(** The six-bit digits are what their characters stand for. *)
Lemma b64_value_char n : n < 64 -> b64_value std_alphabet (b64_char std_alphabet n) = Some n.
Proof.
  revert n. apply below_64. repeat (constructor; [reflexivity|]). constructor.
Qed.

Definition plain (c : ascii) : bool :=
  negb (Ascii.eqb c "=") && negb ((N_of_ascii c =? 10) || (N_of_ascii c =? 13)).

Lemma b64_char_plain n : n < 64 -> plain (b64_char std_alphabet n) = true.
Proof.
  revert n. apply below_64. repeat (constructor; [reflexivity|]). constructor.
Qed.

Ltac b64_digits :=
  repeat match goal with
  | |- context [b64_value std_alphabet (b64_char std_alphabet ?n)] =>
      rewrite (b64_value_char n) by (zify; Z.to_euclidean_division_equations; lia)
  | |- context [Ascii.eqb (b64_char std_alphabet ?n) "="] =>
      let H := fresh in
      pose proof (b64_char_plain n ltac:(zify; Z.to_euclidean_division_equations; lia)) as H;
      unfold plain in H; apply andb_true_iff in H as [H _]; apply negb_true_iff in H; rewrite H; clear H
  end.

Lemma strip_newlines_cons c s : plain c = true -> strip_newlines (String c s) = String c (strip_newlines s).
Proof.
  unfold plain. intros [_ H]%andb_true_iff. apply negb_true_iff in H. simpl. by rewrite H.
Qed.

Lemma list_triples {A} (P : list A -> Prop) :
  P [] -> (forall a, P [a]) -> (forall a b, P [a; b]) ->
  (forall a b c l, P l -> P (a :: b :: c :: l)) -> forall l, P l.
Proof.
  intros H0 H1 H2 H3 l.
  assert (P l /\ (forall a, P (a :: l)) /\ (forall a b, P (a :: b :: l))) as [? _]; [|done].
  induction l as [|x l (IH & IH1 & IH2)]; [done|]. split_and!; eauto.
Qed.

Lemma b64_encode_plain l :
  Forall is_byte l -> strip_newlines (b64_encode std_alphabet true l) = b64_encode std_alphabet true l.
Proof.
  induction l as [|a|a b|a b c l IH] using list_triples; intros Hl; [done|..];
    repeat match goal with H : Forall _ (_ :: _) |- _ => inversion H; clear H; subst end;
    unfold is_byte in *; cbn [b64_encode];
    repeat (rewrite strip_newlines_cons
      by (apply b64_char_plain; zify; Z.to_euclidean_division_equations; lia)); try reflexivity.
  rewrite IH by done. done.
Qed.

Lemma b64_decode_encode l :
  Forall is_byte l -> b64_decode std_alphabet (b64_encode std_alphabet true l) = Some l.
Proof.
  induction l as [|a|a b|a b c l IH] using list_triples; intros Hl; [done|..];
    repeat match goal with H : Forall _ (_ :: _) |- _ => inversion H; clear H; subst end;
    unfold is_byte in *; cbn [b64_encode b64_decode]; b64_digits.
  - f_equal. f_equal. cbn [andb String.eqb Ascii.eqb Bool.eqb].
    zify; Z.to_euclidean_division_equations; lia.
  - cbn [andb String.eqb Ascii.eqb Bool.eqb]. f_equal.
    f_equal; [|f_equal]; zify; Z.to_euclidean_division_equations; lia.
  - rewrite IH by done. simpl. f_equal.
    f_equal; [|f_equal; [|f_equal]]; zify; Z.to_euclidean_division_equations; lia.
Qed.

Lemma StdEncoding_roundtrip l :
  Forall is_byte l -> StdEncoding_DecodeString (StdEncoding_EncodeToString l) = Ok l.
Proof.
  intros Hl. unfold StdEncoding_DecodeString, StdEncoding_EncodeToString.
  by rewrite b64_encode_plain, b64_decode_encode.
Qed.

(** ** Test vectors *)
Example sha256_abc :
  hex_EncodeToString (Sum256 (bytes_of "abc")) =
  "ba7816bf8f01cfea414140de5dae2223b00361a396177a9cb410ff61f20015ad"%string.
Proof. vm_compute. reflexivity. Qed.

Example hmac_jefe :
  hex_EncodeToString (HMAC (bytes_of "Jefe") (bytes_of "what do ya want for nothing?")) =
  "5bdcc146bf60754e6a042426089575c75a003f089d2739839dec58b964ec3843"%string.
Proof. vm_compute. reflexivity. Qed.

Example base64_fooba : StdEncoding_EncodeToString (bytes_of "fooba") = "Zm9vYmE="%string.
Proof. vm_compute. reflexivity. Qed.
