(* ===== verification/AgentRegistry.v ===== *)
(** * main-api's registry of connected agents (internal/grpc/registry.go)

    The mutex-guarded map from node id to the send channel of the stream that
    currently serves the node, with the channels it points to.  Entries carry
    an allocation number, which is what the pointer comparison of the cleanup
    closure compares.  The stream handler's use of the registry
    (agent_stream.go, [Stream]) is a step relation over it, with the sends of
    other goroutines: the lookup of a [Send], under the read lock, and its
    select, after the lock is released, are separate steps, and any steps of
    the streams can fall between them. *)

From S2P Require Import Prelude Proto.

#[local] Open Scope string_scope.

Definition ErrAgentNotConnected : error := Sentinel "agent: not connected".

(** A buffered Go channel of control messages. *)
Record Channel := {
  ch_cap : nat;
  ch_buf : list ControlMessage;
  ch_closed : bool
}.

Record registryEntry := {
  re_ptr : nat;              (* identity of the *registryEntry *)
  re_ch : nat;               (* the channel, by allocation number *)
  re_tunnelEndpoint : string
}.

Record AgentRegistry := {
  reg_nodes : gmap UUID registryEntry;
  reg_chans : gmap nat Channel;
  reg_next : nat             (* next allocation number *)
}.

Definition NewAgentRegistry : AgentRegistry :=
  {| reg_nodes := ∅; reg_chans := ∅; reg_next := 0 |}.

Definition set_nodes (r : AgentRegistry) m : AgentRegistry :=
  {| reg_nodes := m; reg_chans := reg_chans r; reg_next := reg_next r |}.
Definition set_chans (r : AgentRegistry) m : AgentRegistry :=
  {| reg_nodes := reg_nodes r; reg_chans := m; reg_next := reg_next r |}.

(** [make(chan *ControlMessage, cap)]. *)
Definition make_chan (cap : nat) (r : AgentRegistry) : nat * AgentRegistry :=
  (reg_next r,
   {| reg_nodes := reg_nodes r;
      reg_chans := <[reg_next r := {| ch_cap := cap; ch_buf := []; ch_closed := false |}]> (reg_chans r);
      reg_next := S (reg_next r) |}).

(** [Register]: install a fresh entry, replacing an older one; the result
    identifies the entry for the cleanup closure. *)
Definition Register (nodeID : UUID) (ch : nat) (tunnelEndpoint : string)
    (r : AgentRegistry) : nat * AgentRegistry :=
  let entry := {| re_ptr := reg_next r; re_ch := ch; re_tunnelEndpoint := tunnelEndpoint |} in
  (reg_next r,
   {| reg_nodes := <[nodeID := entry]> (reg_nodes r);
      reg_chans := reg_chans r;
      reg_next := S (reg_next r) |}).

(** The closure [Register] returns: delete the node's entry only when it is
    still the one this stream installed. *)
Definition cleanup (nodeID : UUID) (entry : nat) (r : AgentRegistry) : AgentRegistry :=
  match reg_nodes r !! nodeID with
  | Some cur => if decide (re_ptr cur = entry)
                then set_nodes r (delete nodeID (reg_nodes r)) else r
  | None => r
  end.

(** What ends the wait of a [Send] that found the buffer full: the stream's
    send loop took a message, or [agentSendTimeout] (2 s) elapsed. *)
Inductive wake := Drained | TimedOut.

(** A call either returns or panics. *)
Inductive outcome := Returned (r : result unit) | Panicked.

Definition push (c : Channel) (m : ControlMessage) : Channel :=
  {| ch_cap := ch_cap c; ch_buf := ch_buf c ++ [m]; ch_closed := ch_closed c |}.

(** The head of the buffer is received. *)
Definition pop (c : Channel) : Channel :=
  {| ch_cap := ch_cap c; ch_buf := tail (ch_buf c); ch_closed := ch_closed c |}.

(** [close(ch)]. *)
Definition close_chan (ch : nat) (r : AgentRegistry) : AgentRegistry :=
  set_chans r (alter (fun c => {| ch_cap := ch_cap c; ch_buf := ch_buf c; ch_closed := true |})
                     ch (reg_chans r)).

(** The two halves of [Send].  The entry is read under the read lock, which is
    released before the select. *)
Definition send_lookup (nodeID : UUID) (r : AgentRegistry) : option registryEntry :=
  reg_nodes r !! nodeID.

(** The select's send, on the channel of the entry that was read: [None] when
    the case is not ready (no room, and nobody closed the channel).  Sending
    on a closed channel panics, in a select too. *)
Definition send_case (entry : registryEntry) (msg : ControlMessage) (r : AgentRegistry)
    : option (outcome * AgentRegistry) :=
  match reg_chans r !! re_ch entry with
  | None => None
  | Some c =>
      if ch_closed c then Some (Panicked, r)
      else if decide (length (ch_buf c) < ch_cap c) then
        Some (Returned (Ok tt), set_chans r (<[re_ch entry := push c msg]> (reg_chans r)))
      else None
  end.

(** A receive frees a place of a channel. *)
Definition take_one (ch : nat) (r : AgentRegistry) : AgentRegistry :=
  set_chans r (alter pop ch (reg_chans r)).

(** [Send], when nobody else works on the channel between its two halves but,
    if it has to wait, the send loop that takes one message; the steps below
    have the halves apart. *)
Definition Send (w : wake) (nodeID : UUID) (msg : ControlMessage) (r : AgentRegistry)
    : outcome * AgentRegistry :=
  match send_lookup nodeID r with
  | None => (Returned (Err ErrAgentNotConnected), r)
  | Some entry =>
      match send_case entry msg r with
      | Some done => done
      | None =>
          match w with
          | TimedOut => (Returned (Err ErrAgentNotConnected), r)
          | Drained =>
              default (Returned (Err ErrAgentNotConnected), r)
                (send_case entry msg (take_one (re_ch entry) r))
          end
      end
  end.

Definition Connected (nodeID : UUID) (r : AgentRegistry) : bool :=
  if reg_nodes r !! nodeID is Some _ then true else false.

Definition TunnelEndpoint (nodeID : UUID) (r : AgentRegistry) : option string :=
  match reg_nodes r !! nodeID with
  | Some entry => if String.eqb (re_tunnelEndpoint entry) "" then None
                  else Some (re_tunnelEndpoint entry)
  | None => None
  end.

(** ** The stream handler around the registry

    [Stream] makes the channel and registers it, serves, then closes the
    channel, waits for the send loop, and only its deferred cleanup removes
    the entry. *)
Inductive phase := Serving | Closed | Done.

#[export] Instance phase_eq_dec : EqDecision phase.
Proof. solve_decision. Defined.

Record stream := {
  str_node : UUID;
  str_ch : nat;
  str_entry : nat;
  str_phase : phase
}.

(** A call of [Send] in another goroutine: it has read its entry and waits in
    the select, or it is over. *)
Inductive send_phase := Selecting (entry : registryEntry) | Over (o : outcome).

Record send := { snd_node : UUID; snd_msg : ControlMessage; snd_phase : send_phase }.

Record sys := { sys_reg : AgentRegistry; sys_streams : list stream; sys_sends : list send }.

Definition sys_init : sys := {| sys_reg := NewAgentRegistry; sys_streams := []; sys_sends := [] |}.

Definition at_phase (p : phase) (s : stream) : stream :=
  {| str_node := str_node s; str_ch := str_ch s; str_entry := str_entry s; str_phase := p |}.

Definition with_reg (r : AgentRegistry) (s : sys) : sys :=
  {| sys_reg := r; sys_streams := sys_streams s; sys_sends := sys_sends s |}.

(** A stream reaches the point where its channel is registered. *)
Definition open_stream (cap : nat) (n : UUID) (ep : string) (s : sys) : sys :=
  let '(ch, r1) := make_chan cap (sys_reg s) in
  let '(e, r2) := Register n ch ep r1 in
  {| sys_reg := r2;
     sys_streams := sys_streams s ++ [{| str_node := n; str_ch := ch; str_entry := e; str_phase := Serving |}];
     sys_sends := sys_sends s |}.

Definition begin_send (n : UUID) (m : ControlMessage) (s : sys) : sys :=
  {| sys_reg := sys_reg s; sys_streams := sys_streams s;
     sys_sends := sys_sends s ++
       [{| snd_node := n; snd_msg := m;
           snd_phase := match send_lookup n (sys_reg s) with
                        | Some e => Selecting e
                        | None => Over (Returned (Err ErrAgentNotConnected))
                        end |}] |}.

Definition end_send (k : nat) (sd : send) (o : outcome) (r : AgentRegistry) (s : sys) : sys :=
  {| sys_reg := r; sys_streams := sys_streams s;
     sys_sends := <[k := {| snd_node := snd_node sd; snd_msg := snd_msg sd; snd_phase := Over o |}]> (sys_sends s) |}.

Definition set_phase (i : nat) (st : stream) (p : phase) (r : AgentRegistry) (s : sys) : sys :=
  {| sys_reg := r; sys_streams := <[i := at_phase p st]> (sys_streams s); sys_sends := sys_sends s |}.

Inductive step : sys -> sys -> Prop :=
  | step_open cap n ep s : step s (open_stream cap n ep s)
  | step_lookup n m s : step s (begin_send n m s)
  | step_select k sd e o r' s :
      sys_sends s !! k = Some sd -> snd_phase sd = Selecting e ->
      send_case e (snd_msg sd) (sys_reg s) = Some (o, r') ->
      step s (end_send k sd o r' s)
  | step_timer k sd e s :
      (* [agentSendTimeout] has elapsed *)
      sys_sends s !! k = Some sd -> snd_phase sd = Selecting e ->
      step s (end_send k sd (Returned (Err ErrAgentNotConnected)) (sys_reg s) s)
  | step_deliver i st s :
      (* the send loop takes the head of its channel *)
      sys_streams s !! i = Some st -> step s (with_reg (take_one (str_ch st) (sys_reg s)) s)
  | step_close i st s :
      sys_streams s !! i = Some st -> str_phase st = Serving ->
      step s (set_phase i st Closed (close_chan (str_ch st) (sys_reg s)) s)
  | step_cleanup i st s :
      sys_streams s !! i = Some st -> str_phase st = Closed ->
      step s (set_phase i st Done (cleanup (str_node st) (str_entry st) (sys_reg s)) s).

Definition reachable (s : sys) : Prop := rtc step sys_init s.

(** Every entry of the map belongs to a stream that has not run its cleanup;
    a channel is closed only by its own stream; allocation numbers are
    distinct. *)
Record sys_inv (s : sys) : Prop := {
  inv_entry : forall n e, reg_nodes (sys_reg s) !! n = Some e ->
    exists i st, sys_streams s !! i = Some st /\ str_node st = n /\
      str_entry st = re_ptr e /\ str_ch st = re_ch e /\ str_phase st <> Done;
  inv_closed : forall i st c, sys_streams s !! i = Some st ->
    reg_chans (sys_reg s) !! str_ch st = Some c ->
    ch_closed c = bool_decide (str_phase st <> Serving);
  inv_chan : forall i st, sys_streams s !! i = Some st ->
    is_Some (reg_chans (sys_reg s) !! str_ch st) /\
    str_ch st < reg_next (sys_reg s) /\ str_entry st < reg_next (sys_reg s);
  inv_uniq : forall i j st st', sys_streams s !! i = Some st ->
    sys_streams s !! j = Some st' ->
    (str_ch st = str_ch st' -> i = j) /\ (str_entry st = str_entry st' -> i = j)
}.

(** ** Laws of the operations *)

Section laws.
Implicit Types (r : AgentRegistry) (n : UUID).

Lemma Register_lookup n ch ep r :
  reg_nodes (Register n ch ep r).2 !! n =
  Some {| re_ptr := reg_next r; re_ch := ch; re_tunnelEndpoint := ep |}.
Proof. apply lookup_insert_eq. Qed.

Lemma cleanup_lookup n e r n' en :
  reg_nodes (cleanup n e r) !! n' = Some en ->
  reg_nodes r !! n' = Some en /\ (n' = n -> re_ptr en <> e).
Proof.
  unfold cleanup. destruct (reg_nodes r !! n) as [cur|] eqn:E.
  - case_decide as Hp; simpl.
    + rewrite lookup_delete_Some. naive_solver.
    + intros H. split; [done|]. intros ->. congruence.
  - intros H. split; [done|]. intros ->. congruence.
Qed.

Lemma cleanup_chans n e r : reg_chans (cleanup n e r) = reg_chans r.
Proof. unfold cleanup. repeat case_match; done. Qed.

Lemma cleanup_next n e r : reg_next (cleanup n e r) = reg_next r.
Proof. unfold cleanup. repeat case_match; done. Qed.

(** What leaves the map, the allocation numbers and the closed flags alone. *)
Definition same_flags r r' : Prop :=
  reg_nodes r' = reg_nodes r /\ reg_next r' = reg_next r /\
  forall i, ch_closed <$> reg_chans r' !! i = ch_closed <$> reg_chans r !! i.

Lemma same_flags_refl r : same_flags r r.
Proof. done. Qed.

Lemma same_flags_trans r1 r2 r3 : same_flags r1 r2 -> same_flags r2 r3 -> same_flags r1 r3.
Proof. intros (H1 & H2 & H3) (K1 & K2 & K3). split_and!; [congruence..|]. intros i. by rewrite K3. Qed.

Lemma take_one_flags ch r : same_flags r (take_one ch r).
Proof.
  split_and!; [done..|]. intros i. simpl. rewrite lookup_alter. case_decide; subst; [|done].
  by destruct (reg_chans r !! _).
Qed.

Lemma send_case_flags e m r o r' : send_case e m r = Some (o, r') -> same_flags r r'.
Proof.
  unfold send_case. intros H. destruct (reg_chans r !! re_ch e) as [c|] eqn:Hc; [|done].
  destruct (ch_closed c) eqn:Hcl; [simplify_eq; apply same_flags_refl|].
  case_decide; [|done]. simplify_eq. split_and!; [done..|]. intros i. simpl.
  rewrite lookup_insert. case_decide; subst; [|done]. rewrite Hc. simpl. by rewrite Hcl.
Qed.

(** A ready send panics exactly on a closed channel, and changes nothing then. *)
Lemma send_case_panics e m r r' :
  send_case e m r = Some (Panicked, r') <->
  r' = r /\ exists c, reg_chans r !! re_ch e = Some c /\ ch_closed c = true.
Proof.
  unfold send_case. split.
  - intros H. repeat case_match; simplify_eq. eauto.
  - intros (-> & c & -> & ->). done.
Qed.

(** [Send] only ever changes the buffer of the channel it sends on. *)
Lemma Send_frame w n m r o r' : Send w n m r = (o, r') -> same_flags r r'.
Proof.
  unfold Send. intros H. destruct (send_lookup n r) as [e|]; [|simplify_eq; apply same_flags_refl].
  destruct (send_case e m r) as [p|] eqn:E; [subst p; by eapply send_case_flags|].
  destruct w; [|simplify_eq; apply same_flags_refl].
  destruct (send_case e m (take_one _ r)) as [p|] eqn:E'; simpl in H; [subst p|simplify_eq; apply same_flags_refl].
  eapply same_flags_trans; [apply take_one_flags|by eapply send_case_flags].
Qed.

Lemma Send_panics w n m r r' :
  Send w n m r = (Panicked, r') ->
  exists e c, reg_nodes r !! n = Some e /\ reg_chans r !! re_ch e = Some c /\ ch_closed c = true.
Proof.
  unfold Send, send_lookup. intros H. destruct (reg_nodes r !! n) as [e|]; [|done].
  destruct (send_case e m r) as [p|] eqn:E.
  { subst p. apply send_case_panics in E as (_ & c & ? & ?). eauto. }
  destruct w; [|done]. destruct (send_case e m (take_one _ r)) as [p|] eqn:E'; [simpl in H; subst p|done].
  apply send_case_panics in E' as (_ & c & Hc & Hcl). simpl in Hc.
  rewrite lookup_alter_eq in Hc. destruct (reg_chans r !! re_ch e) as [c0|] eqn:E0; simplify_eq/=. eauto.
Qed.
End laws.

(** ** The invariant holds in every interleaving *)

Lemma sys_inv_init : sys_inv sys_init.
Proof. by constructor. Qed.

Lemma sys_inv_open cap n ep s : sys_inv s -> sys_inv (open_stream cap n ep s).
Proof.
  intros [Hent Hclo Hch Huq]. unfold open_stream; simpl.
  set (k := reg_next (sys_reg s)).
  assert (forall i st, sys_streams s !! i = Some st -> str_ch st <> k /\ str_entry st <> S k) as Hne.
  { intros i st Hi. destruct (Hch i st Hi) as (_ & ? & ?). unfold k. lia. }
  constructor; simpl.
  - intros n' e. rewrite lookup_insert. case_decide as Hn.
    + intros [= <-]. subst n'. exists (length (sys_streams s)). eexists.
      split; [by apply list_lookup_middle|]. done.
    + intros He. destruct (Hent n' e He) as (i & st & Hi & ?).
      exists i, st. split; [by apply lookup_app_l_Some|done].
  - intros i st c [Hi|[Hi Hst]]%lookup_app_Some.
    + destruct (Hne i st Hi). rewrite lookup_insert_ne by done. by apply (Hclo i).
    + apply list_lookup_singleton_Some in Hst as [_ <-]. simpl.
      rewrite lookup_insert_eq. by intros [= <-].
  - intros i st [Hi|[Hi Hst]]%lookup_app_Some.
    + destruct (Hne i st Hi). destruct (Hch i st Hi) as (? & ? & ?).
      rewrite lookup_insert_ne by done. split; [done|lia].
    + apply list_lookup_singleton_Some in Hst as [_ <-]. simpl.
      rewrite lookup_insert_eq. split; [done|lia].
  - intros i j st st' [Hi|[Hi Hst]]%lookup_app_Some [Hj|[Hj Hst']]%lookup_app_Some.
    + by apply Huq.
    + apply list_lookup_singleton_Some in Hst' as [? <-]. simpl.
      destruct (Hne i st Hi). done.
    + apply list_lookup_singleton_Some in Hst as [? <-]. simpl.
      destruct (Hne j st' Hj). split; congruence.
    + apply list_lookup_singleton_Some in Hst as [? _].
      apply list_lookup_singleton_Some in Hst' as [? _]. lia.
Qed.

(** A step that leaves the streams, the map and the closed flags alone. *)
Lemma sys_inv_frame s r' sends :
  sys_inv s -> same_flags (sys_reg s) r' ->
  sys_inv {| sys_reg := r'; sys_streams := sys_streams s; sys_sends := sends |}.
Proof.
  intros [Hent Hclo Hch Huq] (Hn & Hx & Hc). constructor; simpl.
  - rewrite Hn. done.
  - intros i st c Hi Hl. specialize (Hc (str_ch st)). rewrite Hl in Hc. simpl in Hc.
    destruct (reg_chans (sys_reg s) !! str_ch st) as [c0|] eqn:E; simplify_eq/=.
    rewrite Hc. by apply (Hclo i).
  - intros i st Hi. destruct (Hch i st Hi) as ((c0 & E) & ? & ?).
    rewrite Hx. split; [|lia]. specialize (Hc (str_ch st)). rewrite E in Hc.
    destruct (reg_chans r' !! str_ch st); [eauto|done].
  - done.
Qed.

(** Moving one stream to a later phase. *)
Lemma phase_lookup (l : list stream) i st p j st' :
  l !! i = Some st -> <[i := at_phase p st]> l !! j = Some st' ->
  exists st0, l !! j = Some st0 /\ str_node st' = str_node st0 /\
    str_ch st' = str_ch st0 /\ str_entry st' = str_entry st0 /\
    str_phase st' = (if decide (j = i) then p else str_phase st0).
Proof.
  intros Hi. destruct (decide (j = i)) as [->|Hne].
  - rewrite list_lookup_insert_eq by (by eapply lookup_lt_Some). intros [= <-].
    exists st. done.
  - rewrite list_lookup_insert_ne by done. intros Hj. by exists st'.
Qed.

Lemma registry_inv_step s s' : step s s' -> sys_inv s -> sys_inv s'.
Proof.
  intros Hs Hinv.
  destruct Hs as [cap n ep s|n m s|k sd e o r' s _ _ HS|k sd e s _ _|i st s Hi|i st s Hi Hp|i st s Hi Hp].
  - by apply sys_inv_open.
  - apply sys_inv_frame; [done|apply same_flags_refl].
  - apply sys_inv_frame; [done|by eapply send_case_flags].
  - apply sys_inv_frame; [done|apply same_flags_refl].
  - apply sys_inv_frame; [done|apply take_one_flags].
  - destruct Hinv as [Hent Hclo Hch Huq]. constructor; simpl.
    + intros n e He. destruct (Hent n e He) as (j & stj & Hj & Hn & Hen & Hc & Hd).
      destruct (decide (j = i)) as [->|Hne].
      * simplify_eq. exists i. eexists. split; [apply list_lookup_insert_eq; by eapply lookup_lt_Some|]. done.
      * exists j, stj. rewrite list_lookup_insert_ne by done. done.
    + intros j stj c Hj. eapply phase_lookup in Hj as (st0 & Hj & _ & -> & _ & ->); [|done].
      rewrite lookup_alter. destruct (decide (j = i)) as [->|Hne].
      * simplify_eq. rewrite decide_True by done.
        destruct (reg_chans (sys_reg s) !! str_ch st); simpl; [|done]. by intros [= <-].
      * rewrite decide_False; [by apply (Hclo j)|]. intros Heq.
        destruct (Huq i j st st0 Hi Hj) as [Hij _]. by apply Hne; symmetry; apply Hij.
    + intros j stj Hj. eapply phase_lookup in Hj as (st0 & Hj & _ & -> & -> & _); [|done].
      destruct (Hch j st0 Hj) as (? & ? & ?). split; [|done].
      rewrite lookup_alter. case_decide; [by apply fmap_is_Some; congruence|done].
    + intros j k stj stk Hj Hk.
      eapply phase_lookup in Hj as (stj0 & Hj & _ & -> & -> & _); [|done].
      eapply phase_lookup in Hk as (stk0 & Hk & _ & -> & -> & _); [|done]. by apply Huq.
  - destruct Hinv as [Hent Hclo Hch Huq]. constructor; simpl.
    + intros n e He. apply cleanup_lookup in He as [He Hdel].
      destruct (Hent n e He) as (j & stj & Hj & Hn & Hen & Hc & Hd).
      assert (j <> i) as Hne.
      { intros ->. simplify_eq. by apply Hdel. }
      exists j, stj. rewrite list_lookup_insert_ne by done. done.
    + intros j stj c Hj. eapply phase_lookup in Hj as (st0 & Hj & _ & -> & _ & ->); [|done].
      rewrite cleanup_chans. intros Hc. rewrite (Hclo j st0 c Hj Hc).
      destruct (decide (j = i)) as [->|Hne]; [|done]. simplify_eq. by rewrite Hp.
    + intros j stj Hj. eapply phase_lookup in Hj as (st0 & Hj & _ & -> & -> & _); [|done].
      rewrite cleanup_chans, cleanup_next. by apply (Hch j).
    + intros j k stj stk Hj Hk.
      eapply phase_lookup in Hj as (stj0 & Hj & _ & -> & -> & _); [|done].
      eapply phase_lookup in Hk as (stk0 & Hk & _ & -> & -> & _); [|done]. by apply Huq.
Qed.

Lemma reachable_inv s : reachable s -> sys_inv s.
Proof.
  unfold reachable. revert s. apply rtc_ind_r.
  - apply sys_inv_init.
  - intros x y _ Hs Hx. by eapply registry_inv_step.
Qed.

(** Streams are never forgotten and never serve again. *)
Lemma streams_persist s s' j st :
  step s s' -> sys_streams s !! j = Some st ->
  exists st', sys_streams s' !! j = Some st' /\ str_node st' = str_node st /\
    str_ch st' = str_ch st /\ str_entry st' = str_entry st /\
    (str_phase st <> Serving -> str_phase st' <> Serving).
Proof.
  assert (forall i st0 p s, sys_streams s !! i = Some st0 -> p <> Serving -> sys_streams s !! j = Some st ->
    exists st', <[i := at_phase p st0]> (sys_streams s) !! j = Some st' /\ str_node st' = str_node st /\
      str_ch st' = str_ch st /\ str_entry st' = str_entry st /\ (str_phase st <> Serving -> str_phase st' <> Serving)) as Hset.
  { intros i st0 p s0 Hi Hp Hj. destruct (decide (i = j)) as [->|Hne].
    - simplify_eq. eexists. split; [apply list_lookup_insert_eq; by eapply lookup_lt_Some|]. done.
    - exists st. by rewrite list_lookup_insert_ne. }
  intros [] Hj; simpl; eauto 7.
  exists st. split; [by apply lookup_app_l_Some|done].
Qed.

(** A waiting send holds the entry of a stream of its node. *)
Definition sends_inv (s : sys) : Prop := forall k sd, sys_sends s !! k = Some sd ->
  match snd_phase sd with
  | Selecting e => exists j st, sys_streams s !! j = Some st /\ str_node st = snd_node sd /\
      str_entry st = re_ptr e /\ str_ch st = re_ch e
  | Over Panicked => exists j st, sys_streams s !! j = Some st /\ str_node st = snd_node sd /\
      str_phase st <> Serving
  | Over (Returned _) => True
  end.

Lemma sends_inv_keep s s' :
  step s s' -> sys_sends s' = sys_sends s -> sends_inv s -> sends_inv s'.
Proof.
  intros Hs Heq Hinv k sd Hk. rewrite Heq in Hk. specialize (Hinv k sd Hk).
  destruct (snd_phase sd) as [e|[|]]; [|done|].
  - destruct Hinv as (j & st & Hj & <- & <- & <-).
    destruct (streams_persist _ _ _ _ Hs Hj) as (st' & ? & ? & ? & ? & _). eauto 7.
  - destruct Hinv as (j & st & Hj & <- & Hp).
    destruct (streams_persist _ _ _ _ Hs Hj) as (st' & ? & ? & ? & ? & ?). eauto 7.
Qed.

Lemma sends_inv_step s s' : step s s' -> sys_inv s -> sends_inv s -> sends_inv s'.
Proof.
  intros Hs Hinv Hsd. destruct Hs as [cap n ep s|n m s|k sd e o r' s Hk He HS|k sd e s Hk He|i st s Hi|i st s Hi Hp|i st s Hi Hp];
    try (by eapply sends_inv_keep; [econstructor|..]).
  - intros k sd [Hk|[_ Hk]]%lookup_app_Some; [exact (Hsd k sd Hk)|].
    apply list_lookup_singleton_Some in Hk as [_ <-]. simpl.
    destruct (send_lookup n (sys_reg s)) as [e|] eqn:He; [|done].
    destruct (inv_entry _ Hinv n e He) as (j & st & ? & ? & ? & ? & _). eauto 7.
  - intros k' sd' Hk'. simpl in *. apply list_lookup_insert_Some in Hk' as [(<- & <- & _)|[_ Hk']]; [|exact (Hsd k' sd' Hk')].
    simpl. destruct o as [|]; [done|]. apply send_case_panics in HS as (_ & c & Hc & Hcl).
    specialize (Hsd k sd Hk). rewrite He in Hsd. destruct Hsd as (j & st & Hj & Hn & _ & Hch).
    exists j, st. split_and!; [done|done|]. rewrite <- Hch in Hc. rewrite (inv_closed _ Hinv j st c Hj Hc) in Hcl.
    by apply bool_decide_eq_true in Hcl.
  - intros k' sd' Hk'. simpl in *. apply list_lookup_insert_Some in Hk' as [(<- & <- & _)|[_ Hk']]; [done|exact (Hsd k' sd' Hk')].
Qed.

Lemma reachable_sends s : reachable s -> sends_inv s.
Proof.
  intros Hr. assert (sys_inv s /\ sends_inv s) as [_ ?]; [|done]. revert s Hr. apply rtc_ind_r.
  - split; [apply sys_inv_init|by intros k sd Hk].
  - intros x y _ Hs [Hx Hd]. split; [by eapply registry_inv_step|by eapply sends_inv_step].
Qed.

(** ** Properties *)

(** C39: when a [Send] panics.  In every interleaving of streams opening,
    closing and cleaning up with sends whose lookup and select are apart: a
    send that waits in its select holds the entry of one stream of its node,
    and its send case panics exactly when that stream has closed its channel,
    be the entry still in the map (the window before the deferred cleanup),
    already removed or replaced by a newer stream's; while the stream serves,
    the case is ready exactly when the buffer has room, and then the message
    is appended to it.  A send that has panicked had looked up a stream of its
    node that closed its channel.  And a lookup only ever finds the entry of a
    stream that has not run its cleanup. *)
Theorem Send_panics_iff_closed s :
  reachable s ->
  (forall k sd, sys_sends s !! k = Some sd ->
     match snd_phase sd with
     | Selecting e => exists j st c,
         sys_streams s !! j = Some st /\ str_node st = snd_node sd /\
         str_entry st = re_ptr e /\ str_ch st = re_ch e /\
         reg_chans (sys_reg s) !! re_ch e = Some c /\
         (send_case e (snd_msg sd) (sys_reg s) = Some (Panicked, sys_reg s) <-> str_phase st <> Serving) /\
         (str_phase st = Serving ->
            if decide (length (ch_buf c) < ch_cap c)
            then send_case e (snd_msg sd) (sys_reg s) =
                 Some (Returned (Ok tt), set_chans (sys_reg s) (<[re_ch e := push c (snd_msg sd)]> (reg_chans (sys_reg s))))
            else send_case e (snd_msg sd) (sys_reg s) = None)
     | Over Panicked => exists j st,
         sys_streams s !! j = Some st /\ str_node st = snd_node sd /\ str_phase st <> Serving
     | Over (Returned _) => True
     end) /\
  (forall n e, send_lookup n (sys_reg s) = Some e ->
     exists j st, sys_streams s !! j = Some st /\ str_node st = n /\ str_entry st = re_ptr e /\
       str_ch st = re_ch e /\ str_phase st <> Done).
Proof.
  intros Hr. pose proof (reachable_inv _ Hr) as Hinv. split; [|intros n e; apply (inv_entry _ Hinv)].
  intros k sd Hk. pose proof (reachable_sends _ Hr k sd Hk) as Hs.
  destruct (snd_phase sd) as [e|[|]]; [|done..].
  destruct Hs as (j & st & Hj & Hn & He & Hch). destruct (inv_chan _ Hinv j st Hj) as ((c & Hc) & _).
  pose proof (inv_closed _ Hinv j st c Hj Hc) as Hcl. rewrite Hch in Hc.
  exists j, st, c. split_and!; try done.
  - rewrite send_case_panics. split.
    + intros (_ & c' & Hc' & Ht). simplify_eq. rewrite Hcl in Ht. by apply bool_decide_eq_true in Ht.
    + intros Hp. split; [done|]. exists c. split; [done|]. rewrite Hcl. by apply bool_decide_eq_true.
  - intros Hp. rewrite Hp in Hcl. unfold send_case. rewrite Hc, Hcl.
    rewrite bool_decide_eq_false_2 by congruence. by destruct (decide (length (ch_buf c) < ch_cap c)).
Qed.

(** The late panic: a request reads the entry of a stream, that stream ends
    and cleans up, the agent reconnects, and only then does the request's
    select run: it sends on the closed channel of the old stream although the
    map holds the entry of the new one. *)
Definition late_send : sys :=
  let s := begin_send 7%N CM_Ping (open_stream 16 7%N "" sys_init) in
  let st := {| str_node := 7%N; str_ch := 0; str_entry := 1; str_phase := Serving |} in
  let s := set_phase 0 st Closed (close_chan 0 (sys_reg s)) s in
  let s := set_phase 0 (at_phase Closed st) Done (cleanup 7%N 1 (sys_reg s)) s in
  open_stream 16 7%N "" s.

Lemma late_send_reachable : reachable late_send.
Proof.
  eapply rtc_l; [apply (step_open 16 7%N "")|].
  eapply rtc_l; [apply (step_lookup 7%N CM_Ping)|].
  eapply rtc_l; [eapply (step_close 0); reflexivity|].
  eapply rtc_l; [eapply (step_cleanup 0); reflexivity|].
  eapply rtc_l; [apply (step_open 16 7%N "")|]. apply rtc_refl.
Qed.

Lemma Send_panics_iff_closed_witness :
  Connected 7%N (sys_reg late_send) = true /\
  step late_send (end_send 0 {| snd_node := 7%N; snd_msg := CM_Ping;
    snd_phase := Selecting {| re_ptr := 1; re_ch := 0; re_tunnelEndpoint := "" |} |}
    Panicked (sys_reg late_send) late_send).
Proof.
  split; [reflexivity|]. eapply step_select; [reflexivity|reflexivity|].
  destruct (proj1 (Send_panics_iff_closed late_send late_send_reachable) 0 _ eq_refl)
    as (j & st & c & Hj & _ & He & _ & _ & Hiff & _).
  apply Hiff. intros Hp. destruct j as [|[|j]]; simpl in Hj; simplify_eq/=.
Defined.

(** A reconnecting agent is never unregistered by the stream it replaced:
    the cleanup of an older stream of a node leaves the entry a newer stream
    installed, in every interleaving. *)
Theorem cleanup_keeps_newer_stream s i j st st' e :
  reachable s ->
  sys_streams s !! i = Some st -> sys_streams s !! j = Some st' -> i <> j ->
  reg_nodes (sys_reg s) !! str_node st = Some e -> re_ptr e = str_entry st' ->
  reg_nodes (cleanup (str_node st) (str_entry st) (sys_reg s)) !! str_node st = Some e.
Proof.
  intros [Hent Hclo Hch Huq]%reachable_inv Hi Hj Hne He Hp.
  unfold cleanup. rewrite He. rewrite decide_False; [done|].
  intros Heq. destruct (Huq i j st st' Hi Hj) as [_ Huq']. apply Hne, Huq'. congruence.
Qed.

Definition reconnected : sys := open_stream 16 7%N "" (open_stream 16 7%N "" sys_init).

Lemma cleanup_keeps_newer_stream_witness :
  reg_nodes (cleanup 7%N 1 (sys_reg reconnected)) !! 7%N =
  Some {| re_ptr := 3; re_ch := 2; re_tunnelEndpoint := "" |}.
Proof.
  apply (cleanup_keeps_newer_stream reconnected 0 1
    {| str_node := 7%N; str_ch := 0; str_entry := 1; str_phase := Serving |}
    {| str_node := 7%N; str_ch := 2; str_entry := 3; str_phase := Serving |});
    try reflexivity; [|lia].
  eapply rtc_l; [apply (step_open 16 7%N "")|].
  eapply rtc_l; [apply (step_open 16 7%N "")|]. apply rtc_refl.
Defined.
