(* ===== verification/Dispatcher.v ===== *)
(** * The interface between the handlers and the agent registry

    The REST handlers and the billing worker push control messages through the
    two methods of [AgentDispatcher] (api/admin_instances.go) and [Dispatcher]
    (billing/worker.go).  The class states what they rely on; the registry of
    AgentRegistry.v implements it. *)

From S2P Require Import Prelude Proto Db AgentRegistry.

#[local] Open Scope string_scope.

(** The operations. *)
Class Dispatcher (D : Type) := {
  dispatch_Send : UUID -> ControlMessage -> ST D (result unit);
  dispatch_Connected : UUID -> D -> bool
}.

(** What the callers rely on: sending does not connect or disconnect anybody,
    and a message to a node that is not connected is refused with
    [ErrAgentNotConnected]. *)
Class DispatcherLaws (D : Type) `{Dispatcher D} : Prop := {
  Send_keeps_Connected n m n' w :
    dispatch_Connected n' (dispatch_Send n m w).2 = dispatch_Connected n' w;
  Send_not_connected n m w :
    dispatch_Connected n w = false ->
    (dispatch_Send n m w).1 = Err ErrAgentNotConnected
}.

(** ** The world of a handler: the database and the dispatcher *)
Record World (D : Type) := { w_pg : Pg; w_agents : D }.
Arguments Build_World {D} _ _.
Arguments w_pg {D} _.
Arguments w_agents {D} _.

Section lifts.
Context {D : Type}.

Definition onPg {A} (m : ST Pg A) : ST (World D) A := fun w =>
  let '(a, s) := m (w_pg w) in (a, Build_World s (w_agents w)).

Definition onAgents {A} (m : ST D A) : ST (World D) A := fun w =>
  let '(a, d) := m (w_agents w) in (a, Build_World (w_pg w) d).

(** A property of the tables, of a world. *)
Definition on_world (I : DB -> Prop) (w : World D) : Prop := on_db I (w_pg w).

Lemma preserves_onPg {A} I (m : ST Pg A) :
  preserves (on_db I) m -> preserves (on_world I) (onPg m).
Proof.
  intros Hm w Hw. unfold onPg. specialize (Hm (w_pg w) Hw).
  by destruct (m (w_pg w)).
Qed.

Lemma preserves_onAgents {A} I (m : ST D A) : preserves (on_world I) (onAgents m).
Proof. intros w Hw. unfold onAgents. by destruct (m (w_agents w)). Qed.

Lemma onPg_eq {A} (m : ST Pg A) w :
  onPg m w = ((m (w_pg w)).1, Build_World (m (w_pg w)).2 (w_agents w)).
Proof. unfold onPg. by destruct (m (w_pg w)). Qed.

Lemma onAgents_eq {A} (m : ST D A) w :
  onAgents m w = ((m (w_agents w)).1, Build_World (w_pg w) (m (w_agents w)).2).
Proof. unfold onAgents. by destruct (m (w_agents w)). Qed.
End lifts.

#[export] Hint Resolve preserves_onPg preserves_onAgents : pres.

(** ** The registry as a dispatcher

    Away from the closing streams of AgentRegistry.v: every channel an entry
    points to is open, and stays so during the send.  [or_wakes] are the ends of the waits of the sends to
    come that find a full buffer. *)
Record OpenRegistry := {
  or_reg : AgentRegistry;
  or_wakes : list wake;
  or_open : forall n e c, reg_nodes or_reg !! n = Some e ->
              reg_chans or_reg !! re_ch e = Some c -> ch_closed c = false
}.

Lemma Send_open w n m r o r' :
  (forall n e c, reg_nodes r !! n = Some e -> reg_chans r !! re_ch e = Some c -> ch_closed c = false) ->
  Send w n m r = (o, r') ->
  (forall n e c, reg_nodes r' !! n = Some e -> reg_chans r' !! re_ch e = Some c -> ch_closed c = false).
Proof.
  intros Ho HS n' e c He Hc. apply Send_frame in HS as (Hn & _ & Hcl). rewrite Hn in He.
  specialize (Hcl (re_ch e)). rewrite Hc in Hcl. simpl in Hcl.
  destruct (reg_chans r !! re_ch e) as [c0|] eqn:E; simplify_eq/=. rewrite Hcl. by apply (Ho n' e).
Qed.

Definition registry_Send (n : UUID) (m : ControlMessage) : ST OpenRegistry (result unit) := fun w =>
  let wk := default TimedOut (head (or_wakes w)) in
  let p := Send wk n m (or_reg w) in
  (match p.1 with Returned r => r | Panicked => Ok tt end,
   {| or_reg := p.2; or_wakes := tail (or_wakes w);
      or_open := Send_open wk n m (or_reg w) p.1 p.2 (or_open w) (surjective_pairing _) |}).

#[export] Instance registry_dispatcher : Dispatcher OpenRegistry := {
  dispatch_Send := registry_Send;
  dispatch_Connected n w := Connected n (or_reg w)
}.

(** On an open registry a send always returns. *)
Lemma registry_Send_returns n m (w : OpenRegistry) wk : (Send wk n m (or_reg w)).1 <> Panicked.
Proof.
  intros Hp. destruct (Send wk n m (or_reg w)) as [o r'] eqn:HS. simpl in Hp. subst o.
  apply Send_panics in HS as (e & c & He & Hc & Hcl).
  rewrite (or_open w n e c He Hc) in Hcl. done.
Qed.

#[export] Instance registry_laws : DispatcherLaws OpenRegistry.
Proof.
  constructor.
  - intros n m n' w. unfold dispatch_Connected, dispatch_Send, registry_dispatcher, registry_Send. simpl.
    set (wk := default TimedOut _). destruct (Send wk n m (or_reg w)) as [o r'] eqn:HS.
    apply Send_frame in HS as (Hn & _). simpl. unfold Connected. by rewrite Hn.
  - intros n m w. unfold dispatch_Connected, dispatch_Send, registry_dispatcher, registry_Send. simpl.
    unfold Connected, Send, send_lookup. by destruct (reg_nodes (or_reg w) !! n).
Qed.

(** A registry with one connected agent, for the examples. *)
Lemma demo_open n e c :
  reg_nodes (sys_reg (open_stream 16 3 "" sys_init)) !! n = Some e ->
  reg_chans (sys_reg (open_stream 16 3 "" sys_init)) !! re_ch e = Some c -> ch_closed c = false.
Proof.
  simpl. rewrite lookup_insert. case_decide; [|by rewrite lookup_empty].
  intros [= <-]. simpl. by intros [= <-].
Qed.

Definition demo_agents : OpenRegistry :=
  {| or_reg := sys_reg (open_stream 16 3 "" sys_init); or_wakes := []; or_open := demo_open |}.
