(* ===== verification/Billing.v ===== *)
(** * Metering (internal/billing: rates.go, worker.go)

    The rate table, one tick of the worker ([charge], then [sweepBankrupt]),
    and what a tick does to the ledger and to the agents. *)

From S2P Require Import Prelude GoStrings Proto Db Queries Demo CreditRepo AgentRegistry Dispatcher.

#[local] Open Scope string_scope.
#[local] Open Scope list_scope.
#[local] Open Scope go_scope.

(** ** rates.go *)

Record RateTable := { rt_Rates : gmap Z Z }.

(** The validation loop over the parsed map; Go visits a map in no particular
    order, the model in the order of its enumeration. *)
Fixpoint check_rates (l : list (Z * Z)) : result unit :=
  match l with
  | [] => Ok tt
  | (gpu, rate) :: l' =>
      if (gpu <? 0)%Z then
        Err (ErrNew ("rates: gpu count " +:+ Itoa gpu +:+ " is negative"))
      else if (rate <? 0)%Z then
        Err (ErrNew ("rates: rate for gpu=" +:+ Itoa gpu +:+ " is negative"))
      else check_rates l'
  end.

Section load.
(** [os.ReadFile] and [yaml.Unmarshal] into the [gpu_rates_milli_per_minute]
    map of the file. *)
Context (ReadFile : string -> result string) (yaml_Unmarshal : string -> result (gmap Z Z)).

Definition LoadRates (path : string) : result RateTable :=
  match ReadFile path with
  | Err e => Err (ErrWrap "read rates: " e "")
  | Ok raw =>
      match yaml_Unmarshal raw with
      | Err e => Err (ErrWrap "parse rates: " e "")
      | Ok f =>
          if decide (f = ∅) then
            Err (ErrNew "rates: gpu_rates_milli_per_minute must have at least one entry")
          else match check_rates (map_to_list f) with
               | Err e => Err e
               | Ok _ => Ok {| rt_Rates := f |}
               end
      end
  end.
End load.

(** A nil table charges nothing, and so does a missing entry. *)
Definition MilliPerMinute (t : option RateTable) (gpuCount : Z) : Z :=
  match t with
  | None => 0
  | Some t => default 0%Z (rt_Rates t !! gpuCount)
  end.

Lemma check_rates_Ok l :
  check_rates l = Ok tt <-> Forall (fun kv => 0 <= kv.1 /\ 0 <= kv.2)%Z l.
Proof.
  induction l as [|[g r] l IH]; simpl; [done|]. rewrite Forall_cons. simpl.
  destruct (g <? 0)%Z eqn:E1; [split; [done|lia]|].
  destruct (r <? 0)%Z eqn:E2; [split; [done|lia]|]. rewrite IH. intuition lia.
Qed.

(** ** worker.go *)

Record Worker := {
  wk_Rates : option RateTable;
  wk_Dispatcher : bool            (* whether a dispatcher is wired *)
}.

(** [w.Now().UTC().Unix() / 60]. *)
Definition minute_bucket (now : Time) : Z := Z.quot (now / second) 60.

Section worker.
Context `{UUIDLib}.

Definition billing_key (id : UUID) (bucket : Z) : string :=
  "billing:" +:+ uuid_String id +:+ ":" +:+ Itoa bucket.

Definition charge_input (bucket : Z) (owner : UUID) (rate : Z) (row : BillableRow) : PostInput :=
  {| pi_UserID := owner; pi_DeltaMilli := - rate; pi_Reason := "running_minute";
     pi_InstanceID := Some (br_ID row); pi_IdempotencyKey := billing_key (br_ID row) bucket;
     pi_Metadata := "" |}.

(** The body of the loop: an error of [Post] is logged. *)
Definition charge_row (rates : option RateTable) (bucket : Z) (row : BillableRow) : ST Pg unit :=
  match br_OwnerID row with
  | None => ret tt
  | Some owner =>
      let rate := MilliPerMinute rates (br_GpuCount row) in
      if decide (rate = 0%Z) then ret tt
      else (Post (charge_input bucket owner rate row) ;;; ret tt)
  end.

Definition charge (w : Worker) (now : Time) : ST Pg (result unit) :=
  rows <-? exec listBillableRunningInstances ;;
  forRange rows (charge_row (wk_Rates w) (minute_bucket now)) ;;;
  ret (Ok tt).

Context `{Dispatcher D}.

(** The instances of a bankrupt user that are stopped. *)
Definition to_stop (i : InstanceRow) : bool :=
  negb (bool_decide (in_State i <> InstanceStateRunning) &&
        bool_decide (in_State i <> InstanceStateProvisioning)).

Definition destroy (i : InstanceRow) : ST (World D) unit :=
  onAgents (dispatch_Send (in_NodeID i) (CM_DestroyInstance (uuid_String (in_ID i)))) ;;; ret tt.

Definition sweepBankrupt (w : Worker) : ST (World D) (result unit) :=
  if negb (wk_Dispatcher w) then ret (Ok tt)
  else
    users <-? onPg UsersWithNegativeBalance ;;
    forRange users (fun userID =>
      r <- onPg (exec (listInstances (Some userID))) ;;
      match r with
      | Err _ => ret tt
      | Ok instances =>
          forRange instances (fun inst => if to_stop inst then destroy inst else ret tt)
      end) ;;;
    ret (Ok tt).

Definition runOnce (w : Worker) (now : Time) : ST (World D) (result unit) :=
  _ <-? wrapErr "charge: " (onPg (charge w now)) ;;
  _ <-? wrapErr "sweep: " (sweepBankrupt w) ;;
  ret (Ok tt).

(** What the select of [Run] gets: a tick, at the time [Now] then returns, or
    the end of the context. *)
Inductive wakeup := Ticked (now : Time) | CtxDone (e : error).

(** [Run]: the error of the context once it ends; errors of a pass are
    logged. *)
Fixpoint Run (w : Worker) (l : list wakeup) : ST (World D) (option error) :=
  match l with
  | [] => ret None
  | CtxDone e :: _ => ret (Some e)
  | Ticked now :: rest => runOnce w now ;;; Run w rest
  end.
End worker.

(** ** Lemmas *)

Section lemmas.
Context `{UUIDLaws}.

Lemma uuid_String_inj a b : uuid_String a = uuid_String b -> a = b.
Proof.
  intros E. pose proof (uuid_Parse_String a) as Ha. rewrite E, uuid_Parse_String in Ha. congruence.
Qed.

(** Two instances never share a key in one minute. *)
Lemma billing_key_inj a b k : billing_key a k = billing_key b k -> a = b.
Proof.
  unfold billing_key. intros E. apply uuid_String_inj.
  apply (inj (String.append _)) in E.
  assert (TrimSuffix (uuid_String a +:+ (":" +:+ Itoa k)) (":" +:+ Itoa k) =
          TrimSuffix (uuid_String b +:+ (":" +:+ Itoa k)) (":" +:+ Itoa k)) as E' by congruence.
  by rewrite !TrimSuffix_app in E'.
Qed.

Lemma billing_key_nonempty a k : billing_key a k <> "".
Proof. done. Qed.

Lemma charge_ledger w now : preserves (on_db ledger_ok) (charge w now).
Proof.
  unfold charge. apply preserves_bindR; [apply exec_keeps, keeps_query|]. intros rows.
  apply preserves_bind; [|intros; apply preserves_ret]. apply preserves_forRange. intros row.
  unfold charge_row. solve_pres.
Qed.

(** A row that is charged, and the entry that charges it. *)
Definition due (rates : option RateTable) (row : BillableRow) : Z :=
  match br_OwnerID row with
  | None => 0
  | Some _ => MilliPerMinute rates (br_GpuCount row)
  end.

Definition due_entry (rates : option RateTable) (bucket : Z) (row : BillableRow)
    : string * option UUID * option UUID * Z :=
  (billing_key (br_ID row) bucket, br_OwnerID row, Some (br_ID row), (- due rates row)%Z).

Definition entry_view (e : CreditLedger) : string * option UUID * option UUID * Z :=
  (cl_IdempotencyKey e, Some (cl_UserID e), cl_InstanceID e, cl_DeltaMilli e).

Definition unpaid (rates : option RateTable) (bucket : Z) (l : list CreditLedger) (row : BillableRow) : bool :=
  negb (bool_decide (due rates row = 0%Z)) &&
  negb (existsb (has_key (billing_key (br_ID row) bucket)) l).

Fixpoint total_due (rates : option RateTable) (u : UUID) (rows : list BillableRow) : Z :=
  match rows with
  | [] => 0
  | row :: rows' =>
      (if decide (br_OwnerID row = Some u) then due rates row else 0) + total_due rates u rows'
  end.
End lemmas.

Section charging.
Context `{UUIDLaws} (rates : option RateTable) (bucket : Z).
Hypothesis Hrates : forall row, (0 <= due rates row)%Z.
Implicit Types (s : Pg) (row : BillableRow) (rows : list BillableRow).

(** What the loop relies on: owners exist and balances stay in range. *)
Definition solvent (d : DB) (rows : list BillableRow) : Prop :=
  (forall u c, db_credits d !! u = Some c -> cr_BalanceMilli c < 2 ^ 63)%Z /\
  (forall u, - 2 ^ 63 <= balance_of d u - total_due rates u rows)%Z /\
  (forall row u, row ∈ rows -> br_OwnerID row = Some u -> is_Some (db_users d !! u)).

Lemma suffix_charge_row row : uses_suffix (charge_row rates bucket row).
Proof.
  unfold charge_row. destruct (br_OwnerID row); [|apply uses_suffix_ret].
  destruct (decide _); [apply uses_suffix_ret|]. apply uses_suffix_bind; [apply suffix_Post|].
  intros; apply uses_suffix_ret.
Qed.

Lemma charge_row_paid row s :
  clean s -> unpaid rates bucket (db_credit_ledger (pg_db s)) row = false ->
  pg_db (charge_row rates bucket row s).2 = pg_db s.
Proof.
  intros Hs Hu. unfold charge_row, unpaid, due in *. destruct (br_OwnerID row) as [u|]; [|done].
  case_decide as Hz; [done|]. rewrite bool_decide_eq_false_2 in Hu by done. simpl in Hu.
  apply negb_false_iff in Hu. set (inp := charge_input _ _ _ _).
  pose proof (Post_clean inp s Hs (billing_key_nonempty _ _)) as HP. cbv zeta in HP.
  change (pi_IdempotencyKey inp) with (billing_key (br_ID row) bucket) in HP.
  rewrite Hu in HP. unfold bind, ret. simpl. destruct (Post inp s) as [r s']. simpl. apply HP.
Qed.

Lemma charge_row_unpaid row rows s :
  clean s -> unpaid rates bucket (db_credit_ledger (pg_db s)) row = true ->
  solvent (pg_db s) (row :: rows) ->
  let s' := (charge_row rates bucket row s).2 in
  (exists e c u, br_OwnerID row = Some u /\ entry_view e = due_entry rates bucket row /\
    cr_BalanceMilli c = (balance_of (pg_db s) u - due rates row)%Z /\
    pg_db s' = set_credits (<[u := c]> (db_credits (pg_db s)))
                 (set_credit_ledger (db_credit_ledger (pg_db s) ++ [e]) (pg_db s))).
Proof.
  intros Hs Hu (Hhi & Hlo & Hown) s'. subst s'. unfold charge_row, unpaid in *.
  apply andb_true_iff in Hu as [Hz Hk]. apply negb_true_iff, bool_decide_eq_false in Hz.
  apply negb_true_iff in Hk. unfold due in Hz. destruct (br_OwnerID row) as [u|] eqn:Ho; [|done].
  rewrite decide_False by done. set (inp := charge_input _ _ _ _).
  pose proof (Post_clean inp s Hs (billing_key_nonempty _ _)) as HP. cbv zeta in HP.
  change (pi_IdempotencyKey inp) with (billing_key (br_ID row) bucket) in HP.
  rewrite Hk in HP. unfold bind, ret. destruct (Post inp s) as [r s1] eqn:HPost.
  destruct HP as [_ HP]. rewrite decide_True in HP.
  - destruct r as [e|]; [|done]. apply Post_Ok in HPost as (c & _ & _ & H1 & H2 & H3 & H4 & _ & H5 & H6).
    exists e, c, u. split; [done|]. simpl in *. split_and!; [|unfold due; rewrite Ho, H5; lia|done].
    unfold entry_view, due_entry, due. rewrite Ho, H1, H2, H3, H4. done.
  - simpl. split; [apply (Hown row u); [left|done]|].
    unfold balance_of in *. destruct (db_credits (pg_db s) !! u) as [c|] eqn:Hc; [|by left].
    right. specialize (Hhi u c Hc). specialize (Hlo u). rewrite Hc in Hlo. simpl in Hlo.
    rewrite decide_True in Hlo by done. pose proof (Hrates row) as Hr.
    unfold due in Hlo at 1, Hr. rewrite Ho in Hlo, Hr.
    assert (0 <= total_due rates u rows)%Z as Ht.
    { clear -Hrates. induction rows as [|r' rows IH]; simpl; [done|].
      pose proof (Hrates r'). case_decide; lia. }
    unfold is_int64. apply andb_true_iff. rewrite Z.leb_le, Z.ltb_lt. lia.
Qed.

Lemma solvent_tail d row rows : solvent d (row :: rows) -> solvent d rows.
Proof.
  intros (Hhi & Hlo & Hown). split_and!; [done| |].
  - intros u. specialize (Hlo u). simpl in Hlo. pose proof (Hrates row). case_decide; lia.
  - intros r u Hr. apply Hown. by right.
Qed.

Lemma solvent_charged d row rows u c l :
  solvent d (row :: rows) -> br_OwnerID row = Some u ->
  cr_BalanceMilli c = (balance_of d u - due rates row)%Z ->
  solvent (set_credits (<[u := c]> (db_credits d)) (set_credit_ledger l d)) rows.
Proof.
  intros (Hhi & Hlo & Hown) Ho Hc. split_and!; simpl.
  - intros u' c'. destruct (decide (u' = u)) as [->|Hne].
    2:{ rewrite lookup_insert_ne by done. apply Hhi. }
    rewrite lookup_insert_eq. intros [= <-]. rewrite Hc. unfold balance_of. pose proof (Hrates row).
    destruct (db_credits d !! u) as [c0|] eqn:E; [specialize (Hhi u c0 E); lia|lia].
  - intros u'. specialize (Hlo u'). simpl in Hlo. unfold balance_of in *. simpl.
    destruct (decide (u' = u)) as [->|Hne].
    + rewrite lookup_insert_eq. rewrite decide_True in Hlo by done.
      rewrite Hc. unfold balance_of. lia.
    + rewrite lookup_insert_ne by done. rewrite decide_False in Hlo by congruence. done.
  - intros r u' Hr. apply Hown. by right.
Qed.

(** The entry of one row does not pay another. *)
Lemma unpaid_other l e row rows :
  cl_IdempotencyKey e = billing_key (br_ID row) bucket -> br_ID row ∉ br_ID <$> rows ->
  List.filter (unpaid rates bucket (l ++ [e])) rows = List.filter (unpaid rates bucket l) rows.
Proof.
  intros He Hn. apply List.filter_ext_in. intros r Hr. unfold unpaid. f_equal. f_equal.
  rewrite existsb_app. simpl.
  assert (has_key (billing_key (br_ID r) bucket) e = false) as ->; [|by rewrite !orb_false_r].
  unfold has_key. rewrite He. apply String.eqb_neq. intros E. apply billing_key_inj in E.
  apply Hn. rewrite E. apply list_elem_of_fmap. exists r. split; [done|]. by apply list_elem_of_In.
Qed.

Lemma charge_rows rows s :
  clean s -> NoDup (br_ID <$> rows) -> solvent (pg_db s) rows ->
  exists new creds,
    pg_db (forRange rows (charge_row rates bucket) s).2 =
      set_credits creds (set_credit_ledger (db_credit_ledger (pg_db s) ++ new) (pg_db s)) /\
    entry_view <$> new =
      due_entry rates bucket <$> List.filter (unpaid rates bucket (db_credit_ledger (pg_db s))) rows.
Proof.
  revert s. induction rows as [|row rows IH]; intros s Hs Hnd Hsol.
  - exists [], (db_credits (pg_db s)). simpl. rewrite app_nil_r.
    split; [by destruct (pg_db s)|done].
  - rewrite fmap_cons in Hnd. apply NoDup_cons in Hnd as [Hnin Hnd].
    pose proof (uses_suffix_clean _ s (suffix_charge_row row) Hs) as Hs1.
    simpl. unfold bind. destruct (unpaid rates bucket (db_credit_ledger (pg_db s)) row) eqn:Hu.
    + destruct (charge_row_unpaid row rows s Hs Hu Hsol) as (e & c & u & Ho & He & Hc & Hd).
      destruct (charge_row rates bucket row s) as [[] s1]. simpl in *.
      assert (solvent (pg_db s1) rows) as Hsol1 by (rewrite Hd; by eapply solvent_charged).
      destruct (IH s1 Hs1 Hnd Hsol1) as (new & creds & Hd2 & Hnew).
      exists (e :: new), creds. rewrite Hd2, Hd in *. simpl in Hnew. split.
      * unfold set_credits, set_credit_ledger. simpl. by rewrite <- app_assoc.
      * rewrite !fmap_cons, Hnew. f_equal; [done|]. f_equal.
        apply (unpaid_other _ e row); [|done]. by injection He.
    + pose proof (charge_row_paid row s Hs Hu) as Hd.
      destruct (charge_row rates bucket row s) as [[] s1]. simpl in *.
      rewrite <- Hd in Hsol. destruct (IH s1 Hs1 Hnd (solvent_tail _ _ _ Hsol)) as (new & creds & Hd2 & Hnew).
      exists new, creds. by rewrite Hd2, Hd in *.
Qed.

Lemma charge_rows_noop rows s :
  clean s -> Forall (fun row => unpaid rates bucket (db_credit_ledger (pg_db s)) row = false) rows ->
  pg_db (forRange rows (charge_row rates bucket) s).2 = pg_db s.
Proof.
  revert s. induction rows as [|row rows IH]; intros s Hs Hall; [done|].
  apply Forall_cons in Hall as [Hu Hall]. simpl. unfold bind.
  pose proof (charge_row_paid row s Hs Hu) as Hd.
  pose proof (uses_suffix_clean _ s (suffix_charge_row row) Hs) as Hs1.
  destruct (charge_row rates bucket row s) as [[] s1]. simpl in *.
  rewrite <- Hd. apply IH; [done|]. by rewrite Hd.
Qed.
End charging.

(** ** Properties *)

Section properties.
Context `{UUIDLaws}.

(** C9: a minute is billed exactly once.  With round trips served, charging
    adds to the ledger exactly one entry, of minus the rate of its GPU
    count, for every running owned instance with a nonzero rate that has no
    entry of this minute yet, and touches nothing but the ledger and the
    balances; charging again in the same minute (an overlapping tick, a
    restart) changes nothing at all.  (The owners of the instances exist, no
    balance leaves the range of a bigint on the way, and no rate is
    negative.) *)
Theorem charge_once_per_minute w now now' s :
  clean s ->
  (forall id i, db_instances (pg_db s) !! id = Some i -> in_ID i = id) ->
  (forall row, 0 <= due (wk_Rates w) row)%Z ->
  solvent (wk_Rates w) (pg_db s) (billable_rows (pg_db s)) ->
  minute_bucket now' = minute_bucket now ->
  let s1 := (charge w now s).2 in
  exists new creds,
    pg_db s1 = set_credits creds (set_credit_ledger (db_credit_ledger (pg_db s) ++ new) (pg_db s)) /\
    entry_view <$> new =
      due_entry (wk_Rates w) (minute_bucket now) <$>
        List.filter (unpaid (wk_Rates w) (minute_bucket now) (db_credit_ledger (pg_db s)))
                    (billable_rows (pg_db s)) /\
    pg_db (charge w now' s1).2 = pg_db s1.
Proof.
  intros Hs Hkey Hrates Hsol Hbucket s1. set (rates := wk_Rates w) in *.
  assert (forall now s, clean s -> pg_db (charge w now s).2 =
    pg_db (forRange (billable_rows (pg_db s)) (charge_row rates (minute_bucket now)) (tick (pg_db s) s)).2)
    as Hch.
  { intros nw s0 Hs0. unfold charge. rewrite bindR_eq, exec_clean by done. simpl.
    unfold bind, ret. by destruct (forRange _ _ _) as [[] ?]. }
  assert (NoDup (br_ID <$> billable_rows (pg_db s))) as Hnd.
  { unfold billable_rows. rewrite <- list_fmap_compose. change (br_ID ∘ _) with in_ID.
    by apply filter_rows_keys_NoDup. }
  destruct (charge_rows rates (minute_bucket now) Hrates (billable_rows (pg_db s)) (tick (pg_db s) s)
    (tick_clean _ _ Hs) Hnd Hsol) as (new & creds & Hd & Hnew).
  exists new, creds. simpl in *. assert (pg_db s1 = set_credits creds (set_credit_ledger
    (db_credit_ledger (pg_db s) ++ new) (pg_db s))) as Hd1 by (unfold s1; by rewrite Hch).
  split_and!; [done|done|].
  assert (clean s1) as Hs1.
  { unfold s1. apply uses_suffix_clean; [|done]. unfold charge.
    apply uses_suffix_bindR; [apply uses_suffix_exec|]. intros l. apply uses_suffix_bind.
    - induction l; simpl; [apply uses_suffix_ret|]. apply uses_suffix_bind; [apply suffix_charge_row|done].
    - intros; apply uses_suffix_ret. }
  rewrite Hch by done. rewrite Hbucket. rewrite charge_rows_noop; [done|by apply tick_clean|].
  simpl. rewrite Hd1. change (billable_rows (set_credits _ _)) with (billable_rows (pg_db s)).
  simpl. apply Forall_forall. intros row Hrow.
  destruct (unpaid rates (minute_bucket now) (db_credit_ledger (pg_db s) ++ new) row) eqn:Hu; [|done].
  exfalso. unfold unpaid in Hu. apply andb_true_iff in Hu as [Hz Hk]. apply negb_true_iff in Hk.
  rewrite existsb_app in Hk. apply orb_false_iff in Hk as [Hk1 Hk2].
  assert (due_entry rates (minute_bucket now) row ∈ entry_view <$> new) as Hin.
  { rewrite Hnew. apply list_elem_of_fmap. exists row. split; [done|].
    apply list_elem_of_In, List.filter_In. split; [by apply list_elem_of_In|].
    unfold unpaid. by rewrite Hz, Hk1. }
  apply list_elem_of_fmap in Hin as (e & He & Hin). injection He as He _ _ _.
  apply not_true_iff_false in Hk2. apply Hk2, has_key_elem. rewrite He.
  by apply list_elem_of_fmap_2.
Qed.

(** [LoadRates] accepts exactly the non-empty tables without negative
    entries, so no charge of a loaded table can be a credit. *)
Theorem LoadRates_spec ReadFile yaml_Unmarshal path :
  match LoadRates ReadFile yaml_Unmarshal path with
  | Ok t =>
      (forall gpu, 0 <= MilliPerMinute (Some t) gpu)%Z /\
      rt_Rates t <> ∅ /\ (forall gpu rate, rt_Rates t !! gpu = Some rate -> 0 <= gpu)%Z
  | Err e =>
      forall raw f, ReadFile path = Ok raw -> yaml_Unmarshal raw = Ok f ->
        f = ∅ \/ exists gpu rate, f !! gpu = Some rate /\ (gpu < 0 \/ rate < 0)%Z
  end.
Proof.
  unfold LoadRates. destruct (ReadFile path) as [raw|e] eqn:HR; [|done].
  destruct (yaml_Unmarshal raw) as [f|e] eqn:HU; [|intros ? ? [= <-]; congruence].
  case_decide as Hf; [intros ? ? [= <-] ?; left; congruence|].
  destruct (check_rates (map_to_list f)) as [[]|e] eqn:Hc.
  - rewrite check_rates_Ok, Forall_forall in Hc.
    assert (forall gpu rate, f !! gpu = Some rate -> 0 <= gpu /\ 0 <= rate)%Z as Hall.
    { intros g r Hg. by apply (Hc (g, r)), elem_of_map_to_list. }
    split_and!; [|done|naive_solver]. intros g. simpl.
    destruct (f !! g) as [r|] eqn:Hg; simpl; [by eapply Hall|done].
  - intros ? f' [= <-] Hf'. assert (f' = f) as -> by congruence. right.
    assert (~ Forall (fun kv => 0 <= kv.1 /\ 0 <= kv.2)%Z (map_to_list f)) as Hn.
    { rewrite <- check_rates_Ok. by rewrite Hc. }
    apply not_Forall_Exists, Exists_exists in Hn as ([g r] & Hin & Hbad); [|intros ?; apply _].
    apply elem_of_map_to_list in Hin. exists g, r. simpl in Hbad. split; [done|lia].
Qed.
End properties.

(** ** The sweep *)

Section sweep.
Context `{UUIDLib, Dispatcher D}.

(** The instances that get a DestroyInstance, in the order they are sent. *)
Definition sweep_targets (d : DB) : list InstanceRow :=
  flat_map (fun u => List.filter to_stop (instances_of (Some u) d)) (bankrupt_users d).

Lemma forRange_filter (l : list InstanceRow) (w : World D) :
  forRange l (fun i => if to_stop i then destroy i else ret tt) w =
  forRange (List.filter to_stop l) destroy w.
Proof.
  revert w. induction l as [|i l IH]; intros w; simpl; [done|].
  destruct (to_stop i); simpl; unfold bind, ret; [|apply IH].
  destruct (destroy i w) as [[] w1]. apply IH.
Qed.

Lemma destroy_pg (l : list InstanceRow) (w : World D) : w_pg (forRange l destroy w).2 = w_pg w.
Proof.
  revert w. induction l as [|i l IH]; intros w; simpl; [done|].
  unfold bind, destroy, bind, ret. rewrite onAgents_eq. simpl. by rewrite IH.
Qed.

(** Sending does not depend on the database. *)
Lemma destroy_agents (l : list InstanceRow) (w w' : World D) :
  w_agents w = w_agents w' ->
  w_agents (forRange l destroy w).2 = w_agents (forRange l destroy w').2.
Proof.
  revert w w'. induction l as [|i l IH]; intros w w' E; simpl; [done|].
  unfold bind, destroy, bind, ret. rewrite !onAgents_eq. simpl. apply IH. simpl. by rewrite E.
Qed.

Lemma sweep_loop (us : list UUID) (w : World D) :
  clean (w_pg w) ->
  let w' := (forRange us (fun userID =>
      bind (onPg (exec (listInstances (Some userID)))) (fun r =>
      match r with
      | Err _ => ret tt
      | Ok instances =>
          forRange instances (fun inst => if to_stop inst then destroy inst else ret tt)
      end)) w).2 in
  clean (w_pg w') /\ pg_db (w_pg w') = pg_db (w_pg w) /\
  w_agents w' = w_agents (forRange (flat_map (fun u =>
    List.filter to_stop (instances_of (Some u) (pg_db (w_pg w)))) us) destroy w).2.
Proof.
  revert w. induction us as [|u us IH]; intros w Hs; [done|]. cbv zeta. simpl.
  rewrite !bind_eq, onPg_eq, exec_clean by done. simpl. rewrite forRange_filter.
  set (l := List.filter to_stop (instances_of (Some u) (pg_db (w_pg w)))).
  set (w1 := Build_World (tick (pg_db (w_pg w)) (w_pg w)) (w_agents w)).
  pose proof (destroy_pg l w1) as Hpg. simpl in Hpg.
  destruct (IH (forRange l destroy w1).2) as (Hc & Hd & Ha); [rewrite Hpg; by apply tick_clean|].
  rewrite Hpg in *. simpl in *. split; [done|]. split; [done|]. rewrite Ha, forRange_app.
  by do 2 apply destroy_agents.
Qed.

(** The sweep stops exactly the bankrupt users' machines.  With round
    trips served and a dispatcher wired, a sweep leaves the database alone
    and sends one DestroyInstance for every running or provisioning instance
    of every user whose balance is not positive, and nothing else. *)
Theorem sweepBankrupt_spec wk (w : World D) :
  clean (w_pg w) -> wk_Dispatcher wk = true ->
  let '(r, w') := sweepBankrupt wk w in
  r = Ok tt /\ pg_db (w_pg w') = pg_db (w_pg w) /\
  w_agents w' = w_agents (forRange (sweep_targets (pg_db (w_pg w))) destroy w).2 /\
  forall i, i ∈ sweep_targets (pg_db (w_pg w)) <->
    exists c, i ∈ rows (db_instances (pg_db (w_pg w))) /\ in_OwnerID i = Some (cr_UserID c) /\
      c ∈ rows (db_credits (pg_db (w_pg w))) /\ (cr_BalanceMilli c <= 0)%Z /\
      (in_State i = InstanceStateRunning \/ in_State i = InstanceStateProvisioning).
Proof.
  intros Hs Hd. unfold sweepBankrupt. rewrite Hd. simpl. rewrite bindR_eq, onPg_eq.
  unfold UsersWithNegativeBalance. rewrite exec_clean by done. simpl. unfold bind at 1.
  pose proof (sweep_loop (bankrupt_users (pg_db (w_pg w)))
    (Build_World (tick (pg_db (w_pg w)) (w_pg w)) (w_agents w)) (tick_clean _ _ Hs)) as Hl.
  cbv zeta in Hl. destruct (forRange (bankrupt_users _) _ _) as [[] w2]. simpl in *.
  destruct Hl as (_ & Hdb & Ha). split_and!; [done|done| |].
  - rewrite Ha. by apply destroy_agents.
  - intros i. unfold sweep_targets. rewrite list_elem_of_In, in_flat_map. split.
    + intros (u & Hu & Hi). rewrite List.filter_In, <- list_elem_of_In in Hi. destruct Hi as [Hi Hst].
      apply elem_of_order_by, elem_of_filter_rows in Hi as [Ho Hi].
      apply list_elem_of_In, list_elem_of_fmap in Hu as (c & -> & Hc).
      apply elem_of_filter_rows in Hc as [Hb Hc]. exists c. rewrite !elem_of_rows.
      apply bool_decide_eq_true in Ho. split_and!; [done|done|done|lia|].
      unfold to_stop in Hst. apply negb_true_iff, andb_false_iff in Hst.
      rewrite !bool_decide_eq_false in Hst.
      destruct (decide (in_State i = InstanceStateRunning)); [by left|].
      destruct (decide (in_State i = InstanceStateProvisioning)); [by right|]. by destruct Hst.
    + intros (c & Hi & Ho & Hc & Hb & Hst). exists (cr_UserID c). split.
      * apply list_elem_of_In, list_elem_of_fmap. exists c. split; [done|].
        apply elem_of_filter_rows. split; [lia|]. by apply elem_of_rows.
      * rewrite List.filter_In, <- list_elem_of_In. split.
        -- apply elem_of_order_by, elem_of_filter_rows. split; [by apply bool_decide_eq_true|].
           by apply elem_of_rows.
        -- unfold to_stop. apply negb_true_iff, andb_false_iff.
           rewrite !bool_decide_eq_false. naive_solver.
Qed.
End sweep.

(** ** Witnesses *)

Section witnesses.
#[local] Existing Instances DemoUUID.lib DemoUUID.laws.

Definition demo_worker : Worker :=
  {| wk_Rates := Some {| rt_Rates := {[ 1%Z := 200%Z ]} |}; wk_Dispatcher := true |}.

Lemma demo_due row : (0 <= due (wk_Rates demo_worker) row)%Z.
Proof.
  unfold due. destruct (br_OwnerID row); [|done]. unfold MilliPerMinute, demo_worker. simpl.
  rewrite lookup_singleton. by case_decide.
Qed.

Lemma demo_solvent : solvent (wk_Rates demo_worker) demo_db (billable_rows demo_db).
Proof.
  split_and!.
  - intros u c Hc. unfold demo_db in Hc. simpl in Hc. rewrite lookup_singleton in Hc.
    case_decide; [|done]. by simplify_eq.
  - intros u. change (billable_rows demo_db) with
      [{| br_ID := 5; br_OwnerID := Some 1%N; br_GpuCount := 1; br_UpdatedAt := 0%Z |}].
    unfold balance_of, demo_db. simpl. rewrite lookup_singleton. repeat case_decide;
      simplify_eq; vm_compute; discriminate.
  - intros row u Hr Ho. change (billable_rows demo_db) with
      [{| br_ID := 5; br_OwnerID := Some 1%N; br_GpuCount := 1; br_UpdatedAt := 0%Z |}] in Hr.
    apply list_elem_of_singleton in Hr as ->. simpl in Ho. injection Ho as <-. by eexists.
Qed.

Lemma demo_keyed id i : db_instances demo_db !! id = Some i -> in_ID i = id.
Proof.
  unfold demo_db. simpl. rewrite lookup_singleton. case_decide; [|done]. by intros [= <-].
Qed.

Lemma charge_once_per_minute_witness :
  let s1 := (charge demo_worker (60 * second) (demo [])).2 in
  balance_of (pg_db s1) 1 = 300%Z /\
  pg_db (charge demo_worker (61 * second) s1).2 = pg_db s1.
Proof.
  cbv zeta. split; [vm_compute; reflexivity|].
  destruct (charge_once_per_minute demo_worker (60 * second) (61 * second) (demo [])
    eq_refl demo_keyed demo_due demo_solvent eq_refl) as (new & creds & _ & _ & H). exact H.
Defined.

Lemma LoadRates_spec_witness :
  LoadRates (fun _ => Ok "raw") (fun _ => Ok {[ 1%Z := (-5)%Z ]}) "rates.yaml" =
  Err (ErrNew "rates: rate for gpu=1 is negative").
Proof.
  pose proof (LoadRates_spec (fun _ => Ok "raw") (fun _ => Ok {[ 1%Z := (-5)%Z ]}) "rates.yaml") as H.
  vm_compute. reflexivity.
Defined.

(** A user in debt. *)
Definition debt_world : World OpenRegistry :=
  Build_World (on_demo (set_credits {[ 1%N := {| cr_UserID := 1; cr_BalanceMilli := -7;
                                                 cr_UpdatedAt := 0 |} ]} demo_db)) demo_agents.

Lemma sweepBankrupt_spec_witness :
  clean (w_pg debt_world) /\
  in_ID <$> sweep_targets (pg_db (w_pg debt_world)) = [5%N] /\
  (sweepBankrupt demo_worker debt_world).1 = Ok tt.
Proof.
  split; [reflexivity|]. split; [vm_compute; reflexivity|].
  pose proof (sweepBankrupt_spec demo_worker debt_world eq_refl eq_refl) as H.
  destruct (sweepBankrupt demo_worker debt_world) as [r w']. exact (proj1 H).
Defined.
End witnesses.

(** ** The loop *)

Section loop.
Context `{UUIDLaws, Dispatcher D}.

(** However long the worker runs, whatever fails, balances stay the sums of
    the ledger and no minute of an instance is charged twice: the keys of the
    ledger stay distinct. *)
Lemma Run_ledger wk l : preserves (on_world ledger_ok) (Run wk l).
Proof.
  assert (forall now, preserves (on_world ledger_ok) (runOnce wk now)) as Hone.
  { intros now. unfold runOnce, sweepBankrupt, destroy, UsersWithNegativeBalance.
    pose proof (charge_ledger wk now). solve_pres; try (apply preserves_onPg, exec_keeps, keeps_query). }
  induction l as [|[now|e] l IH]; simpl; [apply preserves_ret| |apply preserves_ret].
  apply preserves_bind; [apply Hone|]. by intros _.
Qed.

(** It ends with the context, and only then. *)
Lemma Run_ends wk l (w : World D) e :
  (Run wk l w).1 = Some e <-> exists ticks rest, l = (Ticked <$> ticks) ++ CtxDone e :: rest.
Proof.
  revert w. induction l as [|[now|e'] l IH]; intros w; simpl.
  - split; [done|]. by intros ([|] & rest & [=]).
  - unfold bind. destruct (runOnce wk now w) as [r w']. rewrite IH. split.
    + intros (ticks & rest & ->). by exists (now :: ticks), rest.
    + intros ([|t ticks] & rest & [=]); simplify_eq. eauto.
  - split; [intros [= ->]; by exists [], l|]. by intros ([|] & rest & [=]); simplify_eq.
Qed.
End loop.
