(* ===== verification/NodeRepo.v ===== *)
(** * The node repository (internal/node/repo.go) *)

From S2P Require Import Prelude Proto Db Queries.

#[local] Open Scope go_scope.

Record UpsertInput := {
  ui_ZoneID : UUID;
  ui_NodeName : string;
  ui_Hostname : string;
  ui_AgentVersion : string;
  ui_TopologyJSON : string
}.

Record NodeInstance := { ni_ID : UUID; ni_State : InstanceState }.

Definition UpsertOnline (inp : UpsertInput) : ST Pg (result Node) :=
  exec (upsertNode {| unp_ZoneID := ui_ZoneID inp; unp_NodeName := ui_NodeName inp;
                      unp_Hostname := ui_Hostname inp; unp_AgentVersion := ui_AgentVersion inp;
                      unp_TopologyJson := ui_TopologyJSON inp |}).

Definition TouchHeartbeat (id : UUID) : ST Pg (result unit) := exec (touchNodeHeartbeat id).

(** A placeholder in the code as well: topology is stored by the upsert only. *)
Definition UpdateTopology (id : UUID) (topologyJSON : string) : ST Pg (result unit) := ret (Ok tt).

Definition MarkStaleOffline (before : Time) : ST Pg (result (list UUID)) :=
  exec (markStaleNodesOfflineReturning before).

Definition NonTerminalInstancesForNode (nodeID : UUID) : ST Pg (result (list NodeInstance)) :=
  rows <-? exec (listNonTerminalInstancesForNode nodeID) ;;
  ret (Ok ((fun r => {| ni_ID := r.1; ni_State := r.2 |}) <$> rows)).

Definition GetNode (id : UUID) : ST Pg (result Node) := exec (getNode id).

Definition ListNodes `{Collation} : ST Pg (result (list Node)) := exec listNodes.

Definition ListAccessibleToUser `{Collation} (userID : UUID) : ST Pg (result (list Node)) :=
  exec (listNodesAccessibleToUser userID).

Definition DefaultZoneID : ST Pg (result UUID) :=
  z <-? exec getDefaultZone ;;
  ret (Ok (zn_ID z)).

(** ** The node table *)

(** Rows carry their key, names are unique. *)
Definition nodes_ok (d : DB) : Prop :=
  (forall id n, db_nodes d !! id = Some n -> nd_ID n = id) /\
  (forall id id' n n', db_nodes d !! id = Some n -> db_nodes d !! id' = Some n' ->
     nd_NodeName n = nd_NodeName n' -> id = id').

Lemma nodes_ok_frame d d' : db_nodes d' = db_nodes d -> nodes_ok d -> nodes_ok d'.
Proof. unfold nodes_ok. by intros ->. Qed.

(** Updating rows in place. *)
Lemma nodes_ok_update d m :
  nodes_ok d ->
  (forall id n', m !! id = Some n' -> exists n, db_nodes d !! id = Some n /\
     nd_ID n' = nd_ID n /\ nd_NodeName n' = nd_NodeName n) ->
  nodes_ok (set_nodes m d).
Proof.
  intros [Hk Hu] Hm. split; simpl.
  - intros id n' Hn'. destruct (Hm id n' Hn') as (n & Hn & -> & _). by apply Hk.
  - intros id id' n1 n2 H1 H2 E. destruct (Hm _ _ H1) as (m1 & M1 & _ & E1).
    destruct (Hm _ _ H2) as (m2 & M2 & _ & E2). apply (Hu id id' m1 m2); congruence.
Qed.

Lemma upsertNode_Ok arg e d n d' :
  nodes_ok d -> upsertNode arg e d = (Ok n, d') ->
  d' = set_nodes (<[nd_ID n := n]> (db_nodes d)) d /\
  nd_NodeName n = unp_NodeName arg /\ nd_Status n = NodeStatusOnline /\
  nd_LastHeartbeatAt n = Some (env_now e) /\ nd_TopologyJson n = unp_TopologyJson arg /\
  match db_nodes d !! nd_ID n with
  | Some n0 => nd_NodeName n0 = unp_NodeName arg /\ nd_ProfileHash n = nd_ProfileHash n0 /\
      nd_AccessPolicy n = nd_AccessPolicy n0 /\ nd_OwnerTeamID n = nd_OwnerTeamID n0 /\
      nd_ZoneID n = nd_ZoneID n0 /\ nd_RegisteredAt n = nd_RegisteredAt n0
  | None => nd_AccessPolicy n = "public"%string /\ nd_OwnerTeamID n = None /\
      nd_ZoneID n = unp_ZoneID arg /\ is_Some (db_zones d !! unp_ZoneID arg) /\
      (forall id n0, db_nodes d !! id = Some n0 -> nd_NodeName n0 <> unp_NodeName arg)
  end.
Proof.
  intros [Hk Hu]. unfold upsertNode. destruct (row_where _ _) as [n0|] eqn:Hr.
  - apply row_where_Some in Hr as [Hn [id Hid]]. unfold named in Hn. apply String.eqb_eq in Hn.
    pose proof (Hk id n0 Hid) as Hkey. subst id. intros [= <- <-]. simpl. rewrite Hid.
    by split_and!.
  - pose proof (proj1 (row_where_None _ _) Hr) as Hall.
    destruct (fk_ok _ (db_nodes d)) eqn:Hf; [done|]. destruct (fk_ok _ (db_zones d)) eqn:Hz; [|done].
    intros [= <- <-]. simpl. apply fk_ok_None_lookup in Hf. apply fk_ok_Some in Hz.
    simpl in Hf. rewrite Hf. split_and!; try done. intros id n1 Hn1 E.
    specialize (Hall id n1 Hn1). unfold named in Hall. by rewrite E, String.eqb_refl in Hall.
Qed.

Lemma keeps_upsertNode arg : keeps nodes_ok (upsertNode arg).
Proof.
  intros e d Hd. destruct (upsertNode arg e d) as [[n|err] d'] eqn:E.
  - pose proof (upsertNode_Ok arg e d n d' Hd E) as (-> & Hname & _ & _ & _ & Hcase).
    destruct Hd as [Hk Hu]. split; simpl.
    + intros id n'. rewrite lookup_insert. case_decide; [|apply Hk]. by intros [= <-].
    + assert (forall id n', id <> nd_ID n -> db_nodes d !! id = Some n' -> nd_NodeName n' <> nd_NodeName n)
        as Hdiff.
      { intros id n' Hne Hn' En. rewrite Hname in En. destruct (db_nodes d !! nd_ID n) as [n0|] eqn:E0.
        - destruct Hcase as (En0 & _). apply Hne, (Hu id (nd_ID n) n' n0); congruence.
        - destruct Hcase as (_ & _ & _ & _ & Hall). by apply (Hall id n'). }
      intros id id' n1 n2. rewrite !lookup_insert. repeat case_decide; subst; try done.
      * intros [= <-] H2 En. exfalso. by apply (Hdiff id' n2); [congruence|done|].
      * intros H1 [= <-] En. exfalso. by apply (Hdiff id n1); [congruence|done|].
      * apply Hu.
  - unfold upsertNode in E. repeat case_match; simplify_eq/=; done.
Qed.

Lemma keeps_touch id : keeps nodes_ok (touchNodeHeartbeat id).
Proof.
  intros e d Hd. apply nodes_ok_update; [done|]. intros i n'. rewrite lookup_alter.
  case_decide; subst; [|by eauto]. intros (n & Hn & ->)%fmap_Some. by exists n.
Qed.

Lemma keeps_mark_stale c : keeps nodes_ok (markStaleNodesOfflineReturning c).
Proof.
  intros e d Hd. apply nodes_ok_update; [done|].
  intros i n' (n & Hn & ->)%lookup_update_where_Some. exists n. split; [done|]. by case_match.
Qed.

Lemma keeps_nodes_hash id h : keeps nodes_ok (updateNodeProfileHash id h).
Proof.
  intros e d Hd. apply nodes_ok_update; [done|]. intros i n'. rewrite lookup_alter.
  case_decide; subst; [|by eauto]. intros (n & Hn & ->)%fmap_Some. by exists n.
Qed.

#[export] Hint Resolve keeps_upsertNode keeps_touch keeps_mark_stale keeps_nodes_hash : pres.
