(* ===== verification/Http.v ===== *)
(** * Requests and responses of the REST handlers (internal/api/admin.go) *)

From S2P Require Import Prelude GoStrings Proto Db.

(** The request body as the handler sees it: [io.ReadAll] of a limited reader
    followed by [json.Unmarshal] into the request type. *)
Inductive Body (A : Type) :=
  | ReadFailed (msg : string)
  | BadJSON (msg : string)
  | Decoded (a : A).
Arguments ReadFailed {A} msg.
Arguments BadJSON {A} msg.
Arguments Decoded {A} a.

(** What a handler writes: [writeError], [writeJSON], or a bare status. *)
Inductive Resp (B : Type) :=
  | WriteError (status : Z) (code msg : string)
  | WriteJSON (status : Z) (body : B)
  | WriteHeader (status : Z).
Arguments WriteError {B} status code msg.
Arguments WriteJSON {B} status body.
Arguments WriteHeader {B} status.

(** The handlers' checks return either a value or the fields of the error to
    write. *)
Inductive checked (A : Type) :=
  | Pass (a : A)
  | Reject (status : Z) (code msg : string).
Arguments Pass {A} a.
Arguments Reject {A} status code msg.

(** [if httpCode != 0 { writeError(..); return }]. *)
Definition bindC {S A B} (m : ST S (checked A)) (k : A -> ST S (Resp B)) : ST S (Resp B) :=
  bind m (fun r => match r with
                   | Pass a => k a
                   | Reject st code msg => ret (WriteError st code msg)
                   end).

Definition StatusOK : Z := 200.
Definition StatusCreated : Z := 201.
Definition StatusAccepted : Z := 202.
Definition StatusNoContent : Z := 204.
Definition StatusBadRequest : Z := 400.
Definition StatusUnauthorized : Z := 401.
Definition StatusPaymentRequired : Z := 402.
Definition StatusForbidden : Z := 403.
Definition StatusNotFound : Z := 404.
Definition StatusMethodNotAllowed : Z := 405.
Definition StatusConflict : Z := 409.
Definition StatusTooManyRequests : Z := 429.
Definition StatusInternalServerError : Z := 500.
Definition StatusBadGateway : Z := 502.
Definition StatusServiceUnavailable : Z := 503.

Lemma preserves_bindC {S A B} (I : S -> Prop) (m : ST S (checked A)) (k : A -> ST S (Resp B)) :
  preserves I m -> (forall a, preserves I (k a)) -> preserves I (bindC m k).
Proof.
  intros Hm Hk. apply preserves_bind; [done|]. intros [a|st c e]; [apply Hk|apply preserves_ret].
Qed.

Lemma bindC_eq {S A B} (m : ST S (checked A)) (k : A -> ST S (Resp B)) s :
  bindC m k s = match m s with
                | (Pass a, s1) => k a s1
                | (Reject st code msg, s1) => (WriteError st code msg, s1)
                end.
Proof. unfold bindC, bind. by destruct (m s) as [[a|st c e] s1]. Qed.
