(* ===== verification/AgentStream.v ===== *)
(** * The agent stream service (internal/grpc/agent_stream.go)

    The handshake of [Stream], the messages of the receive loop and what they
    do to instances and slots, and the sweeper that fails the instances of a
    node whose heartbeats stopped.  The registration of the stream's channel,
    its closing and the cleanup are the steps of AgentRegistry.v; what an
    agent sends is a list of receive events. *)

From S2P Require Import Prelude GoStrings Proto Db Queries Demo InstanceState InstanceRepo SlotRepo NodeRepo.

#[local] Open Scope string_scope.
#[local] Open Scope list_scope.
#[local] Open Scope go_scope.

(** ** gRPC status errors (google.golang.org/grpc/status) *)
Inductive Code := Canceled | InvalidArgument | Unauthenticated | Internal.

Definition Code_text (c : Code) : string :=
  match c with
  | Canceled => "Canceled"
  | InvalidArgument => "InvalidArgument"
  | Unauthenticated => "Unauthenticated"
  | Internal => "Internal"
  end.

(** The text of [status.Error]. *)
Definition status_Error (c : Code) (msg : string) : error :=
  ErrNew ("rpc error: code = " +:+ Code_text c +:+ " desc = " +:+ msg).

(** ** The service *)
Record AgentStreamService := {
  svc_Instances : bool;              (* is the updater wired? *)
  svc_Slots : bool;
  svc_Profiles : bool;
  svc_ExpectedToken : string;
  svc_DefaultZoneID : UUID;
  svc_HeartbeatInterval : Z;         (* nanoseconds *)
  svc_SendBuffer : Z
}.

Definition heartbeatInterval (s : AgentStreamService) : Z :=
  if (0 <? svc_HeartbeatInterval s)%Z then svc_HeartbeatInterval s else 15 * second.

Definition sendBuffer (s : AgentStreamService) : Z :=
  if (0 <? svc_SendBuffer s)%Z then svc_SendBuffer s else 16.

(** What [stream.Recv] returns. *)
Inductive RecvResult :=
  | Received (m : AgentMessage)
  | RecvEOF
  | RecvCanceled                     (* an error whose status code is Canceled *)
  | RecvError (e : error).

Definition mapInstanceState (s : ProtoState) : result State :=
  match s with
  | INSTANCE_STATE_PROVISIONING => Ok InstanceStateProvisioning
  | INSTANCE_STATE_RUNNING => Ok InstanceStateRunning
  | INSTANCE_STATE_STOPPING => Ok InstanceStateStopping
  | INSTANCE_STATE_STOPPED => Ok InstanceStateStopped
  | INSTANCE_STATE_FAILED => Ok InstanceStateFailed
  | INSTANCE_STATE_UNSPECIFIED => Err (ErrNew "unknown instance state")
  end.

(** The decoder leaves an empty repeated field nil. *)
Definition toProfileSlots (inp : list SlotSpec) : list ProfileSlot :=
  (fun s => {| ps_SlotIndex := ss_SlotIndex s; ps_GpuCount := ss_GpuCount s;
               ps_GpuIndices := match ss_GpuIndices s with [] => None | l => Some l end;
               ps_NvlinkDomain := ss_NvlinkDomain s |}) <$> inp.

Definition syncResultString (r : SyncResult) : string :=
  match r with
  | SyncUnchanged => "unchanged"
  | SyncReplaced => "replaced"
  | SyncDegraded => "degraded"
  end.

Section service.
Context `{UUIDLib, Collation}.
(** [protojson.Marshal] of a topology, and [netip.ParseAddr]. *)
Context (protojson_Marshal : Topology -> result string).
Context (netip_ParseAddr : string -> result Addr).
Implicit Types (s : AgentStreamService).

Definition marshalTopology (t : option Topology) : result string :=
  match t with None => Ok "{}" | Some t => protojson_Marshal t end.

Definition report_options (st : InstanceStatus) : TransitionOptions :=
  {| to_Reason := "agent_report"; to_ErrorMessage := st_ErrorMessage st;
     to_VMInternalIP := if String.eqb (st_VmInternalIp st) "" then ""
                        else match netip_ParseAddr (st_VmInternalIp st) with
                             | Ok addr => addr
                             | Err _ => ""
                             end;
     to_EventMetadata := ""; to_SkipIdempotent := false |}.

Definition applyInstanceStatus s (st : InstanceStatus) : ST Pg (result unit) :=
  if negb (svc_Instances s) then ret (Ok tt)
  else match uuid_Parse (st_InstanceId st) with
  | Err e => ret (Err e)
  | Ok id =>
  match mapInstanceState (st_State st) with
  | Err e => ret (Err e)
  | Ok to =>
      r <- Transition id to (report_options st) ;;
      let refused := match r with
                     | Err e => if errors_Is e ErrInvalidTransition then None else Some e
                     | Ok _ => None
                     end in
      match refused with
      | Some e => ret (Err e)
      | None =>
          (if svc_Slots s && IsTerminal to then ReleaseForInstance id ;;; ret tt else ret tt) ;;;
          ret (Ok tt)
      end
  end
  end.

Definition handleAgentMessage s (nodeID : UUID) (msg : AgentMessage) : ST Pg (result unit) :=
  match msg with
  | AM_Heartbeat => TouchHeartbeat nodeID
  | AM_Topology t =>
      match marshalTopology t with
      | Err e => ret (Err e)
      | Ok raw => UpdateTopology nodeID raw
      end
  | AM_InstanceStatus st => applyInstanceStatus s st
  | AM_Ack => ret (Ok tt)
  | AM_Register _ =>
      ret (Err (status_Error InvalidArgument "Register received after initial handshake"))
  | AM_None => ret (Err (status_Error InvalidArgument "unknown AgentMessage payload <nil>"))
  end.

(** What the agent sends, until the stream ends; the errors of the handler
    are logged. *)
Fixpoint receiveLoop s (nodeID : UUID) (incoming : list RecvResult) : ST Pg (result unit) :=
  match incoming with
  | [] => ret (Ok tt)                  (* still waiting *)
  | RecvEOF :: _ | RecvCanceled :: _ => ret (Ok tt)
  | RecvError e :: _ => ret (Err e)
  | Received msg :: rest => handleAgentMessage s nodeID msg ;;; receiveLoop s nodeID rest
  end.

(** The slot layout of the profile a node registered with. *)
Definition sync_profile s (nodeID : UUID) (reg : RegisterMsg) : ST Pg unit :=
  match rg_Topology reg with
  | Some {| top_Profile := Some p |} =>
      if svc_Profiles s
      then SyncFromProfile nodeID (pf_Hash p) (toProfileSlots (pf_Slots p)) ;;; ret tt
      else ret tt
  | _ => ret tt
  end.

(** The ack, sent before the slots are synchronised. *)
Definition register_ack s (n : Node) : ControlMessage :=
  CM_RegisterAck (uuid_String (nd_ID n)) (heartbeatInterval s / second).

(** [Stream] up to the point where its channel is registered; [send_ack] is
    the outcome of sending the RegisterAck. *)
Definition handshake s (first : RecvResult) (send_ack : ControlMessage -> result unit)
    : ST Pg (result (Node * RegisterMsg)) :=
  match first with
  | RecvEOF => ret (Err (status_Error Canceled "recv Register: EOF"))
  | RecvCanceled => ret (Err (status_Error Canceled "recv Register: context canceled"))
  | RecvError e => ret (Err (status_Error Canceled ("recv Register: " +:+ Error e)))
  | Received (AM_Register reg) =>
      if String.eqb (rg_AgentToken reg) "" || negb (String.eqb (rg_AgentToken reg) (svc_ExpectedToken s))
      then ret (Err (status_Error Unauthenticated "invalid agent token"))
      else match marshalTopology (rg_Topology reg) with
           | Err e => ret (Err (status_Error InvalidArgument ("topology json: " +:+ Error e)))
           | Ok topology =>
               r <- UpsertOnline {| ui_ZoneID := svc_DefaultZoneID s; ui_NodeName := rg_NodeName reg;
                                    ui_Hostname := rg_Hostname reg;
                                    ui_AgentVersion := rg_AgentVersion reg;
                                    ui_TopologyJSON := topology |} ;;
               match r with
               | Err e => ret (Err (status_Error Internal ("register: " +:+ Error e)))
               | Ok n =>
                   match send_ack (register_ack s n) with
                   | Err e => ret (Err (status_Error Canceled ("send RegisterAck: " +:+ Error e)))
                   | Ok _ => sync_profile s (nd_ID n) reg ;;; ret (Ok (n, reg))
                   end
               end
           end
  | Received _ => ret (Err (status_Error InvalidArgument "first message must be Register"))
  end.

(** One instance of a node that went offline: an error of the transition other
    than a refusal skips the release. *)
Definition reap_options : TransitionOptions :=
  {| to_Reason := "node_offline"; to_ErrorMessage := "agent heartbeat timed out; node marked offline";
     to_VMInternalIP := ""; to_EventMetadata := ""; to_SkipIdempotent := false |}.

Definition reap_instance s (row : NodeInstance) : ST Pg unit :=
  r <- Transition (ni_ID row) InstanceStateFailed reap_options ;;
  let skip := match r with Err e => negb (errors_Is e ErrInvalidTransition) | Ok _ => false end in
  if skip then ret tt
  else if svc_Slots s then ReleaseForInstance (ni_ID row) ;;; ret tt
  else ret tt.

Definition reapInstancesForOfflineNode s (nodeID : UUID) : ST Pg unit :=
  r <- NonTerminalInstancesForNode nodeID ;;
  match r with
  | Err _ => ret tt
  | Ok rows => forRange rows (reap_instance s)
  end.

(** One tick of [StaleSweeper] at the time [now]. *)
Definition sweep_tick s (ttl now : Z) : ST Pg unit :=
  r <- MarkStaleOffline (now - ttl) ;;
  match r with
  | Err _ => ret tt
  | Ok ids => forRange ids (reapInstancesForOfflineNode s)
  end.

(** The ticks until the context is cancelled. *)
Definition StaleSweeper s (ttl : Z) (ticks : list Time) : ST Pg unit :=
  forRange ticks (sweep_tick s ttl).
End service.
