(* ===== verification/StreamProof.v ===== *)
(** * What agent reports and lost agents do to instances and slots

    The proofs about AgentStream.v: a sweep fails exactly the live instances
    of the nodes that went silent and frees exactly their slots; a status
    report moves one instance. *)

From S2P Require Import Prelude GoStrings Proto Db Queries Demo InstanceState InstanceRepo SlotRepo NodeRepo AgentStream.

#[local] Open Scope string_scope.
#[local] Open Scope list_scope.
#[local] Open Scope go_scope.

(** ** The effect of reaping a list of instances *)

(** The row of an instance failed by the sweeper at the time [t]. *)
Definition reaped (t : Time) (i : InstanceRow) : InstanceRow :=
  with_state {| env_now := t; env_uuid := 0; env_seq := 0 |}
             (update_params (in_ID i) InstanceStateFailed reap_options) i.

Definition free_if (ids : list UUID) (v : GpuSlot) : GpuSlot :=
  match gs_CurrentInstanceID v with
  | Some i => if decide (i ∈ ids) then slot_with SlotStatusFree None v else v
  | None => v
  end.

Record reap_effect (ids : list UUID) (d d' : DB) : Prop := {
  re_instances : forall id, match db_instances d !! id with
    | Some i => exists i', db_instances d' !! id = Some i' /\
                  if decide (id ∈ ids) then exists t, i' = reaped t i else i' = i
    | None => db_instances d' !! id = None
    end;
  re_slots : forall k, db_gpu_slots d' !! k = free_if ids <$> db_gpu_slots d !! k;
  re_nodes : db_nodes d' = db_nodes d
}.

Definition keyed (d : DB) : Prop := forall id i, db_instances d !! id = Some i -> in_ID i = id.

Lemma audit_keyed d : audit_ok d -> keyed d.
Proof. intros Hd id i Hi. specialize (Hd id). rewrite Hi in Hd. apply Hd. Qed.

Lemma reap_effect_refl d : reap_effect [] d d.
Proof.
  constructor; [|intros k|done].
  - intros id. destruct (db_instances d !! id) as [i|]; [|done]. exists i. split; [done|].
    rewrite decide_False; [done|]. apply not_elem_of_nil.
  - destruct (db_gpu_slots d !! k) as [v|]; [|done]. simpl. f_equal. unfold free_if.
    destruct (gs_CurrentInstanceID v); [|done]. rewrite decide_False; [done|]. apply not_elem_of_nil.
Qed.

Lemma reap_effect_app ids1 ids2 d d1 d2 :
  reap_effect ids1 d d1 -> reap_effect ids2 d1 d2 -> reap_effect (ids1 ++ ids2) d d2.
Proof.
  intros [I1 S1 N1] [I2 S2 N2]. constructor; [|intros k|congruence].
  - intros id. specialize (I1 id). specialize (I2 id).
    destruct (db_instances d !! id) as [i|]; [|by rewrite I1 in I2].
    destruct I1 as (i1 & E1 & H1). rewrite E1 in I2. destruct I2 as (i2 & E2 & H2).
    exists i2. split; [done|].
    destruct (decide (id ∈ ids1)) as [X1|X1], (decide (id ∈ ids2)) as [X2|X2];
      first [rewrite decide_True by (rewrite elem_of_app; tauto)
            |rewrite decide_False by (rewrite elem_of_app; tauto)].
    + destruct H1 as [t1 ->], H2 as [t2 ->]. by exists t2.
    + destruct H1 as [t1 ->]. subst. by exists t1.
    + subst. done.
    + congruence.
  - rewrite S2, S1. destruct (db_gpu_slots d !! k) as [v|]; [|done]. simpl. f_equal.
    unfold free_if. destruct (gs_CurrentInstanceID v) as [i|] eqn:E; [|by rewrite E].
    destruct (decide (i ∈ ids1)) as [X1|X1].
    + rewrite decide_True by (rewrite elem_of_app; tauto). done.
    + rewrite E. destruct (decide (i ∈ ids2)) as [X2|X2];
        first [rewrite decide_True by (rewrite elem_of_app; tauto)
              |rewrite decide_False by (rewrite elem_of_app; tauto)]; done.
Qed.

Lemma reap_effect_keyed ids d d' : reap_effect ids d d' -> keyed d -> keyed d'.
Proof.
  intros [I _ _] Hk id i' Hi'. specialize (I id).
  destruct (db_instances d !! id) as [i|] eqn:E; [|congruence].
  destruct I as (i1 & E1 & H1). simplify_eq. destruct (decide _).
  - destruct H1 as [t ->]. exact (Hk id i E).
  - subst. exact (Hk id i E).
Qed.

(** ** One instance, one node, one sweep *)
Section sweep.
Context (s : AgentStreamService).
Hypothesis Hslots : svc_Slots s = true.

Lemma reap_instance_effect row st i :
  clean st -> db_instances (pg_db st) !! ni_ID row = Some i ->
  CanTransition (in_State i) InstanceStateFailed = true ->
  clean (reap_instance s row st).2 /\
  reap_effect [ni_ID row] (pg_db st) (pg_db (reap_instance s row st).2).
Proof.
  intros Hs Hi Hc. unfold reap_instance. rewrite bind_eq.
  pose proof (Transition_clean (ni_ID row) InstanceStateFailed reap_options st Hs) as HT.
  cbn [Validate] in HT. cbv zeta in HT. rewrite Hi in HT.
  unfold transition_refused in HT. cbn [to_SkipIdempotent reap_options] in HT.
  rewrite Hc, andb_false_r in HT. cbn [negb] in HT.
  destruct HT as (env & env' & _ & _ & Hr & Hd). rewrite Hr, Hslots. cbn iota.
  pose proof (uses_suffix_clean _ _ (suffix_Transition (ni_ID row) InstanceStateFailed reap_options) Hs) as Hs1.
  destruct (Transition (ni_ID row) InstanceStateFailed reap_options st) as [r s1]. simpl in *.
  rewrite bind_eq. unfold ReleaseForInstance. rewrite exec_clean by done. simpl.
  split; [by apply tick_clean|]. rewrite Hd. constructor; simpl; [|intros k|done].
  - intros id. rewrite lookup_insert. destruct (decide (ni_ID row = id)) as [<-|Hne].
    + rewrite Hi. eexists. split; [done|]. rewrite decide_True by left. exists (env_now env).
      reflexivity.
    + destruct (db_instances (pg_db st) !! id) as [j|] eqn:E; [|done].
      eexists. split; [done|]. by rewrite decide_False by (rewrite list_elem_of_singleton; congruence).
  - rewrite lookup_update_where. destruct (db_gpu_slots (pg_db st) !! k) as [v|]; [|done]. simpl. f_equal.
    unfold slot_of_instance, free_if. destruct (gs_CurrentInstanceID v) as [j|].
    + destruct (decide (j = ni_ID row)) as [->|Hne].
      * by rewrite bool_decide_eq_true_2, decide_True by (done || left).
      * by rewrite bool_decide_eq_false_2, decide_False by (rewrite ?list_elem_of_singleton; congruence).
    + by rewrite bool_decide_eq_false_2.
Qed.

Lemma reap_rows_effect l st :
  clean st ->
  (forall row, row ∈ l -> exists i, db_instances (pg_db st) !! ni_ID row = Some i /\
     CanTransition (in_State i) InstanceStateFailed = true) ->
  clean (forRange l (reap_instance s) st).2 /\
  reap_effect (ni_ID <$> l) (pg_db st) (pg_db (forRange l (reap_instance s) st).2).
Proof.
  revert st. induction l as [|row l IH]; intros st Hs Hl; simpl.
  { split; [done|apply reap_effect_refl]. }
  rewrite bind_eq. destruct (Hl row ltac:(left)) as (i & Hi & Hc).
  destruct (reap_instance_effect row st i Hs Hi Hc) as [Hs1 He].
  destruct (IH (reap_instance s row st).2 Hs1) as [Hs2 He2].
  { intros row' Hin. destruct (Hl row' ltac:(by right)) as (j & Hj & Hcj).
    pose proof (re_instances _ _ _ He (ni_ID row')) as Hrow. rewrite Hj in Hrow.
    destruct Hrow as (j' & Hj' & Hrow). exists j'. split; [done|].
    destruct (decide _); [destruct Hrow as [t ->]; done|by subst]. }
  split; [done|]. by apply (reap_effect_app [ni_ID row] (ni_ID <$> l) _ (pg_db (reap_instance s row st).2)).
Qed.

(** The live instances of the nodes [ns]. *)
Definition live_on (ns : list UUID) (d : DB) (id : UUID) : Prop :=
  exists i, db_instances d !! id = Some i /\ in_NodeID i ∈ ns /\ reapable (in_State i) = true.

Lemma reap_node_effect n st :
  clean st -> keyed (pg_db st) ->
  exists ids, (forall id, id ∈ ids <-> live_on [n] (pg_db st) id) /\
    clean (reapInstancesForOfflineNode s n st).2 /\
    reap_effect ids (pg_db st) (pg_db (reapInstancesForOfflineNode s n st).2).
Proof.
  intros Hs Hk. unfold reapInstancesForOfflineNode, NonTerminalInstancesForNode.
  rewrite bind_eq, bindR_eq, exec_clean by done. simpl. set (s1 := tick _ st).
  set (l := (fun r => {| ni_ID := r.1; ni_State := r.2 |}) <$> _).
  assert (forall id, id ∈ ni_ID <$> l <-> live_on [n] (pg_db st) id) as Hids.
  { intros id. unfold l. rewrite <- !list_fmap_compose. rewrite list_elem_of_fmap. split.
    - intros (i & -> & [Hp [k Hi]]%elem_of_filter_rows). apply andb_true_iff in Hp as [Hn Hr].
      apply bool_decide_eq_true in Hn. exists i. simpl. rewrite (Hk k i Hi).
      rewrite list_elem_of_singleton. done.
    - intros (i & Hi & Hn%list_elem_of_singleton & Hr). exists i. split; [by rewrite <- (Hk id i Hi)|].
      apply elem_of_filter_rows. split; [|eauto]. by rewrite bool_decide_eq_true_2. }
  exists (ni_ID <$> l). split; [done|].
  apply (reap_rows_effect l s1); [by apply tick_clean|].
  intros row Hrow. assert (ni_ID row ∈ ni_ID <$> l) as Hin by (by apply list_elem_of_fmap_2).
  apply Hids in Hin as (i & Hi & _ & Hr). exists i. split; [done|]. by destruct (in_State i).
Qed.

Lemma reap_nodes_effect ns st :
  clean st -> keyed (pg_db st) ->
  exists ids, (forall id, id ∈ ids <-> live_on ns (pg_db st) id) /\
    clean (forRange ns (reapInstancesForOfflineNode s) st).2 /\
    reap_effect ids (pg_db st) (pg_db (forRange ns (reapInstancesForOfflineNode s) st).2).
Proof.
  revert st. induction ns as [|n ns IH]; intros st Hs Hk; simpl.
  { exists []. split; [|split; [done|apply reap_effect_refl]]. intros id. split; [by intros ?%elem_of_nil|].
    by intros (i & _ & ?%elem_of_nil & _). }
  rewrite bind_eq. destruct (reap_node_effect n st Hs Hk) as (ids1 & H1 & Hs1 & He1).
  destruct (IH _ Hs1 (reap_effect_keyed _ _ _ He1 Hk)) as (ids2 & H2 & Hs2 & He2).
  exists (ids1 ++ ids2). split; [|split; [done|by eapply reap_effect_app]].
  intros id. rewrite elem_of_app, H1, H2. unfold live_on.
  pose proof (re_instances _ _ _ He1 id) as Hrow.
  destruct (db_instances (pg_db st) !! id) as [i|] eqn:Hi.
  - destruct Hrow as (i' & Hi' & Hrow). rewrite Hi'. split.
    + intros [(j & [= <-] & Hn & Hr)|(j & [= <-] & Hn & Hr)].
      * exists i. split; [done|]. split; [|done]. rewrite elem_of_cons. apply list_elem_of_singleton in Hn. auto.
      * destruct (decide _) as [|Hno].
        -- destruct Hrow as [t ->]. done.
        -- subst. exists i. split; [done|]. split; [by right|done].
    + intros (j & [= <-] & [Hn|Hn]%elem_of_cons & Hr).
      * left. exists i. rewrite list_elem_of_singleton. done.
      * destruct (decide (in_NodeID i = n)) as [E|E].
        { left. exists i. rewrite list_elem_of_singleton. done. }
        right. rewrite decide_False in Hrow.
        { subst. exists i. done. }
        rewrite H1. intros (j & Hj & Hn'%list_elem_of_singleton & _). congruence.
  - rewrite Hrow. split; [by intros [(? & ? & _)|(? & ? & _)]|by intros (? & ? & _)].
Qed.
End sweep.

(** C27: one sweep fails exactly the instances of silent nodes.  With round
    trips served, a tick at [now] marks offline every node that was not
    offline and has no heartbeat within [ttl] (or none at all), and no other;
    every pending, provisioning or running instance of those nodes becomes
    failed with the heartbeat message and all its other columns unchanged;
    every slot such an instance held is free; every other instance and slot
    is unchanged. *)
Theorem sweep_tick_spec s ttl now st :
  svc_Slots s = true -> clean st -> audit_ok (pg_db st) -> nodes_ok (pg_db st) ->
  let d := pg_db st in
  let d' := pg_db (sweep_tick s ttl now st).2 in
  let silent n := exists nd, db_nodes d !! n = Some nd /\ stale (now - ttl) nd = true in
  let lost id := exists i, db_instances d !! id = Some i /\ silent (in_NodeID i) /\
                   reapable (in_State i) = true in
  (forall n nd, db_nodes d !! n = Some nd -> exists nd', db_nodes d' !! n = Some nd' /\
     nd_Status nd' = if stale (now - ttl) nd then NodeStatusOffline else nd_Status nd) /\
  (forall id i, db_instances d !! id = Some i -> exists i', db_instances d' !! id = Some i' /\
     (lost id -> exists t, i' = reaped t i) /\ (~ lost id -> i' = i)) /\
  (forall k v, db_gpu_slots d !! k = Some v -> exists v', db_gpu_slots d' !! k = Some v' /\
     ((exists i, gs_CurrentInstanceID v = Some i /\ lost i) -> v' = slot_with SlotStatusFree None v) /\
     (~ (exists i, gs_CurrentInstanceID v = Some i /\ lost i) -> v' = v)).
Proof.
  intros Hsl Hs Ha Hn d d' silent lost. unfold sweep_tick in d'. subst d'.
  rewrite bind_eq. unfold MarkStaleOffline. rewrite exec_clean by done. simpl fst. simpl snd.
  set (ids := nd_ID <$> _). set (s1 := tick _ st).
  destruct (reap_nodes_effect s Hsl ids s1) as (L & HL & _ & [HI HS HN]).
  { by apply tick_clean. }
  { by apply audit_keyed. }
  assert (forall n, n ∈ ids <-> silent n) as Hids.
  { intros n. unfold ids. rewrite list_elem_of_fmap. split.
    - intros (nd & -> & [Hst [k Hk]]%elem_of_filter_rows). exists nd.
      by rewrite (proj1 Hn k nd Hk).
    - intros (nd & Hk & Hst). exists nd. rewrite (proj1 Hn n nd Hk). split; [done|].
      apply elem_of_filter_rows. eauto. }
  assert (forall id, id ∈ L <-> lost id) as Hlost.
  { intros id. rewrite HL. unfold live_on, lost. simpl. setoid_rewrite Hids. done. }
  split_and!.
  - intros n nd Hnd. rewrite HN. simpl. rewrite lookup_update_where.
    unfold d in Hnd. rewrite Hnd. simpl. eexists. split; [done|]. by destruct (stale _ _).
  - intros id i Hi. specialize (HI id). simpl in HI. unfold d in Hi. rewrite Hi in HI.
    destruct HI as (i' & Hi' & Hc). exists i'. split; [done|]. destruct (decide (id ∈ L)) as [Hin|Hno].
    + split; [done|]. intros Hnl. by destruct Hnl; apply Hlost.
    + split; [intros Hl%Hlost; done|done].
  - intros k v Hv. rewrite HS. simpl. unfold d in Hv. rewrite Hv. simpl. eexists. split; [done|].
    unfold free_if. destruct (gs_CurrentInstanceID v) as [i|].
    + destruct (decide (i ∈ L)) as [Hin|Hno].
      * split; [done|]. intros Hnl. destruct Hnl. exists i. split; [done|]. by apply Hlost.
      * split; [|done]. intros (j & [= <-] & Hl%Hlost). done.
    + split; [by intros (? & ? & _)|done].
Qed.

(** ** Status reports *)
Section reports.
Context `{UUIDLib} (netip_ParseAddr : string -> result Addr).

Abbreviation apply_status := (applyInstanceStatus netip_ParseAddr).

(** What a status report does to the tables. *)
Definition status_effect (st : InstanceStatus) (r : result unit) (d d' : DB) : Prop :=
  match uuid_Parse (st_InstanceId st), mapInstanceState (st_State st) with
  | Ok id, Ok to =>
      match db_instances d !! id with
      | None => is_ok r = false /\ d' = d
      | Some i =>
          r = Ok tt /\
          (exists i', db_instances d' = <[id := i']> (db_instances d) /\
             if CanTransition (in_State i) to
             then in_State i' = to /\ in_ID i' = in_ID i /\ in_NodeID i' = in_NodeID i /\ in_OwnerID i' = in_OwnerID i
             else i' = i) /\
          (forall k, db_gpu_slots d' !! k =
             (if IsTerminal to then free_if [id] else fun v => v) <$> db_gpu_slots d !! k)
      end
  | _, _ => is_ok r = false /\ d' = d
  end.

Lemma applyInstanceStatus_effect s st pg :
  svc_Instances s = true -> svc_Slots s = true -> clean pg ->
  let '(r, pg') := apply_status s st pg in status_effect st r (pg_db pg) (pg_db pg').
Proof.
  intros Hi Hsl Hs. unfold status_effect, applyInstanceStatus. rewrite Hi, Hsl. cbn [negb].
  destruct (uuid_Parse (st_InstanceId st)) as [id|e]; [|done].
  destruct (mapInstanceState (st_State st)) as [to|e] eqn:Hto; [|done].
  assert (Validate to = Ok tt) as Hv by (destruct (st_State st); [discriminate Hto|by injection Hto as <-..]).
  rewrite bind_eq. set (opts := report_options netip_ParseAddr st).
  pose proof (Transition_clean id to opts pg Hs) as HT. cbv zeta in HT. rewrite Hv in HT.
  pose proof (uses_suffix_clean _ _ (suffix_Transition id to opts) Hs) as Hs1.
  destruct (Transition id to opts pg) as [r pg1]. cbn [fst snd] in *. cbv zeta.
  assert (forall (k : UUID), db_gpu_slots (pg_db pg) !! k = (fun v => v) <$> db_gpu_slots (pg_db pg) !! k)
    as Hid by (intros k; by destruct (_ !! k)).
  assert (forall d1 k, db_gpu_slots d1 = db_gpu_slots (pg_db pg) ->
    update_where (slot_of_instance id) (slot_with SlotStatusFree None) (db_gpu_slots d1) !! k =
    free_if [id] <$> db_gpu_slots (pg_db pg) !! k) as Hfree.
  { intros d1 k ->. rewrite lookup_update_where. destruct (_ !! k) as [v|]; [|done]. simpl. f_equal.
    unfold slot_of_instance, free_if. destruct (gs_CurrentInstanceID v) as [j|].
    - destruct (decide (j = id)) as [->|Hne].
      + by rewrite bool_decide_eq_true_2, decide_True by (done || left).
      + by rewrite bool_decide_eq_false_2, decide_False by (rewrite ?list_elem_of_singleton; congruence).
    - by rewrite bool_decide_eq_false_2. }
  assert (forall (b : bool) pg1, clean pg1 ->
    let pg' := ((if b then ReleaseForInstance id ;;; ret tt else ret tt) pg1).2 in
    db_instances (pg_db pg') = db_instances (pg_db pg1) /\
    (db_gpu_slots (pg_db pg1) = db_gpu_slots (pg_db pg) -> forall k,
       db_gpu_slots (pg_db pg') !! k =
       (if b then free_if [id] else fun v => v) <$> db_gpu_slots (pg_db pg) !! k)) as Hrel.
  { intros b pg2 Hs2 pg'. subst pg'. destruct b; simpl.
    - rewrite bind_eq. unfold ReleaseForInstance. rewrite exec_clean by done. simpl.
      split; [done|]. intros E k. by apply (Hfree (pg_db pg2)).
    - split; [done|]. intros -> k. apply Hid. }
  destruct (db_instances (pg_db pg) !! id) as [i|] eqn:E.
  - destruct (transition_refused (in_State i) to opts) as [e|] eqn:Hr.
    + destruct HT as [-> Hd]. rewrite (transition_refused_Some _ _ _ _ Hr).
      rewrite bind_eq. simpl. split; [done|].
      destruct (Hrel (IsTerminal to) pg1 Hs1) as [HI HS]. rewrite Hd in HI, HS.
      split; [|by apply HS]. exists i. rewrite HI. split; [by rewrite insert_id|].
      unfold transition_refused in Hr. simpl in Hr. rewrite andb_false_r in Hr.
      by destruct (CanTransition (in_State i) to).
    + destruct HT as (env & env' & _ & _ & -> & Hd). rewrite bind_eq. simpl. split; [done|].
      destruct (Hrel (IsTerminal to) pg1 Hs1) as [HI HS]. rewrite Hd in HI, HS. simpl in HI, HS.
      split; [|by apply HS]. eexists. split; [apply HI|].
      rewrite (transition_refused_None _ _ _ Hr). done.
  - destruct HT as [-> Hd]. done.
Qed.

(** C37: a status report moves one instance forward, or changes nothing of it.
    With round trips served: a report with an unreadable id or no state, or
    about an instance that does not exist, is an error and changes nothing.
    Otherwise the report is accepted; the row takes the reported state when
    the state machine allows it and is unchanged when it does not (so a
    finished instance stays finished); the slots of the instance are freed
    when the reported state is terminal; no other row or slot changes. *)
Theorem applyInstanceStatus_spec s st pg :
  svc_Instances s = true -> svc_Slots s = true -> clean pg -> keyed (pg_db pg) ->
  let '(r, pg') := apply_status s st pg in
  let d := pg_db pg in let d' := pg_db pg' in
  match uuid_Parse (st_InstanceId st), mapInstanceState (st_State st) with
  | Ok id, Ok to =>
      match db_instances d !! id with
      | None => is_ok r = false /\ d' = d
      | Some i =>
          r = Ok tt /\
          (exists i', db_instances d' = <[id := i']> (db_instances d) /\
             if CanTransition (in_State i) to
             then in_State i' = to /\ in_ID i' = in_ID i /\ in_NodeID i' = in_NodeID i /\ in_OwnerID i' = in_OwnerID i
             else i' = i) /\
          (forall k, db_gpu_slots d' !! k =
             (if IsTerminal to then free_if [id] else fun v => v) <$> db_gpu_slots d !! k)
      end
  | _, _ => is_ok r = false /\ d' = d
  end.
Proof. intros Hi Hsl Hs _. exact (applyInstanceStatus_effect s st pg Hi Hsl Hs). Qed.

End reports.

(** ** The handshake *)
Section handshake.
Context `{UUIDLib, Collation} (protojson_Marshal : Topology -> result string).

Definition named_online (id : UUID) (name : string) (d : DB) : Prop :=
  exists n, db_nodes d !! id = Some n /\ nd_NodeName n = name /\ nd_Status n = NodeStatusOnline.

Lemma keeps_frame_nodes {A} I (q : Stmt A) :
  (forall d d', db_nodes d' = db_nodes d -> I d -> I d') ->
  (forall e d, db_nodes (q e d).2 = db_nodes d) -> keeps I q.
Proof. intros HI Hq e d Hd. by apply (HI d). Qed.

Lemma named_online_frame id name d d' :
  db_nodes d' = db_nodes d -> named_online id name d -> named_online id name d'.
Proof. unfold named_online. by intros ->. Qed.

Lemma insertSlot_nodes arg e d : db_nodes (insertSlot arg e d).2 = db_nodes d.
Proof. unfold insertSlot. by repeat case_match. Qed.

Lemma sync_named_online id name n h l : preserves (on_db (named_online id name)) (SyncFromProfile n h l).
Proof.
  assert (forall id' h, keeps (named_online id name) (updateNodeProfileHash id' h)) as Hhash.
  { intros id' h' e d (nd & Hnd & Hname & Hst). unfold named_online. simpl.
    rewrite lookup_alter. case_decide; [subst; rewrite Hnd; simpl|]; by eexists. }
  assert (forall arg, keeps (named_online id name) (insertSlot arg)) as Hins.
  { intros arg. apply keeps_frame_nodes; [apply named_online_frame|apply insertSlot_nodes]. }
  assert (forall n, keeps (named_online id name) (deleteSlotsForNode n)) as Hdel.
  { intros n'. apply keeps_frame_nodes; [apply named_online_frame|done]. }
  unfold SyncFromProfile, insert_profile_slots. apply preserves_bindR.
  - apply preserves_wrapErr, exec_keeps, keeps_query_one.
  - intros nd. destruct (_ && _); [apply preserves_ret|]. apply inTx_body_preserves.
    apply preserves_bindR; [apply preserves_wrapErr, exec_keeps, keeps_query|].
    intros inUse. destruct (_ <? _)%Z; [apply preserves_ret|].
    repeat first [apply preserves_wrapErr|apply preserves_bindR; [|intros ?]|apply preserves_ret
                 |apply preserves_forRangeR; intros ?|apply exec_keeps; solve [auto]].
Qed.

(** Only an agent with the token registers.  Whatever its round trips do,
    a handshake whose first message is not a Register with the expected,
    non-empty token is refused and touches neither table nor wire; a
    handshake that succeeds had that token, and leaves a node row with the
    agent's name that is online, whose id the ack carries. *)
Theorem handshake_authenticated s first send_ack pg :
  nodes_ok (pg_db pg) ->
  let authenticated reg := first = Received (AM_Register reg) /\ rg_AgentToken reg <> "" /\
                           rg_AgentToken reg = svc_ExpectedToken s in
  let '(r, pg') := handshake protojson_Marshal s first send_ack pg in
  ((~ exists reg, authenticated reg) -> is_ok r = false /\ pg' = pg) /\
  (forall n reg, r = Ok (n, reg) -> authenticated reg /\
     named_online (nd_ID n) (rg_NodeName reg) (pg_db pg') /\
     send_ack (CM_RegisterAck (uuid_String (nd_ID n)) (heartbeatInterval s / second)) = Ok tt).
Proof.
  intros Hn authenticated. destruct (handshake _ s first send_ack pg) as [r pg'] eqn:E.
  unfold handshake in E. destruct first as [[reg| | | | |]| | |e]; try (injection E as <- <-; done).
  destruct (String.eqb_spec (rg_AgentToken reg) "") as [Hz|Hz].
  { injection E as <- <-. split; [done|]. intros n0 reg0. done. }
  destruct (String.eqb_spec (rg_AgentToken reg) (svc_ExpectedToken s)) as [Ht|Ht]; simpl in E.
  2:{ injection E as <- <-. split; [done|]. intros n0 reg0. done. }
  split.
  { intros Hno. destruct Hno. exists reg. done. }
  destruct (marshalTopology protojson_Marshal (rg_Topology reg)) as [top|e]; [|by injection E as <- <-].
  rewrite bind_eq in E. destruct (UpsertOnline _ pg) as [[n|e] pg1] eqn:HU; simpl in E; [|by injection E as <- <-].
  destruct (send_ack (register_ack s n)) as [[]|e] eqn:Hack; [|by injection E as <- <-].
  rewrite bind_eq in E. injection E as <- <-. intros n0 reg0 [= <- <-].
  split; [done|]. split; [|done].
  assert (named_online (nd_ID n) (rg_NodeName reg) (pg_db pg1)) as Hon.
  { unfold UpsertOnline in HU. apply exec_Ok in HU as [HU _].
    apply upsertNode_Ok in HU as (-> & Hname & Hst & _); [|done].
    exists n. simpl. rewrite lookup_insert, decide_True by done. done. }
  unfold sync_profile. destruct (rg_Topology reg) as [[g io [p|]]|]; simpl; [|done..].
  destruct (svc_Profiles s); simpl; [|done]. rewrite bind_eq. simpl. by apply sync_named_online.
Qed.
End handshake.

(** ** Witnesses and findings *)
Section witnesses.
#[local] Existing Instance C_collation.
#[local] Existing Instance DemoUUID.lib.

Definition demo_service : AgentStreamService :=
  {| svc_Instances := true; svc_Slots := true; svc_Profiles := true; svc_ExpectedToken := "tok";
     svc_DefaultZoneID := 2; svc_HeartbeatInterval := 0; svc_SendBuffer := 0 |}.

Definition parse_any (t : string) : result Addr := Ok t.
Definition marshal_any (t : Topology) : result string := Ok "top".

(** The demo node was last heard of at time 0. *)
Lemma sweep_tick_spec_witness :
  exists i, db_instances (pg_db (sweep_tick demo_service (60 * second) (61 * second) (demo [])).2) !! 5%N = Some i /\
    in_State i = InstanceStateFailed.
Proof.
  assert (nodes_ok (pg_db (demo []))) as Hn.
  { split.
    - intros id n. simpl. rewrite lookup_singleton. case_decide; [|done]. by intros [= <-].
    - intros id id' n n'. simpl. rewrite !lookup_singleton. repeat case_decide; congruence. }
  destruct (sweep_tick_spec demo_service (60 * second) (61 * second) (demo []) eq_refl eq_refl
    demo_audit_ok Hn) as (_ & HI & _).
  destruct (HI 5%N (demo_instance InstanceStateRunning) eq_refl) as (i' & Hi' & Hl & _).
  exists i'. split; [exact Hi'|]. destruct Hl as [t ->]; [|reflexivity].
  exists (demo_instance InstanceStateRunning). split; [reflexivity|]. split; [|reflexivity].
  exists demo_node. split; [reflexivity|]. vm_compute. reflexivity.
Defined.

Definition report (st : ProtoState) : InstanceStatus :=
  {| st_InstanceId := uuid_String 5; st_State := st; st_VmInternalIp := ""; st_ErrorMessage := "" |}.

Lemma applyInstanceStatus_spec_witness :
  let '(r, pg') := applyInstanceStatus parse_any demo_service (report INSTANCE_STATE_FAILED) (demo []) in
  r = Ok tt /\ gs_Status <$> db_gpu_slots (pg_db pg') !! 10%N = Some SlotStatusFree.
Proof.
  pose proof (applyInstanceStatus_spec parse_any demo_service (report INSTANCE_STATE_FAILED) (demo [])
    eq_refl eq_refl eq_refl (audit_keyed _ demo_audit_ok)) as Ha.
  destruct (applyInstanceStatus parse_any demo_service (report INSTANCE_STATE_FAILED) (demo [])) as [r pg'].
  assert (uuid_Parse (uuid_String 5) = Ok 5%N) as Hid by (vm_compute; reflexivity).
  cbn [report st_InstanceId st_State] in Ha. rewrite Hid in Ha. simpl mapInstanceState in Ha.
  destruct Ha as (-> & _ & Hs). split; [reflexivity|]. rewrite Hs. vm_compute. reflexivity.
Defined.

Definition demo_register : RegisterMsg :=
  {| rg_NodeName := "n9"; rg_Hostname := "h"; rg_AgentVersion := "v"; rg_AgentToken := "tok";
     rg_Topology := None; rg_AgentTunnelEndpoint := "" |}.

Lemma handshake_authenticated_witness :
  let '(r, pg') := handshake marshal_any demo_service (Received (AM_Register demo_register))
                     (fun _ => Ok tt) (on_demo (set_nodes ∅ demo_db)) in
  exists n reg, r = Ok (n, reg) /\ named_online (nd_ID n) "n9" (pg_db pg').
Proof.
  assert (nodes_ok (pg_db (on_demo (set_nodes ∅ demo_db)))) as Hn by by split.
  pose proof (handshake_authenticated marshal_any demo_service (Received (AM_Register demo_register))
    (fun _ => Ok tt) (on_demo (set_nodes ∅ demo_db)) Hn) as Hh. cbv zeta in Hh.
  assert (exists n, (handshake marshal_any demo_service (Received (AM_Register demo_register))
    (fun _ => Ok tt) (on_demo (set_nodes ∅ demo_db))).1 = Ok (n, demo_register)) as [n E]
    by (eexists; vm_compute; reflexivity).
  destruct (handshake _ _ _ _ _) as [r pg']. simpl in E. subst r.
  exists n, demo_register. split; [reflexivity|]. apply (proj2 Hh n demo_register eq_refl).
Defined.

(** A refused report still gives the slots away.  An agent that reports
    [stopped] for a running instance is told nothing was wrong: the state
    machine refuses the step and the row stays running (and billable), while
    the slot its GPUs belong to becomes free and can be reserved again. *)
Theorem stopped_report_frees_running_slot :
  let '(r, pg') := applyInstanceStatus parse_any demo_service (report INSTANCE_STATE_STOPPED) (demo []) in
  r = Ok tt /\
  in_State <$> db_instances (pg_db pg') !! 5%N = Some InstanceStateRunning /\
  br_ID <$> billable_rows (pg_db pg') = [5%N] /\
  gs_Status <$> db_gpu_slots (pg_db pg') !! 10%N = Some SlotStatusFree /\
  exists res, (Reserve 3 1 3 pg').1 = Ok res /\ 10%N ∈ IDs res.
Proof.
  destruct (applyInstanceStatus _ _ _ _) as [r pg'] eqn:E. vm_compute in E. injection E as <- <-.
  split; [reflexivity|]. split; [reflexivity|]. split; [vm_compute; reflexivity|].
  split; [reflexivity|]. eexists. split; [vm_compute; reflexivity|].
  apply (bool_decide_unpack _). vm_compute. exact I.
Qed.

(** A sweep that cannot list the instances of a node loses them.  The
    node is marked offline before its instances are read; when that read
    fails the node is no longer stale, so no later sweep fails its instances
    or frees their slots. *)
Theorem sweep_lost_list :
  let pg1 := (sweep_tick demo_service (60 * second) (61 * second) (demo [Served; Refused (ErrNew "timeout")])).2 in
  clean pg1 /\
  nd_Status <$> db_nodes (pg_db pg1) !! 3%N = Some NodeStatusOffline /\
  in_State <$> db_instances (pg_db pg1) !! 5%N = Some InstanceStateRunning /\
  forall ticks, let pg2 := (StaleSweeper demo_service (60 * second) ticks pg1).2 in
    db_instances (pg_db pg2) = db_instances (pg_db pg1) /\
    db_gpu_slots (pg_db pg2) = db_gpu_slots (pg_db pg1).
Proof.
  cbv zeta. set (pg1 := (sweep_tick _ _ _ _).2).
  assert (clean pg1 /\ exists n, db_nodes (pg_db pg1) = {[ 3%N := n ]} /\ nd_Status n = NodeStatusOffline)
    as [Hc Hn] by (split; [reflexivity|]; eexists; split; vm_compute; reflexivity).
  split; [exact Hc|]. split; [vm_compute; reflexivity|]. split; [vm_compute; reflexivity|].
  intros ticks. generalize pg1 Hc Hn. clear. intros pg1.
  assert (forall pg now, clean pg -> (exists n, db_nodes (pg_db pg) = {[ 3%N := n ]} /\ nd_Status n = NodeStatusOffline) ->
    let pg' := (sweep_tick demo_service (60 * second) now pg).2 in
    clean pg' /\ pg_db pg' = set_nodes (db_nodes (pg_db pg')) (pg_db pg) /\
    exists n, db_nodes (pg_db pg') = {[ 3%N := n ]} /\ nd_Status n = NodeStatusOffline) as Hstep.
  { intros pg now Hc (n & Hn & Ho). unfold sweep_tick, MarkStaleOffline.
    rewrite bind_eq, exec_clean by done. simpl. rewrite Hn. unfold rows. rewrite map_to_list_singleton.
    assert (stale (now - 60 * second) n = false) as Hst by (unfold stale; by rewrite Ho).
    simpl. rewrite Hst. simpl. split; [by apply tick_clean|]. split; [done|].
    exists n. split; [|done]. unfold update_where. rewrite map_fmap_singleton. by rewrite Hst. }
  unfold StaleSweeper. revert pg1.
  induction ticks as [|now ticks IH]; intros pg1 Hc Hn; [done|].
  simpl. rewrite bind_eq. destruct (Hstep pg1 now Hc Hn) as (Hc' & Hd & Hn').
  destruct (IH _ Hc' Hn') as [-> ->]. rewrite Hd. done.
Qed.
End witnesses.
