(* ===== verification/Auth.v ===== *)
(** * Users and sessions (internal/auth/auth.go, internal/auth/repo.go) *)

From S2P Require Import Prelude GoStrings GoCrypto Proto Db Queries AccountQueries Demo.
From Stdlib Require Import Ascii.

#[local] Open Scope string_scope.
#[local] Open Scope list_scope.
#[local] Open Scope go_scope.

(** golang.org/x/crypto/bcrypt; the salt is drawn by the caller's entropy. *)
Class Bcrypt := {
  GenerateFromPassword : N -> string -> Z -> result string;
  CompareHashAndPassword : string -> string -> bool      (* nil error? *)
}.

(** Documented: a hash matches the password it was generated from. *)
Class BcryptLaws `{Bcrypt} : Prop := {
  Compare_Generate salt pw cost h :
    GenerateFromPassword salt pw cost = Ok h -> CompareHashAndPassword h pw = true
}.

Definition MinPasswordLength : nat := 10.
Definition BcryptCost : Z := 12.
Definition SessionTokenBytes : nat := 32.

Definition ErrWeakPassword : error := Sentinel "auth: password does not meet policy".
Definition ErrInvalidEmail : error := Sentinel "auth: invalid email".
Definition ErrInvalidCredentials : error := Sentinel "auth: invalid credentials".
Definition ErrUserNotFound : error := Sentinel "auth: user not found".
Definition ErrSessionNotFound : error := Sentinel "auth: session not found".
Definition ErrEmailTaken : error := Sentinel "auth: email already registered".

Definition ValidatePassword (password : string) : result unit :=
  if (String.length password <? MinPasswordLength)%nat then
    Err (ErrWrap "" ErrWeakPassword ": minimum 10 characters")
  else if (72 <? String.length password)%nat then
    Err (ErrWrap "" ErrWeakPassword ": maximum 72 characters")
  else Ok tt.

Definition NormalizeEmail (email : string) : string := ToLower (TrimSpace email).

Definition ValidateEmail (email : string) : result unit :=
  if String.eqb email "" then Err ErrInvalidEmail
  else match IndexByte email "@"%char with
       | None => Err ErrInvalidEmail
       | Some at_ =>
           if (at_ <? 1)%nat || (at_ =? String.length email - 1)%nat then Err ErrInvalidEmail
           else if Contains email " " then Err ErrInvalidEmail
           else Ok tt
       end.

Definition HashSessionToken (token : string) : string :=
  hex_EncodeToString (Sum256 (bytes_of token)).

(** [rnd]: the 32 bytes [rand.Read] delivers, or its error. *)
Definition GenerateSessionToken (rnd : result (list N)) : result (string * string) :=
  match rnd with
  | Err e => Err (ErrWrap "rand: " e "")
  | Ok buf => let raw := RawURLEncoding_EncodeToString buf in Ok (raw, HashSessionToken raw)
  end.

Definition isUniqueViolation (err : error) : bool :=
  match errors_As_SQLState err with
  | Some c => String.eqb c "23505"
  | None => false
  end.

Section repo.
Context `{Bcrypt}.

Definition HashPassword (salt : N) (password : string) : result string :=
  match ValidatePassword password with
  | Err e => Err e
  | Ok _ => match GenerateFromPassword salt password BcryptCost with
            | Err e => Err (ErrWrap "bcrypt: " e "")
            | Ok out => Ok out
            end
  end.

Definition ComparePassword (hash password : string) : result unit :=
  if CompareHashAndPassword hash password then Ok tt else Err ErrInvalidCredentials.

Definition CreateUser (salt : N) (email password : string) : ST Pg (result User) :=
  let email := NormalizeEmail email in
  match ValidateEmail email with
  | Err e => ret (Err e)
  | Ok _ =>
      match HashPassword salt password with
      | Err e => ret (Err e)
      | Ok hash =>
          r <- exec (createUser {| cup_Email := email; cup_PasswordHash := hash; cup_IsAdmin := false |}) ;;
          ret match r with
              | Ok u => Ok u
              | Err err => if isUniqueViolation err then Err ErrEmailTaken
                           else Err (ErrWrap "create user: " err "")
              end
      end
  end.

Definition Authenticate (email password : string) : ST Pg (result User) :=
  r <- exec (getUserByEmail (NormalizeEmail email)) ;;
  ret match r with
      | Err err => if errors_Is err ErrNoRows then Err ErrInvalidCredentials
                   else Err (ErrWrap "get user: " err "")
      | Ok u => match ComparePassword (us_PasswordHash u) password with
                | Err _ => Err ErrInvalidCredentials
                | Ok _ => Ok u
                end
      end.
End repo.

Definition GetUser (id : UUID) : ST Pg (result User) :=
  r <- exec (getUser id) ;;
  ret match r with
      | Ok u => Ok u
      | Err err => if errors_Is err ErrNoRows then Err ErrUserNotFound
                   else Err (ErrWrap "get user: " err "")
      end.

(** [now] is [time.Now()]. *)
Definition CreateSession (rnd : result (list N)) (now : Time) (userID : UUID) (ttl : Z)
    : ST Pg (result (string * Session)) :=
  if (ttl <=? 0)%Z then ret (Err (ErrNew "auth: ttl must be positive"))
  else match GenerateSessionToken rnd with
       | Err e => ret (Err e)
       | Ok (raw, hash) =>
           sess <-? wrapErr "create session: "
             (exec (createSession {| csp_UserID := userID; csp_TokenHash := hash;
                                     csp_ExpiresAt := now + ttl |})) ;;
           ret (Ok (raw, sess))
       end.

Definition LookupSession (rawToken : string) : ST Pg (result (Session * User)) :=
  if String.eqb rawToken "" then ret (Err ErrSessionNotFound)
  else
    r <- exec (getSessionByTokenHash (HashSessionToken rawToken)) ;;
    match r with
    | Err err => ret (if errors_Is err ErrNoRows then Err ErrSessionNotFound
                      else Err (ErrWrap "get session: " err ""))
    | Ok sess =>
        user <-? wrapErr "get user: " (exec (getUser (se_UserID sess))) ;;
        ret (Ok (sess, user))
    end.

Definition RevokeSession (rawToken : string) : ST Pg (result unit) :=
  if String.eqb rawToken "" then ret (Ok tt)
  else exec (deleteSessionByTokenHash (HashSessionToken rawToken)).

Definition SweepExpired : ST Pg (result Z) := exec deleteExpiredSessions.

(** ** The tables of accounts *)

(** Rows carry their key; emails are unique and normalised, token hashes are
    unique; a session belongs to a user. *)
Record accounts_ok (d : DB) : Prop := {
  ao_user : forall id u, db_users d !! id = Some u -> us_ID u = id;
  ao_norm : forall id u, db_users d !! id = Some u -> NormalizeEmail (us_Email u) = us_Email u;
  ao_email : forall id id' u u', db_users d !! id = Some u -> db_users d !! id' = Some u' ->
    us_Email u = us_Email u' -> id = id';
  ao_token : forall id id' s s', db_sessions d !! id = Some s -> db_sessions d !! id' = Some s' ->
    se_TokenHash s = se_TokenHash s' -> id = id';
  ao_owner : forall id s, db_sessions d !! id = Some s -> is_Some (db_users d !! se_UserID s)
}.

Lemma accounts_ok_frame d d' :
  db_users d' = db_users d -> db_sessions d' = db_sessions d -> accounts_ok d -> accounts_ok d'.
Proof. intros Hu Hs [? ? ? ? ?]. by constructor; rewrite ?Hu, ?Hs. Qed.

Lemma NormalizeEmail_idem e : NormalizeEmail (NormalizeEmail e) = NormalizeEmail e.
Proof. unfold NormalizeEmail. by rewrite TrimSpace_lower, TrimSpace_idem, ToLower_idem. Qed.

Lemma has_email_spec e u : has_email e u = true <-> us_Email u = e.
Proof. apply String.eqb_eq. Qed.

Lemma has_token_spec h s : has_token h s = true <-> se_TokenHash s = h.
Proof. apply String.eqb_eq. Qed.

Lemma createUser_Ok arg e d u d' :
  createUser arg e d = (Ok u, d') ->
  u = new_user e arg /\ db_users d !! us_ID u = None /\
  (forall id u', db_users d !! id = Some u' -> us_Email u' <> cup_Email arg) /\
  d' = set_users (<[us_ID u := u]> (db_users d)) d.
Proof.
  unfold createUser. intros H. destruct (fk_ok _ _) eqn:Hk; [done|].
  destruct (exists_row _ _) eqn:He; [done|]. injection H as <- <-.
  apply fk_ok_None_lookup in Hk. split_and!; [done|done| |done].
  intros id u' Hu Hem. pose proof (proj1 (exists_row_false _ _) He id u' Hu) as Hn.
  unfold has_email in Hn. by rewrite Hem, String.eqb_refl in Hn.
Qed.

Lemma keeps_createUser arg :
  NormalizeEmail (cup_Email arg) = cup_Email arg -> keeps accounts_ok (createUser arg).
Proof.
  intros Hnorm e d Hd. destruct (createUser arg e d) as [[u|err] d'] eqn:E.
  - apply createUser_Ok in E as (-> & Hnone & Hfresh & ->). destruct Hd as [Hu Hno Hem Htok Hown].
    constructor; simpl.
    + intros id u. rewrite lookup_insert. case_decide; [by intros [= <-]|apply Hu].
    + intros id u. rewrite lookup_insert. case_decide; [by intros [= <-]|apply Hno].
    + intros id id' u u'. rewrite !lookup_insert. repeat case_decide; subst; try done.
      * intros [= <-] H2 E. by destruct (Hfresh id' u' H2).
      * intros H1 [= <-] E. by destruct (Hfresh id u H1).
      * apply Hem.
    + apply Htok.
    + intros id s Hs. rewrite lookup_insert. case_decide; [by eexists|by apply (Hown id)].
  - unfold createUser in E. repeat case_match; simplify_eq/=; done.
Qed.

Lemma createSession_Ok arg e d s d' :
  createSession arg e d = (Ok s, d') ->
  s = new_session e arg /\ db_sessions d !! se_ID s = None /\
  (forall id s', db_sessions d !! id = Some s' -> se_TokenHash s' <> csp_TokenHash arg) /\
  is_Some (db_users d !! csp_UserID arg) /\
  d' = set_sessions (<[se_ID s := s]> (db_sessions d)) d.
Proof.
  unfold createSession. intros H. destruct (fk_ok (Some (env_uuid e)) _) eqn:Hk; [done|].
  destruct (exists_row _ _) eqn:He; [done|]. destruct (fk_ok (Some (csp_UserID arg)) _) eqn:Hu; [|done].
  injection H as <- <-. apply fk_ok_None_lookup in Hk. apply fk_ok_Some in Hu. split_and!; try done.
  intros id s' Hs Ht. pose proof (proj1 (exists_row_false _ _) He id s' Hs) as Hn.
  unfold has_token in Hn. by rewrite Ht, String.eqb_refl in Hn.
Qed.

Lemma keeps_createSession arg : keeps accounts_ok (createSession arg).
Proof.
  intros e d Hd. destruct (createSession arg e d) as [[s|err] d'] eqn:E.
  - apply createSession_Ok in E as (-> & Hnone & Hfresh & Husr & ->). destruct Hd as [Hu Hno Hem Htok Hown].
    constructor; simpl; try done.
    + intros id id' s s'. rewrite !lookup_insert. repeat case_decide; subst; try done.
      * intros [= <-] H2 E. by destruct (Hfresh id' s' H2).
      * intros H1 [= <-] E. by destruct (Hfresh id s H1).
      * apply Htok.
    + intros id s. rewrite lookup_insert. case_decide; [by intros [= <-]|apply Hown].
  - unfold createSession in E. repeat case_match; simplify_eq/=; done.
Qed.

Lemma keeps_filter_sessions (P : UUID * Session -> Prop) `{forall kv, Decision (P kv)} :
  forall d, accounts_ok d -> accounts_ok (set_sessions (filter P (db_sessions d)) d).
Proof.
  intros d [Hu Hno Hem Htok Hown]. constructor; simpl; try done.
  - intros id id' s s' [H1 _]%map_lookup_filter_Some [H2 _]%map_lookup_filter_Some. by apply Htok.
  - intros id s [H1 _]%map_lookup_filter_Some. by apply (Hown id).
Qed.

Lemma CreateUser_accounts `{Bcrypt} salt email pw : preserves (on_db accounts_ok) (CreateUser salt email pw).
Proof.
  unfold CreateUser. destruct (ValidateEmail _); [|apply preserves_ret].
  destruct (HashPassword _ _); [|apply preserves_ret]. apply preserves_bind; [|intros; apply preserves_ret].
  apply exec_keeps, keeps_createUser, NormalizeEmail_idem.
Qed.

Lemma CreateSession_accounts rnd now u ttl : preserves (on_db accounts_ok) (CreateSession rnd now u ttl).
Proof.
  unfold CreateSession. destruct (_ <=? _)%Z; [apply preserves_ret|].
  destruct (GenerateSessionToken rnd) as [[raw hash]|e]; [|apply preserves_ret].
  apply preserves_bindR; [|intros; apply preserves_ret].
  apply preserves_wrapErr, exec_keeps, keeps_createSession.
Qed.

Lemma RevokeSession_accounts raw : preserves (on_db accounts_ok) (RevokeSession raw).
Proof.
  unfold RevokeSession. destruct (String.eqb _ _); [apply preserves_ret|].
  apply exec_keeps. intros e d Hd. by apply keeps_filter_sessions.
Qed.

Lemma SweepExpired_accounts : preserves (on_db accounts_ok) SweepExpired.
Proof. apply exec_keeps. intros e d Hd. by apply keeps_filter_sessions. Qed.

#[export] Hint Resolve CreateUser_accounts CreateSession_accounts RevokeSession_accounts
  SweepExpired_accounts : pres.

(** ** Properties *)

Lemma email_row d e u id :
  accounts_ok d -> db_users d !! id = Some u -> us_Email u = e ->
  row_where (has_email e) (db_users d) = Some u.
Proof.
  intros Hd Hu He. destruct (row_where (has_email e) (db_users d)) as [u'|] eqn:E.
  - apply row_where_Some in E as [He' [id' Hu']]. apply has_email_spec in He'.
    assert (id' = id) as -> by (eapply (ao_email _ Hd); [done..|congruence]). congruence.
  - pose proof (proj1 (row_where_None _ _) E id u Hu) as Hn. unfold has_email in Hn.
    by rewrite He, String.eqb_refl in Hn.
Qed.

Lemma token_row d h s id (P : Session -> bool) :
  accounts_ok d -> db_sessions d !! id = Some s -> se_TokenHash s = h ->
  row_where (fun s => has_token h s && P s) (db_sessions d) = if P s then Some s else None.
Proof.
  intros Hd Hs Hh. destruct (row_where _ (db_sessions d)) as [s'|] eqn:E.
  - apply row_where_Some in E as [[Ht HP]%andb_true_iff [id' Hs']]. apply has_token_spec in Ht.
    assert (id' = id) as -> by (eapply (ao_token _ Hd); [done..|congruence]).
    assert (s' = s) as -> by congruence. by rewrite HP.
  - pose proof (proj1 (row_where_None _ _) E id s Hs) as Hn. simpl in Hn.
    rewrite (proj2 (has_token_spec h s) Hh) in Hn. simpl in Hn. by rewrite Hn.
Qed.

Section properties.
Context `{BcryptLaws}.

(** C29: who registers can log in, and only that account answers to the
    address.  A registration that succeeds met the password policy (10 to 72
    bytes) and stored a non-administrator under the normalised address;
    from then on the password authenticates as that user under any spelling
    of the address that normalises to the same text, and a second
    registration of such a spelling is refused as taken. *)
Theorem register_then_login salt email pw s u s' :
  accounts_ok (pg_db s) -> clean s -> CreateUser salt email pw s = (Ok u, s') ->
  us_Email u = NormalizeEmail email /\ us_IsAdmin u = false /\
  (10 <= String.length pw <= 72)%nat /\
  (forall spelling, NormalizeEmail spelling = NormalizeEmail email ->
     (Authenticate spelling pw s').1 = Ok u /\
     forall salt2 pw2, is_ok (HashPassword salt2 pw2) = true ->
       db_users (pg_db s') !! pg_rand s' (pg_calls s') = None ->
       (CreateUser salt2 spelling pw2 s').1 = Err ErrEmailTaken).
Proof.
  intros Hd Hs HC. pose proof (CreateUser_accounts salt email pw s Hd) as Hd'. rewrite HC in Hd'.
  unfold on_db in Hd'. simpl in Hd'.
  unfold CreateUser in HC. destruct (ValidateEmail _) as [[]|] eqn:Hv; [|done].
  destruct (HashPassword salt pw) as [hash|] eqn:Hh; [|done].
  unfold HashPassword in Hh. destruct (ValidatePassword pw) as [[]|] eqn:Hp; [|done].
  destruct (GenerateFromPassword salt pw BcryptCost) as [h|] eqn:Hg; [|done]. injection Hh as ->.
  rewrite bind_eq in HC. destruct (exec _ s) as [[u0|e] s1] eqn:E; simpl in HC.
  2:{ destruct (isUniqueViolation e); done. }
  injection HC as -> ->. assert (clean s') as Hs'.
  { replace s' with (exec (createUser {| cup_Email := NormalizeEmail email; cup_PasswordHash := hash;
      cup_IsAdmin := false |}) s).2 by by rewrite E. by apply exec_clean_after. }
  apply exec_Ok in E as [E _]. apply createUser_Ok in E as (-> & Hnone & Hfresh & Hdb). simpl in *.
  split; [done|]. split; [done|]. split.
  { unfold ValidatePassword, MinPasswordLength in Hp.
    destruct (Nat.ltb_spec (String.length pw) 10); [done|].
    destruct (Nat.ltb_spec 72 (String.length pw)); [done|]. lia. }
  intros spelling Hsp. unfold Authenticate, CreateUser. rewrite Hsp. split.
  - rewrite bind_eq, exec_clean by done. unfold getUserByEmail, query_one.
    erewrite (email_row _ _ _ (env_uuid (env_of s)) Hd'); [|rewrite Hdb; simpl; apply lookup_insert_eq|done].
    cbn [fst snd]. unfold ComparePassword. simpl. by rewrite (Compare_Generate _ _ _ _ Hg).
  - intros salt2 pw2 Hok Hfr. rewrite Hv. destruct (HashPassword salt2 pw2) as [h2|]; [|done].
    rewrite bind_eq, exec_clean by done. unfold createUser. simpl env_uuid.
    rewrite (proj2 (fk_ok_None_lookup _ _)) by done. cbn [fst snd cup_Email].
    assert (exists_row (has_email (NormalizeEmail email)) (db_users (pg_db s')) = true) as ->; [|done].
    apply not_false_iff_true. intros Hx.
    pose proof (proj1 (exists_row_false _ _) Hx (env_uuid (env_of s))
      (new_user (env_of s) {| cup_Email := NormalizeEmail email; cup_PasswordHash := hash; cup_IsAdmin := false |}))
      as Hn. rewrite Hdb in Hn. simpl in Hn. unfold has_email in Hn. simpl in Hn.
    rewrite String.eqb_refl in Hn. by specialize (Hn (lookup_insert_eq _ _ _)).
Qed.

(** A failed login says nothing about the address.  With the round trip
    served, authentication succeeds exactly for a stored user of the
    normalised address whose hash matches; an unknown address and a wrong
    password give the same error. *)
Theorem Authenticate_spec email pw s :
  accounts_ok (pg_db s) -> clean s ->
  let r := (Authenticate email pw s).1 in
  pg_db (Authenticate email pw s).2 = pg_db s /\
  (forall u, r = Ok u <-> exists id, db_users (pg_db s) !! id = Some u /\
     us_Email u = NormalizeEmail email /\ CompareHashAndPassword (us_PasswordHash u) pw = true) /\
  (is_ok r = false -> r = Err ErrInvalidCredentials).
Proof.
  intros Hd Hs. unfold Authenticate. rewrite bind_eq, exec_clean by done.
  unfold getUserByEmail, query_one.
  destruct (row_where (has_email (NormalizeEmail email)) (db_users (pg_db s))) as [u|] eqn:E; simpl.
  - split; [done|]. pose proof E as E'. apply row_where_Some in E as [He [id Hu]]. apply has_email_spec in He.
    unfold ComparePassword. destruct (CompareHashAndPassword (us_PasswordHash u) pw) eqn:Hc; simpl.
    + split; [|done]. intros u'. split; [intros [= <-]; eauto|]. intros (id' & Hu' & He' & _).
      f_equal. assert (id' = id) as -> by (eapply (ao_email _ Hd); [done..|congruence]). congruence.
    + split; [|done]. intros u'. split; [done|]. intros (id' & Hu' & He' & Hc').
      assert (id' = id) as -> by (eapply (ao_email _ Hd); [done..|congruence]).
      assert (u' = u) by congruence. congruence.
  - split; [done|]. split; [|done]. intros u'. split; [done|]. intros (id' & Hu' & He' & _).
    pose proof (proj1 (row_where_None _ _) E id' u' Hu') as Hn.
    unfold has_email in Hn. by rewrite He', String.eqb_refl in Hn.
Qed.
End properties.

(** The same server at another time. *)
Definition at_time (t : Time) (s : Pg) : Pg :=
  {| pg_db := pg_db s; pg_faults := pg_faults s; pg_now := t; pg_rand := pg_rand s; pg_calls := pg_calls s |}.

Lemma raw_token_non_empty buf : length buf = SessionTokenBytes -> RawURLEncoding_EncodeToString buf <> "".
Proof.
  destruct buf as [|a [|b [|c buf]]]; intros Hl; try discriminate Hl.
  unfold RawURLEncoding_EncodeToString. by cbn [b64_encode].
Qed.

Lemma lookup_session_eq raw s :
  clean s -> raw <> "" ->
  (LookupSession raw s).1 =
  match row_where (fun x => has_token (HashSessionToken raw) x && (pg_now s <? se_ExpiresAt x)%Z)
                  (db_sessions (pg_db s)) with
  | None => Err ErrSessionNotFound
  | Some sess => match db_users (pg_db s) !! se_UserID sess with
                 | Some u => Ok (sess, u)
                 | None => Err (ErrWrap "get user: " ErrNoRows "")
                 end
  end.
Proof.
  intros Hs Hr. unfold LookupSession. destruct (String.eqb_spec raw "") as [|_]; [done|].
  rewrite bind_eq, exec_clean by done. unfold getSessionByTokenHash. simpl env_now. cbn beta.
  destruct (row_where _ _) as [sess|]; simpl; [|done].
  rewrite bindR_eq, wrapErr_eq, exec_clean by by apply tick_clean.
  unfold getUser, query_one. simpl. by destruct (_ !! se_UserID sess).
Qed.

(** The session a login creates, and what its token resolves to. *)
Lemma session_created buf now userID user ttl s raw sess s' :
  accounts_ok (pg_db s) -> clean s -> length buf = SessionTokenBytes ->
  db_users (pg_db s) !! userID = Some user ->
  CreateSession (Ok buf) now userID ttl s = (Ok (raw, sess), s') ->
  (raw <> "" /\ clean s' /\ accounts_ok (pg_db s')) /\
  (db_sessions (pg_db s') !! se_ID sess = Some sess /\ db_users (pg_db s') !! userID = Some user) /\
  (se_UserID sess = userID /\ se_TokenHash sess = HashSessionToken raw /\ se_ExpiresAt sess = (now + ttl)%Z) /\
  (forall t, (LookupSession raw (at_time t s')).1 =
     if (t <? now + ttl)%Z then Ok (sess, user) else Err ErrSessionNotFound).
Proof.
  intros Hd Hs Hb Hu HC. pose proof (CreateSession_accounts (Ok buf) now userID ttl s Hd) as Hd'.
  rewrite HC in Hd'. unfold on_db in Hd'. simpl in Hd'.
  unfold CreateSession in HC. destruct (ttl <=? 0)%Z; [done|]. cbn [GenerateSessionToken] in HC.
  set (raw0 := RawURLEncoding_EncodeToString buf) in *.
  pose proof (raw_token_non_empty buf Hb) as Hne. fold raw0 in Hne.
  rewrite bindR_eq, wrapErr_eq in HC.
  destruct (exec _ s) as [[sess0|e] s1] eqn:E; [|done]. simpl in HC. injection HC as <- -> ->.
  assert (clean s') as Hs'.
  { replace s' with (exec (createSession {| csp_UserID := userID; csp_TokenHash := HashSessionToken raw0;
      csp_ExpiresAt := (now + ttl)%Z |}) s).2 by by rewrite E. by apply exec_clean_after. }
  apply exec_Ok in E as [E _]. apply createSession_Ok in E as (-> & _ & _ & _ & Hdb). simpl in Hdb.
  set (sess := new_session _ _) in *. fold sess.
  assert (db_sessions (pg_db s') !! se_ID sess = Some sess) as Hrow by (rewrite Hdb; apply lookup_insert_eq).
  assert (db_users (pg_db s') !! userID = Some user) as Hu' by by rewrite Hdb.
  assert (forall t, (LookupSession raw0 (at_time t s')).1 =
     if (t <? now + ttl)%Z then Ok (sess, user) else Err ErrSessionNotFound) as Hlook.
  { intros t. rewrite lookup_session_eq by done. simpl pg_db. simpl pg_now.
    rewrite (token_row _ (HashSessionToken raw0) sess (se_ID sess) (fun x => (t <? se_ExpiresAt x)%Z) Hd' Hrow eq_refl). simpl.
    destruct (t <? now + ttl)%Z; [|done]. simpl. by rewrite Hu'. }
  by split_and!.
Qed.

(** C28: the life of a session.  The token handed out at login resolves to its
    user exactly until its expiry; what is stored is the SHA-256 of the
    token; after a logout the token resolves to nothing at any time; and the
    expiry sweep removes no session that is still valid. *)
Theorem session_lifecycle buf now userID user ttl s raw sess s' :
  accounts_ok (pg_db s) -> clean s -> length buf = SessionTokenBytes ->
  db_users (pg_db s) !! userID = Some user ->
  CreateSession (Ok buf) now userID ttl s = (Ok (raw, sess), s') ->
  se_TokenHash sess = HashSessionToken raw /\ se_ExpiresAt sess = (now + ttl)%Z /\
  (forall t, (LookupSession raw (at_time t s')).1 =
     if (t <? now + ttl)%Z then Ok (sess, user) else Err ErrSessionNotFound) /\
  (forall t, (LookupSession raw (at_time t (RevokeSession raw s').2)).1 = Err ErrSessionNotFound) /\
  (forall t t', (t <= t')%Z -> (LookupSession raw (at_time t' (SweepExpired (at_time t s')).2)).1 =
                (LookupSession raw (at_time t' s')).1).
Proof.
  intros Hd Hs Hb Hu HC.
  destruct (session_created buf now userID user ttl s raw sess s' Hd Hs Hb Hu HC)
    as ((Hne & Hs' & Hd') & (Hrow & Hu') & (Huid & Hhash & Hexp) & Hlook).
  split; [done|]. split; [done|]. split; [done|]. split.
  - intros t. unfold RevokeSession. rewrite (proj2 (String.eqb_neq raw "")) by done.
    rewrite exec_clean by done. rewrite lookup_session_eq by (done || by apply tick_clean). simpl.
    destruct (row_where _ _) as [x|] eqn:Ex; [|done]. exfalso.
    apply row_where_Some in Ex as [[Ht _]%andb_true_iff [id Hid]].
    apply map_lookup_filter_Some in Hid as [_ Hno]. simpl in Hno. rewrite <- Hhash in *. congruence.
  - intros t t' Htt. rewrite Hlook. unfold SweepExpired. rewrite exec_clean by done.
    rewrite lookup_session_eq by (done || by apply tick_clean). simpl.
    destruct (Z.ltb_spec t' (now + ttl)) as [Hlt|Hge].
    + set (d2 := set_sessions (filter (fun kv => (t < se_ExpiresAt kv.2)%Z) (db_sessions (pg_db s'))) (pg_db s')).
      pose proof (token_row d2 (HashSessionToken raw) sess (se_ID sess)
        (fun x => (t' <? se_ExpiresAt x)%Z)) as Htr.
      simpl in Htr. rewrite Htr.
      * rewrite Hexp, (proj2 (Z.ltb_lt t' (now + ttl))) by done. simpl. by rewrite Huid, Hu'.
      * by apply keeps_filter_sessions.
      * apply map_lookup_filter_Some_2; [done|]. simpl. lia.
      * done.
    + destruct (row_where _ _) as [x|] eqn:Ex; [|done]. exfalso.
      apply row_where_Some in Ex as [[Ht Hx]%andb_true_iff [id Hid]].
      apply map_lookup_filter_Some in Hid as [Hid _]. apply has_token_spec in Ht.
      assert (id = se_ID sess) as -> by (eapply (ao_token _ Hd'); [done..|by rewrite Hhash]).
      assert (x = sess) as -> by congruence. apply Z.ltb_lt in Hx. lia.
Qed.

(** ** Witnesses *)
Section witnesses.

(** A stand-in for bcrypt: the salt and the password in the clear. *)
#[local] Instance demo_bcrypt : Bcrypt := {|
  GenerateFromPassword salt pw cost := Ok ("$" +:+ pw);
  CompareHashAndPassword h pw := String.eqb h ("$" +:+ pw)
|}.

#[local] Instance demo_bcrypt_laws : BcryptLaws.
Proof. constructor. intros salt pw cost h [= <-]. simpl. apply String.eqb_refl. Qed.

Lemma demo_accounts_ok : accounts_ok demo_db.
Proof.
  constructor.
  - intros id u. simpl. rewrite lookup_singleton. case_decide; [|done]. by intros [= <-].
  - intros id u. simpl. rewrite lookup_singleton. case_decide; [|done]. by intros [= <-].
  - intros id id' u u'. simpl. rewrite !lookup_singleton. repeat case_decide; congruence.
  - done.
  - done.
Qed.

Lemma register_then_login_witness :
  exists u s', CreateUser 0 " Bob@X.io " "correct horse" (demo []) = (Ok u, s') /\
    (Authenticate "BOB@x.io" "correct horse" s').1 = Ok u.
Proof.
  destruct (CreateUser 0 " Bob@X.io " "correct horse" (demo [])) as [[u|e] s'] eqn:E.
  2:{ vm_compute in E. discriminate E. }
  exists u, s'. split; [reflexivity|].
  destruct (register_then_login 0 " Bob@X.io " "correct horse" (demo []) u s'
    demo_accounts_ok eq_refl E) as (_ & _ & _ & Hl).
  apply (Hl "BOB@x.io"). vm_compute. reflexivity.
Defined.

Lemma Authenticate_spec_witness :
  (Authenticate "nobody@x" "pw" (demo [])).1 = Err ErrInvalidCredentials /\
  (Authenticate "A@x" "pw" (demo [])).1 = Err ErrInvalidCredentials.
Proof.
  split; apply Authenticate_spec; try apply demo_accounts_ok; vm_compute; reflexivity.
Defined.

Lemma session_lifecycle_witness :
  exists raw sess s', CreateSession (Ok (repeat 7%N 32)) 100 1 50 (demo []) = (Ok (raw, sess), s') /\
    (LookupSession raw (at_time 149 s')).1 = Ok (sess, demo_user) /\
    (LookupSession raw (at_time 150 s')).1 = Err ErrSessionNotFound.
Proof.
  destruct (CreateSession (Ok (repeat 7%N 32)) 100 1 50 (demo [])) as [[[raw sess]|e] s'] eqn:E.
  2:{ vm_compute in E. discriminate E. }
  exists raw, sess, s'. split; [reflexivity|].
  destruct (session_lifecycle (repeat 7%N 32) 100 1 demo_user 50 (demo []) raw sess s'
    demo_accounts_ok eq_refl eq_refl eq_refl E) as (_ & _ & Hl & _).
  split; [exact (Hl 149%Z)|exact (Hl 150%Z)].
Defined.
End witnesses.
