(* ===== verification/RateLimiter.v ===== *)
(** * The login rate limiter (internal/auth/ratelimit.go)

    Hits per key within a sliding window, and the theorem that no window of
    that length ever holds more than the limit of allowed calls, whatever the
    sequence of keys and (monotone) times. *)

From S2P Require Import Prelude Proto Db.

#[local] Open Scope list_scope.
#[local] Open Scope Z_scope.

Definition LoginRateLimit : Z := 5.
Definition LoginRateWindow : Z := minute.

(** [now] is an argument of the calls. *)
Record RateLimiter := {
  rl_hits : gmap string (list Time);
  rl_limit : Z;
  rl_window : Z;
  rl_lastSwep : Time
}.

(** The zero [time.Time], 1 January of year 1, in nanoseconds. *)
Definition zeroTime : Time := -62135596800 * second.

Definition NewRateLimiter (limit window : Z) : RateLimiter :=
  {| rl_hits := ∅; rl_limit := limit; rl_window := window; rl_lastSwep := zeroTime |}.

Definition after (cutoff : Time) (l : list Time) : list Time := List.filter (fun t => cutoff <? t) l.

(** [sweepLocked]: drop the keys all of whose hits are out of the window. *)
Definition sweepLocked (cutoff : Time) (hits : gmap string (list Time)) : gmap string (list Time) :=
  filter (fun kv => existsb (fun t => cutoff <? t) kv.2 = true) hits.

(** [Sub] saturates at the largest duration. *)
Definition maxDuration : Z := 2 ^ 63 - 1.

Definition Allow (now : Time) (key : string) (r : RateLimiter) : bool * RateLimiter :=
  let cutoff := now - rl_window r in
  let fresh := after cutoff (default [] (rl_hits r !! key)) in
  let allowed := Z.of_nat (length fresh) <? rl_limit r in
  let fresh := if allowed then fresh ++ [now] else fresh in
  let hits := match fresh with
              | [] => delete key (rl_hits r)
              | _ => <[key := fresh]> (rl_hits r)
              end in
  let sweep := rl_window r <=? Z.min (now - rl_lastSwep r) maxDuration in
  (allowed,
   {| rl_hits := if sweep then sweepLocked cutoff hits else hits;
      rl_limit := rl_limit r; rl_window := rl_window r;
      rl_lastSwep := if sweep then now else rl_lastSwep r |}).

(** ** Runs of the limiter *)

(** The times of the allowed calls for [key], in order. *)
Fixpoint allowed_for (key : string) (calls : list (Time * string)) (r : RateLimiter)
    : list Time :=
  match calls with
  | [] => []
  | (now, k) :: rest =>
      let '(ok, r') := Allow now k r in
      (if ok && bool_decide (k = key) then [now] else []) ++ allowed_for key rest r'
  end.

(** Times that do not go back. *)
Fixpoint monotone (from : Time) (calls : list (Time * string)) : Prop :=
  match calls with
  | [] => True
  | (now, _) :: rest => from <= now /\ monotone now rest
  end.

(** ** Proof *)

Lemma after_app c l1 l2 : after c (l1 ++ l2) = after c l1 ++ after c l2.
Proof. apply List.filter_app. Qed.

Lemma after_after c c' l : c <= c' -> after c' (after c l) = after c' l.
Proof.
  intros Hc. induction l as [|t l IH]; simpl; [done|].
  destruct (Z.ltb_spec c t); simpl; destruct (Z.ltb_spec c' t); simpl; rewrite ?IH; done || lia.
Qed.

Lemma existsb_after c l : existsb (fun t => c <? t) l = false <-> after c l = [].
Proof.
  induction l as [|t l IH]; simpl; [done|]. destruct (Z.ltb_spec c t); simpl; [done|]. done.
Qed.

(** [hits] and the history [h] of the allowed calls of a key agree on every
    window that ends at or after [now]. *)
Definition agrees (r : RateLimiter) (now : Time) (key : string) (h : list Time) : Prop :=
  forall c, now - rl_window r <= c -> after c (default [] (rl_hits r !! key)) = after c h.

Lemma agrees_later r now now' key h : now <= now' -> agrees r now key h -> agrees r now' key h.
Proof. intros Hn Ha c Hc. apply Ha. lia. Qed.

(** A sweep at [now] forgets nothing a later window needs. *)
Lemma sweep_agrees c0 c (hits : gmap string (list Time)) key :
  c0 <= c -> after c (default [] (sweepLocked c0 hits !! key)) = after c (default [] (hits !! key)).
Proof.
  intros Hc. unfold sweepLocked. destruct (hits !! key) as [l|] eqn:E.
  - destruct (existsb (fun t => c0 <? t) l) eqn:Hex.
    + rewrite (map_lookup_filter_Some_2 _ hits key l) by done. done.
    + assert (filter (fun kv : string * list Time => existsb (fun t => c0 <? t) kv.2 = true) hits !! key = None)
        as -> by (apply map_lookup_filter_None; right; intros l' ?; simplify_eq/=; congruence).
      simpl. apply existsb_after in Hex. rewrite <- (after_after c0 c l), Hex by done. done.
  - assert (filter (fun kv : string * list Time => existsb (fun t => c0 <? t) kv.2 = true) hits !! key = None)
      as -> by (apply map_lookup_filter_None; by left). done.
Qed.

Lemma Allow_agrees r now k key h :
  agrees r now key h ->
  let '(ok, r') := Allow now k r in
  agrees r' now key (h ++ if ok && bool_decide (k = key) then [now] else []).
Proof.
  intros Ha. unfold Allow. cbv zeta. set (cutoff := now - rl_window r).
  set (old := default [] (rl_hits r !! k)). set (fresh := after cutoff old).
  set (ok := Z.of_nat (length fresh) <? rl_limit r).
  set (fresh' := if ok then fresh ++ [now] else fresh).
  set (hits := match fresh' with [] => delete k (rl_hits r) | _ => <[k := fresh']> (rl_hits r) end).
  assert (forall c, cutoff <= c -> after c (default [] (hits !! key)) =
            after c (h ++ if ok && bool_decide (k = key) then [now] else [])) as Hhits.
  { intros c Hc. assert (default [] (hits !! key) = if bool_decide (k = key) then fresh' else default [] (rl_hits r !! key)) as ->.
    { unfold hits. destruct (bool_decide (k = key)) eqn:Hk.
      - apply bool_decide_eq_true in Hk. subst k. destruct fresh'.
        + by rewrite lookup_delete_eq.
        + by rewrite lookup_insert_eq.
      - apply bool_decide_eq_false in Hk. destruct fresh'.
        + by rewrite lookup_delete_ne.
        + by rewrite lookup_insert_ne. }
    destruct (bool_decide (k = key)) eqn:Hk.
    - apply bool_decide_eq_true in Hk. subst k. rewrite andb_true_r, after_app.
      unfold fresh'. destruct ok; rewrite ?after_app.
      + unfold fresh, old. rewrite after_after by done. f_equal. by apply Ha.
      + unfold fresh, old. rewrite after_after by done. simpl. rewrite app_nil_r. by apply Ha.
    - rewrite andb_false_r, app_nil_r. by apply Ha. }
  destruct (rl_window r <=? _); intros c Hc; simpl in *; [|by apply Hhits].
  rewrite sweep_agrees by done. by apply Hhits.
Qed.

(** The window ending at an allowed call holds at most [limit] of them. *)
Lemma Allow_bounded r now k h :
  agrees r now k h -> (Allow now k r).1 = true ->
  Z.of_nat (length (after (now - rl_window r) (h ++ [now]))) <= Z.max (rl_limit r) 0 \/ rl_window r <= 0.
Proof.
  intros Ha Hok. unfold Allow in Hok. simpl in Hok. rewrite (Ha (now - rl_window r)) in Hok by lia.
  rewrite after_app. simpl. destruct (Z.ltb_spec (now - rl_window r) now); [|by right; lia].
  left. rewrite length_app. simpl. lia.
Qed.

Lemma Allow_const r now k :
  rl_limit (Allow now k r).2 = rl_limit r /\ rl_window (Allow now k r).2 = rl_window r.
Proof. done. Qed.

Lemma allowed_for_cons key now k rest r :
  allowed_for key ((now, k) :: rest) r =
  (if (Allow now k r).1 && bool_decide (k = key) then [now] else []) ++
  allowed_for key rest (Allow now k r).2.
Proof. cbn [allowed_for]. by destruct (Allow now k r). Qed.

(** Every prefix of the allowed calls is bounded in the window that ends with
    it; [h] is what was allowed before. *)
Lemma allowed_windows key calls r now0 h :
  0 < rl_window r -> monotone now0 calls -> agrees r now0 key h ->
  forall l1 t l2, allowed_for key calls r = l1 ++ t :: l2 ->
    now0 <= t /\
    Z.of_nat (length (after (t - rl_window r) (h ++ l1 ++ [t]))) <= Z.max (rl_limit r) 0.
Proof.
  intros Hw. revert r now0 h Hw.
  induction calls as [|[now k] rest IH]; intros r now0 h Hw Hm Ha l1 t l2 E; [by destruct l1|].
  rewrite allowed_for_cons in E. destruct Hm as [Hnow Hm].
  pose proof (agrees_later _ _ _ _ _ Hnow Ha) as Ha'.
  pose proof (Allow_agrees r now k key h Ha') as Hag. pose proof (Allow_const r now k) as [HL HW].
  pose proof (fun Hk : k = key => Allow_bounded r now k h ltac:(by subst)) as Hb.
  destruct (Allow now k r) as [ok r']. cbn [fst snd] in *.
  assert (forall l1' , allowed_for key rest r' = l1' ++ t :: l2 ->
    now <= t /\ Z.of_nat (length (after (t - rl_window r)
      ((h ++ if ok && bool_decide (k = key) then [now] else []) ++ l1' ++ [t]))) <= Z.max (rl_limit r) 0) as Hrest.
  { intros l1' E'. rewrite <- HL, <- HW. eapply IH; [lia|done|done|done]. }
  destruct (ok && bool_decide (k = key)) eqn:Hk; simpl in E.
  - apply andb_true_iff in Hk as [-> Hk]. apply bool_decide_eq_true in Hk.
    destruct l1 as [|x l1]; simpl in E; injection E as -> E.
    + split; [lia|]. destruct (Hb Hk eq_refl); [done|lia].
    + destruct (Hrest l1 E) as [? Hl]. split; [lia|]. by rewrite <- app_assoc in Hl.
  - destruct (Hrest l1 E) as [? Hl]. split; [lia|]. by rewrite app_nil_r in Hl.
Qed.

Definition in_window (a w : Time) (t : Time) : bool := (a <? t) && (t <=? a + w).

(** No window holds more than [limit] logins.  Over any sequence of calls
    whose times do not go back, for any keys, the allowed calls of one key in
    any interval of the window's length number at most the limit; the map
    sweeps do not weaken this. *)
Theorem rate_limit_holds limit window now0 calls key a :
  0 <= limit -> 0 < window -> monotone now0 calls ->
  Z.of_nat (length (List.filter (in_window a window)
    (allowed_for key calls (NewRateLimiter limit window)))) <= limit.
Proof.
  intros Hl Hw Hm. set (r := NewRateLimiter limit window).
  assert (agrees r now0 key []) as Ha.
  { intros c _. unfold r, NewRateLimiter. simpl. by rewrite lookup_empty. }
  pose proof (allowed_windows key calls r now0 [] Hw Hm Ha) as Hall.
  assert (forall l, (forall l1 t l2, l = l1 ++ t :: l2 -> Z.of_nat (length (after (t - window) (l1 ++ [t]))) <= limit) ->
    Z.of_nat (length (List.filter (in_window a window) l)) <= limit) as Hgen.
  { intros l. induction l as [|t l IH] using rev_ind; intros Hp; simpl; [lia|].
    rewrite List.filter_app, length_app. simpl. unfold in_window at 2.
    destruct (Z.ltb_spec a t) as [H1|H1]; simpl.
    - destruct (Z.leb_spec t (a + window)) as [H2|H2]; simpl.
      + specialize (Hp l t [] eq_refl). rewrite after_app, length_app in Hp. simpl in Hp.
        destruct (Z.ltb_spec (t - window) t); [|lia]. simpl in Hp.
        assert (length (List.filter (in_window a window) l) <= length (after (t - window) l))%nat; [|lia].
        clear -H2. induction l as [|x l IH]; simpl; [lia|].
        destruct (in_window a window x) eqn:Ex.
        * unfold in_window in Ex. apply andb_true_iff in Ex as [E1 E2].
          rewrite (proj2 (Z.ltb_lt _ _)) by lia. simpl. lia.
        * destruct (_ <? x); simpl; lia.
      + rewrite Nat.add_0_r. apply IH. intros l1 x l2 ->. apply (Hp l1 x (l2 ++ [t])).
        by rewrite <- app_assoc.
    - rewrite Nat.add_0_r. apply IH. intros l1 x l2 ->. apply (Hp l1 x (l2 ++ [t])).
      by rewrite <- app_assoc. }
  apply Hgen. intros l1 t l2 E. destruct (Hall l1 t l2 E) as [_ Hb]. simpl in Hb.
  unfold r in Hb. simpl in Hb. lia.
Qed.

(** Five attempts in a minute, the sixth is refused and the seventh, a minute
    after the first, is allowed again. *)
Lemma rate_limit_holds_witness :
  let calls := (fun t => (t * second, "ip"%string)) <$> [1; 2; 3; 4; 5; 6; 61; 62] in
  let ok := allowed_for "ip" calls (NewRateLimiter LoginRateLimit LoginRateWindow) in
  ok = (fun t => t * second) <$> [1; 2; 3; 4; 5; 61; 62] /\
  Z.of_nat (length (List.filter (in_window (2 * second) LoginRateWindow) ok)) <= 5.
Proof.
  intros calls ok. split; [vm_compute; reflexivity|].
  apply (rate_limit_holds 5 LoginRateWindow 0 calls "ip" (2 * second)); [lia|reflexivity|].
  simpl. unfold second. lia.
Defined.

(** ** The limiter against a log of every allowed call *)

(** The answers of a run. *)
Fixpoint answers (calls : list (Time * string)) (r : RateLimiter) : list bool * RateLimiter :=
  match calls with
  | [] => ([], r)
  | (now, k) :: rest =>
      let '(ok, r') := Allow now k r in
      let '(oks, r'') := answers rest r' in (ok :: oks, r'')
  end.

(** The reference: nothing is forgotten; a call is allowed when the log has
    fewer than [limit] calls of its key in the trailing window. *)
Definition times_of (key : string) (log : list (Time * string)) : list Time :=
  (List.filter (fun x => bool_decide (x.2 = key)) log).*1.

Fixpoint log_answers (limit window : Z) (calls log : list (Time * string)) : list bool :=
  match calls with
  | [] => []
  | (now, k) :: rest =>
      let ok := Z.of_nat (length (after (now - window) (times_of k log))) <? limit in
      ok :: log_answers limit window rest (if ok then log ++ [(now, k)] else log)
  end.

Lemma times_of_snoc key now k log :
  times_of key (log ++ [(now, k)]) = times_of key log ++ if bool_decide (k = key) then [now] else [].
Proof. unfold times_of. rewrite List.filter_app, fmap_app. simpl. by destruct (bool_decide (k = key)). Qed.

Lemma answers_log calls : forall r log now0,
  monotone now0 calls -> (forall key, agrees r now0 key (times_of key log)) ->
  (answers calls r).1 = log_answers (rl_limit r) (rl_window r) calls log.
Proof.
  induction calls as [|[now k] rest IH]; intros r log now0 Hm Ha; [done|]. destruct Hm as [Hnow Hm].
  assert (forall key, agrees r now key (times_of key log)) as Ha' by (intros key; by eapply agrees_later).
  pose proof (fun key => Allow_agrees r now k key _ (Ha' key)) as Hag.
  pose proof (Allow_const r now k) as [HL HW].
  assert ((Allow now k r).1 =
    (Z.of_nat (length (after (now - rl_window r) (times_of k log))) <? rl_limit r)) as Hok.
  { unfold Allow. simpl. by rewrite (Ha' k (now - rl_window r)) by lia. }
  cbn [answers log_answers]. destruct (Allow now k r) as [ok r']. cbn [fst snd] in *. rewrite <- Hok.
  destruct (answers rest r') as [oks r''] eqn:Ea. cbn [fst]. f_equal.
  change oks with (oks, r'').1. rewrite <- Ea, <- HL, <- HW. apply (IH r' _ now); [done|].
  intros key. specialize (Hag key). destruct ok; simpl in Hag.
  - by rewrite times_of_snoc.
  - by rewrite app_nil_r in Hag.
Qed.

(** A key is kept only while it has a hit within a window of the last sweep,
    and the last sweep is at most a window ago. *)
Record remembers (now : Time) (r : RateLimiter) : Prop := {
  rem_sweep : now < rl_lastSwep r + rl_window r;
  rem_past : rl_lastSwep r <= now;
  rem_hits : forall key l, rl_hits r !! key = Some l -> exists t, t ∈ l /\ rl_lastSwep r - rl_window r < t
}.

Lemma elem_of_after c l t : t ∈ after c l <-> t ∈ l /\ c < t.
Proof. unfold after. rewrite !list_elem_of_In, List.filter_In, Z.ltb_lt. done. Qed.

Lemma Allow_remembers r now0 now k :
  0 < rl_window r <= maxDuration -> now0 <= now ->
  remembers now0 r \/ (rl_hits r = ∅ /\ rl_lastSwep r <= now) -> remembers now (Allow now k r).2.
Proof.
  intros Hw Hnow Hr. unfold Allow. cbv zeta. set (fresh := after (now - rl_window r) (default [] (rl_hits r !! k))).
  set (fresh' := if Z.of_nat (length fresh) <? rl_limit r then fresh ++ [now] else fresh).
  set (hits := match fresh' with [] => delete k (rl_hits r) | _ => <[k := fresh']> (rl_hits r) end). cbn [snd].
  assert (forall key l, hits !! key = Some l -> exists t, t ∈ l /\ (now - rl_window r < t \/ rl_lastSwep r - rl_window r < t)) as Hh.
  { assert (forall t, t ∈ fresh' -> now - rl_window r < t) as Hf.
    { intros t. unfold fresh'. case_match; rewrite ?elem_of_app, ?list_elem_of_singleton;
        unfold fresh; rewrite elem_of_after; intros; destruct_or?; destruct_and?; subst; lia. }
    assert (forall key l, rl_hits r !! key = Some l -> exists t, t ∈ l /\ rl_lastSwep r - rl_window r < t) as Hold.
    { intros key l Hl. destruct Hr as [Hr|[Hr _]]; [by apply (rem_hits _ _ Hr key)|]. by rewrite Hr in Hl. }
    intros key l Hl. unfold hits in Hl. destruct fresh' as [|t0 fr] eqn:Ef.
    - apply lookup_delete_Some in Hl as [_ Hl]. destruct (Hold key l Hl) as (t & Ht & Hlt). eauto.
    - apply lookup_insert_Some in Hl as [[<- <-]|[_ Hl]].
      + exists t0. split; [by left|]. left. apply Hf. by left.
      + destruct (Hold key l Hl) as (t & Ht & Hlt). eauto. }
  destruct (Z.leb_spec (rl_window r) (Z.min (now - rl_lastSwep r) maxDuration)).
  - constructor; simpl; [lia|lia|]. intros key l [_ Hex]%map_lookup_filter_Some. simpl in Hex.
    apply existsb_exists in Hex as (t & Ht%list_elem_of_In & Hlt%Z.ltb_lt). eauto.
  - constructor; simpl; [lia| |].
    + destruct Hr as [[_ ? _]|[_ ?]]; lia.
    + intros key l Hl. destruct (Hh key l Hl) as (t & Ht & [Hlt|Hlt]); exists t; (split; [done|]); [|done].
      assert (rl_lastSwep r <= now) by (destruct Hr as [[_ ? _]|[_ ?]]; lia). lia.
Qed.

Lemma answers_remember calls : forall r now0,
  0 < rl_window r <= maxDuration -> monotone now0 calls -> remembers now0 r ->
  exists now, remembers now (answers calls r).2 /\ Some now = last (now0 :: calls.*1).
Proof.
  induction calls as [|[now k] rest IH]; intros r now0 Hw Hm Hr; [by exists now0|]. destruct Hm as [Hnow Hm].
  pose proof (Allow_remembers r now0 now k Hw Hnow (or_introl Hr)) as Hr'. pose proof (Allow_const r now k) as [_ HW].
  cbn [answers]. destruct (Allow now k r) as [ok r']. cbn [snd] in *.
  destruct (IH r' now) as (n & Hn & Hl); [by rewrite HW|done|done|].
  destruct (answers rest r') as [oks r'']. exists n. split; [done|]. by rewrite Hl.
Qed.

Lemma answers_const calls : forall r, rl_window (answers calls r).2 = rl_window r.
Proof.
  induction calls as [|[now k] rest IH]; intros r; [done|]. cbn [answers].
  pose proof (Allow_const r now k) as [_ HW]. destruct (Allow now k r) as [ok r']. specialize (IH r').
  destruct (answers rest r') as [oks r'']. simpl in *. congruence.
Qed.

(** C30: forgetting changes no answer.  Over any sequence of calls whose times
    do not go back, the limiter, which trims the hits of a key at each call
    and sweeps idle keys out of its map, answers exactly as the reference
    that keeps the log of all allowed calls for ever; and what it keeps is
    recent: after a call at the time [now] every key in the map has a hit in
    the last two windows, so keys that are tried once and left do not pile
    up. *)
Theorem limiter_equals_log limit window now0 calls :
  monotone now0 calls -> zeroTime <= now0 -> 0 < window <= maxDuration ->
  (answers calls (NewRateLimiter limit window)).1 = log_answers limit window calls [] /\
  forall now, last (calls.*1) = Some now ->
    map_Forall (fun _ hits => exists t, t ∈ hits /\ now - 2 * window < t)
      (rl_hits (answers calls (NewRateLimiter limit window)).2).
Proof.
  intros Hm Hz Hw. split.
  - apply (answers_log calls (NewRateLimiter limit window) [] now0); [done|].
    intros key c _. simpl. by rewrite lookup_empty.
  - intros now Hlast. destruct calls as [|[t k] rest]; [done|]. destruct Hm as [Ht Hm].
    set (r := NewRateLimiter limit window) in *.
    assert (remembers t (Allow t k r).2) as Hr.
    { eapply (Allow_remembers r now0 t k); [done|done|]. right. unfold r. simpl. split; [done|lia]. }
    destruct (answers_remember rest (Allow t k r).2 t) as (n & Hn & Hl); [done|done|done|].
    assert (n = now) as -> by (cbn [fmap list_fmap fst] in Hlast; congruence).
    pose proof (answers_const rest (Allow t k r).2) as HW.
    cbn [answers]. destruct (Allow t k r) as [ok r'] eqn:Er. cbn [snd] in *.
    assert (rl_window r' = window) as Hw' by (change r' with (ok, r').2; by rewrite <- Er).
    destruct (answers rest r') as [oks r'']. cbn [snd] in *. intros key l Hkl.
    destruct (rem_hits _ _ Hn key l Hkl) as (x & Hx & Hlt). exists x. split; [done|].
    destruct Hn as [Hs _ _]. rewrite HW, Hw' in *. lia.
Qed.

(** Two addresses; the first is swept out when the second comes back. *)
Lemma limiter_equals_log_witness :
  let calls := [(1 * second, "a"); (2 * second, "b"); (3 * second, "b"); (130 * second, "b")]%string in
  let run := answers calls (NewRateLimiter 1 LoginRateWindow) in
  run.1 = log_answers 1 LoginRateWindow calls [] /\ run.1 = [true; true; false; true] /\
  rl_hits run.2 !! "a"%string = None.
Proof.
  intros calls run.
  assert (monotone 0 calls) as Hm by (simpl; unfold second; lia).
  destruct (limiter_equals_log 1 LoginRateWindow 0 calls Hm) as [H _];
    [unfold zeroTime, second; lia|unfold LoginRateWindow, maxDuration, minute, second; lia|].
  split; [exact H|]. split; vm_compute; reflexivity.
Defined.
