(* ===== verification/AuthHandlers.v ===== *)
(** * The auth endpoints and the session middleware

    internal/api/auth_handlers.go, session_middleware.go, session_admin.go and
    the two bearer-token middlewares of admin.go and internal_ssh_ticket.go.
    A handler runs over the database and the login limiter; the cookies it
    sets are part of its answer. *)

From S2P Require Import Prelude GoStrings GoCrypto Proto Db Queries AccountQueries Demo Auth RateLimiter Http.
From Stdlib Require Import Ascii.

#[local] Open Scope string_scope.
#[local] Open Scope list_scope.
#[local] Open Scope go_scope.

Definition SessionCookieName : string := "hc_session".

Record AuthConfig := {
  ac_SessionTTL : Z;
  ac_CookieSecure : bool;
  ac_CookieDomain : string;
  ac_CookiePath : string;
  ac_TrustedProxyHops : Z
}.

(** What the handlers read of a request. *)
Record Request := {
  rq_RemoteAddr : string;
  rq_XForwardedFor : string;        (* the header, empty when absent *)
  rq_Authorization : string;
  rq_Cookie : option string         (* the value of [hc_session] *)
}.

Record Cookie := {
  ck_Name : string;
  ck_Value : string;
  ck_Path : string;
  ck_Domain : string;
  ck_Expires : Time;
  ck_MaxAge : Z;
  ck_Secure : bool;
  ck_HttpOnly : bool
}.

Record userView := { uv_ID : UUID; uv_Email : string; uv_IsAdmin : bool; uv_CreatedAt : Time }.

Definition toUserView (u : User) : userView :=
  {| uv_ID := us_ID u; uv_Email := us_Email u; uv_IsAdmin := us_IsAdmin u; uv_CreatedAt := us_CreatedAt u |}.

Record credentials := { req_Email : string; req_Password : string }.

Definition orDefault (s fallback : string) : string := if String.eqb s "" then fallback else s.

(** The rate-limit key of a request. *)
Definition clientIP (r : Request) (trustedHops : Z) : string :=
  let from_xff :=
    if (0 <? trustedHops)%Z && negb (String.eqb (rq_XForwardedFor r) "") then
      let parts := Split (rq_XForwardedFor r) ","%char in
      let idx := Z.max 0 (Z.of_nat (length parts) - trustedHops) in
      let ip := TrimSpace (default "" (parts !! Z.to_nat idx)) in
      if String.eqb ip "" then None else Some ip
    else None in
  match from_xff with
  | Some ip => ip
  | None => match SplitHostPort (rq_RemoteAddr r) with
            | Some (host, _) => host
            | None => rq_RemoteAddr r
            end
  end.

(** ** State: the database and the limiter *)
Record AuthWorld := { aw_pg : Pg; aw_limiter : RateLimiter }.

Definition onAuthPg {A} (m : ST Pg A) : ST AuthWorld A := fun w =>
  let '(a, s) := m (aw_pg w) in (a, {| aw_pg := s; aw_limiter := aw_limiter w |}).

Definition onLimiter {A} (m : RateLimiter -> A * RateLimiter) : ST AuthWorld A := fun w =>
  let '(a, l) := m (aw_limiter w) in (a, {| aw_pg := aw_pg w; aw_limiter := l |}).

(** The answer of an auth handler, and the cookie it sets. *)
Definition AuthResp : Type := Resp userView * option Cookie.

Section handlers.
Context `{Bcrypt} (cfg : AuthConfig).

(** [rnd] and [now] are the entropy and the clock of the request. *)
Definition issueSessionCookie (rnd : result (list N)) (now : Time) (userID : UUID)
    : ST Pg (result Cookie) :=
  r <-? CreateSession rnd now userID (ac_SessionTTL cfg) ;;
  let '(raw, sess) := r in
  ret (Ok {| ck_Name := SessionCookieName; ck_Value := raw;
             ck_Path := orDefault (ac_CookiePath cfg) "/"; ck_Domain := ac_CookieDomain cfg;
             ck_Expires := se_ExpiresAt sess; ck_MaxAge := ac_SessionTTL cfg / second;
             ck_Secure := ac_CookieSecure cfg; ck_HttpOnly := true |}).

Definition expireCookie : Cookie :=
  {| ck_Name := SessionCookieName; ck_Value := ""; ck_Path := orDefault (ac_CookiePath cfg) "/";
     ck_Domain := ac_CookieDomain cfg; ck_Expires := 0; ck_MaxAge := -1;
     ck_Secure := ac_CookieSecure cfg; ck_HttpOnly := true |}.

Definition error_only (st : Z) (code msg : string) : AuthResp := (WriteError st code msg, None).

(** [decodeJSON]: a body that cannot be read or decoded is one error. *)
Definition decodeJSON {A} (body : Body A) : result A :=
  match body with
  | ReadFailed e | BadJSON e => Err (ErrNew e)
  | Decoded a => Ok a
  end.

(** The end of [Register] and [Login]. *)
Definition with_session (rnd : result (list N)) (now : Time) (st : Z) (user : User)
    : ST Pg AuthResp :=
  c <- issueSessionCookie rnd now (us_ID user) ;;
  ret match c with
      | Err e => error_only StatusInternalServerError "session_failed" (Error e)
      | Ok cookie => (WriteJSON st (toUserView user), Some cookie)
      end.

Definition auth_Register (salt : N) (rnd : result (list N)) (now : Time) (body : Body credentials)
    : ST AuthWorld AuthResp :=
  match decodeJSON body with
  | Err e => ret (error_only StatusBadRequest "bad_json" (Error e))
  | Ok req =>
      onAuthPg (r <- CreateUser salt (req_Email req) (req_Password req) ;;
                match r with
                | Err e =>
                    ret (if errors_Is e ErrEmailTaken then
                           error_only StatusConflict "email_taken" "email already registered"
                         else if errors_Is e ErrInvalidEmail then
                           error_only StatusBadRequest "invalid_email" (Error e)
                         else if errors_Is e ErrWeakPassword then
                           error_only StatusBadRequest "weak_password" (Error e)
                         else error_only StatusInternalServerError "register_failed" (Error e))
                | Ok user => with_session rnd now StatusCreated user
                end)
  end.

Definition auth_Login (rnd : result (list N)) (now : Time) (r : Request) (body : Body credentials)
    : ST AuthWorld AuthResp :=
  allowed <- onLimiter (Allow now (clientIP r (ac_TrustedProxyHops cfg))) ;;
  if negb (allowed : bool) then
    ret (error_only StatusTooManyRequests "rate_limited" "too many login attempts, try again later")
  else match decodeJSON body with
  | Err e => ret (error_only StatusBadRequest "bad_json" (Error e))
  | Ok req =>
      onAuthPg (u <- Authenticate (req_Email req) (req_Password req) ;;
                match u with
                | Err _ => ret (error_only StatusUnauthorized "invalid_credentials" "invalid email or password")
                | Ok user => with_session rnd now StatusOK user
                end)
  end.

Definition auth_Logout (r : Request) : ST AuthWorld AuthResp :=
  (match rq_Cookie r with
   | Some c => onAuthPg (RevokeSession c) ;;; ret tt
   | None => ret tt
   end) ;;;
  ret (WriteHeader StatusNoContent, Some expireCookie).

Definition auth_Me (user : option User) : AuthResp :=
  match user with
  | None => error_only StatusUnauthorized "unauthenticated" "no session"
  | Some u => (WriteJSON StatusOK (toUserView u), None)
  end.
End handlers.

(** ** Middleware *)

(** [LoadSession]: the user in the request's context, if any. *)
Definition LoadSession (r : Request) : ST Pg (option User) :=
  match rq_Cookie r with
  | None => ret None
  | Some c =>
      if String.eqb c "" then ret None
      else x <- LookupSession c ;;
           ret match x with Ok (_, user) => Some user | Err _ => None end
  end.

(** What a gate lets through, or the error it writes. *)
Definition RequireUser (user : option User) : checked User :=
  match user with
  | Some u => Pass u
  | None => Reject StatusUnauthorized "unauthenticated" "valid session required"
  end.

Definition RequireAdmin (user : option User) : checked User :=
  match user with
  | Some u => if us_IsAdmin u then Pass u else Reject StatusNotFound "not_found" "not found"
  | None => Reject StatusNotFound "not_found" "not found"
  end.

(** The bearer check shared by [RequireAdminToken] and
    [RequireInternalToken]; [ConstantTimeCompare] is equality. *)
Definition bearer_ok (expected : string) (r : Request) : bool :=
  if String.eqb expected "" then true
  else let h := rq_Authorization r in
       let token := TrimPrefix h "Bearer " in
       negb (String.eqb token h) && String.eqb token expected.

Definition RequireAdminToken (expected : string) (r : Request) : checked unit :=
  if bearer_ok expected r then Pass tt
  else Reject StatusUnauthorized "unauthenticated" "invalid or missing bearer token".

Definition RequireInternalToken (expected : string) (r : Request) : checked unit :=
  if bearer_ok expected r then Pass tt
  else Reject StatusUnauthorized "unauthenticated" "invalid or missing internal bearer token".

(** ** Properties *)

Lemma TrimPrefix_spec p s : p <> "" -> TrimPrefix s p <> s -> s = p +:+ TrimPrefix s p.
Proof.
  unfold TrimPrefix. destruct (strip_prefix p s) as [r|] eqn:E; simpl; [|done].
  by apply strip_prefix_Some in E.
Qed.

(** The bearer check passes exactly the header [Bearer ] followed by the
    configured token (and everything when none is configured). *)
Theorem bearer_exact expected r :
  (RequireAdminToken expected r = Pass tt <->
     expected = "" \/ rq_Authorization r = "Bearer " +:+ expected) /\
  (RequireInternalToken expected r = Pass tt <->
     expected = "" \/ rq_Authorization r = "Bearer " +:+ expected).
Proof.
  assert (bearer_ok expected r = true <-> expected = "" \/ rq_Authorization r = "Bearer " +:+ expected) as Hb.
  { unfold bearer_ok. destruct (String.eqb_spec expected "") as [->|Hne]; [tauto|].
    rewrite andb_true_iff, negb_true_iff, String.eqb_neq, String.eqb_eq. split.
    - intros [Hp Ht]. right. rewrite <- Ht. by apply TrimPrefix_spec.
    - intros [->|Hr]; [done|]. rewrite Hr, TrimPrefix_app. split; [|done].
      intros Hs. apply (f_equal String.length) in Hs. rewrite str_length_app in Hs. simpl in Hs. lia. }
  unfold RequireAdminToken, RequireInternalToken. destruct (bearer_ok expected r); split;
    (split; [intros Hx; try discriminate Hx; by apply Hb|intros Hx%Hb; done]).
Qed.

(** Splitting a text after a separator. *)
Lemma Split_cons s c : Split s c <> [].
Proof. destruct s as [|b s]; simpl; [done|]. destruct (Ascii.eqb b c); [done|]. by destruct (Split s c). Qed.

Lemma Split_app p s c : Split (p +:+ String c s) c = Split p c ++ Split s c.
Proof.
  induction p as [|b p IH]; simpl.
  - by rewrite Ascii.eqb_refl.
  - destruct (Ascii.eqb b c); simpl; [by rewrite IH|].
    rewrite IH. pose proof (Split_cons p c). destruct (Split p c); done.
Qed.

(** A client cannot choose its rate-limit key.  With [n] trusted proxy
    hops, when the proxies have appended their [n] entries to whatever
    X-Forwarded-For the client sent, the key is the one those entries alone
    give, provided the first of them is not blank; with no trusted hop the
    header is ignored. *)
Theorem clientIP_unspoofable r forged appended hops :
  (0 < hops)%Z -> Z.of_nat (length (Split appended ","%char)) = hops ->
  TrimSpace (default "" (Split appended ","%char !! 0)) <> "" ->
  let with_xff h := {| rq_RemoteAddr := rq_RemoteAddr r; rq_XForwardedFor := h;
                       rq_Authorization := rq_Authorization r; rq_Cookie := rq_Cookie r |} in
  clientIP (with_xff (forged +:+ "," +:+ appended)) hops = clientIP (with_xff appended) hops /\
  clientIP (with_xff (forged +:+ "," +:+ appended)) 0 = clientIP (with_xff "") 0.
Proof.
  intros Hh Hl Hn with_xff. split; [|done]. unfold clientIP. cbn [rq_XForwardedFor rq_RemoteAddr with_xff].
  rewrite (proj2 (Z.ltb_lt 0 hops) Hh). simpl andb.
  assert (appended <> "") as Ha by (intros ->; by apply Hn).
  assert (forged +:+ "," +:+ appended <> "") as Hf by (by destruct forged).
  rewrite !(proj2 (String.eqb_neq _ _)) by done. simpl.
  change ("," +:+ appended) with (String ","%char appended). rewrite Split_app, length_app.
  replace (Z.to_nat (Z.max 0 (Z.of_nat (length (Split forged ","%char) + length (Split appended ","%char)) - hops)))
    with (length (Split forged ","%char)) by lia.
  replace (Z.to_nat (Z.max 0 (Z.of_nat (length (Split appended ","%char)) - hops))) with 0 by lia.
  rewrite lookup_app_r by lia. rewrite Nat.sub_diag.
  simpl. destruct (String.eqb_spec (TrimSpace (default "" (Split appended ","%char !! 0))) "") as [E|_]; [by destruct Hn|].
  by rewrite (proj2 (String.eqb_neq appended "") Ha).
Qed.

Section login.
Context `{BcryptLaws}.

(** The user a token resolves to at a time. *)
Definition session_user (raw : string) (t : Time) (s : Pg) : option User :=
  match (LookupSession raw (at_time t s)).1 with Ok (_, u) => Some u | Err _ => None end.

(** The answer to a login.  With round trips served, an attempt within
    the rate limit whose credentials match gets 200 and an HTTP-only session
    cookie that resolves to that user exactly until the session expires; with
    any other credentials it gets one and the same 401 without a cookie,
    whether the address is unknown or the password wrong; an attempt over the
    limit gets 429 and the database is not asked. *)
Theorem Login_spec cfg buf now r req w :
  accounts_ok (pg_db (aw_pg w)) -> clean (aw_pg w) -> length buf = SessionTokenBytes ->
  let '((resp, cookie), w') := auth_Login cfg (Ok buf) now r (Decoded req) w in
  if (Allow now (clientIP r (ac_TrustedProxyHops cfg)) (aw_limiter w)).1 then
    match (Authenticate (req_Email req) (req_Password req) (aw_pg w)).1 with
    | Err _ => resp = WriteError StatusUnauthorized "invalid_credentials" "invalid email or password" /\
               cookie = None
    | Ok user =>
        match cookie with
        | Some c => resp = WriteJSON StatusOK (toUserView user) /\ ck_Name c = SessionCookieName /\
            ck_HttpOnly c = true /\ ck_Secure c = ac_CookieSecure cfg /\
            forall t, session_user (ck_Value c) t (aw_pg w') =
                      if (t <? now + ac_SessionTTL cfg)%Z then Some user else None
        | None => exists e, resp = WriteError StatusInternalServerError "session_failed" e
        end
    end
  else resp = WriteError StatusTooManyRequests "rate_limited" "too many login attempts, try again later" /\
       cookie = None /\ aw_pg w' = aw_pg w.
Proof.
  intros Hd Hs Hb. unfold auth_Login. rewrite bind_eq. unfold onLimiter at 1 2.
  destruct (Allow now _ (aw_limiter w)) as [[] l]; cbn [fst snd negb]; [|done].
  cbn [decodeJSON]. unfold onAuthPg. cbn [aw_pg aw_limiter]. rewrite bind_eq.
  pose proof (Authenticate_spec (req_Email req) (req_Password req) (aw_pg w) Hd Hs) as (Hdb & Hok & _).
  assert (clean (Authenticate (req_Email req) (req_Password req) (aw_pg w)).2) as Hs1.
  { apply uses_suffix_clean; [|done]. unfold Authenticate. solve_suffix. }
  destruct (Authenticate (req_Email req) (req_Password req) (aw_pg w)) as [[user|e] s1]; simpl in *; [|done].
  destruct (proj1 (Hok user) eq_refl) as (id & Hu & _).
  pose proof (ao_user _ Hd id user Hu) as Hid.
  unfold with_session. rewrite bind_eq. unfold issueSessionCookie. rewrite bindR_eq.
  destruct (CreateSession (Ok buf) now (us_ID user) (ac_SessionTTL cfg) s1) as [[[raw sess]|e] s2] eqn:HC;
    simpl; [|by eexists].
  split_and!; try done. intros t. unfold session_user.
  destruct (session_created buf now (us_ID user) user (ac_SessionTTL cfg) s1 raw sess s2)
    as (_ & _ & _ & Hl); [by rewrite Hdb|done|done|by rewrite Hdb, Hid|done|].
  rewrite Hl. by destruct (t <? _)%Z.
Qed.
End login.

(** ** Witnesses *)
Section witnesses.
#[local] Existing Instance demo_bcrypt.
#[local] Existing Instance demo_bcrypt_laws.

Definition demo_request (xff : string) : Request :=
  {| rq_RemoteAddr := "10.0.0.1:5000"; rq_XForwardedFor := xff; rq_Authorization := "";
     rq_Cookie := None |}.

Lemma clientIP_unspoofable_witness :
  clientIP (demo_request "6.6.6.6, 203.0.113.9") 1 = "203.0.113.9" /\
  clientIP (demo_request "6.6.6.6, 203.0.113.9") 0 = "10.0.0.1".
Proof.
  destruct (clientIP_unspoofable (demo_request "") "6.6.6.6" " 203.0.113.9" 1 ltac:(lia) eq_refl
    ltac:(vm_compute; discriminate)) as [H1 H0].
  split; [etransitivity; [exact H1|]|etransitivity; [exact H0|]]; vm_compute; reflexivity.
Defined.

Definition bob : User :=
  {| us_ID := 1; us_Email := "a@x"; us_PasswordHash := "$correct horse"; us_IsAdmin := false;
     us_CreatedAt := 0; us_UpdatedAt := 0 |}.

Definition bob_db : DB := set_users {[ 1%N := bob ]} demo_db.

Lemma bob_accounts_ok : accounts_ok bob_db.
Proof.
  constructor.
  - intros id u. simpl. rewrite lookup_singleton. case_decide; [|done]. by intros [= <-].
  - intros id u. simpl. rewrite lookup_singleton. case_decide; [|done]. by intros [= <-].
  - intros id id' u u'. simpl. rewrite !lookup_singleton. repeat case_decide; congruence.
  - done.
  - done.
Qed.

Definition demo_cfg : AuthConfig :=
  {| ac_SessionTTL := hour; ac_CookieSecure := true; ac_CookieDomain := ""; ac_CookiePath := "";
     ac_TrustedProxyHops := 1 |}.

Lemma Login_spec_witness :
  let w := {| aw_pg := on_demo bob_db; aw_limiter := NewRateLimiter LoginRateLimit LoginRateWindow |} in
  let '((resp, cookie), w') := auth_Login demo_cfg (Ok (repeat 9%N 32)) 1000 (demo_request "")
    (Decoded {| req_Email := "A@X "; req_Password := "correct horse" |}) w in
  resp = WriteJSON 200 (toUserView bob) /\
  exists c, cookie = Some c /\ session_user (ck_Value c) (1000 + hour - 1) (aw_pg w') = Some bob.
Proof.
  intros w. pose proof (Login_spec demo_cfg (repeat 9%N 32) 1000 (demo_request "")
    {| req_Email := "A@X "; req_Password := "correct horse" |} w bob_accounts_ok eq_refl eq_refl) as Hl.
  destruct (auth_Login _ _ _ _ _ w) as [[resp cookie] w'] eqn:E.
  assert ((Allow 1000 (clientIP (demo_request "") (ac_TrustedProxyHops demo_cfg)) (aw_limiter w)).1 = true)
    as Ha by (vm_compute; reflexivity).
  assert ((Authenticate "A@X " "correct horse" (aw_pg w)).1 = Ok bob) as Hb by (vm_compute; reflexivity).
  cbn [req_Email req_Password] in Hl. rewrite Ha, Hb in Hl.
  destruct cookie as [c|]; [|vm_compute in E; discriminate E].
  destruct Hl as (-> & _ & _ & _ & Ht). split; [reflexivity|]. exists c. split; [reflexivity|].
  rewrite Ht. vm_compute. reflexivity.
Defined.
End witnesses.
