(* ===== verification/Views.v ===== *)
(** * The listing and credit endpoints of the REST API

    internal/api/admin.go, user_nodes.go, session_admin_handlers.go,
    admin_credits.go and user_credits.go: the rows of the tables as the
    operator, the dashboard and the user see them, and the recharge of an
    account. *)

From S2P Require Import Prelude GoStrings Proto Db Queries AccountQueries Demo CreditRepo NodeRepo Http.

#[local] Open Scope string_scope.
#[local] Open Scope list_scope.
#[local] Open Scope go_scope.

Record NodeView := {
  nv_ID : UUID;
  nv_NodeName : string;
  nv_Hostname : string;
  nv_Status : string;
  nv_AgentVersion : string;
  nv_GPUCount : Z;
  nv_LastHeartbeatAt : option Time;
  nv_RegisteredAt : Time
}.

Record UserNodeView := {
  unv_ID : UUID;
  unv_NodeName : string;
  unv_Status : string;
  unv_GPUCount : Z
}.

Definition NodeStatus_text (s : NodeStatus) : string :=
  match s with
  | NodeStatusOffline => "offline"
  | NodeStatusOnline => "online"
  | NodeStatusDegraded => "degraded"
  | NodeStatusDraining => "draining"
  end.

Definition SlotStatus_text (s : SlotStatus) : string :=
  match s with
  | SlotStatusFree => "free"
  | SlotStatusReserved => "reserved"
  | SlotStatusInUse => "in_use"
  | SlotStatusDraining => "draining"
  end.

Record CreditEntryView := {
  cev_ID : N;
  cev_DeltaMilli : Z;
  cev_Reason : string;
  cev_IdempotencyKey : string;
  cev_InstanceID : option UUID;
  cev_Metadata : string;
  cev_CreatedAt : Time
}.

Definition toCreditEntryView (e : CreditLedger) : CreditEntryView :=
  {| cev_ID := cl_ID e; cev_DeltaMilli := cl_DeltaMilli e; cev_Reason := cl_Reason e;
     cev_IdempotencyKey := cl_IdempotencyKey e; cev_InstanceID := cl_InstanceID e;
     cev_Metadata := cl_Metadata e; cev_CreatedAt := cl_CreatedAt e |}.

Record adminRechargeRequest := {
  arr_DeltaMilli : Z;
  arr_Reason : string;
  arr_IdempotencyKey : string;
  arr_Metadata : string
}.

Record AdminUserView := {
  auv_ID : UUID;
  auv_Email : string;
  auv_IsAdmin : bool;
  auv_BalanceMilli : Z;
  auv_ActiveInstanceCount : Z;
  auv_CreatedAt : Time
}.

Record AdminSlotView := {
  asv_ID : UUID;
  asv_NodeID : UUID;
  asv_NodeName : string;
  asv_SlotIndex : Z;
  asv_GPUCount : Z;
  asv_GPUIndices : list Z;
  asv_NVLinkDomain : string;
  asv_Status : string;
  asv_CurrentInstanceID : option UUID
}.

Section handlers.
Context `{UUIDLib, Collation}.
(** [json.Unmarshal] of a stored topology, its [gpus] kept raw. *)
Context (json_gpus : string -> result (list string)).

Definition gpuCountFromTopology (raw : string) : Z :=
  if String.eqb raw "" then 0%Z
  else match json_gpus raw with
       | Err _ => 0%Z
       | Ok gpus => Z.of_nat (length gpus)
       end.

Definition toView (n : Node) : NodeView :=
  {| nv_ID := nd_ID n; nv_NodeName := nd_NodeName n; nv_Hostname := nd_Hostname n;
     nv_Status := NodeStatus_text (nd_Status n); nv_AgentVersion := nd_AgentVersion n;
     nv_GPUCount := gpuCountFromTopology (nd_TopologyJson n);
     nv_LastHeartbeatAt := nd_LastHeartbeatAt n; nv_RegisteredAt := nd_RegisteredAt n |}.

Definition admin_ListNodes : ST Pg (Resp (list NodeView)) :=
  r <- ListNodes ;;
  ret match r with
      | Err e => WriteError StatusInternalServerError "list_nodes_failed" (Error e)
      | Ok nodes => WriteJSON StatusOK (toView <$> nodes)
      end.

Definition toUserNodeView (n : Node) : UserNodeView :=
  {| unv_ID := nd_ID n; unv_NodeName := nd_NodeName n; unv_Status := NodeStatus_text (nd_Status n);
     unv_GPUCount := gpuCountFromTopology (nd_TopologyJson n) |}.

Definition user_ListNodes (user : option User) : ST Pg (Resp (list UserNodeView)) :=
  match user with
  | None => ret (WriteError StatusUnauthorized "unauthenticated" "session required")
  | Some u =>
      r <- ListAccessibleToUser (us_ID u) ;;
      ret match r with
          | Err e => WriteError StatusInternalServerError "list_failed" (Error e)
          | Ok rows => WriteJSON StatusOK (toUserNodeView <$>
              List.filter (fun n => bool_decide (nd_Status n = NodeStatusOnline)) rows)
          end
  end.

(** [Balance] and [History] of one account. *)
Definition credit_report (userID : UUID) : ST Pg (Resp (Z * list CreditEntryView)) :=
  b <- Balance userID ;;
  match b with
  | Err e => ret (WriteError StatusInternalServerError "balance_failed" (Error e))
  | Ok balance =>
      h <- History userID 50 ;;
      ret match h with
          | Err e => WriteError StatusInternalServerError "history_failed" (Error e)
          | Ok entries => WriteJSON StatusOK (balance, toCreditEntryView <$> entries)
          end
  end.

Definition user_Balance (user : User) : ST Pg (Resp (Z * list CreditEntryView)) :=
  credit_report (us_ID user).

Definition admin_Balance (idStr : string) : ST Pg (Resp (Z * list CreditEntryView)) :=
  match uuid_Parse idStr with
  | Err e => ret (WriteError StatusBadRequest "bad_user_id" (Error e))
  | Ok userID => credit_report userID
  end.

Definition recharge_input (userID : UUID) (req : adminRechargeRequest) : PostInput :=
  {| pi_UserID := userID; pi_DeltaMilli := arr_DeltaMilli req; pi_Reason := arr_Reason req;
     pi_InstanceID := None; pi_IdempotencyKey := arr_IdempotencyKey req;
     pi_Metadata := arr_Metadata req |}.

Definition admin_Recharge (idStr : string) (body : Body adminRechargeRequest)
    : ST Pg (Resp (CreditEntryView * Z)) :=
  match uuid_Parse idStr with
  | Err e => ret (WriteError StatusBadRequest "bad_user_id" (Error e))
  | Ok userID =>
  match body with
  | ReadFailed e => ret (WriteError StatusBadRequest "read_body" e)
  | BadJSON e => ret (WriteError StatusBadRequest "bad_json" e)
  | Decoded req =>
      if decide (arr_DeltaMilli req = 0%Z) then
        ret (WriteError StatusBadRequest "zero_delta" "delta_milli must be non-zero")
      else if String.eqb (arr_Reason req) "" then
        ret (WriteError StatusBadRequest "missing_reason" "reason is required")
      else if String.eqb (arr_IdempotencyKey req) "" then
        ret (WriteError StatusBadRequest "missing_idempotency_key" "idempotency_key is required")
      else
        r <- Post (recharge_input userID req) ;;
        match r with
        | Err e =>
            ret (if errors_Is e ErrDuplicateIdempotency
                 then WriteError StatusConflict "duplicate_idempotency" "ledger entry already exists for this key"
                 else WriteError StatusInternalServerError "post_failed" (Error e))
        | Ok entry =>
            b <- Balance userID ;;
            ret match b with
                | Err e => WriteError StatusInternalServerError "balance_failed" (Error e)
                | Ok balance => WriteJSON StatusCreated (toCreditEntryView entry, balance)
                end
        end
  end
  end.

Definition admin_ListUsers : ST Pg (Resp (list AdminUserView)) :=
  r <- exec (listUsersAdminView 200) ;;
  ret match r with
      | Err e => WriteError StatusInternalServerError "list_users_failed" (Error e)
      | Ok rows => WriteJSON StatusOK
          ((fun u => {| auv_ID := ua_ID u; auv_Email := ua_Email u; auv_IsAdmin := ua_IsAdmin u;
                        auv_BalanceMilli := ua_BalanceMilli u;
                        auv_ActiveInstanceCount := ua_ActiveInstanceCount u;
                        auv_CreatedAt := ua_CreatedAt u |}) <$> rows)
      end.

Definition admin_ListSlots : ST Pg (Resp (list AdminSlotView)) :=
  r <- exec listSlotsForAdminView ;;
  ret match r with
      | Err e => WriteError StatusInternalServerError "list_slots_failed" (Error e)
      | Ok rows => WriteJSON StatusOK
          ((fun v => let s := sa_Slot v in
              {| asv_ID := gs_ID s; asv_NodeID := gs_NodeID s; asv_NodeName := sa_NodeName v;
                 asv_SlotIndex := gs_SlotIndex s; asv_GPUCount := gs_GpuCount s;
                 asv_GPUIndices := gs_GpuIndices s; asv_NVLinkDomain := gs_NvlinkDomain s;
                 asv_Status := SlotStatus_text (gs_Status s);
                 asv_CurrentInstanceID := gs_CurrentInstanceID s |}) <$> rows)
      end.
End handlers.

(** ** Properties *)
Section properties.
Context `{UUIDLib, Collation} (json_gpus : string -> result (list string)).

(** A user sees the online nodes open to them and no others.  With the
    round trip served, the node list answers, ordered by name, exactly the
    nodes that are online and either public or reserved to a team the caller
    belongs to. *)
Theorem user_ListNodes_acl user s :
  clean s ->
  exists rows, (user_ListNodes json_gpus (Some user) s).1 =
      WriteJSON StatusOK (toUserNodeView json_gpus <$> rows) /\
    pg_db (user_ListNodes json_gpus (Some user) s).2 = pg_db s /\
    (forall n, n ∈ rows <-> (exists id, db_nodes (pg_db s) !! id = Some n) /\
       nd_Status n = NodeStatusOnline /\
       (nd_AccessPolicy n = "public" \/
        (nd_AccessPolicy n = "owner_team" /\ exists t, nd_OwnerTeamID n = Some t /\
           is_Some (db_team_members (pg_db s) !! (t, us_ID user))))) /\
    StronglySorted (fun a b => coll_leb (nd_NodeName a) (nd_NodeName b) = true) rows.
Proof.
  intros Hs. eexists. split; [|split; [|split]].
  - unfold user_ListNodes, ListAccessibleToUser. rewrite bind_eq, exec_clean by done. reflexivity.
  - unfold user_ListNodes, ListAccessibleToUser. rewrite bind_eq, exec_clean by done. reflexivity.
  - intros n. rewrite list_elem_of_In, List.filter_In, <- list_elem_of_In.
    rewrite elem_of_order_by, elem_of_filter_rows, bool_decide_eq_true.
    unfold node_accessible. rewrite orb_true_iff, andb_true_iff, !String.eqb_eq.
    assert ((match nd_OwnerTeamID n with
             | Some t => bool_decide (is_Some (db_team_members (pg_db s) !! (t, us_ID user)))
             | None => false
             end = true) <-> exists t, nd_OwnerTeamID n = Some t /\
                                is_Some (db_team_members (pg_db s) !! (t, us_ID user))) as ->; [|tauto].
    destruct (nd_OwnerTeamID n) as [t|].
    + rewrite bool_decide_eq_true. split; [eauto|]. by intros (t' & [= <-] & ?).
    + split; [done|]. by intros (t' & ? & _).
  - assert (forall (A : Type) (R : relation A) (P : A -> bool) l, StronglySorted R l -> StronglySorted R (List.filter P l)) as Hf.
    { intros A R P l. induction 1 as [|a l Hl IH Ha]; simpl; [constructor|].
      destruct (P a); [|done]. constructor; [done|]. rewrite Forall_forall in *. intros x Hx.
      apply Ha. rewrite list_elem_of_In in *. by apply List.filter_In in Hx as [? _]. }
    apply Hf. apply (order_by_sorted by_node_name); unfold by_node_name.
    + intros a b. apply coll_total.
    + intros a b c. apply coll_trans.
Qed.
End properties.

Section recharge.
Context `{UUIDLib}.

Lemma Balance_clean u s :
  clean s -> (Balance u s).1 = Ok (balance_of (pg_db s) u) /\ pg_db (Balance u s).2 = pg_db s.
Proof.
  intros Hs. unfold Balance, balance_of. rewrite bind_eq, exec_clean by done.
  unfold getCredits, query_one. by destruct (db_credits (pg_db s) !! u).
Qed.

Definition well_formed (req : adminRechargeRequest) : bool :=
  negb (bool_decide (arr_DeltaMilli req = 0%Z)) && negb (String.eqb (arr_Reason req) "") &&
  negb (String.eqb (arr_IdempotencyKey req) "").

(** A recharge, every outcome.  With round trips served: a request with a
    zero amount, no reason or no idempotency key is a 400 and touches
    nothing; a key the ledger already has is a 409 and changes nothing; an
    amount for a user who exists, that does not overflow the balance, is a
    201 that reports the entry and the new balance, the old one plus the
    amount; anything else is a 500 and changes nothing. *)
Theorem Recharge_spec idStr u req s :
  clean s -> uuid_Parse idStr = Ok u ->
  let '(resp, s') := admin_Recharge idStr (Decoded req) s in
  let d := pg_db s in
  let key := arr_IdempotencyKey req in
  if well_formed req then
    if existsb (has_key key) (db_credit_ledger d) then
      resp = WriteError StatusConflict "duplicate_idempotency" "ledger entry already exists for this key" /\
      pg_db s' = d
    else if decide (is_Some (db_users d !! u) /\
                    (db_credits d !! u = None \/ is_int64 (balance_of d u + arr_DeltaMilli req)%Z = true)) then
      exists v, resp = WriteJSON StatusCreated (v, (balance_of d u + arr_DeltaMilli req)%Z) /\
        cev_DeltaMilli v = arr_DeltaMilli req /\ cev_IdempotencyKey v = key /\
        balance_of (pg_db s') u = (balance_of d u + arr_DeltaMilli req)%Z
    else (exists e, resp = WriteError StatusInternalServerError "post_failed" e) /\ pg_db s' = d
  else (exists code msg, resp = WriteError StatusBadRequest code msg) /\ s' = s.
Proof.
  intros Hs Hu. unfold admin_Recharge, well_formed. rewrite Hu.
  destruct (decide (arr_DeltaMilli req = 0%Z)) as [Hz|Hz].
  { rewrite bool_decide_eq_true_2 by done. simpl. split; [|done]. by eexists _, _. }
  rewrite bool_decide_eq_false_2 by done. simpl.
  destruct (String.eqb_spec (arr_Reason req) "") as [Hr|Hr]; simpl; [split; [by eexists _, _|done]|].
  destruct (String.eqb_spec (arr_IdempotencyKey req) "") as [Hk|Hk]; simpl; [split; [by eexists _, _|done]|].
  rewrite bind_eq. set (inp := recharge_input u req).
  pose proof (Post_clean inp s Hs Hk) as HP. cbv zeta in HP.
  pose proof (Post_Ok inp s) as HO.
  destruct (Post inp s) as [r s1]. cbn [fst snd]. destruct HP as [Hs1 HP].
  unfold inp in HP. cbn [recharge_input pi_IdempotencyKey pi_UserID pi_DeltaMilli] in HP.
  destruct (existsb _ (db_credit_ledger (pg_db s))).
  { destruct HP as [-> Hd]. simpl. done. }
  destruct (decide _) as [Hdec|Hdec].
  - destruct r as [row|e]; [|done].
    destruct (HO row s1 eq_refl) as (c & _ & _ & _ & Hdel & Hkey & _ & _ & Hb & Hd).
    rewrite bind_eq. destruct (Balance_clean u s1 Hs1) as [HB HBd]. rewrite HB. simpl.
    assert (balance_of (pg_db s1) u = (balance_of (pg_db s) u + arr_DeltaMilli req)%Z) as Hbal.
    { unfold balance_of at 1. rewrite Hd. simpl. by rewrite lookup_insert_eq, Hb. }
    exists (toCreditEntryView row). rewrite Hbal. split; [done|]. simpl. rewrite Hdel, Hkey.
    split_and!; try done. by rewrite HBd.
  - destruct HP as (Hne & Hnd & Hd). destruct r as [row|e]; [done|]. simpl in Hnd. rewrite Hnd. simpl.
    split; [by eexists|done].
Qed.
End recharge.

(** ** Witnesses *)
Section witnesses.
#[local] Existing Instance C_collation.
#[local] Existing Instance DemoUUID.lib.

Definition demo_gpus (raw : string) : result (list string) := Ok [raw].

Lemma user_ListNodes_acl_witness :
  exists rows, (user_ListNodes demo_gpus (Some demo_user) (demo [])).1 =
    WriteJSON StatusOK (toUserNodeView demo_gpus <$> rows) /\ demo_node ∈ rows.
Proof.
  destruct (user_ListNodes_acl demo_gpus demo_user (demo []) eq_refl) as (rows & Hr & _ & Hin & _).
  exists rows. split; [exact Hr|]. apply Hin. split; [by exists 3%N|]. split; [reflexivity|]. by left.
Defined.

Definition demo_recharge : adminRechargeRequest :=
  {| arr_DeltaMilli := 250; arr_Reason := "topup"; arr_IdempotencyKey := "k1"; arr_Metadata := "" |}.

Lemma Recharge_spec_witness :
  exists v, (admin_Recharge (uuid_String 1) (Decoded demo_recharge) (demo [])).1 = WriteJSON 201 (v, 750%Z).
Proof.
  assert (uuid_Parse (uuid_String 1) = Ok 1%N) as Hid by (vm_compute; reflexivity).
  pose proof (Recharge_spec (uuid_String 1) 1 demo_recharge (demo []) eq_refl Hid) as Hr.
  destruct (admin_Recharge _ _ _) as [resp s'].
  assert (well_formed demo_recharge = true) as Hw by (vm_compute; reflexivity).
  cbv zeta in Hr. rewrite Hw in Hr.
  assert (existsb (has_key (arr_IdempotencyKey demo_recharge)) (db_credit_ledger (pg_db (demo []))) = false)
    as He by (vm_compute; reflexivity).
  rewrite He in Hr. rewrite decide_True in Hr.
  - destruct Hr as (v & -> & _). by exists v.
  - split; [by eexists|]. right. vm_compute. reflexivity.
Defined.
End witnesses.
