(* ===== verification/Router.v ===== *)
(** * Routing and gates (internal/api/router.go)

    The route tables of the three routers, the way [NewUserRouter] picks among
    its muxes, and [NewRouter] on top.  A path is the list of its segments
    (already cleaned, as ServeMux does); the outcome is the endpoint that runs
    with its path values and user, or the answer of the gate or the mux. *)

From S2P Require Import Prelude GoStrings Proto Db Http AuthHandlers.

#[local] Open Scope string_scope.
#[local] Open Scope list_scope.

Inductive Endpoint :=
  | AuthRegister | AuthLogin | AuthLogout | AuthMe
  | InstancesList | InstancesCreate | InstancesGet | InstancesDelete
  | NodesList | SSHKeysList | SSHKeysAdd | SSHKeysDelete | CreditsBalance
  | SAdminNodes | SAdminInstances | SAdminInstanceDelete | SAdminUsers | SAdminSlots
  | SAdminRecharge | SAdminBalance
  | AdminNodes | AdminInstancesList | AdminInstancesCreate | AdminInstancesDelete
  | AdminRecharge | AdminBalance
  | SSHTicket | AgentAuth.

#[export] Instance Endpoint_eq_dec : EqDecision Endpoint.
Proof. solve_decision. Defined.

(** A pattern segment: literal, or a wildcard such as [{id}]. *)
Inductive seg := Lit (s : string) | Wild.

Record route := { rt_method : string; rt_path : list seg; rt_endpoint : Endpoint }.

(** The values of the wildcards of a path that matches. *)
Fixpoint match_path (pat : list seg) (path : list string) : option (list string) :=
  match pat, path with
  | [], [] => Some []
  | Lit s :: pat', p :: path' => if String.eqb s p then match_path pat' path' else None
  | Wild :: pat', p :: path' =>
      if String.eqb p "" then None else (fun vs => p :: vs) <$> match_path pat' path'
  | _, _ => None
  end.

(** A GET pattern matches HEAD too. *)
Definition match_method (pattern method : string) : bool :=
  String.eqb pattern method || (String.eqb pattern "GET" && String.eqb method "HEAD").

Definition match_route (method : string) (path : list string) (r : route)
    : option (Endpoint * list string) :=
  if match_method (rt_method r) method
  then (fun vs => (rt_endpoint r, vs)) <$> match_path (rt_path r) path else None.

(** [mux.Handler]: the route of a request, if one matches. *)
Fixpoint mux_Handler (routes : list route) (method : string) (path : list string)
    : option (Endpoint * list string) :=
  match routes with
  | [] => None
  | r :: rest => match match_route method path r with
                 | Some x => Some x
                 | None => mux_Handler rest method path
                 end
  end.

Definition api (l : list seg) : list seg := Lit "api" :: Lit "v1" :: l.

(** The groups of [UserHandlers] that are wired. *)
Record UserHandlers := {
  uh_Auth : bool; uh_Instances : bool; uh_Nodes : bool; uh_SSHKeys : bool; uh_Credits : bool;
  uh_Admin : bool; uh_AdminInstances : bool; uh_AdminCredits : bool; uh_AdminNodes : bool
}.

Definition when (b : bool) (l : list route) : list route := if b then l else [].

Definition R (m : string) (p : list seg) (e : Endpoint) : route :=
  {| rt_method := m; rt_path := p; rt_endpoint := e |}.

Definition open_routes (h : UserHandlers) : list route :=
  when (uh_Auth h) [
    R "POST" (api [Lit "auth"; Lit "register"]) AuthRegister;
    R "POST" (api [Lit "auth"; Lit "login"]) AuthLogin;
    R "POST" (api [Lit "auth"; Lit "logout"]) AuthLogout].

Definition authed_routes (h : UserHandlers) : list route :=
  when (uh_Auth h) [R "GET" (api [Lit "auth"; Lit "me"]) AuthMe] ++
  when (uh_Instances h) [
    R "GET" (api [Lit "instances"]) InstancesList;
    R "POST" (api [Lit "instances"]) InstancesCreate;
    R "GET" (api [Lit "instances"; Wild]) InstancesGet;
    R "DELETE" (api [Lit "instances"; Wild]) InstancesDelete] ++
  when (uh_Nodes h) [R "GET" (api [Lit "nodes"]) NodesList] ++
  when (uh_SSHKeys h) [
    R "GET" (api [Lit "ssh-keys"]) SSHKeysList;
    R "POST" (api [Lit "ssh-keys"]) SSHKeysAdd;
    R "DELETE" (api [Lit "ssh-keys"; Wild]) SSHKeysDelete] ++
  when (uh_Credits h) [R "GET" (api [Lit "credits"]) CreditsBalance].

Definition admin_routes (h : UserHandlers) : list route :=
  when (uh_AdminNodes h) [R "GET" (api [Lit "admin"; Lit "nodes"]) SAdminNodes] ++
  when (uh_AdminInstances h) [
    R "GET" (api [Lit "admin"; Lit "instances"]) SAdminInstances;
    R "DELETE" (api [Lit "admin"; Lit "instances"; Wild]) SAdminInstanceDelete] ++
  when (uh_Admin h) [
    R "GET" (api [Lit "admin"; Lit "users"]) SAdminUsers;
    R "GET" (api [Lit "admin"; Lit "slots"]) SAdminSlots] ++
  when (uh_AdminCredits h) [
    R "POST" (api [Lit "admin"; Lit "users"; Wild; Lit "credits"]) SAdminRecharge;
    R "GET" (api [Lit "admin"; Lit "users"; Wild; Lit "credits"]) SAdminBalance].

Inductive Routed :=
  | Run (e : Endpoint) (vars : list string) (user : option User)
  | Answer (status : Z) (code msg : string)
  | MuxNotFound                    (* the mux's own 404 or 405 *)
  | MuxRedirect.                   (* to the mount point with a slash *)

(** The inner handler of a mux. *)
Definition serve_mux (routes : list route) (user : option User) (method : string) (path : list string)
    : Routed :=
  match mux_Handler routes method path with
  | Some (e, vars) => Run e vars user
  | None => MuxNotFound
  end.

(** The root handler of [NewUserRouter]; [user] is what [LoadSession] put in
    the context. *)
Definition NewUserRouter (h : UserHandlers) (user : option User) (method : string)
    (path : list string) : Routed :=
  match mux_Handler (open_routes h) method path with
  | Some (e, vars) => Run e vars user
  | None =>
      match mux_Handler (admin_routes h) method path with
      | Some _ => match RequireAdmin user with
                  | Pass u => serve_mux (admin_routes h) (Some u) method path
                  | Reject st code msg => Answer st code msg
                  end
      | None => match RequireUser user with
                | Pass u => serve_mux (authed_routes h) (Some u) method path
                | Reject st code msg => Answer st code msg
                end
      end
  end.

Definition bearer_admin_routes (instances credits : bool) : list route :=
  R "GET" [Lit "admin"; Lit "nodes"] AdminNodes ::
  when instances [
    R "GET" [Lit "admin"; Lit "instances"] AdminInstancesList;
    R "POST" [Lit "admin"; Lit "instances"] AdminInstancesCreate;
    R "DELETE" [Lit "admin"; Lit "instances"; Wild] AdminInstancesDelete] ++
  when credits [
    R "POST" [Lit "admin"; Lit "users"; Wild; Lit "credits"] AdminRecharge;
    R "GET" [Lit "admin"; Lit "users"; Wild; Lit "credits"] AdminBalance].

Definition NewAdminRouter (instances credits : bool) (adminToken : string) (r : Request)
    (method : string) (path : list string) : Routed :=
  match RequireAdminToken adminToken r with
  | Reject st code msg => Answer st code msg
  | Pass _ => serve_mux (bearer_admin_routes instances credits) None method path
  end.

Definition internal_routes (agentAuth : bool) : list route :=
  R "POST" [Lit "internal"; Lit "ssh-ticket"] SSHTicket ::
  when agentAuth [R "POST" [Lit "internal"; Lit "agent-auth"] AgentAuth].

Definition NewInternalRouter (agentAuth : bool) (internalToken : string) (r : Request)
    (method : string) (path : list string) : Routed :=
  match RequireInternalToken internalToken r with
  | Reject st code msg => Answer st code msg
  | Pass _ => serve_mux (internal_routes agentAuth) None method path
  end.

(** [NewRouter]: mount by first segment; [internal] and [user] may be nil. *)
Record Routers := {
  rs_instances : bool;
  rs_credits : bool;
  rs_adminToken : string;
  rs_internal : option (bool * string);
  rs_user : option UserHandlers
}.

Definition NewRouter (rs : Routers) (r : Request) (user : option User) (method : string)
    (path : list string) : Routed :=
  let mount name (rest : Routed) :=
    match path with [_] => MuxRedirect | _ => rest end in
  match path with
  | [] => MuxNotFound
  | p :: _ =>
      if String.eqb p "admin" then
        mount p (NewAdminRouter (rs_instances rs) (rs_credits rs) (rs_adminToken rs) r method path)
      else if String.eqb p "internal" then
        match rs_internal rs with
        | Some (agentAuth, token) => mount p (NewInternalRouter agentAuth token r method path)
        | None => MuxNotFound
        end
      else if String.eqb p "api" then
        match rs_user rs with
        | Some h => mount p (NewUserRouter h user method path)
        | None => MuxNotFound
        end
      else MuxNotFound
  end.

(** ** The gates *)

(** Who may run an endpoint. *)
Inductive Surface := SOpen | SUser | SSessionAdmin | SBearer | SInternal.

Definition surface (e : Endpoint) : Surface :=
  match e with
  | AuthRegister | AuthLogin | AuthLogout => SOpen
  | AuthMe | InstancesList | InstancesCreate | InstancesGet | InstancesDelete
  | NodesList | SSHKeysList | SSHKeysAdd | SSHKeysDelete | CreditsBalance => SUser
  | SAdminNodes | SAdminInstances | SAdminInstanceDelete | SAdminUsers | SAdminSlots
  | SAdminRecharge | SAdminBalance => SSessionAdmin
  | AdminNodes | AdminInstancesList | AdminInstancesCreate | AdminInstancesDelete
  | AdminRecharge | AdminBalance => SBearer
  | SSHTicket | AgentAuth => SInternal
  end.

Definition on_surface (s : Surface) (r : route) : Prop := surface (rt_endpoint r) = s.

Lemma mux_Handler_surface s routes method path e vars :
  Forall (on_surface s) routes -> mux_Handler routes method path = Some (e, vars) -> surface e = s.
Proof.
  induction 1 as [|r routes Hr _ IH]; simpl; [done|].
  unfold match_route. destruct (match_method _ _); [|apply IH].
  destruct (match_path (rt_path r) path); simpl; [|apply IH]. by intros [= <- _].
Qed.

Lemma Forall_when s b l : Forall (on_surface s) l -> Forall (on_surface s) (when b l).
Proof. by destruct b. Qed.

Ltac surfaces :=
  repeat first [apply Forall_app; split | apply Forall_when | constructor]; try reflexivity.

Lemma open_surface h : Forall (on_surface SOpen) (open_routes h).
Proof. unfold open_routes. surfaces. Qed.
Lemma authed_surface h : Forall (on_surface SUser) (authed_routes h).
Proof. unfold authed_routes. surfaces. Qed.
Lemma admin_surface h : Forall (on_surface SSessionAdmin) (admin_routes h).
Proof. unfold admin_routes. surfaces. Qed.
Lemma bearer_surface i c : Forall (on_surface SBearer) (bearer_admin_routes i c).
Proof. unfold bearer_admin_routes. surfaces. Qed.
Lemma internal_surface a : Forall (on_surface SInternal) (internal_routes a).
Proof. unfold internal_routes. surfaces. Qed.

(** The credential an endpoint needs. *)
Definition permitted (rs : Routers) (r : Request) (user ran_as : option User) (s : Surface) : Prop :=
  match s with
  | SOpen => ran_as = user
  | SUser => ran_as = user /\ exists u, user = Some u
  | SSessionAdmin => ran_as = user /\ exists u, user = Some u /\ us_IsAdmin u = true
  | SBearer => bearer_ok (rs_adminToken rs) r = true
  | SInternal => exists a token, rs_internal rs = Some (a, token) /\ bearer_ok token r = true
  end.

(** No endpoint runs without its credential.  Whatever the method, path
    and wiring, an endpoint the router runs is reached as its surface
    demands: the operator's endpoints with the admin bearer token, the
    internal ones with the internal token, the dashboard's admin endpoints by
    a session user who is an administrator, the user endpoints by the session
    user, and only register, login and logout by anybody. *)
Theorem router_gates rs r user method path e vars ran_as :
  NewRouter rs r user method path = Run e vars ran_as ->
  permitted rs r user ran_as (surface e).
Proof.
  unfold NewRouter. destruct path as [|p path']; [done|].
  destruct (String.eqb p "admin").
  { unfold NewAdminRouter, RequireAdminToken, serve_mux. intros H.
    destruct path'; [done|]. destruct (bearer_ok _ _) eqn:Hb; [|done].
    destruct (mux_Handler _ _ _) as [[e' v']|] eqn:E; [|done]. injection H as -> -> <-.
    by rewrite (mux_Handler_surface _ _ _ _ _ _ (bearer_surface _ _) E). }
  destruct (String.eqb p "internal").
  { destruct (rs_internal rs) as [[a token]|] eqn:Hi; [|done]. intros H. destruct path'; [done|].
    unfold NewInternalRouter, RequireInternalToken, serve_mux in H.
    destruct (bearer_ok token r) eqn:Hb; [|done].
    destruct (mux_Handler _ _ _) as [[e' v']|] eqn:E; [|done]. injection H as -> -> <-.
    rewrite (mux_Handler_surface _ _ _ _ _ _ (internal_surface _) E). simpl. eauto. }
  destruct (String.eqb p "api"); [|done].
  destruct (rs_user rs) as [h|]; [|done]. intros H. destruct path'; [done|].
  unfold NewUserRouter, serve_mux in H.
  destruct (mux_Handler (open_routes h) _ _) as [[e' v']|] eqn:E.
  { injection H as -> -> <-. by rewrite (mux_Handler_surface _ _ _ _ _ _ (open_surface _) E). }
  destruct (mux_Handler (admin_routes h) _ _) as [[e' v']|] eqn:E1.
  { unfold RequireAdmin in H. destruct user as [u|]; [|done]. destruct (us_IsAdmin u) eqn:Hu; [|done].
    injection H as -> -> <-. rewrite (mux_Handler_surface _ _ _ _ _ _ (admin_surface _) E1). simpl. eauto. }
  unfold RequireUser in H. destruct user as [u|]; [|done].
  destruct (mux_Handler (authed_routes h) _ _) as [[e' v']|] eqn:E2; [|done].
  injection H as -> -> <-. rewrite (mux_Handler_surface _ _ _ _ _ _ (authed_surface _) E2). simpl. eauto.
Qed.

(** ** Witness and finding *)

Definition all_handlers : UserHandlers := Build_UserHandlers true true true true true true true true true.

Definition demo_routers : Routers :=
  {| rs_instances := true; rs_credits := true; rs_adminToken := "adm";
     rs_internal := Some (true, "int"); rs_user := Some all_handlers |}.

Definition bare_request : Request :=
  {| rq_RemoteAddr := "10.0.0.1:5000"; rq_XForwardedFor := ""; rq_Authorization := "Bearer adm";
     rq_Cookie := None |}.

Lemma router_gates_witness :
  NewRouter demo_routers bare_request None "DELETE" ["admin"; "instances"; "x"] =
    Run AdminInstancesDelete ["x"] None /\ bearer_ok "adm" bare_request = true.
Proof.
  split; [reflexivity|].
  apply (router_gates demo_routers bare_request None "DELETE" ["admin"; "instances"; "x"]
    AdminInstancesDelete ["x"] None). reflexivity.
Defined.

(** The admin routes can be enumerated without an account.  To a request
    without a session, every path of the dashboard's admin API answers 404
    and every other path under it answers 401. *)
Theorem admin_routes_enumerable h r method path :
  mux_Handler (open_routes h) method path = None ->
  (NewUserRouter h None method path = Answer StatusNotFound "not_found" "not found" <->
     mux_Handler (admin_routes h) method path <> None) /\
  (NewUserRouter h None method path = Answer StatusUnauthorized "unauthenticated" "valid session required" <->
     mux_Handler (admin_routes h) method path = None) /\
  NewUserRouter all_handlers None "GET" ["api"; "v1"; "admin"; "users"] = Answer 404 "not_found" "not found" /\
  NewRouter demo_routers r None "GET" ["api"; "v1"; "admin"; "missing"] =
    Answer 401 "unauthenticated" "valid session required".
Proof.
  intros Ho. unfold NewUserRouter at 1 2. rewrite Ho. simpl.
  destruct (mux_Handler (admin_routes h) method path); split_and!; done.
Qed.

Lemma admin_routes_enumerable_witness :
  NewUserRouter all_handlers None "GET" ["api"; "v1"; "admin"; "slots"] = Answer 404 "not_found" "not found".
Proof.
  refine (proj2 (proj1 (admin_routes_enumerable all_handlers bare_request "GET"
    ["api"; "v1"; "admin"; "slots"] eq_refl)) _).
  vm_compute. discriminate.
Defined.
