(* ===== verification/SSHKeys.v ===== *)
(** * SSH keys of users (internal/sshkeys/sshkeys.go, api/user_ssh_keys.go) *)

From S2P Require Import Prelude GoStrings GoCrypto Proto Db Queries AccountQueries Demo Http.

#[local] Open Scope string_scope.
#[local] Open Scope list_scope.
#[local] Open Scope go_scope.

(** golang.org/x/crypto/ssh: parsing an authorized_keys line, writing one, and
    the wire form of a key. *)
Class SSHLib := {
  PublicKey : Type;
  ParseAuthorizedKey : string -> result PublicKey;
  MarshalAuthorizedKey : PublicKey -> string;
  PublicKey_Marshal : PublicKey -> list N
}.

Definition MaxLabelLen : nat := 64.
Definition MaxPubkeyLen : nat := 4096.

Definition ErrInvalidPubkey : error := Sentinel "sshkeys: invalid public key".
Definition ErrDuplicate : error := Sentinel "sshkeys: duplicate key".
Definition ErrNotFound : error := Sentinel "sshkeys: not found".

Definition normalizeFingerprint (s : string) : string := TrimPrefix s "SHA256:".

Section repo.
Context `{SSHLib}.

Definition Fingerprint (key : PublicKey) : string :=
  RawStdEncoding_EncodeToString (Sum256 (PublicKey_Marshal key)).

(** The checks of [Add]: the row to insert, or the refusal. *)
Definition parse_key (userID : UUID) (label pubkey : string) : result CreateSSHKeyParams :=
  let label := TrimSpace label in
  if String.eqb label "" then Err (ErrWrap "" ErrInvalidPubkey ": label required")
  else if (MaxLabelLen <? String.length label)%nat then
    Err (ErrWrap "" ErrInvalidPubkey ": label too long")
  else if (MaxPubkeyLen <? String.length pubkey)%nat then
    Err (ErrWrap "" ErrInvalidPubkey ": pubkey too long")
  else match ParseAuthorizedKey pubkey with
       | Err e => Err (ErrWrap "" ErrInvalidPubkey (": " +:+ Error e))
       | Ok parsed =>
           Ok {| ckp_UserID := userID; ckp_Label := label;
                 ckp_Pubkey := TrimSpace (MarshalAuthorizedKey parsed);
                 ckp_Fingerprint := Fingerprint parsed |}
       end.

Definition Add (userID : UUID) (label pubkey : string) : ST Pg (result SshKey) :=
  match parse_key userID label pubkey with
  | Err e => ret (Err e)
  | Ok params =>
      r <- exec (createSSHKey params) ;;
      ret match r with
          | Ok row => Ok row
          | Err err => match errors_As_SQLState err with
                       | Some "23505" => Err ErrDuplicate
                       | _ => Err (ErrWrap "create ssh_key: " err "")
                       end
          end
  end.
End repo.

Definition ListKeys (userID : UUID) : ST Pg (result (list SshKey)) :=
  exec (listSSHKeysForUser userID).

Definition DeleteKey (userID id : UUID) : ST Pg (result unit) :=
  n <-? wrapErr "delete ssh_key: " (exec (deleteSSHKeyForUser id userID)) ;;
  ret (if decide (n = 0%Z) then Err ErrNotFound else Ok tt).

Definition LookupUserByFingerprint (fingerprint : string) : ST Pg (result UUID) :=
  r <- exec (lookupSSHKeyByFingerprint (normalizeFingerprint fingerprint)) ;;
  ret match r with
      | Ok row => Ok (sk_UserID row)
      | Err err => if errors_Is err ErrNoRows then Err ErrNotFound
                   else Err (ErrWrap "lookup ssh_key fingerprint: " err "")
      end.

Definition PubkeysForUser (userID : UUID) : ST Pg (result (list string)) :=
  r <- exec (listSSHKeysForUser userID) ;;
  ret match r with
      | Ok rows => Ok (sk_Pubkey <$> rows)
      | Err err => if errors_Is err ErrNoRows then Ok [] else Err err
      end.

(** ** The handlers of /api/v1/ssh-keys *)

Record SSHKeyView := {
  skv_ID : UUID;
  skv_Label : string;
  skv_Pubkey : string;
  skv_Fingerprint : string;
  skv_CreatedAt : Time
}.

Definition toSSHKeyView (k : SshKey) : SSHKeyView :=
  {| skv_ID := sk_ID k; skv_Label := sk_Label k; skv_Pubkey := sk_Pubkey k;
     skv_Fingerprint := sk_Fingerprint k; skv_CreatedAt := sk_CreatedAt k |}.

Record addSSHKeyRequest := { akr_Label : string; akr_Pubkey : string }.

Definition sshkeys_List (user : User) : ST Pg (Resp (list SSHKeyView)) :=
  r <- ListKeys (us_ID user) ;;
  ret match r with
      | Err e => WriteError StatusInternalServerError "list_failed" (Error e)
      | Ok rows => WriteJSON StatusOK (toSSHKeyView <$> rows)
      end.

Definition sshkeys_Add `{SSHLib} (user : User) (body : Body addSSHKeyRequest)
    : ST Pg (Resp SSHKeyView) :=
  match body with
  | ReadFailed e => ret (WriteError StatusBadRequest "read_body" e)
  | BadJSON e => ret (WriteError StatusBadRequest "bad_json" e)
  | Decoded req =>
      r <- Add (us_ID user) (akr_Label req) (akr_Pubkey req) ;;
      ret match r with
          | Ok row => WriteJSON StatusCreated (toSSHKeyView row)
          | Err e =>
              if errors_Is e ErrDuplicate then
                WriteError StatusConflict "duplicate" "key already added"
              else if errors_Is e ErrInvalidPubkey then
                WriteError StatusBadRequest "invalid_pubkey" (Error e)
              else WriteError StatusInternalServerError "add_failed" (Error e)
          end
  end.

Definition sshkeys_Delete `{UUIDLib} (user : User) (idStr : string) : ST Pg (Resp unit) :=
  match uuid_Parse idStr with
  | Err e => ret (WriteError StatusBadRequest "bad_id" (Error e))
  | Ok id =>
      r <- DeleteKey (us_ID user) id ;;
      ret match r with
          | Ok _ => WriteHeader StatusNoContent
          | Err e =>
              if errors_Is e ErrNotFound then
                WriteError StatusNotFound "not_found" "ssh key not found"
              else WriteError StatusInternalServerError "delete_failed" (Error e)
          end
  end.

(** ** Properties *)

Lemma key_of_spec u fp k : key_of u fp k = true <-> sk_UserID k = u /\ sk_Fingerprint k = fp.
Proof. unfold key_of. by rewrite andb_true_iff, bool_decide_eq_true, String.eqb_eq. Qed.

Lemma exists_row_true {V} (P : V -> bool) (m : gmap N V) :
  exists_row P m = true <-> exists i v, m !! i = Some v /\ P v = true.
Proof.
  unfold exists_row. rewrite existsb_exists. split.
  - intros (v & Hin & HP). apply list_elem_of_In, elem_of_rows in Hin as [i Hi]. eauto.
  - intros (i & v & Hi & HP). exists v. split; [|done]. apply list_elem_of_In, elem_of_rows. eauto.
Qed.

(** Adding a key, every outcome.  With the round trip served, a key that
    parses under a usable label is stored for the caller in canonical form
    with its SHA-256 fingerprint, as one new row; a key the caller already
    has is refused as a duplicate exactly when a row of that user with that
    fingerprint exists; anything malformed is refused as invalid without a
    round trip.  Only success changes the table. *)
Theorem Add_spec `{SSHLib} userID label pubkey s :
  clean s -> db_users (pg_db s) !! userID <> None ->
  db_ssh_keys (pg_db s) !! pg_rand s (pg_calls s) = None ->
  let '(r, s') := Add userID label pubkey s in
  match parse_key userID label pubkey with
  | Err e => r = Err e /\ errors_Is e ErrInvalidPubkey = true /\ s' = s
  | Ok params =>
      let has := exists id k, db_ssh_keys (pg_db s) !! id = Some k /\
                   sk_UserID k = userID /\ sk_Fingerprint k = ckp_Fingerprint params in
      (has /\ r = Err ErrDuplicate /\ pg_db s' = pg_db s) \/
      (~ has /\ exists row, r = Ok row /\ sk_UserID row = userID /\
         sk_Label row = TrimSpace label /\ sk_Pubkey row = ckp_Pubkey params /\
         sk_Fingerprint row = ckp_Fingerprint params /\
         pg_db s' = set_ssh_keys (<[sk_ID row := row]> (db_ssh_keys (pg_db s))) (pg_db s))
  end.
Proof.
  intros Hs Hu Hnew. unfold Add. destruct (parse_key userID label pubkey) as [params|e] eqn:Hp.
  - assert (ckp_UserID params = userID /\ ckp_Label params = TrimSpace label) as [Hpu Hpl].
    { unfold parse_key in Hp. repeat case_match; simplify_eq/=; done. }
    rewrite bind_eq, exec_clean by done. unfold createSSHKey. simpl env_uuid.
    rewrite (proj2 (fk_ok_None_lookup _ _)) by done. rewrite Hpu. simpl.
    destruct (exists_row _ _) eqn:He; simpl.
    + left. split; [|done]. apply exists_row_true in He as (i & k & Hi & [Hk1 Hk2]%key_of_spec). eauto.
    + right. pose proof (proj1 (exists_row_false _ _) He) as Hall. split.
      { intros (i & k & Hi & Hk1 & Hk2). specialize (Hall i k Hi).
        by rewrite (proj2 (key_of_spec userID (ckp_Fingerprint params) k)) in Hall. }
      rewrite bool_decide_eq_true_2 by by apply not_eq_None_Some. simpl.
      eexists. split_and!; try reflexivity; try done.
  - simpl. split; [done|]. split; [|done].
    unfold parse_key in Hp. repeat (case_match; try discriminate Hp); by injection Hp as <-.
Qed.

(** A user can delete only keys of their own.  With the round trip
    served, deleting the id of a key of somebody else, or of no key at all,
    answers [ErrNotFound] and changes nothing; deleting one's own key removes
    that row and no other. *)
Theorem DeleteKey_spec userID id s :
  clean s ->
  let '(r, s') := DeleteKey userID id s in
  match db_ssh_keys (pg_db s) !! id with
  | Some k => if decide (sk_UserID k = userID)
              then r = Ok tt /\ pg_db s' = set_ssh_keys (delete id (db_ssh_keys (pg_db s))) (pg_db s)
              else r = Err ErrNotFound /\ pg_db s' = pg_db s
  | None => r = Err ErrNotFound /\ pg_db s' = pg_db s
  end.
Proof.
  intros Hs. unfold DeleteKey. rewrite bindR_eq, wrapErr_eq, exec_clean by done.
  unfold deleteSSHKeyForUser. destruct (_ !! id) as [k|]; [|done]. by destruct (decide _).
Qed.

(** The user a fingerprint resolves to registered a key with it; and it is
    the user who did, when only one did. *)
Lemma Lookup_sound fp s u s' :
  LookupUserByFingerprint fp s = (Ok u, s') ->
  exists id k, db_ssh_keys (pg_db s) !! id = Some k /\ sk_UserID k = u /\
    sk_Fingerprint k = normalizeFingerprint fp.
Proof.
  unfold LookupUserByFingerprint. rewrite bind_eq.
  destruct (exec _ s) as [[row|e] s1] eqn:E; simpl; [|by case_match].
  intros [= <- <-]. apply exec_Ok in E as [E _]. unfold lookupSSHKeyByFingerprint in E. apply query_one_Ok in E as [E _].
  apply row_where_Some in E as [Hf [i Hi]]. apply String.eqb_eq in Hf. eauto.
Qed.

Lemma Lookup_complete fp s u id k :
  clean s -> db_ssh_keys (pg_db s) !! id = Some k -> sk_Fingerprint k = normalizeFingerprint fp ->
  (forall i k', db_ssh_keys (pg_db s) !! i = Some k' ->
     sk_Fingerprint k' = normalizeFingerprint fp -> sk_UserID k' = u) ->
  (LookupUserByFingerprint fp s).1 = Ok u.
Proof.
  intros Hs Hk Hf Hall. unfold LookupUserByFingerprint. rewrite bind_eq, exec_clean by done.
  unfold lookupSSHKeyByFingerprint, query_one. cbn [fst]. destruct (row_where _ _) as [k'|] eqn:E.
  - simpl. apply row_where_Some in E as [Hf' [i Hi]]. apply String.eqb_eq in Hf'.
    by rewrite (Hall i k' Hi Hf').
  - exfalso. pose proof (proj1 (row_where_None _ _) E id k Hk) as Hn.
    simpl in Hn. by rewrite Hf, String.eqb_refl in Hn.
Qed.

(** ** Witnesses *)
Section witnesses.

(** A key library whose keys are their own text. *)
#[local] Instance demo_ssh : SSHLib := {|
  PublicKey := string;
  ParseAuthorizedKey s := if HasPrefix s "ssh-" then Ok s else Err (ErrNew "no key found");
  MarshalAuthorizedKey s := s;
  PublicKey_Marshal := bytes_of
|}.

Definition mallory : User :=
  {| us_ID := 7; us_Email := "m@x"; us_PasswordHash := "h"; us_IsAdmin := false;
     us_CreatedAt := 0; us_UpdatedAt := 0 |}.

Definition two_users : DB := set_users (<[7%N := mallory]> (db_users demo_db)) demo_db.

Definition two_users_pg : Pg :=
  {| pg_db := two_users; pg_faults := []; pg_now := 60 * second;
     pg_rand := fun n => if decide (n = 1) then 200%N else 100%N; pg_calls := 1 |}.

Lemma Add_spec_witness :
  exists k, (Add 1 " laptop " "ssh-ed25519 AAAA" (demo [])).1 = Ok k /\ sk_Label k = "laptop".
Proof.
  pose proof (Add_spec 1 " laptop " "ssh-ed25519 AAAA" (demo []) eq_refl
    ltac:(vm_compute; discriminate) ltac:(reflexivity)) as Ha.
  destruct (Add 1 " laptop " "ssh-ed25519 AAAA" (demo [])) as [r s'].
  destruct Ha as [(Hh & _)|(_ & row & -> & _ & Hl & _)].
  - exfalso. destruct Hh as (id & k & Hk & _). vm_compute in Hk. destruct id; discriminate Hk.
  - exists row. split; [reflexivity|]. rewrite Hl. vm_compute. reflexivity.
Defined.

Lemma DeleteKey_spec_witness :
  let s := (Add 1 "laptop" "ssh-ed25519 AAAA" (demo [])).2 in
  (DeleteKey 7 (pg_rand (demo []) 1) s).1 = Err ErrNotFound.
Proof.
  intros s. pose proof (DeleteKey_spec 7 (pg_rand (demo []) 1) s eq_refl) as Hd.
  destruct (DeleteKey 7 _ s) as [r s'].
  assert (exists k, db_ssh_keys (pg_db s) !! pg_rand (demo []) 1 = Some k /\ sk_UserID k = 1%N)
    as (k & Hk & Hu) by (eexists; vm_compute; split; reflexivity).
  rewrite Hk, Hu in Hd. exact (proj1 Hd).
Defined.

(** A fingerprint does not identify a user.  The same public key can be
    registered by two users, and the lookup takes whichever row comes first:
    once mallory has added alice's public key under her own account, the
    fingerprint alice authenticates with resolves to mallory. *)
Theorem fingerprint_hijack :
  let key := "ssh-ed25519 AAAA" in
  let fp := "SHA256:" +:+ Fingerprint key in
  let s1 := (Add 1 "laptop" key two_users_pg).2 in
  let s2 := (Add 7 "stolen" key s1).2 in
  (LookupUserByFingerprint fp s1).1 = Ok 1%N /\ (LookupUserByFingerprint fp s2).1 = Ok 7%N.
Proof. vm_compute. split; reflexivity. Qed.
End witnesses.
