(* ===== verification/SSHTicket.v ===== *)
(** * Tunnel tickets (internal/sshticket/ticket.go)

    HMAC-signed, short-lived tickets: [Issue], [Verify], and what a verified
    ticket proves. *)

From S2P Require Import Prelude GoStrings GoCrypto Proto Db RateLimiter.
From Stdlib Require Import Ascii.

#[local] Open Scope string_scope.

Record Ticket := {
  tk_SessionID : string;
  tk_InstanceID : UUID;
  tk_NodeID : UUID;
  tk_VMInternalIP : string;
  tk_VMPort : Z;
  tk_TunnelEndpoint : string;
  tk_ExpiresAt : Time
}.

Record Signed := { sg_Payload : string; sg_Signature : string }.

(** encoding/json on tickets, as a codec. *)
Class TicketJSON := {
  json_Marshal : Ticket -> result string;
  json_Unmarshal : string -> result Ticket
}.

(** Text whose JSON form is itself. *)
Definition ascii_text (s : string) : bool := str_forall (fun c => (N_of_ascii c <? 128)%N) s.

(** The tickets encoding/json represents exactly: text fields that are valid
    UTF-8 (here: ASCII) and a port that is a [uint16]. *)
Definition printable (t : Ticket) : Prop :=
  ascii_text (tk_SessionID t) = true /\ ascii_text (tk_VMInternalIP t) = true /\
  ascii_text (tk_TunnelEndpoint t) = true /\ (0 <= tk_VMPort t < 65536)%Z.

(** Documented: decoding what was encoded gives it back. *)
Class TicketJSONLaws `{TicketJSON} : Prop := {
  Unmarshal_Marshal t raw :
    printable t -> json_Marshal t = Ok raw -> json_Unmarshal raw = Ok t
}.

Definition ErrInvalidSignature : error := Sentinel "sshticket: invalid signature".
Definition ErrExpired : error := Sentinel "sshticket: expired".

Record Signer := { sn_Secret : list N; sn_TTL : Z }.

Definition NewSigner (secret : list N) (ttl : Z) : result Signer :=
  if (length secret <? 16)%nat then Err (ErrNew "sshticket: secret must be at least 16 bytes")
  else if (ttl <=? 0)%Z then Err (ErrNew "sshticket: TTL must be positive")
  else Ok {| sn_Secret := secret; sn_TTL := ttl |}.

Definition signature (secret : list N) (payload : string) : string :=
  StdEncoding_EncodeToString (HMAC secret (bytes_of payload)).

Section tickets.
Context `{TicketJSON}.

(** The defaults [Issue] fills in; [fresh] is [uuid.NewString()]. *)
Definition fill (s : Signer) (fresh : string) (now : Time) (t : Ticket) : Ticket :=
  {| tk_SessionID := if String.eqb (tk_SessionID t) "" then fresh else tk_SessionID t;
     tk_InstanceID := tk_InstanceID t; tk_NodeID := tk_NodeID t;
     tk_VMInternalIP := tk_VMInternalIP t; tk_VMPort := tk_VMPort t;
     tk_TunnelEndpoint := tk_TunnelEndpoint t;
     tk_ExpiresAt := if decide (tk_ExpiresAt t = zeroTime) then (now + sn_TTL s)%Z else tk_ExpiresAt t |}.

Definition Issue (s : Signer) (fresh : string) (now : Time) (t : Ticket) : result Signed :=
  match json_Marshal (fill s fresh now t) with
  | Err e => Err (ErrWrap "marshal ticket: " e "")
  | Ok raw =>
      let payload := StdEncoding_EncodeToString (bytes_of raw) in
      Ok {| sg_Payload := payload; sg_Signature := signature (sn_Secret s) payload |}
  end.

Definition Verify (secret : list N) (now : Time) (signed : Signed) : result Ticket :=
  if negb (String.eqb (signature secret (sg_Payload signed)) (sg_Signature signed)) then
    Err ErrInvalidSignature
  else match StdEncoding_DecodeString (sg_Payload signed) with
       | Err e => Err (ErrWrap "decode payload: " e "")
       | Ok raw =>
           match json_Unmarshal (of_bytes raw) with
           | Err e => Err (ErrWrap "parse ticket: " e "")
           | Ok t => if (tk_ExpiresAt t <? now)%Z then Err ErrExpired else Ok t
           end
       end.
End tickets.

(** ** Properties *)

(** What [Verify] makes of an issued ticket. *)
Lemma Issue_Verify `{TicketJSONLaws} s fresh now t signed now' :
  printable (fill s fresh now t) -> Issue s fresh now t = Ok signed ->
  Verify (sn_Secret s) now' signed =
    if (tk_ExpiresAt (fill s fresh now t) <? now')%Z then Err ErrExpired
    else Ok (fill s fresh now t).
Proof.
  intros Hp. unfold Issue. set (t' := fill s fresh now t) in *.
  destruct (json_Marshal t') as [raw|e] eqn:Hm; [|done]. intros [= <-].
  unfold Verify. simpl. rewrite String.eqb_refl. simpl.
  rewrite StdEncoding_roundtrip by apply bytes_of_bytes. rewrite of_bytes_of.
  by rewrite (Unmarshal_Marshal t' raw Hp Hm).
Qed.

(** C40: an issued ticket verifies until it expires.  Whatever was issued
    under a secret, the holder of the secret reads back exactly the ticket
    with its defaults filled in up to and including its expiry, and gets
    [ErrExpired] after it; a fresh ticket expires one TTL after it was
    issued. *)
Theorem ticket_roundtrip `{TicketJSONLaws} s fresh now t signed :
  printable (fill s fresh now t) -> Issue s fresh now t = Ok signed ->
  (forall now', Verify (sn_Secret s) now' signed =
     if (tk_ExpiresAt (fill s fresh now t) <? now')%Z then Err ErrExpired
     else Ok (fill s fresh now t)) /\
  (tk_ExpiresAt t = zeroTime -> tk_ExpiresAt (fill s fresh now t) = (now + sn_TTL s)%Z).
Proof.
  intros Hp Hi. split.
  - intros now'. by apply Issue_Verify.
  - intros Hz. unfold fill. simpl. by rewrite decide_True.
Qed.

(** A verified ticket was signed with the secret and is still valid: the
    signature is the HMAC-SHA256 of the payload under the verifier's secret,
    the ticket is what the payload encodes, and it has not expired.  In
    particular a payload presented with any other signature is refused. *)
Theorem Verify_sound `{TicketJSON} secret now signed :
  match Verify secret now signed with
  | Ok t => sg_Signature signed = StdEncoding_EncodeToString (HMAC secret (bytes_of (sg_Payload signed))) /\
      (exists raw, StdEncoding_DecodeString (sg_Payload signed) = Ok raw /\
                   json_Unmarshal (of_bytes raw) = Ok t) /\
      (now <= tk_ExpiresAt t)%Z
  | Err e => e = ErrInvalidSignature <->
      sg_Signature signed <> StdEncoding_EncodeToString (HMAC secret (bytes_of (sg_Payload signed)))
  end.
Proof.
  unfold Verify, signature. destruct (String.eqb_spec (StdEncoding_EncodeToString (HMAC secret (bytes_of (sg_Payload signed)))) (sg_Signature signed)) as [E|E]; simpl.
  - destruct (StdEncoding_DecodeString _) as [raw|e] eqn:Hd.
    + destruct (json_Unmarshal _) as [t|e] eqn:Hu.
      * destruct (Z.ltb_spec (tk_ExpiresAt t) now); [split; [done|congruence]|]. split; [done|].
        split; [by exists raw|lia].
      * split; [done|congruence].
    + split; [done|congruence].
  - split; [congruence|done].
Qed.
(** ** Witnesses *)

(** A codec: a ticket as the binary digits of its code ([bits_of]). *)
#[export] Instance Ticket_eq_dec : EqDecision Ticket.
Proof. solve_decision. Defined.

#[export] Instance Ticket_countable : Countable Ticket.
Proof.
  refine (inj_countable'
    (fun t => (tk_SessionID t, tk_InstanceID t, tk_NodeID t, tk_VMInternalIP t, tk_VMPort t,
               tk_TunnelEndpoint t, tk_ExpiresAt t))
    (fun '(a, b, c, d, e, f, g) => Build_Ticket a b c d e f g) _).
  by intros [].
Defined.

Section demo.
#[local] Instance demo_json : TicketJSON := {|
  json_Marshal t := Ok (bits_of (encode t));
  json_Unmarshal raw := match decode (of_bits raw) with
                        | Some t => Ok t
                        | None => Err (ErrNew "bad ticket")
                        end
|}.

#[local] Instance demo_json_laws : TicketJSONLaws.
Proof. split. intros t raw _ [= <-]. simpl. by rewrite of_bits_of, decode_encode. Qed.

Definition demo_ticket : Ticket :=
  {| tk_SessionID := ""; tk_InstanceID := 5; tk_NodeID := 3; tk_VMInternalIP := "10.0.0.9";
     tk_VMPort := 22; tk_TunnelEndpoint := ""; tk_ExpiresAt := zeroTime |}.

Definition demo_signer : Signer := {| sn_Secret := bytes_of "0123456789abcdef"; sn_TTL := 15 |}.

Lemma ticket_roundtrip_witness : exists signed,
  Issue demo_signer "s1" 1000 demo_ticket = Ok signed /\
  Verify (sn_Secret demo_signer) 1015 signed = Ok (fill demo_signer "s1" 1000 demo_ticket) /\
  Verify (sn_Secret demo_signer) 1016 signed = Err ErrExpired.
Proof.
  eexists. split; [reflexivity|].
  split; (etransitivity;
    [apply (ticket_roundtrip demo_signer "s1" 1000 demo_ticket);
      [repeat split; vm_compute; congruence|reflexivity]|reflexivity]).
Defined.
End demo.
