(* ===== verification/TicketEndpoint.v ===== *)
(** * The ticket endpoint (internal/api/internal_ssh_ticket.go)

    POST /internal/ssh-ticket: ssh-proxy presents the fingerprint a client
    authenticated with and the subdomain it asked for, and gets a signed
    tunnel ticket for the instance of that client the subdomain names. *)

From S2P Require Import Prelude GoStrings GoCrypto Proto Db Queries AccountQueries Demo NodeRepo Http RateLimiter SSHKeys SSHTicket.
From Stdlib Require Import Ascii.

#[local] Open Scope string_scope.
#[local] Open Scope list_scope.
#[local] Open Scope go_scope.

(** ** The statement behind [FindByOwnerAndIDPrefix] *)

(** The canonical text of a uuid ([id::text]): 8-4-4-4-12 hex digits. *)
Definition uuid_text (u : UUID) : string :=
  let h := hex_EncodeToString (SHA256.be_bytes 16 u) in
  String.substring 0 8 h +:+ "-" +:+ String.substring 8 4 h +:+ "-" +:+
  String.substring 12 4 h +:+ "-" +:+ String.substring 16 4 h +:+ "-" +:+
  String.substring 20 12 h.

(** [text LIKE pattern]. *)
Fixpoint like (pat : string) : string -> bool :=
  match pat with
  | EmptyString => fun s => String.eqb s ""
  | String c pat' =>
      let rest := like pat' in
      if Ascii.eqb c "%" then
        fix any (s : string) : bool :=
          rest s || match s with EmptyString => false | String _ s' => any s' end
      else if Ascii.eqb c "_" then
        fun s => match s with EmptyString => false | String _ s' => rest s' end
      else if Ascii.eqb c "\" then
        match pat' with
        | EmptyString => fun _ => false
        | String d pat'' => let rest' := like pat'' in
            fun s => match s with EmptyString => false | String e s' => Ascii.eqb d e && rest' s' end
        end
      else fun s => match s with EmptyString => false | String e s' => Ascii.eqb c e && rest s' end
  end.

Definition id_matches (ownerID : UUID) (prefix : string) (i : InstanceRow) : bool :=
  bool_decide (in_OwnerID i = Some ownerID) && like (prefix +:+ "%") (uuid_text (in_ID i)).

Definition listInstancesByOwnerAndIDPrefix (ownerID : UUID) (prefix : string)
    : Stmt (list InstanceRow) :=
  query (fun d => take 2 (List.filter (id_matches ownerID prefix) (rows (db_instances d)))).

Definition FindByOwnerAndIDPrefix (ownerID : UUID) (prefix : string)
    : ST Pg (result (list InstanceRow)) :=
  exec (listInstancesByOwnerAndIDPrefix ownerID prefix).

(** ** The request *)

Record sshTicketRequest := { tr_SubdomainPrefix : string; tr_SSHKeyFingerprint : string }.

Definition minSubdomainPrefixLen : nat := 8.
Definition maxSubdomainPrefixLen : nat := 32.

Definition hex_lower (c : ascii) : bool :=
  (ascii_leb "0" c && ascii_leb c "9") || (ascii_leb "a" c && ascii_leb c "f").

Definition isHexLower (s : string) : bool := str_forall hex_lower s.

Definition parseSSHTicketRequest (body : Body sshTicketRequest) : checked sshTicketRequest :=
  match body with
  | ReadFailed msg => Reject StatusBadRequest "read_body" msg
  | BadJSON msg => Reject StatusBadRequest "bad_json" msg
  | Decoded req =>
      let prefix := ToLower (TrimSpace (tr_SubdomainPrefix req)) in
      let n := String.length prefix in
      if String.eqb prefix "" then
        Reject StatusBadRequest "missing_prefix" "subdomain_prefix required"
      else if ((n <? minSubdomainPrefixLen) || (maxSubdomainPrefixLen <? n))%nat || negb (isHexLower prefix)
      then Reject StatusBadRequest "bad_prefix" "subdomain_prefix must be 8-32 lowercase hex chars"
      else
        let fingerprint := TrimSpace (tr_SSHKeyFingerprint req) in
        if String.eqb fingerprint "" then
          Reject StatusBadRequest "missing_fingerprint" "ssh_key_fingerprint required"
        else Pass {| tr_SubdomainPrefix := prefix; tr_SSHKeyFingerprint := fingerprint |}
  end.

(** ** The handler *)

Definition errAmbiguousPrefix : error := Sentinel "multiple instances match the prefix".

Definition resolveInstanceByPrefix (ownerID : UUID) (prefix : string) : ST Pg (result InstanceRow) :=
  matches <-? wrapErr "lookup instance by prefix: " (FindByOwnerAndIDPrefix ownerID prefix) ;;
  ret match matches with
      | [] => Err (ErrNew "instance not found")
      | [i] => Ok i
      | _ => Err errAmbiguousPrefix
      end.

Record SSHTicketDeps := { td_Signer : Signer; td_SSHKeys : bool (* wired *) }.

Section handler.
Context `{TicketJSON}.

(** [fresh] is the draw of [uuid.NewString], [now] the signer's clock. *)
Definition issue_for (sn : Signer) (fresh : string) (now : Time) (inst : InstanceRow) (ip : Addr)
    (node : Node) : result Signed :=
  Issue sn fresh now
    {| tk_SessionID := ""; tk_InstanceID := in_ID inst; tk_NodeID := nd_ID node;
       tk_VMInternalIP := ip; tk_VMPort := 22; tk_TunnelEndpoint := "";
       tk_ExpiresAt := zeroTime |}.

(** The handler once the instance is known. *)
Definition ticket_for (deps : SSHTicketDeps) (fresh : string) (now : Time) (inst : InstanceRow)
    : ST Pg (Resp Signed) :=
  if negb (bool_decide (in_State inst = InstanceStateRunning)) then
    ret (WriteError StatusConflict "not_running" (InstanceState_text (in_State inst)))
  else match in_VmInternalIp inst with
  | None => ret (WriteError StatusConflict "no_vm_ip" "instance has no vm_internal_ip yet")
  | Some ip =>
      r <- GetNode (in_NodeID inst) ;;
      ret match r with
      | Err e => WriteError StatusInternalServerError "node_lookup" (Error e)
      | Ok node =>
          if negb (bool_decide (nd_Status node = NodeStatusOnline)) then
            WriteError StatusConflict "node_offline" "target node is not online"
          else match issue_for (td_Signer deps) fresh now inst ip node with
               | Err e => WriteError StatusInternalServerError "sign" (Error e)
               | Ok signed => WriteJSON StatusOK signed
               end
      end
  end.

Definition SSHTicketHandler (deps : SSHTicketDeps) (fresh : string) (now : Time)
    (body : Body sshTicketRequest) : ST Pg (Resp Signed) :=
  match parseSSHTicketRequest body with
  | Reject st code msg => ret (WriteError st code msg)
  | Pass req =>
      if negb (td_SSHKeys deps) then
        ret (WriteError StatusServiceUnavailable "ssh_auth_disabled"
               "ssh-key authentication is not configured on this server")
      else
        o <- LookupUserByFingerprint (tr_SSHKeyFingerprint req) ;;
        match o with
        | Err _ => ret (WriteError StatusNotFound "instance_lookup" "instance not found")
        | Ok ownerID =>
            r <- resolveInstanceByPrefix ownerID (tr_SubdomainPrefix req) ;;
            match r with
            | Err e =>
                let code := if errors_Is e errAmbiguousPrefix then StatusConflict else StatusNotFound in
                ret (WriteError code "instance_lookup" (Error e))
            | Ok inst => ticket_for deps fresh now inst
            end
        end
  end.
End handler.

(** ** LIKE on hex prefixes *)

Lemma str_app_cons c (s t : string) : String c s +:+ t = String c (s +:+ t).
Proof. reflexivity. Qed.

Lemma like_any (s : string) : like "%" s = true.
Proof. induction s as [|c s IH]; [done|]. simpl in *. exact IH. Qed.

Lemma hex_lower_plain c : hex_lower c = true ->
  Ascii.eqb c "%" = false /\ Ascii.eqb c "_" = false /\ Ascii.eqb c "\" = false /\ Ascii.eqb c "-" = false.
Proof.
  destruct c as [b0 b1 b2 b3 b4 b5 b6 b7]. intros H.
  destruct b0, b1, b2, b3, b4, b5, b6, b7; vm_compute in H; first [discriminate H | repeat split].
Qed.

(** On hex digits, LIKE with a trailing wildcard is the prefix test. *)
Lemma like_prefix p s : isHexLower p = true -> like (p +:+ "%") s = HasPrefix s p.
Proof.
  unfold isHexLower. revert s. induction p as [|c p IH]; intros s Hp.
  - by rewrite like_any.
  - cbn [str_forall] in Hp. apply andb_true_iff in Hp as [Hc Hp].
    apply hex_lower_plain in Hc as (H1 & H2 & H3 & _). rewrite str_app_cons.
    cbn [like]. rewrite H1, H2, H3. destruct s as [|d s]; [done|].
    rewrite IH by done. unfold HasPrefix. cbn [strip_prefix]. by destruct (Ascii.eqb c d).
Qed.

(** Position 8 of a uuid's text is a hyphen. *)
Lemma uuid_text_hyphen u : exists h t, uuid_text u = h +:+ String "-" t /\ String.length h = 8%nat.
Proof.
  exists (String.substring 0 8 (hex_EncodeToString (SHA256.be_bytes 16 u))). eexists. split.
  - unfold uuid_text. rewrite str_app_cons. reflexivity.
  - reflexivity.
Qed.

Lemma app_split_long (h t p r : string) :
  h +:+ t = p +:+ r -> (String.length h <= String.length p)%nat ->
  exists m, p = h +:+ m /\ t = m +:+ r.
Proof.
  revert p. induction h as [|c h IH]; intros p; simpl.
  - intros H _. exists p. split; [done|]. exact H.
  - destruct p as [|d p]; simpl; [lia|]. intros [= <- H] Hl.
    destruct (IH p H) as (m & -> & ->); [lia|]. by exists m.
Qed.

Lemma long_prefix_no_match p u :
  isHexLower p = true -> (8 < String.length p)%nat -> HasPrefix (uuid_text u) p = false.
Proof.
  intros Hp Hl. apply not_true_iff_false. intros [r Hr]%HasPrefix_spec.
  destruct (uuid_text_hyphen u) as (h & t & Hu & Hh). rewrite Hu in Hr.
  apply app_split_long in Hr as (m & -> & Hm); [|lia].
  unfold isHexLower in Hp. rewrite str_forall_app in Hp. apply andb_true_iff in Hp as [_ Hp].
  destruct m as [|c m]; [rewrite str_app_nil_r in Hl; lia|].
  rewrite str_app_cons in Hm. injection Hm as <- _. simpl in Hp. discriminate Hp.
Qed.

(** ** Properties *)

(** A filter of the rows with one result. *)
Lemma filter_rows_one {V} (P : V -> bool) (m : gmap N V) v :
  List.filter P (rows m) = [v] <->
  exists i, m !! i = Some v /\ P v = true /\ forall j w, m !! j = Some w -> P w = true -> j = i.
Proof.
  assert (forall l : list (N * V), List.filter P (l.*2) = (List.filter (fun x => P x.2) l).*2) as Hf.
  { induction l as [|[i w] l IH]; simpl; [done|]. destruct (P w); [|exact IH].
    by rewrite fmap_cons, <- IH. }
  assert (forall i w, (i, w) ∈ List.filter (fun x => P x.2) (map_to_list m) <-> P w = true /\ m !! i = Some w) as Hin.
  { intros i w. rewrite list_elem_of_In, List.filter_In, <- list_elem_of_In, elem_of_map_to_list.
    simpl. tauto. }
  assert (NoDup (List.filter (fun x => P x.2) (map_to_list m)).*1) as Hnd.
  { eapply sublist_NoDup; [apply (NoDup_fst_map_to_list m)|]. apply fmap_sublist, filter_sublist. }
  unfold rows. rewrite Hf. split.
  - destruct (List.filter _ (map_to_list m)) as [|[i w] [|]] eqn:E; [done| |done].
    intros [= ->]. exists i. destruct (proj1 (Hin i v)) as [HP Hi]; [left|].
    split_and!; [done|done|]. intros j w Hj HPw.
    assert ((j, w) ∈ [(i, v)]) as Hjw by by apply Hin. by apply list_elem_of_singleton in Hjw as [= ->].
  - intros (i & Hi & HP & Huniq). revert Hin Hnd.
    destruct (List.filter _ (map_to_list m)) as [|[j w] l]; intros Hin Hnd.
    { exfalso. apply (not_elem_of_nil (i, v)). by apply Hin. }
    destruct (proj1 (Hin j w)) as [HPw Hj]; [left|].
    pose proof (Huniq j w Hj HPw) as ->. simplify_eq. simpl. f_equal.
    destruct l as [|[k x] l]; [done|]. exfalso.
    destruct (proj1 (Hin k x)) as [HPx Hk]; [right; left|].
    pose proof (Huniq k x Hk HPx) as ->. simpl in Hnd. apply NoDup_cons in Hnd as [Hn _].
    apply Hn. left.
Qed.

(** The one instance a fingerprint and a prefix give access to. *)
Record tunnel_target (d : DB) (fp prefix : string) (owner : UUID) (inst : InstanceRow) (ip : Addr)
    (node : Node) : Prop := {
  tt_key : exists i k, db_ssh_keys d !! i = Some k /\ sk_UserID k = owner /\
             sk_Fingerprint k = normalizeFingerprint fp;
  tt_only : exists i, db_instances d !! i = Some inst /\
     (in_OwnerID inst = Some owner /\ HasPrefix (uuid_text (in_ID inst)) prefix = true) /\
     forall j inst', db_instances d !! j = Some inst' ->
       in_OwnerID inst' = Some owner /\ HasPrefix (uuid_text (in_ID inst')) prefix = true -> j = i;
  tt_running : in_State inst = InstanceStateRunning;
  tt_ip : in_VmInternalIp inst = Some ip;
  tt_node : db_nodes d !! in_NodeID inst = Some node;
  tt_online : nd_Status node = NodeStatusOnline
}.

Lemma id_matches_true owner prefix i :
  isHexLower prefix = true ->
  id_matches owner prefix i = true <->
  in_OwnerID i = Some owner /\ HasPrefix (uuid_text (in_ID i)) prefix = true.
Proof.
  intros Hp. unfold id_matches. rewrite like_prefix by done.
  by rewrite andb_true_iff, bool_decide_eq_true.
Qed.

Lemma parse_Pass body req :
  parseSSHTicketRequest body = Pass req ->
  exists raw, body = Decoded raw /\ isHexLower (tr_SubdomainPrefix req) = true /\
    (8 <= String.length (tr_SubdomainPrefix req) <= 32)%nat /\
    tr_SubdomainPrefix req = ToLower (TrimSpace (tr_SubdomainPrefix raw)) /\
    tr_SSHKeyFingerprint req = TrimSpace (tr_SSHKeyFingerprint raw).
Proof.
  destruct body as [m|m|raw]; cbn [parseSSHTicketRequest]; [done|done|].
  destruct (String.eqb _ ""); [done|].
  destruct (((_ <? _) || (_ <? _))%nat || _) eqn:E; [done|].
  destruct (String.eqb _ ""); [done|]. intros [= <-]. simpl. exists raw.
  apply orb_false_iff in E as [[E1 E2]%orb_false_iff E3%negb_false_iff].
  apply Nat.ltb_ge in E1, E2. split_and!; try done.
Qed.

Lemma resolve_eq owner prefix s :
  clean s ->
  resolveInstanceByPrefix owner prefix s =
    (match List.filter (id_matches owner prefix) (rows (db_instances (pg_db s))) with
     | [] => Err (ErrNew "instance not found")
     | [i] => Ok i
     | _ => Err errAmbiguousPrefix
     end, tick (pg_db s) s).
Proof.
  intros Hs. unfold resolveInstanceByPrefix, FindByOwnerAndIDPrefix, wrapErr, bindR, bind, ret.
  rewrite exec_clean by done. unfold listInstancesByOwnerAndIDPrefix, query. cbn [fst snd].
  by destruct (List.filter _ _) as [|? [|? ?]].
Qed.

Lemma lookup_fp_state fp s :
  clean s -> (LookupUserByFingerprint fp s).2 = tick (pg_db s) s.
Proof.
  intros Hs. unfold LookupUserByFingerprint. rewrite bind_eq, exec_clean by done.
  unfold lookupSSHKeyByFingerprint, query_one. cbn [fst snd]. by destruct (row_where _ _).
Qed.

Section properties.
Context `{TicketJSON}.

Lemma ticket_for_eq deps fresh now inst s :
  clean s ->
  pg_db (ticket_for deps fresh now inst s).2 = pg_db s /\
  forall signed, (ticket_for deps fresh now inst s).1 = WriteJSON StatusOK signed <->
    exists ip node, in_State inst = InstanceStateRunning /\ in_VmInternalIp inst = Some ip /\
      db_nodes (pg_db s) !! in_NodeID inst = Some node /\ nd_Status node = NodeStatusOnline /\
      issue_for (td_Signer deps) fresh now inst ip node = Ok signed.
Proof.
  intros Hs. unfold ticket_for.
  destruct (bool_decide_reflect (in_State inst = InstanceStateRunning)) as [Hr|Hr]; simpl.
  2:{ split; [done|]. intros signed. naive_solver. }
  destruct (in_VmInternalIp inst) as [ip|] eqn:Hip; simpl.
  2:{ split; [done|]. intros signed. naive_solver. }
  rewrite bind_eq. unfold GetNode. rewrite exec_clean by done. unfold getNode, query_one.
  destruct (db_nodes (pg_db s) !! in_NodeID inst) as [node|] eqn:Hn; simpl.
  2:{ split; [done|]. intros signed. naive_solver. }
  split; [done|]. intros signed.
  destruct (bool_decide_reflect (nd_Status node = NodeStatusOnline)) as [Ho|Ho]; simpl.
  2:{ naive_solver. }
  destruct (issue_for _ _ _ _ _ _) as [sg|e] eqn:Hi; simpl.
  2:{ split; [done|]. intros (ip' & node' & _ & ? & ? & _ & Hi'). simplify_eq. congruence. }
  split.
  - intros [= ->]. eauto 10.
  - intros (ip' & node' & _ & ? & ? & _ & Hi'). simplify_eq. by rewrite Hi in Hi'; simplify_eq.
Qed.
End properties.

Section handler_spec.
Context `{TicketJSON}.

(** The handler past the parsing, with round trips served. *)
Lemma handler_eq deps fresh now body req s :
  clean s -> parseSSHTicketRequest body = Pass req -> td_SSHKeys deps = true ->
  SSHTicketHandler deps fresh now body s =
    let s1 := tick (pg_db s) s in
    let s2 := tick (pg_db s) s1 in
    match (LookupUserByFingerprint (tr_SSHKeyFingerprint req) s).1 with
    | Err _ => (WriteError StatusNotFound "instance_lookup" "instance not found", s1)
    | Ok owner =>
        match List.filter (id_matches owner (tr_SubdomainPrefix req)) (rows (db_instances (pg_db s))) with
        | [] => (WriteError StatusNotFound "instance_lookup" "instance not found", s2)
        | [inst] => ticket_for deps fresh now inst s2
        | _ => (WriteError StatusConflict "instance_lookup" (Error errAmbiguousPrefix), s2)
        end
    end.
Proof.
  intros Hs Hp Hk. unfold SSHTicketHandler. rewrite Hp, Hk. change (negb true) with false. cbv iota.
  rewrite (bind_eq (S := Pg)), lookup_fp_state by done.
  destruct (LookupUserByFingerprint _ s).1 as [owner|e]; [|done].
  rewrite (bind_eq (S := Pg)), resolve_eq by by apply tick_clean. cbn [fst snd].
  change (pg_db (tick (pg_db s) s)) with (pg_db s). simpl.
  destruct (List.filter _ _) as [|inst [|? ?]]; done.
Qed.

(** No key with an instance behind it: one answer, whichever is missing. *)
Lemma no_target_404 deps fresh now body req s :
  clean s -> parseSSHTicketRequest body = Pass req -> td_SSHKeys deps = true ->
  (forall i k j inst, db_ssh_keys (pg_db s) !! i = Some k ->
     sk_Fingerprint k = normalizeFingerprint (tr_SSHKeyFingerprint req) ->
     db_instances (pg_db s) !! j = Some inst -> in_OwnerID inst = Some (sk_UserID k) ->
     HasPrefix (uuid_text (in_ID inst)) (tr_SubdomainPrefix req) = false) ->
  (SSHTicketHandler deps fresh now body s).1 =
    WriteError StatusNotFound "instance_lookup" "instance not found".
Proof.
  intros Hs Hp Hk Hno. rewrite (handler_eq _ _ _ _ _ _ Hs Hp Hk). cbv zeta.
  destruct (LookupUserByFingerprint _ s) as [[owner|e] s1] eqn:El; [|done]. simpl.
  apply Lookup_sound in El as (i & k & Hi & <- & Hf).
  destruct (List.filter _ _) as [|inst l] eqn:E; [done|]. exfalso.
  assert (inst ∈ inst :: l) as Hin by left. rewrite <- E in Hin.
  apply elem_of_filter_rows in Hin as [Hm [j Hj]].
  apply parse_Pass in Hp as (raw & _ & Hhex & _).
  apply id_matches_true in Hm as [Ho Hm]; [|done].
  by rewrite (Hno i k j inst Hi Hf Hj Ho) in Hm.
Qed.

(** The handler accepts prefixes of up to 32 hex digits, but the text of an
    id has a hyphen after the eighth: a longer prefix never names an
    instance, not even its own id's 32 digits. *)
Theorem long_prefix_never_resolves deps fresh now body req s :
  clean s -> parseSSHTicketRequest body = Pass req -> td_SSHKeys deps = true ->
  (8 < String.length (tr_SubdomainPrefix req))%nat ->
  (SSHTicketHandler deps fresh now body s).1 =
    WriteError StatusNotFound "instance_lookup" "instance not found".
Proof.
  intros Hs Hp Hk Hl. apply (no_target_404 _ _ _ _ req); [done..|].
  intros i k j inst _ _ _ _. apply parse_Pass in Hp as (raw & _ & Hhex & _).
  by apply long_prefix_no_match.
Qed.
End handler_spec.

(** What the agent reads in the ticket of an instance. *)
Lemma issue_for_verifies `{TicketJSONLaws} sn fresh now inst ip node signed t :
  ascii_text fresh = true -> ascii_text ip = true ->
  issue_for sn fresh now inst ip node = Ok signed ->
  Verify (sn_Secret sn) t signed =
    if (now + sn_TTL sn <? t)%Z then Err ErrExpired
    else Ok {| tk_SessionID := fresh; tk_InstanceID := in_ID inst; tk_NodeID := nd_ID node;
               tk_VMInternalIP := ip; tk_VMPort := 22; tk_TunnelEndpoint := "";
               tk_ExpiresAt := (now + sn_TTL sn)%Z |}.
Proof.
  intros Hf Hi Hok. unfold issue_for in Hok.
  etransitivity;
    [eapply Issue_Verify; [|exact Hok]; unfold printable; split_and!; simpl; (done || lia)|].
  unfold fill. cbn [tk_SessionID tk_InstanceID tk_NodeID tk_VMInternalIP tk_VMPort tk_TunnelEndpoint
    tk_ExpiresAt]. by rewrite decide_True.
Qed.

(** Behind a ticket that is signed. *)
Lemma ticket_sound `{TicketJSON} deps fresh now body s signed :
  clean s -> (SSHTicketHandler deps fresh now body s).1 = WriteJSON StatusOK signed ->
  exists req owner inst ip node, parseSSHTicketRequest body = Pass req /\
    tunnel_target (pg_db s) (tr_SSHKeyFingerprint req) (tr_SubdomainPrefix req) owner inst ip node /\
    issue_for (td_Signer deps) fresh now inst ip node = Ok signed.
Proof.
  intros Hs E. destruct (parseSSHTicketRequest body) as [req|st code msg] eqn:Hp.
  2:{ unfold SSHTicketHandler in E. by rewrite Hp in E. }
  destruct (td_SSHKeys deps) eqn:Hk; [|unfold SSHTicketHandler in E; by rewrite Hp, Hk in E].
  pose proof (parse_Pass _ _ Hp) as (_ & _ & Hhex & _).
  rewrite (handler_eq _ _ _ _ _ _ Hs Hp Hk) in E. cbv zeta in E.
  set (s2 := tick (pg_db s) (tick (pg_db s) s)) in *.
  assert (clean s2) as Hs2 by by apply tick_clean, tick_clean.
  destruct (LookupUserByFingerprint _ s) as [[owner|e] s1] eqn:El; [|done]. simpl in E.
  apply Lookup_sound in El as (i & k & Hi & Ho & Hf).
  destruct (List.filter _ _) as [|inst [|? ?]] eqn:Ef; [done| |done].
  apply (ticket_for_eq deps fresh now inst s2 Hs2) in E as (ip & node & Hr & Hip & Hn & Hon & Hi').
  exists req, owner, inst, ip, node. split_and!; [done| |done].
  apply filter_rows_one in Ef as (j & Hj & Hm & Hu).
  split; [by exists i, k| |done..]. exists j. apply id_matches_true in Hm; [|done].
  split_and!; [done|apply Hm|apply Hm|]. intros j' inst' Hj' Hm'. eapply Hu; [done|]. by apply id_matches_true.
Qed.

(** C36: a ticket opens a tunnel to the caller's own running instance and to
    nothing else.  With round trips served the handler changes no table.  It
    signs a ticket only when a registered key has the presented fingerprint,
    exactly one instance of that key's owner has an id starting with the
    prefix, that instance is running with an address and its node is online;
    the ticket then verifies, until one TTL after the signer's clock, to that
    instance, node and address on port 22.  When all this holds and the
    fingerprint belongs to one user, the ticket is signed.  When no instance
    of a user with that fingerprint matches, the answer is the same 404
    whether the fingerprint or the instance is unknown. *)
Theorem ticket_scope `{TicketJSONLaws} deps fresh now body s :
  clean s ->
  let '(resp, s') := SSHTicketHandler deps fresh now body s in
  pg_db s' = pg_db s /\
  (forall signed, resp = WriteJSON StatusOK signed ->
     exists req owner inst ip node, parseSSHTicketRequest body = Pass req /\
       tunnel_target (pg_db s) (tr_SSHKeyFingerprint req) (tr_SubdomainPrefix req) owner inst ip node /\
       (ascii_text fresh = true -> ascii_text ip = true -> forall t,
          Verify (sn_Secret (td_Signer deps)) t signed =
            if (now + sn_TTL (td_Signer deps) <? t)%Z then Err ErrExpired
            else Ok {| tk_SessionID := fresh; tk_InstanceID := in_ID inst; tk_NodeID := nd_ID node;
                       tk_VMInternalIP := ip; tk_VMPort := 22; tk_TunnelEndpoint := "";
                       tk_ExpiresAt := (now + sn_TTL (td_Signer deps))%Z |})) /\
  (forall req owner inst ip node signed,
     parseSSHTicketRequest body = Pass req -> td_SSHKeys deps = true ->
     tunnel_target (pg_db s) (tr_SSHKeyFingerprint req) (tr_SubdomainPrefix req) owner inst ip node ->
     (forall i k, db_ssh_keys (pg_db s) !! i = Some k ->
        sk_Fingerprint k = normalizeFingerprint (tr_SSHKeyFingerprint req) -> sk_UserID k = owner) ->
     issue_for (td_Signer deps) fresh now inst ip node = Ok signed ->
     resp = WriteJSON StatusOK signed) /\
  (forall req, parseSSHTicketRequest body = Pass req -> td_SSHKeys deps = true ->
     (forall i k j inst, db_ssh_keys (pg_db s) !! i = Some k ->
        sk_Fingerprint k = normalizeFingerprint (tr_SSHKeyFingerprint req) ->
        db_instances (pg_db s) !! j = Some inst -> in_OwnerID inst = Some (sk_UserID k) ->
        HasPrefix (uuid_text (in_ID inst)) (tr_SubdomainPrefix req) = false) ->
     resp = WriteError StatusNotFound "instance_lookup" "instance not found").
Proof.
  intros Hs. destruct (SSHTicketHandler deps fresh now body s) as [resp s'] eqn:E.
  destruct (parseSSHTicketRequest body) as [req|st code msg] eqn:Hp.
  2:{ unfold SSHTicketHandler in E. rewrite Hp in E. unfold ret in E. injection E as <- <-.
      split_and!; [done|intros; congruence..]. }
  destruct (td_SSHKeys deps) eqn:Hk.
  2:{ unfold SSHTicketHandler in E. rewrite Hp, Hk in E. unfold ret in E. injection E as <- <-.
      split_and!; [done|intros; congruence..]. }
  pose proof (no_target_404 deps fresh now body req s Hs Hp Hk) as H404. rewrite E in H404.
  pose proof (fun signed => ticket_sound deps fresh now body s signed Hs) as Hsound. setoid_rewrite E in Hsound.
  pose proof (parse_Pass _ _ Hp) as (_ & _ & Hhex & _).
  rewrite (handler_eq _ _ _ _ _ _ Hs Hp Hk) in E. cbv zeta in E.
  set (s2 := tick (pg_db s) (tick (pg_db s) s)) in *.
  assert (clean s2) as Hs2 by by apply tick_clean, tick_clean.
  split_and!.
  - destruct (LookupUserByFingerprint _ s).1 as [owner|e]; [|by simplify_eq].
    destruct (List.filter _ _) as [|inst [|? ?]]; [by simplify_eq| |by simplify_eq].
    pose proof (proj1 (ticket_for_eq deps fresh now inst s2 Hs2)) as Ht. by rewrite E in Ht.
  - intros signed ->. destruct (Hsound signed) as (req' & owner & inst & ip & node & Hreq & Ht & Hi'); [done|].
    exists req', owner, inst, ip, node. split_and!; [congruence|done|].
    intros Hfresh Hasc t. by apply (issue_for_verifies _ fresh now inst ip node).
  - intros req' owner inst ip node signed [= <-] _ [(i0 & k0 & Hk0 & Hko & Hkf) (j & Hj & Hm & Hu) Hr Hip Hn Hon] Huniq Hi.
    assert ((LookupUserByFingerprint (tr_SSHKeyFingerprint req) s).1 = Ok owner) as El.
    { eapply Lookup_complete; eauto. }
    rewrite El in E.
    assert (List.filter (id_matches owner (tr_SubdomainPrefix req)) (rows (db_instances (pg_db s))) = [inst]) as Ef.
    { apply filter_rows_one. exists j. split_and!; [done|by apply id_matches_true|].
      intros j' w Hj' Hw. apply (Hu j' w Hj'). by apply id_matches_true. }
    rewrite Ef in E. change resp with (resp, s').1. rewrite <- E.
    apply (ticket_for_eq deps fresh now inst s2 Hs2). by exists ip, node.
  - intros req' [= <-] _. exact H404.
Qed.

(** ** Witnesses *)
Section witnesses.
#[local] Existing Instances demo_json demo_json_laws.

Definition reachable_vm : InstanceRow :=
  {| in_ID := 5; in_OwnerID := Some 1%N; in_NodeID := 3; in_Name := "vm";
     in_State := InstanceStateRunning; in_MemoryMb := 1024; in_Vcpus := 2; in_GpuCount := 0;
     in_SlotIndices := []; in_SshPubkeys := []; in_VmInternalIp := Some "10.0.0.9";
     in_ImageRef := ""; in_ErrorMessage := ""; in_CreatedAt := 0; in_UpdatedAt := 0 |}.

Definition laptop_key : SshKey :=
  {| sk_ID := 20; sk_UserID := 1; sk_Label := "laptop"; sk_Pubkey := "ssh-ed25519 AAAA";
     sk_Fingerprint := "abc"; sk_CreatedAt := 0 |}.

Definition ticket_pg : Pg :=
  on_demo (set_instances {[ 5%N := reachable_vm ]} (set_ssh_keys {[ 20%N := laptop_key ]} demo_db)).

Definition ticket_deps : SSHTicketDeps := {| td_Signer := demo_signer; td_SSHKeys := true |}.

Definition ticket_body : Body sshTicketRequest :=
  Decoded {| tr_SubdomainPrefix := "00000000"; tr_SSHKeyFingerprint := "SHA256:abc" |}.

Example uuid_text_ex :
  uuid_text 0x0123456789abcdef0123456789abcdef = "01234567-89ab-cdef-0123-456789abcdef".
Proof. vm_compute. reflexivity. Qed.

Example like_ex :
  like "01%" "0123" = true /\ like "0_2%" "0123" = true /\ like "01" "0123" = false /\
  like "0\%%" "0%23" = true.
Proof. vm_compute. repeat split. Qed.

Lemma ticket_scope_witness : exists signed,
  (SSHTicketHandler ticket_deps "s1" 1000 ticket_body ticket_pg).1 = WriteJSON StatusOK signed /\
  pg_db (SSHTicketHandler ticket_deps "s1" 1000 ticket_body ticket_pg).2 = pg_db ticket_pg.
Proof.
  pose proof (ticket_scope ticket_deps "s1" 1000 ticket_body ticket_pg eq_refl) as H.
  destruct (SSHTicketHandler ticket_deps "s1" 1000 ticket_body ticket_pg) as [resp s'].
  destruct H as (Hdb & _ & H & _).
  assert (exists signed, issue_for demo_signer "s1" 1000 reachable_vm "10.0.0.9" demo_node = Ok signed)
    as [signed Hi] by (eexists; reflexivity).
  exists signed. split; [|exact Hdb].
  apply (H {| tr_SubdomainPrefix := "00000000"; tr_SSHKeyFingerprint := "SHA256:abc" |}
           1%N reachable_vm "10.0.0.9" demo_node signed); [reflexivity|reflexivity| | |exact Hi].
  - split; [exists 20%N, laptop_key; split_and!; reflexivity| |reflexivity..].
    exists 5%N. split_and!; [reflexivity..|]. intros j i Hj _.
    change (({[ 5%N := reachable_vm ]} : gmap UUID InstanceRow) !! j = Some i) in Hj.
    apply lookup_singleton_Some in Hj as [<- _]. reflexivity.
  - intros j k Hj _. change (({[ 20%N := laptop_key ]} : gmap UUID SshKey) !! j = Some k) in Hj.
    apply lookup_singleton_Some in Hj as [_ <-]. reflexivity.
Defined.
End witnesses.
