(* ===== verification/AgentAuth.v ===== *)
(** * Agent credentials (internal/agentauth)

    POST /internal/agent-auth: ssh-proxy asks whether a (node, token) pair is
    valid.  The handler, its cache of positive answers, and, as a step
    relation over interleaved requests and database writes, how long a
    revoked token can still be accepted. *)

From S2P Require Import Prelude GoStrings Proto Db Queries AccountQueries Demo NodeRepo Http Auth.

#[local] Open Scope string_scope.
#[local] Open Scope list_scope.
#[local] Open Scope go_scope.

Definition ErrNodeNotFound : error := Sentinel "node not found".

Record NodeAuthInfo := {                          (* [NodeView] of the package *)
  na_NodeID : UUID;
  na_AccessPolicy : string;
  na_OwnerTeamID : option UUID;
  na_AgentVersion : string
}.

(** ** repo.go *)

Definition ListActiveNodeTokens (nodeID : UUID) : ST Pg (result (list NodeToken)) :=
  wrapErr "list active node tokens: " (exec (listActiveNodeTokens nodeID)).

Definition NodeAuthView (nodeID : UUID) : ST Pg (result NodeAuthInfo) :=
  r <- exec (nodeAccessPolicy nodeID) ;;
  match r with
  | Err e => ret (Err (if errors_Is e ErrNoRows then ErrNodeNotFound
                       else ErrWrap "node access policy: " e ""))
  | Ok row =>
      full <-? wrapErr "get node: " (exec (getNode nodeID)) ;;
      ret (Ok {| na_NodeID := nodeID; na_AccessPolicy := nap_AccessPolicy row;
                 na_OwnerTeamID := nap_OwnerTeamID row; na_AgentVersion := nd_AgentVersion full |})
  end.

(** ** agentauth.go *)

Abbreviation cacheKey := (UUID * string)%type.
Record cacheEntry := { ce_view : NodeAuthInfo; ce_expiresAt : Time }.
Record AuthCache := { ac_cacheTTL : Z; ac_cache : gmap cacheKey cacheEntry }.

Definition NewHandler (ttl : Z) : AuthCache := {| ac_cacheTTL := ttl; ac_cache := ∅ |}.

Record request := { rq_NodeID : string; rq_Token : string }.
Record response := {
  rp_OK : bool;
  rp_NodeID : string;
  rp_AccessPolicy : string;
  rp_OwnerTeamID : string;
  rp_AgentVersionSeen : string
}.

(** The first critical section of [lookup]: a cached answer. *)
Definition probe (now : Time) (key : cacheKey) (h : AuthCache) : option NodeAuthInfo :=
  if (0 <? ac_cacheTTL h)%Z then
    match ac_cache h !! key with
    | Some e => if (now <? ce_expiresAt e)%Z then Some (ce_view e) else None
    | None => None
    end
  else None.

(** The second: remember a positive answer. *)
Definition store (now : Time) (key : cacheKey) (view : NodeAuthInfo) (h : AuthCache) : AuthCache :=
  if (0 <? ac_cacheTTL h)%Z then
    {| ac_cacheTTL := ac_cacheTTL h;
       ac_cache := <[key := {| ce_view := view; ce_expiresAt := (now + ac_cacheTTL h)%Z |}]> (ac_cache h) |}
  else h.

Record AuthState := { as_pg : Pg; as_cache : AuthCache }.

Definition onAuthPg {A} (m : ST Pg A) : ST AuthState A := fun s =>
  let '(a, pg) := m (as_pg s) in (a, {| as_pg := pg; as_cache := as_cache s |}).

Section handler.
Context `{UUIDLib, Bcrypt}.

(** Between them: does an active token of the node match? *)
Definition match_token (key : cacheKey) : ST Pg bool :=
  tokens <- ListActiveNodeTokens key.1 ;;
  ret match tokens with
      | Err _ => false
      | Ok l => existsb (fun t => CompareHashAndPassword (nt_TokenHash t) key.2) l
      end.

(** [now1] and [now2] are the two readings of the handler's clock. *)
Definition lookup (now1 now2 : Time) (key : cacheKey) : ST AuthState (option NodeAuthInfo) := fun s =>
  match probe now1 key (as_cache s) with
  | Some view => (Some view, s)
  | None =>
      (matched <- onAuthPg (match_token key) ;;
       if negb matched then ret None
       else v <- onAuthPg (NodeAuthView key.1) ;;
            match v with
            | Err _ => ret None
            | Ok view => fun s' =>
                (Some view, {| as_pg := as_pg s'; as_cache := store now2 key view (as_cache s') |})
            end) s
  end.

Definition granted (nodeID : UUID) (view : NodeAuthInfo) : response :=
  {| rp_OK := true; rp_NodeID := uuid_String nodeID; rp_AccessPolicy := na_AccessPolicy view;
     rp_OwnerTeamID := match na_OwnerTeamID view with Some t => uuid_String t | None => "" end;
     rp_AgentVersionSeen := na_AgentVersion view |}.

Definition ServeHTTP (now1 now2 : Time) (method : string) (body : Body request)
    : ST AuthState (Resp response) :=
  if negb (String.eqb method "POST") then
    ret (WriteError StatusMethodNotAllowed "method_not_allowed" "POST required")
  else match body with
  | ReadFailed msg => ret (WriteError StatusBadRequest "read_body" msg)
  | BadJSON msg => ret (WriteError StatusBadRequest "bad_json" msg)
  | Decoded req =>
      match uuid_Parse (rq_NodeID req) with
      | Err _ => ret (WriteError StatusBadRequest "bad_node_id" "node_id must be a UUID")
      | Ok nodeID =>
          if String.eqb (rq_Token req) "" then
            ret (WriteError StatusUnauthorized "unauthenticated" "token required")
          else
            v <- lookup now1 now2 (nodeID, rq_Token req) ;;
            ret match v with
                | None => WriteError StatusUnauthorized "unauthenticated" "invalid or revoked token"
                | Some view => WriteJSON StatusOK (granted nodeID view)
                end
      end
  end.
End handler.

(** ** Facts *)

(** An active token of the node whose hash matches. *)
Definition active_match `{Bcrypt} (d : DB) (key : cacheKey) : Prop :=
  exists i t, db_node_tokens d !! i = Some t /\ nt_NodeID t = key.1 /\ nt_RevokedAt t = None /\
    CompareHashAndPassword (nt_TokenHash t) key.2 = true.

Definition auth_info (n : Node) (nodeID : UUID) : NodeAuthInfo :=
  {| na_NodeID := nodeID; na_AccessPolicy := nd_AccessPolicy n; na_OwnerTeamID := nd_OwnerTeamID n;
     na_AgentVersion := nd_AgentVersion n |}.

Section facts.
Context `{Bcrypt}.

Lemma active_match_exists d key :
  existsb (fun t => CompareHashAndPassword (nt_TokenHash t) key.2) (active_tokens key.1 d) = true <->
  active_match d key.
Proof.
  rewrite existsb_exists. unfold active_tokens, active_match. split.
  - intros (t & Hin & Hc). apply list_elem_of_In, elem_of_filter_rows in Hin as [Ht [i Hi]].
    apply bool_decide_eq_true in Ht as [Hn Hr]. eauto 10.
  - intros (i & t & Hi & Hn & Hr & Hc). exists t. split; [|done].
    apply list_elem_of_In, elem_of_filter_rows. split; [by apply bool_decide_eq_true|eauto].
Qed.

(** A match was an active token, on whatever round trip. *)
Lemma match_token_sound key s : (match_token key s).1 = true -> active_match (pg_db s) key.
Proof.
  unfold match_token, ListActiveNodeTokens. rewrite (bind_eq (S := Pg)), wrapErr_eq.
  destruct (exec _ s) as [[l|e] s1] eqn:E; simpl; [|done].
  apply exec_Ok in E as [E _]. unfold listActiveNodeTokens, query in E. injection E as <- _.
  apply active_match_exists.
Qed.

Lemma match_token_clean key s :
  clean s -> ((match_token key s).1 = true <-> active_match (pg_db s) key) /\
             (match_token key s).2 = tick (pg_db s) s.
Proof.
  intros Hs. unfold match_token, ListActiveNodeTokens. rewrite (bind_eq (S := Pg)), wrapErr_eq.
  rewrite exec_clean by done. unfold listActiveNodeTokens, query. simpl. split; [|done].
  apply active_match_exists.
Qed.

Lemma NodeAuthView_clean id s :
  clean s -> (NodeAuthView id s).1 = (match db_nodes (pg_db s) !! id with
                                      | Some n => Ok (auth_info n id)
                                      | None => Err ErrNodeNotFound
                                      end) /\
             pg_db (NodeAuthView id s).2 = pg_db s.
Proof.
  intros Hs. unfold NodeAuthView. rewrite (bind_eq (S := Pg)), exec_clean by done.
  unfold nodeAccessPolicy, query_one. destruct (db_nodes (pg_db s) !! id) as [n|] eqn:En; simpl; [|done].
  rewrite bindR_eq, wrapErr_eq, exec_clean by by apply tick_clean.
  unfold getNode, query_one. simpl. by rewrite En.
Qed.
End facts.

(** ** Interleaved requests

    Requests run concurrently: between the two critical sections of one
    request, other requests, database writes and the clock move.  A running
    request is a task. *)
Inductive task :=
  | Missed (key : cacheKey)                                 (* not in the cache *)
  | Matched (key : cacheKey) (t0 : Time)                    (* tokens read at t0 *)
  | Viewed (key : cacheKey) (view : NodeAuthInfo) (t0 : Time).

Record sys := {
  sy_now : Time;
  sy_pg : Pg;
  sy_cache : AuthCache;
  sy_tasks : gmap nat task;
  (* what happened: the tables each token read saw, the (read, stored) times
     of the lookups that succeeded, and the positive answers *)
  sy_reads : list (Time * DB);
  sy_lookups : list (Time * Time);
  sy_granted : list (cacheKey * Time)
}.

Section system.
Context `{Bcrypt}.

Inductive step : sys -> sys -> Prop :=
  | st_time w t : (sy_now w <= t)%Z ->
      step w {| sy_now := t; sy_pg := sy_pg w; sy_cache := sy_cache w; sy_tasks := sy_tasks w;
                sy_reads := sy_reads w; sy_lookups := sy_lookups w; sy_granted := sy_granted w |}
  | st_db w pg : (* anything else that uses the database *)
      step w {| sy_now := sy_now w; sy_pg := pg; sy_cache := sy_cache w; sy_tasks := sy_tasks w;
                sy_reads := sy_reads w; sy_lookups := sy_lookups w; sy_granted := sy_granted w |}
  | st_hit w key view : probe (sy_now w) key (sy_cache w) = Some view ->
      step w {| sy_now := sy_now w; sy_pg := sy_pg w; sy_cache := sy_cache w; sy_tasks := sy_tasks w;
                sy_reads := sy_reads w; sy_lookups := sy_lookups w;
                sy_granted := (key, sy_now w) :: sy_granted w |}
  | st_miss w i key : sy_tasks w !! i = None -> probe (sy_now w) key (sy_cache w) = None ->
      step w {| sy_now := sy_now w; sy_pg := sy_pg w; sy_cache := sy_cache w;
                sy_tasks := <[i := Missed key]> (sy_tasks w);
                sy_reads := sy_reads w; sy_lookups := sy_lookups w; sy_granted := sy_granted w |}
  | st_match w i key : sy_tasks w !! i = Some (Missed key) -> (match_token key (sy_pg w)).1 = true ->
      step w {| sy_now := sy_now w; sy_pg := (match_token key (sy_pg w)).2; sy_cache := sy_cache w;
                sy_tasks := <[i := Matched key (sy_now w)]> (sy_tasks w);
                sy_reads := (sy_now w, pg_db (sy_pg w)) :: sy_reads w;
                sy_lookups := sy_lookups w; sy_granted := sy_granted w |}
  | st_view w i key t0 view : sy_tasks w !! i = Some (Matched key t0) ->
      (NodeAuthView key.1 (sy_pg w)).1 = Ok view ->
      step w {| sy_now := sy_now w; sy_pg := (NodeAuthView key.1 (sy_pg w)).2; sy_cache := sy_cache w;
                sy_tasks := <[i := Viewed key view t0]> (sy_tasks w);
                sy_reads := sy_reads w; sy_lookups := sy_lookups w; sy_granted := sy_granted w |}
  | st_store w i key view t0 : sy_tasks w !! i = Some (Viewed key view t0) ->
      step w {| sy_now := sy_now w; sy_pg := sy_pg w;
                sy_cache := store (sy_now w) key view (sy_cache w);
                sy_tasks := delete i (sy_tasks w); sy_reads := sy_reads w;
                sy_lookups := (t0, sy_now w) :: sy_lookups w;
                sy_granted := (key, sy_now w) :: sy_granted w |}
  | st_refuse w i : (* answered 401 *)
      step w {| sy_now := sy_now w; sy_pg := sy_pg w; sy_cache := sy_cache w;
                sy_tasks := delete i (sy_tasks w); sy_reads := sy_reads w;
                sy_lookups := sy_lookups w; sy_granted := sy_granted w |}.

Definition sys_init (ttl : Z) (now : Time) (pg : Pg) : sys :=
  {| sy_now := now; sy_pg := pg; sy_cache := NewHandler ttl; sy_tasks := ∅; sy_reads := [];
     sy_lookups := []; sy_granted := [] |}.

Definition reachable (ttl : Z) (w : sys) : Prop := exists now pg, rtc step (sys_init ttl now pg) w.

(** A token read at [t0] that matched. *)
Definition read_matched (w : sys) (key : cacheKey) (t0 : Time) : Prop :=
  (t0 <= sy_now w)%Z /\ exists d, (t0, d) ∈ sy_reads w /\ active_match d key.

(** Where a positive answer at [t] comes from. *)
Definition backed (ttl : Z) (w : sys) (key : cacheKey) (t : Time) : Prop :=
  exists t0 ts, read_matched w key t0 /\ (t0, ts) ∈ sy_lookups w /\ (t = ts \/ (t < ts + ttl)%Z).

Record sys_inv (ttl : Z) (w : sys) : Prop := {
  si_ttl : ac_cacheTTL (sy_cache w) = ttl;
  si_tasks : forall i t, sy_tasks w !! i = Some t ->
    match t with
    | Missed _ => True
    | Matched key t0 | Viewed key _ t0 => read_matched w key t0
    end;
  si_cache : forall key e, ac_cache (sy_cache w) !! key = Some e ->
    exists t0 ts, read_matched w key t0 /\ (t0, ts) ∈ sy_lookups w /\ ce_expiresAt e = (ts + ttl)%Z;
  si_granted : forall key t, (key, t) ∈ sy_granted w -> backed ttl w key t
}.

(** The history only grows. *)
Definition extends (w w' : sys) : Prop :=
  (sy_now w <= sy_now w')%Z /\ sy_reads w ⊆ sy_reads w' /\ sy_lookups w ⊆ sy_lookups w'.

Lemma read_matched_extends w w' key t0 : extends w w' -> read_matched w key t0 -> read_matched w' key t0.
Proof. intros (Hn & Hr & _) [Ht (d & Hd & Hm)]. split; [lia|]. exists d. split; [by apply Hr|done]. Qed.

Lemma step_extends w w' : step w w' -> extends w w'.
Proof. destruct 1; split_and!; simpl; try lia; try done; intros x Hx; by right. Qed.

Lemma backed_extends ttl w w' key t : extends w w' -> backed ttl w key t -> backed ttl w' key t.
Proof.
  intros He (t0 & ts & Hm & Hl & Ht). exists t0, ts. split_and!; [|by apply He|done].
  by eapply read_matched_extends.
Qed.

(** Of a step: what is in the cache, the tasks and the answers afterwards was
    there or is what the step put there. *)
Lemma auth_inv_step ttl w w' : sys_inv ttl w -> step w w' -> sys_inv ttl w'.
Proof.
  intros [Httl Htasks Hcache Hgr] Hstep. pose proof (step_extends _ _ Hstep) as He.
  assert (forall i t, sy_tasks w !! i = Some t ->
    match t with Missed _ => True | Matched key t0 | Viewed key _ t0 => read_matched w' key t0 end) as Htasks'.
  { intros i t Hi. specialize (Htasks i t Hi). destruct t; [done|..]; by eapply read_matched_extends. }
  assert (forall key e, ac_cache (sy_cache w) !! key = Some e ->
    exists t0 ts, read_matched w' key t0 /\ (t0, ts) ∈ sy_lookups w' /\ ce_expiresAt e = (ts + ttl)%Z) as Hcache'.
  { intros key e Hk. destruct (Hcache key e Hk) as (t0 & ts & Hm & Hl & Hx). exists t0, ts.
    split_and!; [by eapply read_matched_extends|by apply He|done]. }
  assert (forall key t, (key, t) ∈ sy_granted w -> backed ttl w' key t) as Hgr'.
  { intros key t Hin. by eapply backed_extends, Hgr. }
  destruct Hstep as [w t Ht|w pg|w key view Hp|w i key Hi Hp|w i key Hi Hm|w i key t0 view Hi Hv|w i key view t0 Hi|w i].
  - by split.
  - by split.
  - split; try done. simpl. intros key' t [[= -> ->]|Hin]%elem_of_cons; [|by apply Hgr'].
    unfold probe in Hp. rewrite Httl in Hp. destruct (0 <? ttl)%Z; [|done].
    destruct (ac_cache (sy_cache w) !! key) as [e|] eqn:Ek; [|done].
    destruct (Z.ltb_spec (sy_now w) (ce_expiresAt e)); [|done].
    destruct (Hcache' key e Ek) as (t0 & ts & Hm & Hl & Hx). exists t0, ts.
    split_and!; [done|done|right; lia].
  - split; try done. simpl. intros j t [[<- <-]|[_ Hj]]%lookup_insert_Some; [done|by apply (Htasks' j)].
  - split; try done. simpl. intros j t [[<- <-]|[_ Hj]]%lookup_insert_Some; [|by apply (Htasks' j)].
    split; simpl; [lia|]. exists (pg_db (sy_pg w)). split; [left|]. by apply match_token_sound.
  - split; try done. simpl. intros j t [[<- <-]|[_ Hj]]%lookup_insert_Some; [|by apply (Htasks' j)].
    exact (Htasks' _ _ Hi).
  - pose proof (Htasks' _ _ Hi) as Hm. simpl in Hm. split; simpl.
    + unfold store. by destruct (0 <? _)%Z.
    + intros j t [_ Hj]%lookup_delete_Some. by apply (Htasks' j).
    + intros key' e He'. unfold store in He'. destruct (0 <? _)%Z eqn:E; [|by apply Hcache'].
      simpl in He'. apply lookup_insert_Some in He' as [[<- <-]|[_ He']]; [|by apply Hcache'].
      exists t0, (sy_now w). split_and!; [done|left|simpl; by rewrite Httl].
    + intros key' t [[= -> ->]|Hin]%elem_of_cons; [|by apply Hgr'].
      exists t0, (sy_now w). split_and!; [done|left|by left].
  - split; try done. simpl. intros j t [_ Hj]%lookup_delete_Some. by apply (Htasks' j).
Qed.

Lemma auth_inv_reachable ttl w : reachable ttl w -> sys_inv ttl w.
Proof.
  intros (now & pg & Hr). assert (sys_inv ttl (sys_init ttl now pg)) as H0.
  { split; simpl; try done. all: intros *; rewrite ?lookup_empty; try done. by intros ?%elem_of_nil. }
  induction Hr as [w|w w1 w2 Hs _ IH]; [done|]. apply IH. by eapply auth_inv_step.
Qed.
End system.

(** ** Properties *)

(** A revoked token stops working within a bounded time.  Over any
    interleaving of requests, database writes and the clock: when every
    lookup that succeeded stored its answer within [d] of reading the tokens,
    and no read from [r] on saw an active matching token (it was revoked, or
    never issued), no request gets a positive answer for it at [r + d] plus
    the cache lifetime or later; cached answers do not extend their own
    lifetime. *)
Theorem revocation_latency `{Bcrypt} ttl w key r d :
  reachable ttl w ->
  (forall t0 ts, (t0, ts) ∈ sy_lookups w -> (ts <= t0 + d)%Z) ->
  (forall t0 db, (t0, db) ∈ sy_reads w -> (r <= t0)%Z -> ~ active_match db key) ->
  forall t, (key, t) ∈ sy_granted w -> (t < r + d + Z.max 0 ttl)%Z.
Proof.
  intros Hr Hd Hrev t Ht. apply auth_inv_reachable in Hr.
  destruct (si_granted _ _ Hr key t Ht) as (t0 & ts & [_ (db & Hin & Hm)] & Hl & Hor).
  pose proof (Hd t0 ts Hl). destruct (Z.le_gt_cases r t0) as [Hle|Hlt]; [|lia].
  by destruct (Hrev t0 db Hin Hle).
Qed.

(** The answer to a well-formed credential check.  With round trips
    served no table changes.  A cached answer is given again as it is;
    otherwise the answer is 200 with the node's policy, team and version
    exactly when the node exists and an active token of it matches, and it is
    then cached for one lifetime; in every other case (unknown node, wrong
    token, revoked token) it is one and the same 401, and nothing is
    cached. *)
Theorem ServeHTTP_spec `{UUIDLib, Bcrypt} now1 now2 req nodeID s :
  clean (as_pg s) -> uuid_Parse (rq_NodeID req) = Ok nodeID -> rq_Token req <> "" ->
  let key := (nodeID, rq_Token req) in
  let d := pg_db (as_pg s) in
  let '(resp, s') := ServeHTTP now1 now2 "POST" (Decoded req) s in
  pg_db (as_pg s') = d /\
  match probe now1 key (as_cache s) with
  | Some view => resp = WriteJSON StatusOK (granted nodeID view) /\ as_cache s' = as_cache s
  | None =>
      (forall n, active_match d key -> db_nodes d !! nodeID = Some n ->
         resp = WriteJSON StatusOK (granted nodeID (auth_info n nodeID)) /\
         as_cache s' = store now2 key (auth_info n nodeID) (as_cache s)) /\
      (~ active_match d key \/ db_nodes d !! nodeID = None ->
         resp = WriteError StatusUnauthorized "unauthenticated" "invalid or revoked token" /\
         as_cache s' = as_cache s)
  end.
Proof.
  intros Hs Hp Ht key d. unfold ServeHTTP. rewrite String.eqb_refl. change (negb true) with false.
  cbv iota. rewrite Hp. rewrite (proj2 (String.eqb_neq (rq_Token req) "")) by done.
  fold key. rewrite (bind_eq (S := AuthState)). unfold lookup.
  destruct (probe now1 key (as_cache s)) as [view|]; [done|].
  rewrite (bind_eq (S := AuthState)). unfold onAuthPg.
  destruct (match_token_clean key (as_pg s) Hs) as [Hm Hm2].
  destruct (match_token key (as_pg s)) as [b pg1]. simpl in Hm, Hm2. subst pg1. fold d in Hm.
  destruct b; simpl.
  - rewrite (bind_eq (S := AuthState)).
    destruct (NodeAuthView_clean nodeID (tick d (as_pg s))) as [Hv Hv2]; [by apply tick_clean|].
    fold d in Hv2 |- *. simpl in Hv, Hv2.
    destruct (NodeAuthView nodeID _) as [v pg2]. simpl in *. subst v.
    destruct (db_nodes d !! nodeID) as [n|] eqn:En; simpl.
    + split_and!; [done| |].
      * intros n' _ [= <-]. done.
      * intros [Hn|?]; [|done]. exfalso. apply Hn. by apply Hm.
    + split_and!; [done|done|done].
  - split_and!; [done| |done]. intros n Ha _. apply Hm in Ha. done.
Qed.

(** ** Witnesses *)
Section witnesses.
#[local] Existing Instances demo_bcrypt DemoUUID.lib.

Definition agent_token (revoked : option Time) : NodeToken :=
  {| nt_ID := 30; nt_NodeID := 3; nt_TokenHash := "$secret"; nt_CreatedAt := 0;
     nt_RevokedAt := revoked; nt_CreatedBy := None |}.

Definition token_pg (revoked : option Time) : Pg :=
  on_demo (set_node_tokens {[ 30%N := agent_token revoked ]} demo_db).

Definition agent_key : cacheKey := (3%N, "secret").

(** A lookup at 10, cached at 11; the token is revoked at 20; a request at 70
    is still answered from the cache. *)
Definition revoked_run : sys :=
  {| sy_now := 70; sy_pg := token_pg (Some 20%Z);
     sy_cache := store 11 agent_key (auth_info demo_node 3) (NewHandler 60);
     sy_tasks := ∅; sy_reads := [(10%Z, pg_db (token_pg None))]; sy_lookups := [(10, 11)%Z];
     sy_granted := [(agent_key, 70%Z); (agent_key, 11%Z)] |}.

(** One step of a run, with the fields of the state it reaches computed. *)
Ltac run_step r :=
  eapply rtc_l; [eapply r; vm_compute; first [reflexivity | congruence]|];
  cbn [sys_init sy_now sy_pg sy_cache sy_tasks sy_reads sy_lookups sy_granted].

Lemma revoked_run_reachable : reachable 60 revoked_run.
Proof.
  exists 10%Z, (token_pg None).
  run_step (st_miss (sys_init 60 10 (token_pg None)) 0 agent_key).
  run_step (fun w => st_match w 0 agent_key).
  run_step (fun w => st_view w 0 agent_key 10 (auth_info demo_node 3)).
  run_step (fun w => st_time w 11).
  run_step (fun w => st_store w 0 agent_key (auth_info demo_node 3) 10).
  eapply rtc_l; [eapply (st_db _ (token_pg (Some 20%Z)))|];
  cbn [sy_now sy_pg sy_cache sy_tasks sy_reads sy_lookups sy_granted].
  run_step (fun w => st_time w 70).
  run_step (fun w => st_hit w agent_key (auth_info demo_node 3)).
  match goal with |- rtc _ ?x ?y => replace y with x; [apply rtc_refl|vm_compute; reflexivity] end.
Qed.

Lemma not_active_revoked t : ~ active_match (pg_db (token_pg (Some t))) agent_key.
Proof. rewrite <- active_match_exists. vm_compute. done. Qed.

Lemma revocation_latency_witness :
  (agent_key, 70%Z) ∈ sy_granted revoked_run /\ (70 < 20 + 1 + 60)%Z.
Proof.
  assert ((agent_key, 70%Z) ∈ sy_granted revoked_run) as Hin by left.
  split; [exact Hin|].
  apply (revocation_latency 60 revoked_run agent_key 20 1 revoked_run_reachable); [| |exact Hin].
  - intros t0 ts [= -> ->]%list_elem_of_singleton. lia.
  - intros t0 db [= -> ->]%list_elem_of_singleton. lia.
Defined.

Lemma ServeHTTP_spec_witness :
  (ServeHTTP 10 11 "POST" (Decoded {| rq_NodeID := uuid_String 3; rq_Token := "secret" |})
     {| as_pg := token_pg None; as_cache := NewHandler 60 |}).1 =
  WriteJSON StatusOK (granted 3 (auth_info demo_node 3)).
Proof.
  assert (uuid_Parse (uuid_String 3) = Ok 3%N) as Hid by (vm_compute; reflexivity).
  pose proof (ServeHTTP_spec 10 11 {| rq_NodeID := uuid_String 3; rq_Token := "secret" |} 3%N
    {| as_pg := token_pg None; as_cache := NewHandler 60 |} eq_refl Hid ltac:(discriminate)) as H.
  cbv zeta in H. destruct (ServeHTTP _ _ _ _ _) as [resp s'].
  destruct H as [_ H]. change (probe _ _ _) with (@None NodeAuthInfo) in H.
  destruct H as [H _]. apply (H demo_node); [|reflexivity].
  apply active_match_exists. vm_compute. reflexivity.
Defined.
End witnesses.
