(* ===== verification/AdminInstances.v ===== *)
(** * The instance handlers (internal/api/admin_instances.go)

    [validateCreate], [reserveIfNeeded], [resolvePassthroughPCI], the
    reservation -> create -> bind -> dispatch sequence [runCreate] with its
    clean-up on every failure, [Create], [CreateForOwner], [Delete], [List].

    A handler runs over the database and a dispatcher ([Dispatcher.World]);
    the request body is the outcome of reading and decoding it. *)

From S2P Require Import Prelude GoStrings Proto Db Queries Demo InstanceState InstanceRepo SlotRepo NodeRepo AgentRegistry Dispatcher Http.

#[local] Open Scope string_scope.
#[local] Open Scope list_scope.
#[local] Open Scope go_scope.

Record createInstanceRequest := {
  req_NodeID : string;
  req_Name : string;
  req_MemoryMb : Z;
  req_VCPUs : Z;
  req_GPUCount : Z;
  req_SSHPubkeys : option (list string);       (* [None]: a nil slice *)
  req_ImageRef : string
}.

Record InstanceView := {
  iv_ID : UUID;
  iv_NodeID : UUID;
  iv_Name : string;
  iv_State : string;
  iv_MemoryMb : Z;
  iv_VCPUs : Z;
  iv_GPUCount : Z;
  iv_SSHPubkeys : list string;
  iv_VMInternalIP : string;
  iv_ErrorMessage : string;
  iv_CreatedAt : Time;
  iv_UpdatedAt : Time
}.

Definition toInstanceView (i : InstanceRow) : InstanceView :=
  {| iv_ID := in_ID i; iv_NodeID := in_NodeID i; iv_Name := in_Name i;
     iv_State := InstanceState_text (in_State i); iv_MemoryMb := in_MemoryMb i;
     iv_VCPUs := in_Vcpus i; iv_GPUCount := in_GpuCount i; iv_SSHPubkeys := in_SshPubkeys i;
     iv_VMInternalIP := default "" (in_VmInternalIp i); iv_ErrorMessage := in_ErrorMessage i;
     iv_CreatedAt := in_CreatedAt i; iv_UpdatedAt := in_UpdatedAt i |}.

(** One pass of [mergeSSHPubkeys]: append what has not been seen. *)
Fixpoint merge_into (out : list string) (seen : gset string) (l : list string)
    : list string * gset string :=
  match l with
  | [] => (out, seen)
  | k :: l' => if decide (k ∈ seen) then merge_into out seen l'
               else merge_into (out ++ [k]) ({[ k ]} ∪ seen) l'
  end.

Definition mergeSSHPubkeys (a b : list string) : list string :=
  let '(out, seen) := merge_into [] ∅ a in
  (merge_into out seen b).1.

Section handlers.
Context `{UUIDLib, Collation}.
(** [protojson.Unmarshal] into an [agentv1.Topology]. *)
Context (protojson_Unmarshal : string -> result Topology).

(** [byIndex[g.Index] = g] for each GPU: the last one of an index stays. *)
Definition gpu_by_index (gpus : list Gpu) (idx : Z) : option Gpu :=
  List.find (fun g => Z.eqb (gpu_Index g) idx) (rev gpus).

Fixpoint slot_pcis (gpus : list Gpu) (indices : list Z) : result (list string) :=
  match indices with
  | [] => Ok []
  | idx :: rest =>
      match gpu_by_index gpus idx with
      | None => Err (ErrNew ("gpu index " +:+ Itoa idx +:+ " not in topology"))
      | Some gpu => result_map (fun l => gpu_PciAddress gpu :: gpu_CompanionPciAddresses gpu ++ l)
                               (slot_pcis gpus rest)
      end
  end.

Definition resolvePassthroughPCI (topologyJSON : string) (slots : list GpuSlot)
    : result (list string) :=
  if String.eqb topologyJSON "" || String.eqb topologyJSON "{}" then
    Err (ErrNew "node has no stored topology")
  else match protojson_Unmarshal topologyJSON with
       | Err e => Err (ErrWrap "parse topology: " e "")
       | Ok top => slot_pcis (top_Gpus top) (flat_map gs_GpuIndices slots)
       end.

(** The optional collaborators; the repositories are those of
    InstanceRepo.v, NodeRepo.v and SlotRepo.v. *)
Record InstanceHandlers := {
  h_Slots : bool;                                      (* wired? *)
  h_ExtraSSHKeysForOwner : option (UUID -> ST Pg (list string));
  h_BalanceForOwner : option (UUID -> ST Pg (result Z));
  h_TeamMembership : option (UUID -> UUID -> ST Pg (result bool))
}.

Context `{Dispatcher D}.
Implicit Types (h : InstanceHandlers) (req : createInstanceRequest) (node : Node).

Definition validateCreate (body : Body createInstanceRequest)
    : ST (World D) (checked (createInstanceRequest * Node)) :=
  match body with
  | ReadFailed e => ret (Reject StatusBadRequest "read_body" e)
  | BadJSON e => ret (Reject StatusBadRequest "bad_json" e)
  | Decoded req =>
      match uuid_Parse (req_NodeID req) with
      | Err e => ret (Reject StatusBadRequest "bad_node_id" (Error e))
      | Ok nodeID =>
          if String.eqb (req_Name req) "" || (req_MemoryMb req <=? 0)%Z || (req_VCPUs req <=? 0)%Z
          then ret (Reject StatusBadRequest "bad_fields" "name, memory_mb, vcpus required")
          else if (req_GPUCount req <? 0)%Z
          then ret (Reject StatusBadRequest "bad_gpu_count" "gpu_count must be >= 0")
          else
            r <- onPg (GetNode nodeID) ;;
            match r with
            | Err e => ret (Reject StatusNotFound "node_not_found" (Error e))
            | Ok node =>
                if negb (bool_decide (nd_Status node = NodeStatusOnline))
                then ret (Reject StatusConflict "node_offline" "target node is not online")
                else fun w =>
                  if negb (dispatch_Connected (nd_ID node) (w_agents w))
                  then (Reject StatusConflict "agent_not_connected" "agent stream is not open", w)
                  else (Pass (req, node), w)
            end
      end
  end.

(** The reservation of the create and the PCI addresses to pass through. *)
Definition reserveIfNeeded h req node
    : ST (World D) (checked (Reservation * list string)) :=
  if decide (req_GPUCount req = 0%Z) then ret (Pass ({| rsv_Slots := [] |}, []))
  else if negb (h_Slots h) then
    ret (Reject StatusInternalServerError "slots_unavailable" "slot repo not wired")
  else
    r <- onPg (Reserve (nd_ID node) (req_GPUCount req) 1) ;;
    match r with
    | Err e =>
        if errors_Is e ErrNoFreeSlots then ret (Reject StatusConflict "no_free_slots" (Error e))
        else ret (Reject StatusInternalServerError "reserve_failed" (Error e))
    | Ok res =>
        match resolvePassthroughPCI (nd_TopologyJson node) (rsv_Slots res) with
        | Ok pci => ret (Pass (res, pci))
        | Err e =>
            onPg (ReleaseReserved res) ;;;
            ret (Reject StatusInternalServerError "resolve_pci" (Error e))
        end
    end.

Definition create_message (inst : InstanceRow) (res : Reservation) (pci : list string)
    : ControlMessage :=
  CM_CreateInstance
    {| ci_InstanceId := uuid_String (in_ID inst); ci_Name := in_Name inst;
       ci_MemoryMb := uint32 (in_MemoryMb inst); ci_Vcpus := uint32 (in_Vcpus inst);
       ci_SshPubkeys := in_SshPubkeys inst; ci_SlotIndices := SlotIndices res;
       ci_ImageRef := in_ImageRef inst; ci_PassthroughPciAddresses := pci |}.

Definition dispatchCreate (nodeID : UUID) (inst : InstanceRow) (res : Reservation)
    (pci : list string) : ST (World D) (result unit) :=
  onAgents (dispatch_Send nodeID (create_message inst res pci)).

Definition markFailed (id : UUID) (reason errMsg : string) : ST (World D) unit :=
  onPg (Transition id InstanceStateFailed
          {| to_Reason := reason; to_ErrorMessage := errMsg; to_VMInternalIP := "";
             to_EventMetadata := ""; to_SkipIdempotent := false |}) ;;;
  ret tt.

Definition create_input req node (ownerID : option UUID) (res : Reservation) : CreateInput :=
  {| cin_OwnerID := ownerID; cin_NodeID := nd_ID node; cin_Name := req_Name req;
     cin_MemoryMiB := req_MemoryMb req; cin_VCPUs := req_VCPUs req;
     cin_GPUCount := req_GPUCount req; cin_SlotIndices := Some (SlotIndices res);
     cin_SSHPubkeys := req_SSHPubkeys req; cin_ImageRef := req_ImageRef req |}.

(** The second half of [runCreate]: the row exists; bind, then dispatch. *)
Definition bind_and_dispatch req node (inst : InstanceRow) (res : Reservation) (pci : list string)
    : ST (World D) (Resp InstanceView) :=
  b <- (if (0 <? req_GPUCount req)%Z then onPg (BindToInstance res (in_ID inst))
        else ret (Ok tt)) ;;
  match b with
  | Err e =>
      onPg (ReleaseReserved res) ;;;
      markFailed (in_ID inst) "bind_failed" (Error e) ;;;
      ret (WriteError StatusInternalServerError "bind_failed" (Error e))
  | Ok _ =>
      d <- dispatchCreate (nd_ID node) inst res pci ;;
      match d with
      | Err e =>
          (if (0 <? req_GPUCount req)%Z then onPg (ReleaseForInstance (in_ID inst)) ;;; ret tt
           else ret tt) ;;;
          markFailed (in_ID inst) "dispatch_failed" (Error e) ;;;
          ret (WriteError StatusBadGateway "dispatch_failed" (Error e))
      | Ok _ => ret (WriteJSON StatusCreated (toInstanceView inst))
      end
  end.

Definition runCreate h req node (ownerID : option UUID) : ST (World D) (Resp InstanceView) :=
  bindC (reserveIfNeeded h req node) (fun '(res, pci) =>
  r <- onPg (Create (create_input req node ownerID res)) ;;
  match r with
  | Err e =>
      (if (0 <? req_GPUCount req)%Z then onPg (ReleaseReserved res) ;;; ret tt else ret tt) ;;;
      ret (WriteError StatusInternalServerError "create_failed" (Error e))
  | Ok inst => bind_and_dispatch req node inst res pci
  end).

Definition admin_Create h (body : Body createInstanceRequest) : ST (World D) (Resp InstanceView) :=
  bindC (validateCreate body) (fun '(req, node) => runCreate h req node None).

(** The team gate of [CreateForOwner]. *)
Definition check_team h node (ownerID : UUID) : ST (World D) (checked unit) :=
  match h_TeamMembership h with
  | Some isMember =>
      if String.eqb (nd_AccessPolicy node) "owner_team" then
        match nd_OwnerTeamID node with
        | None => ret (Reject StatusNotFound "node_not_found" "node not found")
        | Some team =>
            r <- onPg (isMember ownerID team) ;;
            match r with
            | Err e => ret (Reject StatusInternalServerError "membership_lookup" (Error e))
            | Ok true => ret (Pass tt)
            | Ok false => ret (Reject StatusNotFound "node_not_found" "node not found")
            end
        end
      else ret (Pass tt)
  | None => ret (Pass tt)
  end.

(** The credit gate of [CreateForOwner]. *)
Definition check_balance h (ownerID : UUID) : ST (World D) (checked unit) :=
  match h_BalanceForOwner h with
  | None => ret (Pass tt)
  | Some balanceOf =>
      r <- onPg (balanceOf ownerID) ;;
      match r with
      | Err e => ret (Reject StatusInternalServerError "balance_lookup" (Error e))
      | Ok balance =>
          if (balance <=? 0)%Z then
            ret (Reject StatusPaymentRequired "insufficient_balance"
                   "credit balance must be positive to create an instance")
          else ret (Pass tt)
      end
  end.

Definition with_keys (keys : list string) req : createInstanceRequest :=
  {| req_NodeID := req_NodeID req; req_Name := req_Name req; req_MemoryMb := req_MemoryMb req;
     req_VCPUs := req_VCPUs req; req_GPUCount := req_GPUCount req;
     req_SSHPubkeys := Some keys; req_ImageRef := req_ImageRef req |}.

Definition add_owner_keys h req (ownerID : UUID) : ST (World D) createInstanceRequest :=
  match h_ExtraSSHKeysForOwner h with
  | None => ret req
  | Some extraKeys =>
      extras <- onPg (extraKeys ownerID) ;;
      ret (with_keys (mergeSSHPubkeys (default [] (req_SSHPubkeys req)) extras) req)
  end.

Definition CreateForOwner h (body : Body createInstanceRequest) (ownerID : UUID)
    : ST (World D) (Resp InstanceView) :=
  bindC (validateCreate body) (fun '(req, node) =>
  bindC (check_team h node ownerID) (fun _ =>
  bindC (check_balance h ownerID) (fun _ =>
  req <- add_owner_keys h req ownerID ;;
  runCreate h req node (Some ownerID)))).

(** What [Delete] does with a row, shared with the user's handler; [reason]
    is the reason recorded in the audit log. *)
Definition delete_instance h (id : UUID) (inst : InstanceRow) (reason : string)
    : ST (World D) (Resp InstanceView) :=
  if bool_decide (in_State inst = InstanceStateStopped) ||
     bool_decide (in_State inst = InstanceStateFailed) then
    (if h_Slots h then onPg (ReleaseForInstance id) ;;; ret tt else ret tt) ;;;
    r <- onPg (Delete id) ;;
    match r with
    | Err e => ret (WriteError StatusInternalServerError "delete_failed" (Error e))
    | Ok _ => ret (WriteHeader StatusNoContent)
    end
  else
    r <- onPg (Transition id InstanceStateStopping
           {| to_Reason := reason; to_ErrorMessage := ""; to_VMInternalIP := "";
              to_EventMetadata := ""; to_SkipIdempotent := false |}) ;;
    let refused := match r with
                   | Err e => if errors_Is e ErrInvalidTransition then None else Some e
                   | Ok _ => None
                   end in
    match refused with
    | Some e => ret (WriteError StatusInternalServerError "transition_failed" (Error e))
    | None =>
        s <- onAgents (dispatch_Send (in_NodeID inst) (CM_DestroyInstance (uuid_String (in_ID inst)))) ;;
        match s with
        | Err e => if errors_Is e ErrAgentNotConnected then ret (WriteHeader StatusAccepted)
                   else ret (WriteError StatusBadGateway "dispatch_failed" (Error e))
        | Ok _ => ret (WriteHeader StatusAccepted)
        end
    end.

Definition admin_Delete h (idStr : string) : ST (World D) (Resp InstanceView) :=
  match uuid_Parse idStr with
  | Err e => ret (WriteError StatusBadRequest "bad_id" (Error e))
  | Ok id =>
      r <- onPg (Get id) ;;
      match r with
      | Err e => ret (WriteError StatusNotFound "not_found" (Error e))
      | Ok inst => delete_instance h id inst "admin_delete"
      end
  end.

Definition admin_List : ST (World D) (Resp (list InstanceView)) :=
  r <- onPg (ListForOwner None) ;;
  match r with
  | Err e => ret (WriteError StatusInternalServerError "list_failed" (Error e))
  | Ok rows => ret (WriteJSON StatusOK (toInstanceView <$> rows))
  end.
End handlers.
