(* ===== verification/CreateProof.v ===== *)
(** * What a create request does to the slots

    The proof of the clean-up discipline of [runCreate]: whatever fails after
    the reservation, the slot table is the one the request found. *)

From S2P Require Import Prelude GoStrings Proto Db Queries Demo InstanceState InstanceRepo SlotRepo NodeRepo AgentRegistry Dispatcher Http AdminInstances.

#[local] Open Scope string_scope.
#[local] Open Scope list_scope.
#[local] Open Scope go_scope.

(** The instance repository does not touch slots. *)
Definition slots_are (m : gmap UUID GpuSlot) (d : DB) : Prop := db_gpu_slots d = m.

Lemma Transition_gpu_slots id to opts s :
  db_gpu_slots (pg_db (Transition id to opts s).2) = db_gpu_slots (pg_db s).
Proof.
  assert (preserves (on_db (slots_are (db_gpu_slots (pg_db s)))) (Transition id to opts)) as Hp.
  { unfold Transition. destruct (Validate to); [|apply preserves_ret]. apply inTx_preserves.
    intros s0 row s' Hs0 H. inv_ok. apply getInstance_Ok in Hok as [_ Hd].
    destruct (transition_refused _ _ _); [inv_ok|].
    apply transition_store_Ok in H as (i & env & env' & _ & _ & Hd').
    unfold on_db, slots_are in *. rewrite Hd'. simpl. by rewrite Hd. }
  by apply (Hp s).
Qed.

Lemma Create_Ok inp s row s' :
  Create inp s = (Ok row, s') ->
  db_instances (pg_db s) !! in_ID row = None /\
  db_gpu_slots (pg_db s') = db_gpu_slots (pg_db s) /\
  db_instances (pg_db s') = <[in_ID row := row]> (db_instances (pg_db s)) /\
  in_State row = InstanceStatePending /\ in_OwnerID row = cin_OwnerID inp /\
  in_NodeID row = cin_NodeID inp /\ in_Name row = cin_Name inp /\
  in_MemoryMb row = cin_MemoryMiB inp /\ in_Vcpus row = cin_VCPUs inp /\
  in_GpuCount row = cin_GPUCount inp /\
  in_SlotIndices row = default [] (cin_SlotIndices inp) /\
  in_SshPubkeys row = default [] (cin_SSHPubkeys inp) /\ in_ImageRef row = cin_ImageRef inp.
Proof.
  unfold Create. intros (s2 & Hb & ->)%inTx_Ok. inv_ok.
  apply createInstance_Ok in Hok as (-> & Hnone & _ & _ & Hd).
  apply insertInstanceEvent_Ok in Hok0. rewrite Hd in Hok0. simpl. rewrite Hok0. simpl in *.
  by split_and!.
Qed.

(** A failed [Create] changed nothing. *)
Lemma instance_writes_frame inp s :
  clean s -> match (Create inp s).1 with
             | Err _ => pg_db (Create inp s).2 = pg_db s
             | Ok _ => True
             end.
Proof.
  intros Hs. destruct (Create inp s).1 as [|e] eqn:He; [done|]. unfold Create in *.
  eapply inTx_atomic; [solve_suffix| |done]. unfold answered. rewrite Hs. constructor.
Qed.

Section one.
Context `{UUIDLib, Collation}.
Implicit Types (s : Pg) (p : GpuSlot).

(** A reservation of one slot. *)
Lemma Reserve_one n g s res s' :
  slots_ok (pg_db s) -> Reserve n g 1 s = (Ok res, s') ->
  exists p, db_gpu_slots (pg_db s) !! gs_ID p = Some p /\ free_slot n g p = true /\
    rsv_Slots res = [reserve_slot p] /\
    pg_db s' = set_gpu_slots (<[gs_ID p := reserve_slot p]> (db_gpu_slots (pg_db s))) (pg_db s).
Proof.
  intros Hd HR. apply Reserve_Ok in HR as (_ & Hlen & Hres & Hdb). cbv zeta in *.
  pose proof (pick_length n g 1 (db_gpu_slots (pg_db s)) ltac:(lia)) as Hl.
  pose proof (fun v => pick_free n g 1 (db_gpu_slots (pg_db s)) v) as Hf.
  pose proof (fun id => reserve_lookup (pg_db s) n g 1 id Hd) as Hlk. cbv zeta in Hlk.
  destruct (pick_slots n g 1 (db_gpu_slots (pg_db s))) as [|p [|]]; simpl in *; try lia.
  destruct (Hf p ltac:(left)) as [Hfree Hrow].
  pose proof (row_key gs_ID _ (slots_keyed _ Hd) p Hrow) as Hp.
  exists p. split_and!; [done|done|done|]. rewrite Hdb. f_equal.
  apply map_eq. intros id. rewrite Hlk, lookup_insert.
  destruct (decide (gs_ID p = id)) as [<-|Hne].
  - rewrite decide_True by left. by rewrite Hp.
  - rewrite decide_False; [done|]. rewrite list_elem_of_singleton. congruence.
Qed.

Lemma free_slot_eta n g p m d :
  slots_ok d -> db_gpu_slots d = m -> m !! gs_ID p = Some p -> free_slot n g p = true ->
  slot_with SlotStatusFree None p = p.
Proof.
  intros Hd <- Hp Hf. apply bool_decide_eq_true in Hf as (_ & Hst & _).
  pose proof (slots_ok_none d (gs_ID p) p Hd Hp) as Hcur. rewrite Hst in Hcur.
  rewrite <- (slot_eta p) at 2. by rewrite Hst, Hcur.
Qed.

(** Releasing it restores the table [m] it was taken from. *)
Lemma Release_one n g p res m d s :
  slots_ok d -> db_gpu_slots d = m -> m !! gs_ID p = Some p -> free_slot n g p = true ->
  rsv_Slots res = [reserve_slot p] ->
  clean s -> db_gpu_slots (pg_db s) = <[gs_ID p := reserve_slot p]> m ->
  pg_db (ReleaseReserved res s).2 = set_gpu_slots m (pg_db s).
Proof.
  intros Hd Hm Hp Hf Hres Hs Hsl. unfold ReleaseReserved. rewrite Hres. simpl.
  rewrite bindR_eq, exec_clean by done. simpl. rewrite Hsl. f_equal.
  apply map_eq. intros id. rewrite release_lookup, lookup_insert. unfold reserved_in, IDs.
  rewrite Hres. simpl. case_decide as E; simpl.
  - subst id. rewrite bool_decide_eq_true_2 by (split; [left|done]). rewrite Hp. f_equal.
    by rewrite <- (free_slot_eta n g p m d Hd Hm Hp Hf) at 2.
  - destruct (m !! id) as [v|] eqn:Hv; [|done]. simpl. f_equal.
    rewrite bool_decide_eq_false_2; [done|]. intros [Hin _].
    apply list_elem_of_singleton in Hin. subst m.
    rewrite (slots_keyed _ Hd id v Hv) in Hin. congruence.
Qed.

(** So does releasing the slots of the instance it was bound to, when the
    instance is new. *)
Lemma ReleaseFor_one n g p i m d s :
  slots_ok d -> db_gpu_slots d = m -> m !! gs_ID p = Some p -> free_slot n g p = true ->
  db_instances d !! i = None ->
  clean s ->
  (forall id, db_gpu_slots (pg_db s) !! id =
     if decide (id = gs_ID p) then Some (slot_with SlotStatusInUse (Some i) (reserve_slot p))
     else m !! id) ->
  pg_db (ReleaseForInstance i s).2 = set_gpu_slots m (pg_db s).
Proof.
  intros Hd Hm Hp Hf Hi Hs Hsl. unfold ReleaseForInstance. rewrite exec_clean by done.
  simpl. f_equal. apply map_eq. intros id. rewrite release_lookup, Hsl.
  unfold slot_of_instance. case_decide as E; simpl.
  - subst id. rewrite bool_decide_eq_true_2 by done. rewrite Hp. f_equal.
    by rewrite <- (free_slot_eta n g p m d Hd Hm Hp Hf) at 2.
  - destruct (m !! id) as [v|] eqn:Hv; [|done]. simpl. f_equal.
    rewrite bool_decide_eq_false_2; [done|]. intros Hc. subst m.
    destruct (so_inst _ _ _ (proj1 Hd id v Hv) i Hc) as [_ [? ?]]. congruence.
Qed.
End one.

Section run.
Context `{UUIDLib, Collation} (protojson_Unmarshal : string -> result Topology).
Context `{Dispatcher D}.
Implicit Types (h : InstanceHandlers) (req : createInstanceRequest) (node : Node) (w : World D).

Abbreviation slots_of w := (db_gpu_slots (pg_db (w_pg w))).
Abbreviation resolve := (resolvePassthroughPCI protojson_Unmarshal).

(** The state of a request that holds a reservation: none when it asked for
    no GPU, else one slot [p] of the table [m] it found. *)
Definition holding (m : gmap UUID GpuSlot) req node (res : Reservation) (pci : list string)
    (op : option GpuSlot) (d : DB) : Prop :=
  match op with
  | None => req_GPUCount req = 0%Z /\ rsv_Slots res = [] /\ pci = [] /\ db_gpu_slots d = m
  | Some p => (0 < req_GPUCount req)%Z /\ rsv_Slots res = [reserve_slot p] /\
      m !! gs_ID p = Some p /\ free_slot (nd_ID node) (req_GPUCount req) p = true /\
      resolve (nd_TopologyJson node) [p] = Ok pci /\
      db_gpu_slots d = <[gs_ID p := reserve_slot p]> m
  end.

Lemma resolve_reserved t p : resolve t [reserve_slot p] = resolve t [p].
Proof. done. Qed.

Lemma reserveIfNeeded_spec h req node w :
  clean (w_pg w) -> slots_ok (pg_db (w_pg w)) -> (0 <= req_GPUCount req)%Z ->
  let '(r, w') := reserveIfNeeded protojson_Unmarshal h req node w in
  clean (w_pg w') /\ w_agents w' = w_agents w /\
  db_instances (pg_db (w_pg w')) = db_instances (pg_db (w_pg w)) /\
  match r with
  | Reject _ _ _ => slots_of w' = slots_of w
  | Pass (res, pci) => exists op, holding (slots_of w) req node res pci op (pg_db (w_pg w'))
  end.
Proof.
  intros Hs Hd Hg. unfold reserveIfNeeded. case_decide as Hz.
  { split_and!; try done. by exists None. }
  destruct (h_Slots h); [|done]. simpl. rewrite bind_eq, onPg_eq. cbn [fst snd].
  pose proof (uses_suffix_clean (Reserve (nd_ID node) (req_GPUCount req) 1) (w_pg w)) as Hcl.
  pose proof (Reserve_spec (nd_ID node) (req_GPUCount req) 1 (w_pg w) Hs Hd) as HRs.
  destruct (Reserve (nd_ID node) (req_GPUCount req) 1 (w_pg w)) as [r s1] eqn:HR.
  simpl in *. assert (clean s1) as Hs1.
  { apply Hcl; [|done]. unfold Reserve. destruct (_ <=? _)%Z; [apply uses_suffix_ret|].
    solve_suffix. }
  destruct r as [res|e].
  2:{ destruct HRs as (_ & Hdb & _). destruct (errors_Is e ErrNoFreeSlots); simpl; by rewrite Hdb. }
  apply Reserve_one in HR as (p & Hp & Hf & Hres & Hdb); [|done].
  rewrite Hres. change (resolve (nd_TopologyJson node) [reserve_slot p])
    with (resolve (nd_TopologyJson node) [p]).
  destruct (resolve (nd_TopologyJson node) [p]) as [pci|e] eqn:Hr; simpl.
  - rewrite Hdb. split_and!; try done. exists (Some p). split_and!; try done. lia.
  - rewrite bind_eq, onPg_eq. simpl.
    rewrite (Release_one (nd_ID node) (req_GPUCount req) p res _ (pg_db (w_pg w)) s1)
      by (done || by rewrite Hdb).
    split_and!; [|done| |done].
    + apply uses_suffix_clean; [|done]. unfold ReleaseReserved. case_match; [apply uses_suffix_ret|].
      solve_suffix.
    + by rewrite Hdb.
Qed.

(** A failed create gives the reservation back. *)
Lemma release_holding m d0 req node res pci op s :
  slots_ok d0 -> db_gpu_slots d0 = m -> clean s -> holding m req node res pci op (pg_db s) ->
  db_gpu_slots (pg_db (ReleaseReserved res s).2) = m /\
  clean (ReleaseReserved res s).2.
Proof.
  intros Hd Hm Hs Hh. split.
  - destruct op as [p|].
    + destruct Hh as (_ & Hres & Hp & Hf & _ & Hsl).
      by rewrite (Release_one (nd_ID node) (req_GPUCount req) p res m d0).
    + destruct Hh as (_ & Hres & _ & Hsl). unfold ReleaseReserved. by rewrite Hres.
  - apply uses_suffix_clean; [|done]. unfold ReleaseReserved. case_match; [apply uses_suffix_ret|].
    solve_suffix.
Qed.

Lemma markFailed_slots id reason msg w : slots_of (markFailed id reason msg w).2 = slots_of w.
Proof. unfold markFailed. rewrite bind_eq, onPg_eq. simpl. apply Transition_gpu_slots. Qed.

(** What a created instance leaves in the slot table [m]. *)
Definition bound (m m' : gmap UUID GpuSlot) req node (inst : InstanceRow) (res : Reservation)
    (pci : list string) : Prop :=
  (req_GPUCount req = 0%Z /\ m' = m /\ SlotIndices res = [] /\ pci = []) \/
  (exists p, (0 < req_GPUCount req)%Z /\ m !! gs_ID p = Some p /\
     free_slot (nd_ID node) (req_GPUCount req) p = true /\
     SlotIndices res = [gs_SlotIndex p] /\ resolve (nd_TopologyJson node) [p] = Ok pci /\
     m' = <[gs_ID p := slot_with SlotStatusInUse (Some (in_ID inst)) p]> m).

Lemma suffix_Bind res i : uses_suffix (BindToInstance res i).
Proof. unfold BindToInstance. solve_suffix. Qed.

(** The bind, then the dispatch, of a created row. *)
Lemma bind_and_dispatch_spec m d0 req node inst res pci op w :
  slots_ok d0 -> db_gpu_slots d0 = m -> clean (w_pg w) ->
  holding m req node res pci op (pg_db (w_pg w)) ->
  db_instances d0 !! in_ID inst = None ->
  let '(resp, w') := bind_and_dispatch req node inst res pci w in
  match resp with
  | WriteJSON st v => st = StatusCreated /\ v = toInstanceView inst /\
      w_agents w' = (dispatch_Send (nd_ID node) (create_message inst res pci) (w_agents w)).2 /\
      db_instances (pg_db (w_pg w')) = db_instances (pg_db (w_pg w)) /\
      bound m (slots_of w') req node inst res pci
  | _ => slots_of w' = m
  end.
Proof.
  intros Hd Hm Hs Hh Hnew. unfold bind_and_dispatch. rewrite bind_eq. destruct op as [p|].
  2:{ destruct Hh as (Hz & Hres & -> & Hsl). rewrite Hz. simpl. rewrite bind_eq.
      unfold dispatchCreate. rewrite onAgents_eq. simpl. destruct (dispatch_Send _ _ _) as [[[]|e] ag]; simpl.
      - split_and!; try done. left. unfold SlotIndices. by rewrite Hres.
      - rewrite !bind_eq. simpl. by rewrite markFailed_slots. }
  pose proof Hh as (Hg & Hres & Hp & Hf & Hpci & Hsl). rewrite (proj2 (Z.ltb_lt 0 _)) by done.
  rewrite onPg_eq. cbn [fst snd].
  pose proof (uses_suffix_clean _ _ (suffix_Bind res (in_ID inst)) Hs) as Hs1.
  pose proof (BindToInstance_spec res (in_ID inst) (w_pg w)) as HB.
  assert (answered (w_pg w)) as Ha by (unfold answered; rewrite Hs; constructor).
  specialize (HB Ha). destruct (BindToInstance res (in_ID inst) (w_pg w)) as [[[]|e] s1].
  2:{ simpl in *. rewrite !bind_eq, onPg_eq. simpl. rewrite markFailed_slots. simpl.
      eapply (release_holding m d0 req node res pci (Some p)); try done. by rewrite HB. }
  destruct HB as (_ & m' & Hdb & Hm').
  assert (forall id, m' !! id = if decide (id = gs_ID p)
      then Some (slot_with SlotStatusInUse (Some (in_ID inst)) (reserve_slot p)) else m !! id) as Hb.
  { intros id. rewrite Hm', Hsl. unfold IDs. rewrite Hres. simpl. rewrite lookup_insert.
    destruct (decide (id = gs_ID p)) as [->|Hne].
    - rewrite decide_True by left. by rewrite decide_True.
    - rewrite decide_False by by rewrite list_elem_of_singleton. by rewrite decide_False by congruence. }
  simpl. rewrite bind_eq. unfold dispatchCreate. rewrite onAgents_eq. simpl.
  destruct (dispatch_Send _ _ _) as [[[]|e] ag]; simpl.
  - rewrite Hdb. split_and!; try done. right. exists p. split_and!; try done.
    + unfold SlotIndices. by rewrite Hres.
    + simpl. apply map_eq. intros id. rewrite Hb, lookup_insert.
      destruct (decide (id = gs_ID p)) as [->|Hne]; [by rewrite decide_True|].
      by rewrite decide_False by congruence.
  - rewrite !bind_eq, onPg_eq. simpl. rewrite markFailed_slots. simpl.
    rewrite (ReleaseFor_one (nd_ID node) (req_GPUCount req) p (in_ID inst) m d0); try done.
    intros id. rewrite Hdb. apply Hb.
Qed.
End run.

Section create_property.
Context `{UUIDLib, Collation} (protojson_Unmarshal : string -> result Topology).
Context `{Dispatcher D}.

(** What a create does to the slots, rows and agents. *)
Definition create_effect req (node : Node) owner (w w' : World D) (resp : Resp InstanceView) : Prop :=
  let slots := db_gpu_slots (pg_db (w_pg w)) in
  let slots' := db_gpu_slots (pg_db (w_pg w')) in
  match resp with
  | WriteJSON st v => st = StatusCreated /\ exists inst res pci,
      v = toInstanceView inst /\ in_State inst = InstanceStatePending /\
      in_OwnerID inst = owner /\ in_NodeID inst = nd_ID node /\
      in_Name inst = req_Name req /\ in_MemoryMb inst = req_MemoryMb req /\
      in_SlotIndices inst = SlotIndices res /\
      in_SshPubkeys inst = default [] (req_SSHPubkeys req) /\
      db_instances (pg_db (w_pg w)) !! in_ID inst = None /\
      db_instances (pg_db (w_pg w')) = <[in_ID inst := inst]> (db_instances (pg_db (w_pg w))) /\
      w_agents w' = (dispatch_Send (nd_ID node) (create_message inst res pci) (w_agents w)).2 /\
      bound protojson_Unmarshal slots slots' req node inst res pci
  | _ => slots' = slots
  end.

Lemma runCreate_effect h req node owner (w : World D) :
  clean (w_pg w) -> slots_ok (pg_db (w_pg w)) -> (0 <= req_GPUCount req)%Z ->
  let '(resp, w') := runCreate protojson_Unmarshal h req node owner w in
  create_effect req node owner w w' resp.
Proof.
  intros Hs Hd Hg. unfold create_effect, runCreate. rewrite bindC_eq.
  pose proof (reserveIfNeeded_spec protojson_Unmarshal h req node w Hs Hd Hg) as HR.
  destruct (reserveIfNeeded _ h req node w) as [[[res pci]|st code msg] w1].
  2:{ by destruct HR as (_ & _ & _ & HR). }
  destruct HR as (Hs1 & Ha1 & Hi1 & op & Hh). rewrite bind_eq, onPg_eq. cbn [fst snd].
  pose proof (uses_suffix_clean _ _ (suffix_Create (create_input req node owner res)) Hs1) as Hs2.
  pose proof (instance_writes_frame (create_input req node owner res) (w_pg w1) Hs1) as Herr.
  destruct (Create (create_input req node owner res) (w_pg w1)) as [[inst|e] s2] eqn:HC.
  - apply Create_Ok in HC as (Hnew & Hsl & Hinst & Hst & Ho & Hn & Hnm & Hmem & _ & _ & Hidx & Hkeys & _).
    simpl in *. rewrite Hi1 in Hnew, Hinst.
    assert (holding protojson_Unmarshal (db_gpu_slots (pg_db (w_pg w))) req node res pci op (pg_db s2))
      as Hh2 by (destruct op; unfold holding in *; by rewrite Hsl).
    pose proof (bind_and_dispatch_spec protojson_Unmarshal _ (pg_db (w_pg w)) req node inst res pci op
      (Build_World s2 (w_agents w1)) Hd eq_refl Hs2 Hh2 Hnew) as HB.
    destruct (bind_and_dispatch req node inst res pci _) as [[st code msg|st v|st] w3] eqn:E; try done.
    destruct HB as (-> & -> & Ha & Hi & Hb). split; [done|].
    exists inst, res, pci. rewrite Ha, Hi, <- Ha1. simpl. by split_and!.
  - simpl in *. rewrite bind_eq.
    destruct (0 <? req_GPUCount req)%Z eqn:Hpos; simpl.
    + rewrite bind_eq, onPg_eq. simpl.
      eapply (release_holding protojson_Unmarshal _ (pg_db (w_pg w)) req node res pci op); try done.
      by rewrite Herr.
    + rewrite Herr. destruct op as [p|]; [destruct Hh as (? & _); lia|]. by destruct Hh as (_ & _ & _ & ?).
Qed.

(** C1: a create request never strands GPU capacity.  With round trips
    served, whatever fails after the reservation (unresolvable PCI devices,
    the row, the bind, the dispatch), the slot table ends as the request
    found it.  On success the row is new and pending, its CreateInstance
    message went to the node with the row's id, size, keys and slot, and,
    when a GPU count was asked for, exactly one free slot of that size on
    that node is now in use by the instance and the message passes through
    the PCI addresses of that slot's GPUs; no other slot changed. *)
Theorem runCreate_slots h req node owner (w : World D) :
  clean (w_pg w) -> slots_ok (pg_db (w_pg w)) -> (0 <= req_GPUCount req)%Z ->
  let '(resp, w') := runCreate protojson_Unmarshal h req node owner w in
  let slots := db_gpu_slots (pg_db (w_pg w)) in
  let slots' := db_gpu_slots (pg_db (w_pg w')) in
  match resp with
  | WriteJSON st v => st = StatusCreated /\ exists inst res pci,
      v = toInstanceView inst /\ in_State inst = InstanceStatePending /\
      in_OwnerID inst = owner /\ in_NodeID inst = nd_ID node /\
      in_Name inst = req_Name req /\ in_MemoryMb inst = req_MemoryMb req /\
      in_SlotIndices inst = SlotIndices res /\
      in_SshPubkeys inst = default [] (req_SSHPubkeys req) /\
      db_instances (pg_db (w_pg w)) !! in_ID inst = None /\
      db_instances (pg_db (w_pg w')) = <[in_ID inst := inst]> (db_instances (pg_db (w_pg w))) /\
      w_agents w' = (dispatch_Send (nd_ID node) (create_message inst res pci) (w_agents w)).2 /\
      bound protojson_Unmarshal slots slots' req node inst res pci
  | _ => slots' = slots
  end.
Proof. exact (runCreate_effect h req node owner w). Qed.
End create_property.

(** ** Witness *)
Section witness.
#[local] Existing Instance C_collation.
#[local] Existing Instance DemoUUID.lib.

(** A topology with one GPU per slot of the demo node. *)
Definition demo_gpu (i : Z) : Gpu :=
  {| gpu_Index := i; gpu_PciAddress := "0000:0" +:+ Itoa i +:+ ":00.0"; gpu_Model := "m";
     gpu_MemoryBytes := 0; gpu_IommuGroup := "1"; gpu_Driver := "vfio-pci";
     gpu_CompanionPciAddresses := ["0000:0" +:+ Itoa i +:+ ":00.1"]; gpu_VfioReady := true;
     gpu_BindBlocker := "" |}.

Definition demo_topology : Topology :=
  {| top_Gpus := [demo_gpu 0; demo_gpu 1; demo_gpu 2]; top_IommuEnabled := true;
     top_Profile := None |}.

Definition demo_unmarshal (s : string) : result Topology := Ok demo_topology.

Definition demo_handlers : InstanceHandlers :=
  {| h_Slots := true; h_ExtraSSHKeysForOwner := None; h_BalanceForOwner := None;
     h_TeamMembership := None |}.

Definition demo_req : createInstanceRequest :=
  {| req_NodeID := uuid_String 3; req_Name := "vm2"; req_MemoryMb := 2048; req_VCPUs := 4;
     req_GPUCount := 1; req_SSHPubkeys := Some ["ssh-ed25519 k"]; req_ImageRef := "" |}.

Definition demo_world (fs : list fault) : World OpenRegistry :=
  {| w_pg := demo fs; w_agents := demo_agents |}.

(** The first free slot of the node is bound to the new instance. *)
Lemma runCreate_slots_witness :
  let '(_, w') := runCreate demo_unmarshal demo_handlers demo_req demo_node (Some 1%N) (demo_world []) in
  exists p inst, db_gpu_slots demo_db !! gs_ID p = Some p /\
    db_gpu_slots (pg_db (w_pg w')) = <[gs_ID p := slot_with SlotStatusInUse (Some inst) p]> (db_gpu_slots demo_db).
Proof.
  pose proof (runCreate_slots demo_unmarshal demo_handlers demo_req demo_node (Some 1%N)
    (demo_world []) eq_refl demo_slots_ok ltac:(vm_compute; discriminate)) as Hc.
  assert (exists v, (runCreate demo_unmarshal demo_handlers demo_req demo_node (Some 1%N)
    (demo_world [])).1 = WriteJSON 201 v) as [v E] by (eexists; vm_compute; reflexivity).
  destruct (runCreate demo_unmarshal demo_handlers demo_req demo_node (Some 1%N) (demo_world []))
    as [resp w']. simpl in E. subst resp. simpl in Hc.
  destruct Hc as (_ & inst & res & pci & _ & _ & _ & _ & _ & _ & _ & _ & _ & _ & _ & Hb).
  destruct Hb as [(Hz & _)|(p & _ & Hp & _ & _ & _ & Hm)]; [discriminate Hz|].
  exists p, (in_ID inst). by split.
Defined.
End witness.
