(* ===== verification/CreateGates.v ===== *)
(** * The gates of a user's create request (api/admin_instances.go, cmd/main-api)

    The checks [CreateForOwner] makes before it touches anything, with the
    collaborators wired as cmd/main-api/main.go wires them; the two pure
    helpers of the request, [mergeSSHPubkeys] and [resolvePassthroughPCI]. *)

From S2P Require Import Prelude GoStrings Proto Db Queries AccountQueries Demo InstanceState InstanceRepo SlotRepo CreditRepo SSHKeys NodeRepo AgentRegistry Dispatcher Http AdminInstances CreateProof.

#[local] Open Scope string_scope.
#[local] Open Scope list_scope.
#[local] Open Scope go_scope.

(** ** The wiring of main *)

(** The adapter of [TeamMembership]. *)
Definition IsUserInTeam (userID teamID : UUID) : ST Pg (result bool) :=
  exec (isUserInTeam userID teamID).

(** A failed key lookup is logged and adds no keys. *)
Definition extraSSHKeys (ownerID : UUID) : ST Pg (list string) :=
  r <- PubkeysForUser ownerID ;;
  ret match r with Ok keys => keys | Err _ => [] end.

Definition main_handlers : InstanceHandlers :=
  {| h_Slots := true; h_ExtraSSHKeysForOwner := Some extraSSHKeys;
     h_BalanceForOwner := Some Balance; h_TeamMembership := Some IsUserInTeam |}.

(** ** Merging keys *)

(** [l] without the later copies of a key and without the keys of [seen]. *)
Fixpoint first_occurrences (seen : list string) (l : list string) : list string :=
  match l with
  | [] => []
  | k :: l' => if decide (k ∈ seen) then first_occurrences seen l'
               else k :: first_occurrences (k :: seen) l'
  end.

Lemma merge_into_spec out (seen : gset string) l seen' :
  (forall k, k ∈ seen <-> k ∈ seen') ->
  (merge_into out seen l).1 = out ++ first_occurrences seen' l /\
  (forall k, k ∈ (merge_into out seen l).2 <-> k ∈ seen' \/ k ∈ l).
Proof.
  revert out seen seen'. induction l as [|k l IH]; intros out seen seen' Hs; simpl.
  - rewrite app_nil_r. split; [done|]. intros k. rewrite Hs, elem_of_nil. tauto.
  - destruct (decide (k ∈ seen)) as [Hin|Hn].
    + rewrite decide_True by by apply Hs. destruct (IH out seen seen' Hs) as [-> Hk]. split; [done|].
      intros k'. rewrite Hk, elem_of_cons. apply Hs in Hin. split; [tauto|]. intros [?|[->|?]]; tauto.
    + rewrite decide_False by by rewrite <- Hs.
      destruct (IH (out ++ [k]) ({[k]} ∪ seen) (k :: seen')) as [-> Hk].
      { intros k'. rewrite elem_of_union, elem_of_singleton, elem_of_cons. by rewrite Hs. }
      split; [by rewrite <- app_assoc|]. intros k'. rewrite Hk, !elem_of_cons. tauto.
Qed.

Lemma first_occurrences_spec seen l :
  NoDup (first_occurrences seen l) /\
  forall k, k ∈ first_occurrences seen l <-> k ∈ l /\ k ∉ seen.
Proof.
  revert seen. induction l as [|k l IH]; intros seen; simpl.
  - split; [constructor|]. intros k. rewrite elem_of_nil. tauto.
  - destruct (decide (k ∈ seen)) as [Hin|Hn].
    + destruct (IH seen) as [Hnd Hk]. split; [done|]. intros k'. rewrite Hk, elem_of_cons.
      split; [tauto|]. intros [[->|?] ?]; [done|tauto].
    + destruct (IH (k :: seen)) as [Hnd Hk]. split.
      * constructor; [|done]. rewrite Hk, elem_of_cons. tauto.
      * intros k'. rewrite elem_of_cons, Hk, !elem_of_cons.
        destruct (decide (k' = k)) as [->|]; tauto.
Qed.

(** Only the set of the keys seen matters. *)
Lemma first_occurrences_ext l s1 s2 :
  (forall k, k ∈ s1 <-> k ∈ s2) -> first_occurrences s1 l = first_occurrences s2 l.
Proof.
  revert s1 s2. induction l as [|k l IH]; intros s1 s2 Hs; simpl; [done|].
  destruct (decide (k ∈ s1)) as [Hi|Hi].
  - rewrite decide_True by by apply Hs. by apply IH.
  - rewrite decide_False by by rewrite <- Hs. f_equal. apply IH.
    intros k'. by rewrite !elem_of_cons, Hs.
Qed.

Lemma first_occurrences_app seen a b :
  first_occurrences seen (a ++ b) = first_occurrences seen a ++ first_occurrences (a ++ seen) b.
Proof.
  revert seen. induction a as [|k a IH]; intros seen; simpl; [done|].
  destruct (decide (k ∈ seen)) as [Hi|Hi]; rewrite IH; simpl; f_equal.
  - apply first_occurrences_ext. intros k'. rewrite elem_of_cons, !elem_of_app.
    split; [tauto|]. intros [->|?]; tauto.
  - f_equal. apply first_occurrences_ext. intros k'. rewrite elem_of_cons, !elem_of_app, elem_of_cons.
    tauto.
Qed.

Lemma first_occurrences_nil seen l : (forall k, k ∈ l -> k ∈ seen) -> first_occurrences seen l = [].
Proof.
  induction l as [|k l IH]; simpl; intros Hl; [done|].
  rewrite decide_True by (apply Hl; left). apply IH. intros k' ?. apply Hl. by right.
Qed.

Lemma first_occurrences_id seen l :
  NoDup l -> (forall k, k ∈ l -> k ∉ seen) -> first_occurrences seen l = l.
Proof.
  intros Hnd. revert seen. induction Hnd as [|k l Hk _ IH]; intros seen Hl; simpl; [done|].
  rewrite decide_False by (apply Hl; left). f_equal. apply IH. intros k' Hk' [->|?]%elem_of_cons; [done|].
  apply (Hl k'); [by right|done].
Qed.

Lemma mergeSSHPubkeys_eq a b : mergeSSHPubkeys a b = first_occurrences [] (a ++ b).
Proof.
  unfold mergeSSHPubkeys.
  destruct (merge_into_spec [] ∅ a [] ltac:(set_solver)) as [Ha Hs].
  destruct (merge_into [] ∅ a) as [out seen]. simpl in *. subst out.
  destruct (merge_into_spec (first_occurrences [] a) seen b (a ++ [])) as [-> _].
  - intros k. rewrite Hs, app_nil_r, elem_of_nil. tauto.
  - by rewrite first_occurrences_app.
Qed.

(** The keys of a create are the request's and the owner's, each once:
    the merged list has no duplicates, holds exactly the keys of both lists
    in the order of their first occurrences, the request's before the
    owner's, and merging the owner's in again changes nothing. *)
Theorem mergeSSHPubkeys_spec a b :
  mergeSSHPubkeys a b = first_occurrences [] (a ++ b) /\
  NoDup (mergeSSHPubkeys a b) /\
  (forall k, k ∈ mergeSSHPubkeys a b <-> k ∈ a \/ k ∈ b) /\
  first_occurrences [] a `prefix_of` mergeSSHPubkeys a b /\
  mergeSSHPubkeys (mergeSSHPubkeys a b) b = mergeSSHPubkeys a b.
Proof.
  rewrite !mergeSSHPubkeys_eq. destruct (first_occurrences_spec [] (a ++ b)) as [Hnd Hk].
  split_and!; [done|done| | |].
  - intros k. rewrite Hk, elem_of_app, elem_of_nil. tauto.
  - rewrite first_occurrences_app. by apply prefix_app_r.
  - rewrite first_occurrences_app, app_nil_r, first_occurrences_id by (done || by intros ? _ ?%elem_of_nil).
    rewrite (first_occurrences_nil (first_occurrences [] (a ++ b)) b); [by rewrite app_nil_r|].
    intros k Hb. apply Hk. rewrite elem_of_app, elem_of_nil. tauto.
Qed.

(** ** The devices passed through *)
Section passthrough.
Context (protojson_Unmarshal : string -> result Topology).

Abbreviation resolve := (resolvePassthroughPCI protojson_Unmarshal).

Definition gpu_devices (g : Gpu) : list string := gpu_PciAddress g :: gpu_CompanionPciAddresses g.

Lemma gpu_by_index_Some gpus idx g : gpu_by_index gpus idx = Some g -> g ∈ gpus /\ gpu_Index g = idx.
Proof.
  intros [Hin Hi]%List.find_some. apply list_elem_of_In in Hin. split; [|by apply Z.eqb_eq]. apply list_elem_of_In, List.in_rev. by apply list_elem_of_In.
Qed.

Lemma slot_pcis_Ok gpus indices pci :
  slot_pcis gpus indices = Ok pci <->
  exists gs, Forall2 (fun idx g => gpu_by_index gpus idx = Some g) indices gs /\
    pci = flat_map gpu_devices gs.
Proof.
  revert pci. induction indices as [|idx rest IH]; intros pci; simpl.
  - split; [intros [= <-]; by exists []|]. intros (gs & HF & ->). by inversion HF.
  - destruct (gpu_by_index gpus idx) as [g|] eqn:Hg.
    + destruct (slot_pcis gpus rest) as [l|e]; simpl.
      * destruct (proj1 (IH l) eq_refl) as (gs & HF & ->). split.
        -- intros [= <-]. exists (g :: gs). split; [by constructor|]. done.
        -- intros (gs' & HF' & ->). inversion HF' as [|? g' ? gs'' Hg' HF'']; subst.
           assert (g' = g) as -> by congruence. simpl. f_equal. f_equal. f_equal.
           assert (Ok (A:=list string) (flat_map gpu_devices gs) = Ok (flat_map gpu_devices gs'')) as E.
           { apply IH. eauto. }
           by injection E.
      * split; [done|]. intros (gs' & HF' & ->). inversion HF' as [|? g' ? gs'' Hg' HF'']; subst.
        assert (Err (A:=list string) e = Ok (flat_map gpu_devices gs'')) as E; [|done].
        apply IH. eauto.
    + split; [done|]. intros (gs' & HF' & _). inversion HF'; subst. congruence.
Qed.

Lemma resolve_Ok t slots pci :
  resolve t slots = Ok pci <->
  t <> "" /\ t <> "{}" /\ exists top gs, protojson_Unmarshal t = Ok top /\
    Forall2 (fun idx g => gpu_by_index (top_Gpus top) idx = Some g) (flat_map gs_GpuIndices slots) gs /\
    pci = flat_map gpu_devices gs.
Proof.
  unfold resolvePassthroughPCI. destruct (String.eqb_spec t "") as [->|H1]; [split; [done|by intros []]|].
  destruct (String.eqb_spec t "{}") as [->|H2]; [split; [done|by intros (_ & [] & _)]|]. simpl.
  destruct (protojson_Unmarshal t) as [top|e].
  - rewrite slot_pcis_Ok. split.
    + intros (gs & HF & ->). split_and!; [done|done|]. by exists top, gs.
    + intros (_ & _ & top' & gs & [= <-] & HF & ->). by exists gs.
  - split; [done|]. by intros (_ & _ & ? & ? & ? & _).
Qed.

(** Two instances never share a PCI device.  When the GPUs of a node's
    topology have disjoint devices (a device belongs to the GPU of one index
    only), the addresses resolved for slots with disjoint GPU indices are
    disjoint, companion functions included; and every address resolved for a
    slot belongs to a GPU of that slot. *)
Theorem passthrough_isolation t top slots1 slots2 pci1 pci2 :
  protojson_Unmarshal t = Ok top ->
  (forall g g' a, g ∈ top_Gpus top -> g' ∈ top_Gpus top ->
     a ∈ gpu_devices g -> a ∈ gpu_devices g' -> gpu_Index g = gpu_Index g') ->
  (forall idx, idx ∈ flat_map gs_GpuIndices slots1 -> ~ idx ∈ flat_map gs_GpuIndices slots2) ->
  resolve t slots1 = Ok pci1 -> resolve t slots2 = Ok pci2 ->
  (forall a, a ∈ pci1 -> ~ a ∈ pci2) /\
  (forall a, a ∈ pci1 -> exists g, g ∈ top_Gpus top /\ a ∈ gpu_devices g /\
     gpu_Index g ∈ flat_map gs_GpuIndices slots1).
Proof.
  intros Ht Hdev Hidx H1 H2.
  apply resolve_Ok in H1 as (_ & _ & top1 & gs1 & Ht1 & HF1 & ->).
  apply resolve_Ok in H2 as (_ & _ & top2 & gs2 & Ht2 & HF2 & ->).
  rewrite Ht in Ht1, Ht2. injection Ht1 as <-. injection Ht2 as <-.
  assert (forall l gs a, Forall2 (fun idx g => gpu_by_index (top_Gpus top) idx = Some g) l gs ->
            a ∈ flat_map gpu_devices gs ->
            exists g, g ∈ top_Gpus top /\ a ∈ gpu_devices g /\ gpu_Index g ∈ l) as Hof.
  { intros l gs a HF Ha. apply list_elem_of_In, in_flat_map in Ha as (g & Hg & Ha).
    apply list_elem_of_In in Hg, Ha. apply list_elem_of_lookup in Hg as [i Hi].
    destruct (Forall2_lookup_r _ _ _ i g HF Hi) as (idx & Hi' & [Hin <-]%gpu_by_index_Some).
    exists g. split_and!; [done|done|]. by eapply list_elem_of_lookup_2. }
  split; [|by intros a Ha; apply (Hof _ _ _ HF1)].
  intros a Ha1 Ha2. destruct (Hof _ _ _ HF1 Ha1) as (g1 & G1 & A1 & I1).
  destruct (Hof _ _ _ HF2 Ha2) as (g2 & G2 & A2 & I2).
  apply (Hidx _ I1). by rewrite (Hdev g1 g2 a).
Qed.
End passthrough.

(** ** The gates *)
Section gates.
Context `{UUIDLib, Collation} (protojson_Unmarshal : string -> result Topology).
Context `{Dispatcher D}.
Implicit Types (req : createInstanceRequest) (node : Node) (w : World D).

Abbreviation tables w := (pg_db (w_pg w)).

(** A check that reads only. *)
Definition reads_only {A} (m : ST (World D) A) (w : World D) : Prop :=
  tables (m w).2 = tables w /\ w_agents (m w).2 = w_agents w /\ clean (w_pg (m w).2).

Lemma reads_only_query {A} (f : DB -> A) w :
  clean (w_pg w) -> reads_only (onPg (exec (query f))) w.
Proof.
  intros Hs. unfold reads_only. rewrite onPg_eq. simpl. rewrite exec_clean by done. simpl.
  split_and!; [done|done|]. by apply tick_clean.
Qed.

(** The request validated against the tables [d]. *)
Definition accepted (body : Body createInstanceRequest) req node w : Prop :=
  body = Decoded req /\ req_Name req <> "" /\ (0 < req_MemoryMb req)%Z /\
  (0 < req_VCPUs req)%Z /\ (0 <= req_GPUCount req)%Z /\
  (exists id, uuid_Parse (req_NodeID req) = Ok id /\ db_nodes (tables w) !! id = Some node) /\
  nd_Status node = NodeStatusOnline /\ dispatch_Connected (nd_ID node) (w_agents w) = true.

Lemma validateCreate_spec body w :
  clean (w_pg w) ->
  reads_only (validateCreate body) w /\
  match (validateCreate body w).1 with
  | Pass (req, node) => accepted body req node w
  | Reject _ _ _ => True
  end.
Proof.
  intros Hs. unfold validateCreate. destruct body as [e|e|req]; [done|done|].
  destruct (uuid_Parse (req_NodeID req)) as [id|e] eqn:Hid; [|done].
  destruct (String.eqb_spec (req_Name req) "") as [|Hname]; [done|].
  destruct (req_MemoryMb req <=? 0)%Z eqn:Hmem; [done|].
  destruct (req_VCPUs req <=? 0)%Z eqn:Hcpu; [done|]. simpl.
  destruct (req_GPUCount req <? 0)%Z eqn:Hg; [done|].
  unfold reads_only. rewrite !bind_eq, !onPg_eq. unfold GetNode. rewrite !exec_clean by done.
  unfold getNode, query_one. simpl.
  destruct (db_nodes (tables w) !! id) as [node|] eqn:Hn; simpl; [|auto using tick_clean].
  destruct (bool_decide (nd_Status node = NodeStatusOnline)) eqn:Ho; simpl; [|auto using tick_clean].
  destruct (dispatch_Connected (nd_ID node) (w_agents w)) eqn:Hc; simpl; [|auto using tick_clean].
  split; [auto using tick_clean|]. apply bool_decide_eq_true in Ho.
  split_and!; [done|done|lia|lia|lia|by exists id|done|done].
Qed.

(** Membership of the team a node is reserved to. *)
Definition admitted (d : DB) node (owner : UUID) : Prop :=
  nd_AccessPolicy node = "owner_team" ->
  exists t, nd_OwnerTeamID node = Some t /\ is_Some (db_team_members d !! (t, owner)).

Lemma check_team_spec node owner w :
  clean (w_pg w) ->
  reads_only (check_team main_handlers node owner) w /\
  match (check_team main_handlers node owner w).1 with
  | Pass _ => admitted (tables w) node owner
  | Reject st code _ => st = StatusNotFound /\ code = "node_not_found" /\ ~ admitted (tables w) node owner
  end.
Proof.
  intros Hs. unfold check_team. simpl.
  destruct (String.eqb_spec (nd_AccessPolicy node) "owner_team") as [Hp|Hp].
  - destruct (nd_OwnerTeamID node) as [t|] eqn:Ht.
    + unfold reads_only. rewrite !bind_eq, !onPg_eq. unfold IsUserInTeam. rewrite !exec_clean by done.
      simpl. unfold admitted. case_bool_decide as Hm; simpl.
      * split; [auto using tick_clean|]. eauto.
      * split; [auto using tick_clean|]. split_and!; [done|done|]. intros Hc.
        destruct (Hc Hp) as (t' & E & Hm'). rewrite Ht in E. by injection E as <-.
    + split; [done|]. split_and!; [done|done|]. intros Hc. destruct (Hc Hp) as (t' & E & _). congruence.
  - split; [done|]. by intros ?.
Qed.

Lemma check_balance_spec owner w :
  clean (w_pg w) ->
  reads_only (check_balance main_handlers owner) w /\
  match (check_balance main_handlers owner w).1 with
  | Pass _ => (0 < balance_of (tables w) owner)%Z
  | Reject st _ _ => st = StatusPaymentRequired /\ (balance_of (tables w) owner <= 0)%Z
  end.
Proof.
  intros Hs. unfold check_balance. simpl. unfold reads_only. rewrite !bind_eq, !onPg_eq.
  unfold Balance. rewrite !bind_eq, !exec_clean by done. unfold getCredits, query_one, balance_of. simpl.
  destruct (db_credits (tables w) !! owner) as [c|]; simpl.
  - destruct (cr_BalanceMilli c <=? 0)%Z eqn:Hb; simpl; (split; [auto using tick_clean|]); [split; [done|]|]; lia.
  - split; [auto using tick_clean|]. done.
Qed.

Lemma add_owner_keys_spec req owner w :
  clean (w_pg w) ->
  reads_only (add_owner_keys main_handlers req owner) w /\
  (add_owner_keys main_handlers req owner w).1 =
    with_keys (mergeSSHPubkeys (default [] (req_SSHPubkeys req)) (sk_Pubkey <$> keys_of owner (tables w))) req.
Proof.
  intros Hs. unfold add_owner_keys. simpl. unfold reads_only. rewrite !bind_eq, !onPg_eq.
  unfold extraSSHKeys, PubkeysForUser. rewrite !bind_eq. simpl. rewrite !exec_clean by done. simpl.
  split; [auto using tick_clean|done].
Qed.

(** The refusals of [runCreate] are not those of the gates. *)
Lemma runCreate_status h req node owner w st code msg :
  (runCreate protojson_Unmarshal h req node owner w).1 = WriteError st code msg ->
  st = StatusConflict \/ st = StatusInternalServerError \/ st = StatusBadGateway.
Proof.
  unfold runCreate. rewrite bindC_eq.
  destruct (reserveIfNeeded protojson_Unmarshal h req node w) as [[[res pci]|st' c m] w1] eqn:E.
  - rewrite bind_eq. destruct (onPg (Create _) w1) as [[inst|e] w2]; simpl.
    + unfold bind_and_dispatch. rewrite bind_eq.
      destruct (if (0 <? req_GPUCount req)%Z then _ else _) as [[[]|e] w3]; simpl.
      * rewrite bind_eq. destruct (dispatchCreate _ _ _ _ w3) as [[[]|e] w4]; simpl; [done|].
        rewrite !bind_eq. simpl. intros [= <- _ _]. auto.
      * rewrite !bind_eq. simpl. intros [= <- _ _]. auto.
    + rewrite bind_eq. simpl. intros [= <- _ _]. auto.
  - simpl. intros [= <- _ _]. unfold reserveIfNeeded in E. case_decide; [done|].
    destruct (h_Slots h); simpl in E; [|injection E as <- _ _ _; auto].
    rewrite bind_eq in E. destruct (onPg (Reserve _ _ _) w) as [[res|e] w2]; simpl in E.
    + destruct (resolvePassthroughPCI _ _ _); [done|]. rewrite bind_eq in E. simpl in E.
      injection E as <- _ _ _. auto.
    + destruct (errors_Is e ErrNoFreeSlots); injection E as <- _ _ _; auto.
Qed.

(** C35: what a user needs to create an instance.  With round trips served and
    the production wiring, a create answered 201 had a well-formed request (it
    decoded, names the instance, asks for a positive amount of memory and of
    vcpus and for a number of GPUs that is not negative)
    for a registered node that is online with its agent connected, a caller
    who is a member of the owning team when the node is reserved to one, and
    a positive balance; the new row is the caller's, on that node, with the
    name and memory of the request and the
    caller's registered keys merged into the request's.  A request refused
    with 400, 402 or 404 changed no table and sent nothing.  (The slot table
    is consistent to begin with: [slots_ok], kept by every operation.) *)
Theorem CreateForOwner_gates body owner w :
  clean (w_pg w) -> slots_ok (tables w) ->
  let '(resp, w') := CreateForOwner protojson_Unmarshal main_handlers body owner w in
  match resp with
  | WriteJSON st v => st = StatusCreated /\ exists req node inst,
      accepted body req node w /\ admitted (tables w) node owner /\
      (0 < balance_of (tables w) owner)%Z /\ v = toInstanceView inst /\
      in_OwnerID inst = Some owner /\ in_NodeID inst = nd_ID node /\
      in_Name inst = req_Name req /\ in_MemoryMb inst = req_MemoryMb req /\
      in_SshPubkeys inst = mergeSSHPubkeys (default [] (req_SSHPubkeys req))
                                           (sk_Pubkey <$> keys_of owner (tables w)) /\
      db_instances (tables w') = <[in_ID inst := inst]> (db_instances (tables w))
  | WriteError st _ _ =>
      st = StatusBadRequest \/ st = StatusPaymentRequired \/ st = StatusNotFound ->
      tables w' = tables w /\ w_agents w' = w_agents w
  | WriteHeader _ => True
  end.
Proof.
  intros Hs Hd. unfold CreateForOwner. rewrite bindC_eq.
  destruct (validateCreate_spec body w Hs) as [(Hd1 & Ha1 & Hs1) Hv].
  destruct (validateCreate body w) as [[[req node]|st c m] w1]; simpl in *; [|done].
  rewrite bindC_eq. destruct (check_team_spec node owner w1 Hs1) as [(Hd2 & Ha2 & Hs2) Ht].
  destruct (check_team main_handlers node owner w1) as [[[]|st c m] w2]; simpl in *;
    [|intros _; split; congruence].
  rewrite bindC_eq. destruct (check_balance_spec owner w2 Hs2) as [(Hd3 & Ha3 & Hs3) Hb].
  destruct (check_balance main_handlers owner w2) as [[[]|st c m] w3]; simpl in *;
    [|intros _; split; congruence].
  rewrite bind_eq. destruct (add_owner_keys_spec req owner w3 Hs3) as [(Hd4 & Ha4 & Hs4) ->].
  set (w4 := (add_owner_keys main_handlers req owner w3).2) in *.
  assert (tables w4 = tables w) as E4 by congruence.
  set (keys := mergeSSHPubkeys _ _).
  pose proof (runCreate_effect protojson_Unmarshal main_handlers (with_keys keys req) node (Some owner) w4
    Hs4 ltac:(by rewrite E4) ltac:(apply Hv)) as HR.
  pose proof (runCreate_status main_handlers (with_keys keys req) node (Some owner) w4) as HE.
  destruct (runCreate _ _ _ _ _ w4) as [[st c m|st v|st] w5]; simpl in *; [| |done].
  - intros Hst. exfalso. destruct (HE st c m eq_refl) as [-> | [-> | ->]]; by destruct_or! Hst.
  - destruct HR as (-> & inst & res & pci & -> & _ & Ho & Hn & Hnm & Hm & _ & Hk & _ & Hi & _).
    split; [done|]. exists req, node, inst. split_and!; try done.
    + by rewrite <- Hd1.
    + by rewrite <- Hd1, <- Hd2.
    + rewrite Hk. simpl. unfold keys. by rewrite Hd3, Hd2, Hd1.
    + by rewrite Hi, E4.
Qed.
End gates.

(** ** Witnesses and a finding *)
Section witnesses.
#[local] Existing Instance C_collation.
#[local] Existing Instance DemoUUID.lib.

Lemma passthrough_isolation_witness :
  resolvePassthroughPCI demo_unmarshal "top" [demo_slot 11 1 "" SlotStatusFree None]
    = Ok ["0000:01:00.0"; "0000:01:00.1"] /\
  ~ "0000:01:00.0" ∈ ["0000:02:00.0"; "0000:02:00.1"].
Proof.
  assert (resolvePassthroughPCI demo_unmarshal "top" [demo_slot 11 1 "" SlotStatusFree None]
    = Ok ["0000:01:00.0"; "0000:01:00.1"]) as H1 by (vm_compute; reflexivity).
  assert (resolvePassthroughPCI demo_unmarshal "top" [demo_slot 12 2 "" SlotStatusFree None]
    = Ok ["0000:02:00.0"; "0000:02:00.1"]) as H2 by (vm_compute; reflexivity).
  split; [exact H1|].
  refine (proj1 (passthrough_isolation demo_unmarshal "top" demo_topology
    [demo_slot 11 1 "" SlotStatusFree None] [demo_slot 12 2 "" SlotStatusFree None] _ _
    eq_refl _ _ H1 H2) _ _).
  - intros g g' a Hg Hg' Ha Ha'.
    assert (forallb (fun g => forallb (fun g' =>
      bool_decide (gpu_Index g = gpu_Index g' \/
                   Forall (fun a => a ∉ gpu_devices g') (gpu_devices g))) (top_Gpus demo_topology))
      (top_Gpus demo_topology) = true) as Hall by (vm_compute; reflexivity).
    rewrite forallb_forall in Hall. specialize (Hall g (proj1 (list_elem_of_In _ _) Hg)).
    rewrite forallb_forall in Hall. specialize (Hall g' (proj1 (list_elem_of_In _ _) Hg')).
    apply bool_decide_eq_true in Hall as [E|Hf]; [exact E|].
    rewrite Forall_forall in Hf. destruct (Hf a Ha Ha').
  - simpl. intros idx Hi Hi'. apply list_elem_of_singleton in Hi, Hi'. congruence.
  - left.
Defined.

Definition demo_body : Body createInstanceRequest := Decoded demo_req.

Lemma CreateForOwner_gates_witness :
  exists inst, db_instances (pg_db (w_pg (CreateForOwner demo_unmarshal main_handlers demo_body 1
    (demo_world [])).2)) !! in_ID inst = Some inst /\ in_OwnerID inst = Some 1%N.
Proof.
  pose proof (CreateForOwner_gates demo_unmarshal demo_body 1 (demo_world []) eq_refl demo_slots_ok) as Hc.
  assert (exists v, (CreateForOwner demo_unmarshal main_handlers demo_body 1 (demo_world [])).1
    = WriteJSON 201 v) as [v E] by (eexists; vm_compute; reflexivity).
  destruct (CreateForOwner demo_unmarshal main_handlers demo_body 1 (demo_world [])) as [resp w'].
  simpl in E. subst resp. destruct Hc as (_ & req & node & inst & _ & _ & _ & _ & Ho & _ & _ & _ & _ & Hi).
  exists inst. split; [|exact Ho]. simpl. rewrite Hi, lookup_insert. by rewrite decide_True.
Defined.

(** A node reserved to a team the caller is not in. *)
Definition team_node (st : NodeStatus) : Node :=
  {| nd_ID := 3; nd_ZoneID := 2; nd_NodeName := "n1"; nd_Hostname := "h1";
     nd_AgentVersion := "v1"; nd_Status := st; nd_TopologyJson := "top";
     nd_ProfileHash := "p0"; nd_LastHeartbeatAt := Some 0%Z; nd_RegisteredAt := 0;
     nd_UpdatedAt := 0; nd_AccessPolicy := "owner_team"; nd_OwnerTeamID := Some 77%N;
     nd_LastDataPlaneAt := None; nd_NodeState := "online" |}.

Definition with_nodes (m : gmap UUID Node) : World OpenRegistry :=
  {| w_pg := on_demo (Db.set_nodes m demo_db); w_agents := demo_agents |}.

(** A reserved node can be told from a missing one.  A caller outside
    the owning team gets three different answers for a node that does not
    exist, a reserved node that is online and a reserved node that is
    offline: the error of the lookup, the 404 of the team gate, and the 409
    the status check gives before the gate is reached. *)
Theorem reserved_node_distinguishable :
  let create m := (CreateForOwner demo_unmarshal main_handlers demo_body 1 (with_nodes m)).1 in
  create ∅ = WriteError 404 "node_not_found" "no rows in result set" /\
  create {[ 3%N := team_node NodeStatusOnline ]} = WriteError 404 "node_not_found" "node not found" /\
  create {[ 3%N := team_node NodeStatusOffline ]} = WriteError 409 "node_offline" "target node is not online".
Proof. vm_compute. repeat split; reflexivity. Qed.
End witnesses.
