(* ===== verification/UserInstances.v ===== *)
(** * The user's instance endpoints (internal/api/user_instances.go)

    The same operations as AdminInstances.v, narrowed to the rows the caller
    owns.  The tail of [Delete] is, statement by statement, that of the
    operator's handler with another audit reason, so both share
    [delete_instance]. *)

From S2P Require Import Prelude GoStrings Proto Db Queries Demo InstanceState InstanceRepo SlotRepo NodeRepo AgentRegistry Dispatcher Http AdminInstances.

#[local] Open Scope string_scope.
#[local] Open Scope list_scope.
#[local] Open Scope go_scope.

Definition ownsInstance (inst : InstanceRow) (user : User) : bool :=
  match in_OwnerID inst with Some o => bool_decide (o = us_ID user) | None => false end.

Section handlers.
Context `{UUIDLib, Collation}.
Context (protojson_Unmarshal : string -> result Topology).
Context `{Dispatcher D}.
Implicit Types (h : InstanceHandlers) (user : User).

Definition user_List user : ST (World D) (Resp (list InstanceView)) :=
  r <- onPg (ListForOwner (Some (us_ID user))) ;;
  match r with
  | Err e => ret (WriteError StatusInternalServerError "list_failed" (Error e))
  | Ok rows => ret (WriteJSON StatusOK (toInstanceView <$> rows))
  end.

(** The lookup shared by [Get] and [Delete]. *)
Definition lookup_owned user (idStr : string) : ST (World D) (checked (UUID * InstanceRow)) :=
  match uuid_Parse idStr with
  | Err e => ret (Reject StatusBadRequest "bad_id" (Error e))
  | Ok id =>
      r <- onPg (Get id) ;;
      match r with
      | Err e =>
          if errors_Is e ErrNoRows then
            ret (Reject StatusNotFound "not_found" "instance not found")
          else ret (Reject StatusInternalServerError "lookup_failed" "instance lookup failed")
      | Ok inst =>
          if ownsInstance inst user then ret (Pass (id, inst))
          else ret (Reject StatusNotFound "not_found" "instance not found")
      end
  end.

Definition user_Get user (idStr : string) : ST (World D) (Resp InstanceView) :=
  bindC (lookup_owned user idStr) (fun '(_, inst) =>
  ret (WriteJSON StatusOK (toInstanceView inst))).

Definition user_Create h user (body : Body createInstanceRequest)
    : ST (World D) (Resp InstanceView) :=
  CreateForOwner protojson_Unmarshal h body (us_ID user).

Definition user_Delete h user (idStr : string) : ST (World D) (Resp InstanceView) :=
  bindC (lookup_owned user idStr) (fun '(id, inst) =>
  delete_instance h id inst "user_delete").
End handlers.

(** ** Properties *)
Section properties.
Context `{UUIDLib, Collation, Dispatcher D}.
Implicit Types (h : InstanceHandlers) (user : User) (w : World D).

Lemma ownsInstance_spec inst user :
  ownsInstance inst user = true <-> in_OwnerID inst = Some (us_ID user).
Proof.
  unfold ownsInstance. destruct (in_OwnerID inst) as [o|]; [|done].
  rewrite bool_decide_eq_true. naive_solver.
Qed.

(** Does [user] own the row [id]? *)
Definition owns (d : DB) user (id : UUID) : Prop :=
  exists inst, db_instances d !! id = Some inst /\ in_OwnerID inst = Some (us_ID user).

(** The lookup passes exactly the rows the user owns, and reads only. *)
Lemma lookup_owned_spec user idStr w :
  clean (w_pg w) ->
  let '(r, w') := lookup_owned user idStr w in
  pg_db (w_pg w') = pg_db (w_pg w) /\ w_agents w' = w_agents w /\
  match uuid_Parse idStr with
  | Err e => r = Reject StatusBadRequest "bad_id" (Error e)
  | Ok id =>
      (exists inst, r = Pass (id, inst) /\ db_instances (pg_db (w_pg w)) !! id = Some inst /\
         in_OwnerID inst = Some (us_ID user)) \/
      (r = Reject StatusNotFound "not_found" "instance not found" /\
       ~ owns (pg_db (w_pg w)) user id)
  end.
Proof.
  intros Hs. unfold lookup_owned. destruct (uuid_Parse idStr) as [id|e]; [|done].
  rewrite bind_eq, onPg_eq. unfold Get. rewrite exec_clean by done.
  unfold getInstance, query_one. unfold owns.
  destruct (db_instances (pg_db (w_pg w)) !! id) as [inst|] eqn:E; simpl.
  - destruct (ownsInstance inst user) eqn:Ho; simpl; (split; [done|]); (split; [done|]).
    + apply ownsInstance_spec in Ho. left. eauto.
    + right. split; [done|]. intros (i & [= <-] & Hi). apply ownsInstance_spec in Hi. congruence.
  - split; [done|]. split; [done|]. right. split; [done|]. by intros (i & ? & _).
Qed.

(** Another user's instance looks like one that does not exist.  With
    round trips served, asking to see or to delete an instance the caller
    does not own answers 404 with the same code and message whether the row
    exists (owned by somebody else, or by nobody) or not; the tables are
    those before and no message reaches an agent. *)
Theorem foreign_instance_is_missing h user id idStr w :
  clean (w_pg w) -> uuid_Parse idStr = Ok id -> ~ owns (pg_db (w_pg w)) user id ->
  let notFound := WriteError StatusNotFound "not_found" "instance not found" in
  (user_Get user idStr w).1 = notFound /\
  (user_Delete h user idStr w).1 = notFound /\
  pg_db (w_pg (user_Get user idStr w).2) = pg_db (w_pg w) /\
  pg_db (w_pg (user_Delete h user idStr w).2) = pg_db (w_pg w) /\
  w_agents (user_Delete h user idStr w).2 = w_agents w.
Proof.
  intros Hs Hid Hno. unfold user_Get, user_Delete. rewrite !bindC_eq.
  pose proof (lookup_owned_spec user idStr w Hs) as Hl. rewrite Hid in Hl.
  destruct (lookup_owned user idStr w) as [r w'].
  destruct Hl as (Hd & Ha & [(inst & -> & Hi & Ho)|[-> _]]); [|done].
  exfalso. apply Hno. by exists inst.
Qed.

(** The list is the caller's own.  With the round trip served the
    listing answers the views of exactly the rows the caller owns, newest
    first, and changes nothing. *)
Theorem user_List_own user w :
  clean (w_pg w) ->
  exists rows, (user_List user w).1 = WriteJSON StatusOK (toInstanceView <$> rows) /\
    pg_db (w_pg (user_List user w).2) = pg_db (w_pg w) /\
    (forall inst, inst ∈ rows <-> exists id, db_instances (pg_db (w_pg w)) !! id = Some inst /\
                                   in_OwnerID inst = Some (us_ID user)) /\
    StronglySorted (leb_rel (newest_first in_CreatedAt)) rows.
Proof.
  intros Hs. exists (instances_of (Some (us_ID user)) (pg_db (w_pg w))).
  unfold user_List. rewrite bind_eq, onPg_eq. unfold ListForOwner. rewrite exec_clean by done.
  simpl. split_and!; [done|done| |].
  - intros inst. unfold instances_of. rewrite elem_of_order_by, elem_of_filter_rows.
    rewrite bool_decide_eq_true. split; [intros [? [id ?]]|intros (id & ? & ?)]; eauto.
  - apply order_by_sorted; unfold newest_first.
    + intros a b. rewrite !Z.leb_le. lia.
    + intros a b c. rewrite !Z.leb_le. lia.
Qed.
End properties.

(** ** Witnesses *)
Section witnesses.
#[local] Existing Instance C_collation.
#[local] Existing Instance DemoUUID.lib.

Definition stranger : User :=
  {| us_ID := 8; us_Email := "s@x"; us_PasswordHash := "h"; us_IsAdmin := true;
     us_CreatedAt := 0; us_UpdatedAt := 0 |}.

Definition user_world : World OpenRegistry := {| w_pg := demo []; w_agents := demo_agents |}.

(** Not even an administrator, on the user routes. *)
Lemma foreign_instance_is_missing_witness :
  (user_Get stranger (uuid_String 5) user_world).1 =
    WriteError StatusNotFound "not_found" "instance not found" /\
  (exists v, (user_Get demo_user (uuid_String 5) user_world).1 = WriteJSON StatusOK v).
Proof.
  assert (uuid_Parse (uuid_String 5) = Ok 5%N) as Hid by (vm_compute; reflexivity).
  split.
  - refine (proj1 (foreign_instance_is_missing (Build_InstanceHandlers true None None None) stranger 5
      (uuid_String 5) user_world eq_refl Hid _)).
    intros (inst & Hi & Ho). vm_compute in Hi. injection Hi as <-. vm_compute in Ho. discriminate Ho.
  - eexists. vm_compute. reflexivity.
Defined.

Lemma user_List_own_witness :
  exists rows, (user_List demo_user user_world).1 = WriteJSON StatusOK (toInstanceView <$> rows) /\
    demo_instance InstanceStateRunning ∈ rows.
Proof.
  destruct (user_List_own demo_user user_world eq_refl) as (rows & Hr & _ & Hin & _).
  exists rows. split; [exact Hr|]. apply Hin. exists 5%N. split; reflexivity.
Defined.
End witnesses.
