(* ===== verification/DeleteProof.v ===== *)
(** * What a delete request does (api/admin_instances.go, api/user_instances.go)

    The two phases of [delete_instance]: a row in a terminal state is removed
    with its slots freed; any other row is asked to stop and its agent told. *)

From S2P Require Import Prelude GoStrings Proto Db Queries Demo InstanceState InstanceRepo SlotRepo NodeRepo AgentRegistry Dispatcher Http AdminInstances CreateProof UserInstances.

#[local] Open Scope string_scope.
#[local] Open Scope list_scope.
#[local] Open Scope go_scope.

Section delete.
Context `{UUIDLib, Collation, Dispatcher D}.
Implicit Types (h : InstanceHandlers) (w : World D).

Abbreviation tables w := (pg_db (w_pg w)).

(** Deleting a finished instance gives everything back.  With round
    trips served, deleting a stopped or failed row answers 204; the row and
    its audit log are gone and no others; every slot it held is free and no
    slot points to it; the other slots are unchanged; no agent is told. *)
Theorem delete_terminal h id inst reason w :
  clean (w_pg w) -> h_Slots h = true ->
  db_instances (tables w) !! id = Some inst -> IsTerminal (in_State inst) = true ->
  let '(resp, w') := delete_instance h id inst reason w in
  resp = WriteHeader StatusNoContent /\ w_agents w' = w_agents w /\
  db_instances (tables w') = delete id (db_instances (tables w)) /\
  (forall i, events_of i (db_instance_events (tables w')) =
     if decide (i = id) then [] else events_of i (db_instance_events (tables w))) /\
  (forall k, db_gpu_slots (tables w') !! k =
     (fun v => if decide (gs_CurrentInstanceID v = Some id) then slot_with SlotStatusFree None v else v)
       <$> db_gpu_slots (tables w) !! k).
Proof.
  intros Hs Hsl Hi Ht. unfold delete_instance. change (_ || _) with (IsTerminal (in_State inst)).
  rewrite Ht, Hsl. rewrite !bind_eq. rewrite !onPg_eq. cbn [fst snd w_pg w_agents].
  unfold ReleaseForInstance, Delete. rewrite (exec_clean _ (w_pg w)) by done. cbn [fst snd].
  rewrite exec_clean by (apply tick_clean; done).
  unfold deleteInstance, releaseSlotsForInstance. simpl. rewrite Hi. simpl.
  split_and!; [done|done|done| |].
  - intros i. destruct (decide (i = id)) as [->|Hne]; [apply events_of_deleted|by apply events_of_other].
  - intros k. rewrite !lookup_update_where. destruct (_ !! k) as [v|]; simpl; [|done].
    f_equal. unfold slot_of_instance.
    destruct (decide (gs_CurrentInstanceID v = Some id)) as [E|E].
    + rewrite (bool_decide_eq_true_2 (gs_CurrentInstanceID v = Some id)) by done. done.
    + rewrite (bool_decide_eq_false_2 (gs_CurrentInstanceID v = Some id)) by done.
      by rewrite bool_decide_eq_false_2.
Qed.

(** What the transition of a delete did to the row. *)
Lemma stopping_row id inst s reason :
  clean s -> db_instances (pg_db s) !! id = Some inst -> is_instance_state (in_State inst) = true ->
  let opts := {| to_Reason := reason; to_ErrorMessage := ""; to_VMInternalIP := "";
                 to_EventMetadata := ""; to_SkipIdempotent := false |} in
  let '(r, s') := Transition id InstanceStateStopping opts s in
  if CanTransition (in_State inst) InstanceStateStopping
  then is_ok r = true /\ exists i', db_instances (pg_db s') = <[id := i']> (db_instances (pg_db s)) /\
         in_State i' = InstanceStateStopping
  else (exists e, r = Err e /\ errors_Is e ErrInvalidTransition = true) /\ pg_db s' = pg_db s.
Proof.
  intros Hs Hi Hst opts. unfold Transition. simpl Validate. cbn [Validate].
  rewrite inTx_clean; [|done|intros; apply uses_suffix_clean; [|done]; unfold transition_store; solve_suffix].
  rewrite bindR_eq, wrapErr_eq, exec_clean by (apply tick_clean; done).
  unfold getInstance, query_one. cbn [fst snd pg_db tick]. rewrite Hi. cbn [fst snd].
  unfold transition_refused. cbn [to_SkipIdempotent opts]. rewrite andb_false_r.
  destruct (CanTransition (in_State inst) InstanceStateStopping) eqn:Hc; cbn [negb].
  - unfold transition_store. rewrite bindR_eq, wrapErr_eq, exec_clean by (do 2 apply tick_clean; done).
    unfold updateInstanceState. cbn [pg_db tick fst snd update_params usp_ID usp_State is_instance_state negb].
    rewrite Hi. cbn [fst snd].
    rewrite bindR_eq, wrapErr_eq, exec_clean by (do 3 apply tick_clean; done).
    unfold insertInstanceEvent. cbn [pg_db tick fst snd event_params iep_InstanceID iep_FromState iep_ToState].
    rewrite Hst. cbn [is_instance_state negb]. rewrite (proj2 (fk_ok_Some _ _)).
    2:{ cbn. rewrite lookup_insert, decide_True by done. by eexists. }
    cbn. split; [done|]. eexists. by split.
  - simpl. split; [|done]. eexists. by split.
Qed.

(** Deleting a live instance asks it to stop.  With round trips served,
    deleting a row that is not finished marks it [stopping] when the state
    machine allows that (a pending row stays as it is), sends the node one
    DestroyInstance with the row's id whatever happened to the row, and
    answers 202 unless the agent is connected and refuses the message; no
    slot is freed and no row removed. *)
Theorem delete_live h id inst reason w :
  clean (w_pg w) -> db_instances (tables w) !! id = Some inst ->
  is_instance_state (in_State inst) = true -> IsTerminal (in_State inst) = false ->
  let '(resp, w') := delete_instance h id inst reason w in
  let sent := dispatch_Send (in_NodeID inst) (CM_DestroyInstance (uuid_String (in_ID inst))) (w_agents w) in
  w_agents w' = sent.2 /\
  resp = match sent.1 with
         | Ok _ => WriteHeader StatusAccepted
         | Err e => if errors_Is e ErrAgentNotConnected then WriteHeader StatusAccepted
                    else WriteError StatusBadGateway "dispatch_failed" (Error e)
         end /\
  db_gpu_slots (tables w') = db_gpu_slots (tables w) /\
  (exists i', db_instances (tables w') = <[id := i']> (db_instances (tables w)) /\
     in_State i' = if CanTransition (in_State inst) InstanceStateStopping
                   then InstanceStateStopping else in_State inst).
Proof.
  intros Hs Hi Hst Ht. unfold delete_instance. change (_ || _) with (IsTerminal (in_State inst)).
  rewrite Ht, bind_eq, onPg_eq. cbn [fst snd].
  set (opts := {| to_Reason := reason; to_ErrorMessage := ""; to_VMInternalIP := "";
                  to_EventMetadata := ""; to_SkipIdempotent := false |}).
  pose proof (stopping_row id inst (w_pg w) reason Hs Hi Hst) as Hrow. cbv zeta in Hrow. fold opts in Hrow.
  pose proof (Transition_gpu_slots id InstanceStateStopping opts (w_pg w)) as Hg.
  destruct (Transition id InstanceStateStopping opts (w_pg w)) as [r s1]. simpl in Hg.
  cbv beta zeta. cbn [fst snd].
  assert (match r with
          | Err e => if errors_Is e ErrInvalidTransition then None else Some e
          | Ok _ => None
          end = None) as ->.
  { destruct (CanTransition _ _).
    - destruct Hrow as [Hok _]. by destruct r.
    - destruct Hrow as [(e & -> & ->) _]. done. }
  rewrite bind_eq, onAgents_eq. simpl.
  assert (exists i', db_instances (pg_db s1) = <[id := i']> (db_instances (tables w)) /\
     in_State i' = if CanTransition (in_State inst) InstanceStateStopping
                   then InstanceStateStopping else in_State inst) as Hrow'.
  { destruct (CanTransition _ _); [apply Hrow|]. destruct Hrow as [_ ->]. exists inst. by rewrite insert_id. }
  destruct (dispatch_Send _ _ (w_agents w)) as [[[]|e] ag]; simpl; [done|].
  by destruct (errors_Is e ErrAgentNotConnected).
Qed.
End delete.

(** ** Witnesses and a finding *)
Section witnesses.
#[local] Existing Instance C_collation.
#[local] Existing Instance DemoUUID.lib.

Definition stopped_db : DB := set_instances {[ 5%N := demo_instance InstanceStateStopped ]} demo_db.
Definition delete_world (d : DB) (fs : list fault) : World OpenRegistry :=
  {| w_pg := {| pg_db := d; pg_faults := fs; pg_now := 0; pg_rand := fun n => N.of_nat (100 + n);
                pg_calls := 1 |};
     w_agents := demo_agents |}.
Definition with_slots : InstanceHandlers := Build_InstanceHandlers true None None None.

Lemma delete_terminal_witness :
  let '(_, w') := delete_instance with_slots 5 (demo_instance InstanceStateStopped) "x" (delete_world stopped_db []) in
  gs_Status <$> db_gpu_slots (pg_db (w_pg w')) !! 10%N = Some SlotStatusFree.
Proof.
  pose proof (delete_terminal with_slots 5 (demo_instance InstanceStateStopped) "x"
    (delete_world stopped_db []) eq_refl eq_refl eq_refl eq_refl) as Hd.
  destruct (delete_instance with_slots 5 _ "x" _) as [resp w'].
  destruct Hd as (_ & _ & _ & _ & Hk). rewrite Hk. vm_compute. reflexivity.
Defined.

Lemma delete_live_witness :
  let '(_, w') := delete_instance with_slots 5 (demo_instance InstanceStateRunning) "x" (delete_world demo_db []) in
  in_State <$> db_instances (pg_db (w_pg w')) !! 5%N = Some InstanceStateStopping.
Proof.
  pose proof (delete_live with_slots 5 (demo_instance InstanceStateRunning) "x"
    (delete_world demo_db []) eq_refl eq_refl eq_refl eq_refl) as Hd.
  destruct (delete_instance with_slots 5 _ "x" _) as [resp w'].
  destruct Hd as (_ & _ & _ & i' & -> & Hi). rewrite lookup_insert_eq. simpl. by rewrite Hi.
Defined.

(** A lost release strands a slot for good.  When the release of a
    finished instance's slots fails and the deletion that follows succeeds,
    the request still answers 204, and the slot stays in use by nobody:
    neither the boot-time recovery nor releasing any instance frees it. *)
Theorem delete_strands_slot :
  let w := delete_world stopped_db [Refused (ErrNew "connection reset")] in
  let '(resp, w') := delete_instance with_slots 5 (demo_instance InstanceStateStopped) "x" w in
  let stranded s := exists v, db_gpu_slots (pg_db s) !! 10%N = Some v /\
                      gs_Status v = SlotStatusInUse /\ gs_CurrentInstanceID v = None in
  resp = WriteHeader StatusNoContent /\ stranded (w_pg w') /\
  stranded (RecoverOrphanReservations (w_pg w')).2 /\
  (forall i, stranded (ReleaseForInstance i (w_pg w')).2).
Proof.
  cbv zeta.
  destruct (delete_instance with_slots 5 (demo_instance InstanceStateStopped) "x"
    (delete_world stopped_db [Refused (ErrNew "connection reset")])) as [resp w'] eqn:E.
  vm_compute in E. injection E as <- <-.
  split; [reflexivity|]. split; [eexists; split; [reflexivity|done]|].
  split; [eexists; split; [reflexivity|done]|].
  intros i. unfold ReleaseForInstance. rewrite exec_clean by reflexivity. simpl.
  eexists. split; [reflexivity|]. done.
Qed.
End witnesses.
