(* ===== verification/DomainXML.v ===== *)
(** * Domain definitions (compute-agent, internal/libvirt: domain.go, xml.go)

    What the agent asks libvirt for: the specification of a domain, the XML
    document it is rendered to, and the passthrough devices read back from a
    document.  Documents are trees; turning a tree into text and back is the
    class [XMLLib] (encoding/xml). *)

From S2P Require Import Prelude GoStrings.
From Stdlib Require Import Ascii.

#[local] Open Scope string_scope.
#[local] Open Scope list_scope.

(** ** domain.go *)

Inductive DomainState := StateUnknown | StateRunning | StateStopped | StateFailed.

Definition DomainState_String (s : DomainState) : string :=
  match s with
  | StateRunning => "running"
  | StateStopped => "stopped"
  | StateFailed => "failed"
  | StateUnknown => "unknown"
  end.

Record DomainSpec := {
  sp_Name : string;
  sp_MemoryMiB : Z;                                             (* uint32 *)
  sp_VCPUs : Z;                                                 (* uint32 *)
  sp_DiskPath : string;
  sp_CloudInitISOPath : string;
  sp_NetworkName : string;
  sp_MachineType : string;
  sp_Emulator : string;
  sp_PassthroughPCI : list string
}.

Record DomainInfo := { di_Name : string; di_UUID : string; di_InitialState : DomainState }.

Definition ErrDomainNotFound : error := Sentinel "libvirt: domain not found".
Definition ErrDomainExists : error := Sentinel "libvirt: domain already defined".

(** [DomainSpec.Validate]: the error, if any. *)
Definition DomainSpec_Validate (s : DomainSpec) : option error :=
  if String.eqb (sp_Name s) "" then Some (ErrNew "libvirt: DomainSpec.Name required")
  else if (sp_MemoryMiB s =? 0)%Z then Some (ErrNew "libvirt: DomainSpec.MemoryMiB must be > 0")
  else if (sp_VCPUs s =? 0)%Z then Some (ErrNew "libvirt: DomainSpec.VCPUs must be > 0")
  else if String.eqb (sp_DiskPath s) "" then Some (ErrNew "libvirt: DomainSpec.DiskPath required")
  else None.

(** ** The XML structs *)

Record memXML := { me_Unit : string; me_Value : Z }.
Record vcpuXML := { vc_Placement : string; vc_Value : Z }.
Record osTypeXML := { ot_Arch : string; ot_Machine : string; ot_Value : string }.
Record osXML := { os_Type : osTypeXML; os_Boot : list string (* bootXML.Dev *) }.
Record featuresXML := { fe_ACPI : bool; fe_APIC : bool }.         (* nil or an empty element *)
Record cpuXML := { cp_Mode : string; cp_Check : string }.

Record hostdevAddressXML := {
  ha_Domain : string; ha_Bus : string; ha_Slot : string; ha_Function : string
}.
Record hostdevXML := {
  hd_Mode : string;
  hd_Type : string;
  hd_Managed : string;
  hd_Driver : string;                                             (* hostdevDriverXML.Name *)
  hd_Source : hostdevAddressXML                                   (* hostdevSourceXML.Address *)
}.

Record driverXML := { dr_Name : string; dr_Type : string; dr_Cache : string }.
Record targetXML := { ta_Dev : string; ta_Bus : string }.
Record diskXML := {
  dk_Type : string;
  dk_Device : string;
  dk_Driver : driverXML;
  dk_Source : string;                                             (* sourceXML.File *)
  dk_Target : targetXML;
  dk_Readonly : bool
}.
Record interfaceXML := { if_Type : string; if_Network : string; if_Model : string }.
Record consoleXML := { co_Type : string; co_TargetType : string; co_TargetPort : Z }.
Record serialXML := { se_Type : string; se_TargetPort : Z }.
Record graphicsXML := { gr_Type : string; gr_Port : Z; gr_Listen : string }.

Record devicesXML := {
  dv_Emulator : string;
  dv_Disks : list diskXML;
  dv_Interfaces : list interfaceXML;
  dv_Consoles : list consoleXML;
  dv_Serials : list serialXML;
  dv_Graphics : list graphicsXML;
  dv_Hostdevs : list hostdevXML
}.

Record domainXML := {
  dx_Type : string;
  dx_Name : string;
  dx_Memory : memXML;
  dx_CurMemory : memXML;
  dx_VCPU : vcpuXML;
  dx_OS : osXML;
  dx_Features : featuresXML;
  dx_CPU : cpuXML;
  dx_OnPoweroff : string;
  dx_OnReboot : string;
  dx_OnCrash : string;
  dx_Devices : devicesXML
}.

(** ** Building the document *)

Definition malformed (what pci : string) : error :=
  ErrNew ("malformed pci " +:+ what +:+ Quote pci).

Fixpoint hex_components (pci : string) (l : list string) : option error :=
  match l with
  | [] => None
  | f :: l' => match ParseUint16 32 f with
               | Err e => Some (ErrWrap ("non-hex component in " +:+ Quote pci +:+ ": ") e "")
               | Ok _ => hex_components pci l'
               end
  end.

Definition buildHostdev (pci : string) : result hostdevXML :=
  match Split pci ":" with
  | [p0; p1; p2] =>
      match Split p2 "." with
      | [d; f] =>
          match hex_components pci [p0; p1; d; f] with
          | Some e => Err e
          | None => Ok {| hd_Mode := "subsystem"; hd_Type := "pci"; hd_Managed := "yes";
                          hd_Driver := "vfio";
                          hd_Source := {| ha_Domain := "0x" +:+ p0; ha_Bus := "0x" +:+ p1;
                                          ha_Slot := "0x" +:+ d; ha_Function := "0x" +:+ f |} |}
          end
      | _ => Err (malformed "slot.function in " pci)
      end
  | _ => Err (malformed "address " pci)
  end.

Fixpoint hostdevs (l : list string) : result (list hostdevXML) :=
  match l with
  | [] => Ok []
  | pci :: l' =>
      match buildHostdev pci with
      | Err e => Err (ErrWrap ("hostdev " +:+ pci +:+ ": ") e "")
      | Ok hd => match hostdevs l' with Err e => Err e | Ok hds => Ok (hd :: hds) end
      end
  end.

Definition or_else (v d : string) : string := if String.eqb v "" then d else v.
Definition machineType (v : string) : string := or_else v "q35".
Definition emulator (v : string) : string := or_else v "/usr/bin/qemu-system-x86_64".

Definition boot_disk (path : string) : diskXML :=
  {| dk_Type := "file"; dk_Device := "disk";
     dk_Driver := {| dr_Name := "qemu"; dr_Type := "qcow2"; dr_Cache := "writeback" |};
     dk_Source := path; dk_Target := {| ta_Dev := "vda"; ta_Bus := "virtio" |}; dk_Readonly := false |}.

Definition seed_cdrom (path : string) : diskXML :=
  {| dk_Type := "file"; dk_Device := "cdrom";
     dk_Driver := {| dr_Name := "qemu"; dr_Type := "raw"; dr_Cache := "" |};
     dk_Source := path; dk_Target := {| ta_Dev := "sda"; ta_Bus := "sata" |}; dk_Readonly := true |}.

Definition spec_document (spec : DomainSpec) (hds : list hostdevXML) : domainXML :=
  {| dx_Type := "kvm";
     dx_Name := sp_Name spec;
     dx_Memory := {| me_Unit := "MiB"; me_Value := sp_MemoryMiB spec |};
     dx_CurMemory := {| me_Unit := "MiB"; me_Value := sp_MemoryMiB spec |};
     dx_VCPU := {| vc_Placement := "static"; vc_Value := sp_VCPUs spec |};
     dx_OS := {| os_Type := {| ot_Arch := "x86_64"; ot_Machine := machineType (sp_MachineType spec);
                               ot_Value := "hvm" |};
                 os_Boot := ["hd"] |};
     dx_Features := {| fe_ACPI := true; fe_APIC := true |};
     dx_CPU := {| cp_Mode := "host-passthrough"; cp_Check := "none" |};
     dx_OnPoweroff := "destroy"; dx_OnReboot := "restart"; dx_OnCrash := "destroy";
     dx_Devices :=
       {| dv_Emulator := emulator (sp_Emulator spec);
          dv_Disks := boot_disk (sp_DiskPath spec) ::
            (if String.eqb (sp_CloudInitISOPath spec) "" then [] else [seed_cdrom (sp_CloudInitISOPath spec)]);
          dv_Interfaces :=
            if String.eqb (sp_NetworkName spec) "" then []
            else [{| if_Type := "network"; if_Network := sp_NetworkName spec; if_Model := "virtio" |}];
          dv_Consoles := [{| co_Type := "pty"; co_TargetType := "serial"; co_TargetPort := 0 |}];
          dv_Serials := [{| se_Type := "pty"; se_TargetPort := 0 |}];
          dv_Graphics := [{| gr_Type := "vnc"; gr_Port := -1; gr_Listen := "127.0.0.1" |}];
          dv_Hostdevs := hds |} |}.

(** ** Documents as trees: the struct tags *)

Inductive xnode := XElem (name : string) (attrs : list (string * string)) (text : string) (kids : list xnode).

Definition x_name (x : xnode) : string := let 'XElem n _ _ _ := x in n.
Definition x_attrs (x : xnode) : list (string * string) := let 'XElem _ a _ _ := x in a.
Definition x_kids (x : xnode) : list xnode := let 'XElem _ _ _ k := x in k.

Definition omitempty (k v : string) : list (string * string) := if String.eqb v "" then [] else [(k, v)].
Definition chardata (name text : string) : xnode := XElem name [] text [].
Definition attrs_only (name : string) (attrs : list (string * string)) : xnode := XElem name attrs "" [].
Definition pointer (name : string) (present : bool) : list xnode :=
  if present then [XElem name [] "" []] else [].

Definition mem_tree (name : string) (m : memXML) : xnode :=
  XElem name [("unit", me_Unit m)] (Itoa (me_Value m)) [].

Definition os_tree (o : osXML) : xnode :=
  XElem "os" [] ""
    (XElem "type" [("arch", ot_Arch (os_Type o)); ("machine", ot_Machine (os_Type o))] (ot_Value (os_Type o)) []
     :: map (fun dev => attrs_only "boot" [("dev", dev)]) (os_Boot o)).

Definition hostdev_tree (h : hostdevXML) : xnode :=
  XElem "hostdev" [("mode", hd_Mode h); ("type", hd_Type h); ("managed", hd_Managed h)] ""
    [attrs_only "driver" [("name", hd_Driver h)];
     XElem "source" [] ""
       [attrs_only "address" [("domain", ha_Domain (hd_Source h)); ("bus", ha_Bus (hd_Source h));
                              ("slot", ha_Slot (hd_Source h)); ("function", ha_Function (hd_Source h))]]].

Definition disk_tree (d : diskXML) : xnode :=
  XElem "disk" [("type", dk_Type d); ("device", dk_Device d)] ""
    ([attrs_only "driver" ([("name", dr_Name (dk_Driver d)); ("type", dr_Type (dk_Driver d))] ++
                           omitempty "cache" (dr_Cache (dk_Driver d)));
      attrs_only "source" [("file", dk_Source d)];
      attrs_only "target" [("dev", ta_Dev (dk_Target d)); ("bus", ta_Bus (dk_Target d))]] ++
     pointer "readonly" (dk_Readonly d)).

Definition interface_tree (i : interfaceXML) : xnode :=
  XElem "interface" [("type", if_Type i)] ""
    [attrs_only "source" [("network", if_Network i)]; attrs_only "model" [("type", if_Model i)]].

Definition console_tree (c : consoleXML) : xnode :=
  XElem "console" [("type", co_Type c)] ""
    [attrs_only "target" [("type", co_TargetType c); ("port", Itoa (co_TargetPort c))]].

Definition serial_tree (s : serialXML) : xnode :=
  XElem "serial" [("type", se_Type s)] "" [attrs_only "target" [("port", Itoa (se_TargetPort s))]].

Definition graphics_tree (g : graphicsXML) : xnode :=
  attrs_only "graphics" [("type", gr_Type g); ("port", Itoa (gr_Port g)); ("listen", gr_Listen g)].

Definition devices_tree (d : devicesXML) : xnode :=
  XElem "devices" [] ""
    (chardata "emulator" (dv_Emulator d) :: map disk_tree (dv_Disks d) ++
     map interface_tree (dv_Interfaces d) ++ map console_tree (dv_Consoles d) ++
     map serial_tree (dv_Serials d) ++ map graphics_tree (dv_Graphics d) ++
     map hostdev_tree (dv_Hostdevs d)).

Definition domain_tree (d : domainXML) : xnode :=
  XElem "domain" [("type", dx_Type d)] ""
    [chardata "name" (dx_Name d);
     mem_tree "memory" (dx_Memory d);
     mem_tree "currentMemory" (dx_CurMemory d);
     XElem "vcpu" [("placement", vc_Placement (dx_VCPU d))] (Itoa (vc_Value (dx_VCPU d))) [];
     os_tree (dx_OS d);
     XElem "features" [] "" (pointer "acpi" (fe_ACPI (dx_Features d)) ++ pointer "apic" (fe_APIC (dx_Features d)));
     attrs_only "cpu" (("mode", cp_Mode (dx_CPU d)) :: omitempty "check" (cp_Check (dx_CPU d)));
     chardata "on_poweroff" (dx_OnPoweroff d);
     chardata "on_reboot" (dx_OnReboot d);
     chardata "on_crash" (dx_OnCrash d);
     devices_tree (dx_Devices d)].

(** ** encoding/xml

    Rendering a tree as text, and decoding a text to a tree. *)
Class XMLLib := {
  xml_MarshalIndent : xnode -> string;
  xml_Unmarshal : string -> result xnode
}.

(** A tree without its character data, which indentation changes. *)
Fixpoint skeleton (x : xnode) : xnode :=
  let 'XElem n a _ k := x in XElem n a "" (map skeleton k).

(** Printable ASCII, which escaping and decoding preserve. *)
Definition printable_byte (c : ascii) : bool :=
  let n := N_of_ascii c in (32 <=? n)%N && (n <=? 126)%N.
Definition printable_text (s : string) : bool := str_forall printable_byte s.

Fixpoint clean_tree (x : xnode) : bool :=
  let 'XElem _ a _ k := x in
  forallb (fun p => printable_text p.2) a && forallb clean_tree k.

(** Documented: a rendered document decodes to the same elements and
    attributes (attribute values outside printable ASCII may be replaced). *)
Class XMLLaws `{XMLLib} : Prop := {
  xml_decode_render x : clean_tree x = true ->
    exists x', xml_Unmarshal (xml_MarshalIndent x) = Ok x' /\ skeleton x' = skeleton x
}.

Section xml.
Context `{XMLLib}.

Definition BuildDomainXML (spec : DomainSpec) : result string :=
  match DomainSpec_Validate spec with
  | Some e => Err e
  | None => match hostdevs (sp_PassthroughPCI spec) with
            | Err e => Err e
            | Ok hds => Ok (xml_MarshalIndent (domain_tree (spec_document spec hds)))
            end
  end.

(** ** Reading the passthrough devices of a document

    Decoding into nested structs takes the children and the attributes with
    the field's name; a later attribute overwrites, an absent one is empty. *)
Definition kids_named (n : string) (x : xnode) : list xnode :=
  List.filter (fun k => String.eqb (x_name k) n) (x_kids x).

Definition attr (k : string) (attrs : list (string * string)) : string :=
  match last (List.filter (fun p => String.eqb p.1 k) attrs) with Some p => p.2 | None => "" end.

Definition trimHex (s : string) : string := TrimPrefix s "0x".

(** The attributes of the address of the source: a repeated element writes
    to the same struct. *)
Definition address_attrs (x : xnode) : list (string * string) :=
  flat_map x_attrs (flat_map (kids_named "address") (kids_named "source" x)).

Definition hostdev_pci (hd : xnode) : list string :=
  if negb (String.eqb (attr "mode" (x_attrs hd)) "subsystem")
     || negb (String.eqb (attr "type" (x_attrs hd)) "pci") then []
  else let a := address_attrs hd in
       [trimHex (attr "domain" a) +:+ ":" +:+ trimHex (attr "bus" a) +:+ ":" +:+
        trimHex (attr "slot" a) +:+ "." +:+ trimHex (attr "function" a)].

Definition document_pcis (x : xnode) : list string :=
  flat_map hostdev_pci (flat_map (kids_named "hostdev") (kids_named "devices" x)).

Definition ParsePassthroughPCIFromXML (raw : string) : result (list string) :=
  match xml_Unmarshal raw with
  | Err e => Err (ErrWrap "parse domain xml: " e "")
  | Ok x => Ok (document_pcis x)
  end.
End xml.

(** ** Facts *)

Lemma x_attrs_skeleton x : x_attrs (skeleton x) = x_attrs x.
Proof. by destruct x. Qed.

Lemma kids_named_skeleton n x : kids_named n (skeleton x) = map skeleton (kids_named n x).
Proof.
  destruct x as [m a t k]. unfold kids_named. simpl.
  induction k as [|y k IH]; [done|]. simpl. destruct y as [m' a' t' k']. simpl.
  destruct (String.eqb m' n); simpl; by rewrite IH.
Qed.

Lemma flat_map_skeleton {B} (f : xnode -> list B) (l : list xnode) :
  (forall x, f (skeleton x) = f x) -> flat_map f (map skeleton l) = flat_map f l.
Proof. intros Hf. induction l as [|x l IH]; [done|]. simpl. by rewrite Hf, IH. Qed.

Lemma flat_map_kids_skeleton n (l : list xnode) :
  flat_map (kids_named n) (map skeleton l) = map skeleton (flat_map (kids_named n) l).
Proof. induction l as [|x l IH]; [done|]. simpl. by rewrite kids_named_skeleton, IH, map_app. Qed.

Lemma hostdev_pci_skeleton x : hostdev_pci (skeleton x) = hostdev_pci x.
Proof.
  unfold hostdev_pci, address_attrs.
  rewrite x_attrs_skeleton, kids_named_skeleton, flat_map_kids_skeleton.
  by rewrite (flat_map_skeleton x_attrs _ x_attrs_skeleton).
Qed.

(** The devices are read off the elements and attributes only. *)
Lemma document_pcis_skeleton x y : skeleton x = skeleton y -> document_pcis x = document_pcis y.
Proof.
  intros Hxy. cut (forall z, document_pcis (skeleton z) = document_pcis z).
  { intros Hz. by rewrite <- (Hz x), Hxy, Hz. }
  intros z. unfold document_pcis.
  by rewrite kids_named_skeleton, flat_map_kids_skeleton, (flat_map_skeleton _ _ hostdev_pci_skeleton).
Qed.

Lemma hex_components_None pci l f :
  hex_components pci l = None -> f ∈ l -> f <> "" /\ str_forall is_hex f = true.
Proof.
  induction l as [|g l IH]; simpl; [by intros _ ?%not_elem_of_nil|].
  destruct (ParseUint16 32 g) as [z|e] eqn:E; [|done].
  intros Hl [->|Hf]%elem_of_cons; [|auto]. apply ParseUint16_Ok in E as (? & ? & _). done.
Qed.

Definition hd_printable (h : hostdevXML) : bool := clean_tree (hostdev_tree h).

Lemma is_hex_printable c : is_hex c = true -> printable_byte c = true.
Proof.
  destruct c as [b0 b1 b2 b3 b4 b5 b6 b7].
  destruct b0, b1, b2, b3, b4, b5, b6, b7; vm_compute; congruence.
Qed.

Lemma hex_printable p f :
  printable_text p = true -> str_forall is_hex f = true -> printable_text (p +:+ f) = true.
Proof.
  intros Hp Hf. unfold printable_text. rewrite str_forall_app. unfold printable_text in Hp. rewrite Hp.
  by apply (str_forall_imp _ _ _ is_hex_printable).
Qed.

(** A device address accepted is read back as it was written, and is
    printable. *)
Lemma buildHostdev_Ok pci h :
  buildHostdev pci = Ok h -> hostdev_pci (hostdev_tree h) = [pci] /\ clean_tree (hostdev_tree h) = true.
Proof.
  unfold buildHostdev. pose proof (Split_join pci ":") as Hpci.
  destruct (Split pci ":") as [|p0 [|p1 [|p2 [|]]]]; try done.
  pose proof (Split_join p2 ".") as Hp2.
  destruct (Split p2 ".") as [|d [|f [|]]]; try done.
  destruct (hex_components pci [p0; p1; d; f]) eqn:Hhex; [done|].
  intros [= <-]. split.
  - unfold hostdev_pci, address_attrs, hostdev_tree. cbn -[TrimPrefix String.append].
    unfold attr. cbn -[TrimPrefix String.append]. unfold trimHex. rewrite !TrimPrefix_app.
    by rewrite <- Hpci, <- Hp2.
  - assert (forall x, x ∈ [p0; p1; d; f] -> printable_text ("0x" +:+ x) = true) as Hx.
    { intros x Hx. apply hex_printable; [done|]. by eapply hex_components_None. }
    unfold hostdev_tree, attrs_only. cbn [clean_tree forallb snd hd_Mode hd_Type hd_Managed hd_Driver hd_Source
      ha_Domain ha_Bus ha_Slot ha_Function].
    rewrite !Hx by set_solver. done.
Qed.

Lemma hostdevs_Ok l hds :
  hostdevs l = Ok hds ->
  flat_map hostdev_pci (map hostdev_tree hds) = l /\ forallb clean_tree (map hostdev_tree hds) = true.
Proof.
  revert hds. induction l as [|pci l IH]; intros hds; simpl; [by intros [= <-]|].
  destruct (buildHostdev pci) as [h|e] eqn:Eh; [|done].
  destruct (hostdevs l) as [hs|e] eqn:El; [|done]. intros [= <-].
  apply buildHostdev_Ok in Eh as [Hp Hc]. destruct (IH hs eq_refl) as [IHp IHc].
  cbn [map flat_map forallb]. by rewrite Hp, Hc, IHp, IHc.
Qed.

Lemma kids_named_map {A} n m (f : A -> xnode) (l : list A) :
  (forall a, x_name (f a) = m) ->
  List.filter (fun k => String.eqb (x_name k) n) (map f l) = if String.eqb m n then map f l else [].
Proof.
  intros Hf. induction l as [|a l IH]; simpl; [by destruct (String.eqb m n)|].
  rewrite Hf, IH. by destruct (String.eqb m n).
Qed.

Lemma devices_hostdevs d : kids_named "hostdev" (devices_tree d) = map hostdev_tree (dv_Hostdevs d).
Proof.
  unfold kids_named, devices_tree. cbn [x_kids List.filter x_name chardata String.eqb Ascii.eqb Bool.eqb].
  rewrite !List.filter_app.
  rewrite (kids_named_map _ "disk"), (kids_named_map _ "interface"), (kids_named_map _ "console"),
    (kids_named_map _ "serial"), (kids_named_map _ "graphics"), (kids_named_map _ "hostdev") by done.
  done.
Qed.

Lemma document_pcis_domain d :
  document_pcis (domain_tree d) = flat_map hostdev_pci (map hostdev_tree (dv_Hostdevs (dx_Devices d))).
Proof.
  unfold document_pcis. unfold kids_named at 2, domain_tree. cbn -[devices_tree kids_named].
  change (x_name (devices_tree (dx_Devices d))) with "devices". simpl.
  by rewrite app_nil_r, devices_hostdevs.
Qed.

(** The texts of a specification that become attribute values. *)
Definition printable_spec (s : DomainSpec) : bool :=
  printable_text (sp_DiskPath s) && printable_text (sp_CloudInitISOPath s) &&
  printable_text (sp_NetworkName s) && printable_text (sp_MachineType s).

Lemma spec_document_clean spec hds :
  printable_spec spec = true -> forallb clean_tree (map hostdev_tree hds) = true ->
  clean_tree (domain_tree (spec_document spec hds)) = true.
Proof.
  unfold printable_spec. rewrite !andb_true_iff. intros [[[Hd Hi] Hn] Hm] Hh.
  assert (printable_text (machineType (sp_MachineType spec)) = true) as Hm'.
  { unfold machineType, or_else. by destruct (String.eqb _ _). }
  unfold domain_tree, spec_document, devices_tree, os_tree.
  destruct (String.eqb (sp_CloudInitISOPath spec) ""), (String.eqb (sp_NetworkName spec) "");
    cbn -[printable_text hostdev_tree machineType]; rewrite ?Hd, ?Hi, ?Hn, ?Hm', Hh; reflexivity.
Qed.

(** ** What a definition says is what is read back *)

(** The passthrough devices parsed from a domain document built from a
    specification are exactly the specification's PCI addresses, in order and
    character for character, for every specification BuildDomainXML accepts
    ("Inverse of buildHostdev"): the GPUs reset after a destroy are the GPUs
    handed to the VM. *)
Theorem passthrough_roundtrip `{XMLLaws} spec xml :
  BuildDomainXML spec = Ok xml -> printable_spec spec = true ->
  ParsePassthroughPCIFromXML xml = Ok (sp_PassthroughPCI spec).
Proof.
  unfold BuildDomainXML. destruct (DomainSpec_Validate spec); [done|].
  destruct (hostdevs (sp_PassthroughPCI spec)) as [hds|e] eqn:Eh; [|done].
  intros [= <-] Hp. apply hostdevs_Ok in Eh as [Hpci Hc].
  destruct (xml_decode_render (domain_tree (spec_document spec hds))) as (x & Hx & Hs).
  { by apply spec_document_clean. }
  unfold ParsePassthroughPCIFromXML. rewrite Hx. f_equal.
  by rewrite (document_pcis_skeleton _ _ Hs), document_pcis_domain.
Qed.

(** BuildDomainXML refuses exactly the specifications that miss a required
    field or name a device that is not of the form domain:bus:slot.function in
    hexadecimal. *)
Theorem BuildDomainXML_error `{XMLLib} spec :
  (exists e, BuildDomainXML spec = Err e) <->
  DomainSpec_Validate spec <> None \/
  exists pci e, pci ∈ sp_PassthroughPCI spec /\ buildHostdev pci = Err e.
Proof.
  unfold BuildDomainXML. destruct (DomainSpec_Validate spec) as [e|]; [naive_solver|].
  transitivity (exists e, hostdevs (sp_PassthroughPCI spec) = Err e).
  { destruct (hostdevs (sp_PassthroughPCI spec)); naive_solver. }
  induction (sp_PassthroughPCI spec) as [|pci l IH]; simpl.
  - split; [by intros []|]. intros [?|(? & ? & ?%not_elem_of_nil & _)]; done.
  - setoid_rewrite elem_of_cons. destruct (buildHostdev pci) as [h|e] eqn:E.
    + destruct (hostdevs l) as [hs|e'] eqn:El; split; try naive_solver.
      intros [?|(p & e & [->|Hin] & He)]; [done|congruence|].
      destruct (proj2 IH) as [? ?]; eauto; done.
    + split; [|eauto]. intros _. right. eauto 10.
Qed.

(** ** Witnesses *)

(** A codec of trees: every byte of a text is announced by a dot and a
    semicolon ends a text or a list. *)
Module DemoXML.
Fixpoint enc_str (s r : string) : string :=
  match s with EmptyString => String ";" r | String c s' => String "." (String c (enc_str s' r)) end.

Fixpoint enc_attrs (l : list (string * string)) (r : string) : string :=
  match l with [] => String ";" r | (k, v) :: l' => String "." (enc_str k (enc_str v (enc_attrs l' r))) end.

Fixpoint enc_tree (x : xnode) (r : string) : string :=
  let 'XElem n a t k := x in
  enc_str n (enc_attrs a (enc_str t (foldr (fun y r' => String "." (enc_tree y r')) (String ";" r) k))).

Fixpoint dec_str (s : string) : option (string * string) :=
  match s with
  | String k s' =>
      if Ascii.eqb k ";" then Some ("", s')
      else match s' with
           | String c s'' => (fun p => (String c p.1, p.2)) <$> dec_str s''
           | EmptyString => None
           end
  | EmptyString => None
  end.

Fixpoint dec_list {A} (dec : string -> option (A * string)) (fuel : nat) (s : string) : option (list A * string) :=
  match fuel, s with
  | S fuel, String k s' =>
      if Ascii.eqb k ";" then Some ([], s')
      else '(a, s1) ← dec s'; '(l, s2) ← dec_list dec fuel s1; Some (a :: l, s2)
  | _, _ => None
  end.

Definition dec_attr (s : string) : option ((string * string) * string) :=
  '(k, s1) ← dec_str s; '(v, s2) ← dec_str s1; Some ((k, v), s2).

Fixpoint dec_tree (fuel : nat) (s : string) : option (xnode * string) :=
  match fuel with
  | O => None
  | S fuel =>
      '(n, s1) ← dec_str s;
      '(a, s2) ← dec_list dec_attr fuel s1;
      '(t, s3) ← dec_str s2;
      '(k, s4) ← dec_list (dec_tree fuel) fuel s3;
      Some (XElem n a t k, s4)
  end.

Lemma dec_enc_str s r : dec_str (enc_str s r) = Some (s, r).
Proof. induction s as [|c s IH]; [done|]. simpl. by rewrite IH. Qed.

(** The fuel a tree takes. *)
Fixpoint weight (x : xnode) : nat :=
  let 'XElem _ a _ k := x in S (length a + foldr (fun y n => S (weight y + n)) 0 k).

Lemma dec_enc_list {A} (dec : string -> option (A * string)) (enc : A -> string -> string) l fuel r :
  (forall a r, a ∈ l -> dec (enc a r) = Some (a, r)) -> length l < fuel ->
  dec_list dec fuel (foldr (fun y r' => String "." (enc y r')) (String ";" r) l) = Some (l, r).
Proof.
  revert fuel. induction l as [|a l IH]; intros [|fuel] Hd Hl; simpl in *; try lia; [done|].
  rewrite Hd by left. simpl. rewrite IH; [done| |lia]. intros b r' Hb. apply Hd. by right.
Qed.

Lemma enc_attrs_foldr l r :
  enc_attrs l r = foldr (fun y r' => String "." (enc_str y.1 (enc_str y.2 r'))) (String ";" r) l.
Proof. induction l as [|[k v] l IH]; simpl; [done|]. by rewrite IH. Qed.

Fixpoint dec_enc_tree (x : xnode) : forall fuel r, weight x < fuel -> dec_tree fuel (enc_tree x r) = Some (x, r).
Proof.
  destruct x as [n a t k]. intros [|fuel] r Hf; [lia|]. cbn [dec_tree enc_tree weight] in *.
  rewrite dec_enc_str. cbn. rewrite enc_attrs_foldr, (dec_enc_list dec_attr).
  2:{ intros [k' v'] r' _. unfold dec_attr. simpl. rewrite dec_enc_str. cbn. by rewrite dec_enc_str. }
  2:{ lia. }
  cbn. rewrite dec_enc_str. cbn. rewrite (dec_enc_list (dec_tree fuel) enc_tree); [done| |].
  - assert (forall y, y ∈ k -> weight y < fuel) as Hw.
    { assert (foldr (fun y n => S (weight y + n)) 0 k < fuel) as Hk by lia. clear Hf dec_enc_tree.
      intros y Hy. induction k as [|z k IH]; [by apply not_elem_of_nil in Hy|]. simpl in Hk.
      apply elem_of_cons in Hy as [->|Hy]; [lia|]. apply IH; [lia|done]. }
    clear Hf. induction k as [|z k IH]; intros y r' Hy; [by apply not_elem_of_nil in Hy|].
    apply elem_of_cons in Hy as [->|Hy].
    + apply dec_enc_tree, Hw. left.
    + apply IH; [intros; apply Hw; by right|done].
  - assert (length k <= foldr (fun y n => S (weight y + n)) 0 k); [|lia].
    clear. induction k; simpl; lia.
Qed.

Lemma enc_str_length s r : String.length r < String.length (enc_str s r).
Proof. induction s as [|c s IH]; simpl; lia. Qed.

Lemma enc_attrs_length l r : length l + String.length r < String.length (enc_attrs l r).
Proof.
  induction l as [|[k v] l IH]; simpl; [lia|].
  pose proof (enc_str_length k (enc_str v (enc_attrs l r))). pose proof (enc_str_length v (enc_attrs l r)). lia.
Qed.

Fixpoint enc_tree_length (x : xnode) : forall r, weight x + String.length r < String.length (enc_tree x r).
Proof.
  destruct x as [n a t k]. intros r. cbn [weight enc_tree].
  match goal with |- context [enc_str t ?z] => set (kids := z) end.
  pose proof (enc_str_length n (enc_attrs a (enc_str t kids))). pose proof (enc_attrs_length a (enc_str t kids)).
  pose proof (enc_str_length t kids).
  assert (foldr (fun y n => S (weight y + n)) 0 k + String.length r < String.length kids); [|lia].
  unfold kids. clear -enc_tree_length. induction k as [|y k IH]; simpl; [lia|].
  match goal with |- context [enc_tree y ?z] => pose proof (enc_tree_length y z) end. lia.
Qed.

#[export] Instance lib : XMLLib := {|
  xml_MarshalIndent x := enc_tree x "";
  xml_Unmarshal raw := match dec_tree (S (String.length raw)) raw with
                       | Some (x, _) => Ok x
                       | None => Err (ErrNew "EOF")
                       end
|}.

Lemma unmarshal_marshal x : xml_Unmarshal (xml_MarshalIndent x) = Ok x.
Proof.
  unfold xml_Unmarshal, xml_MarshalIndent, lib. rewrite dec_enc_tree; [done|].
  pose proof (enc_tree_length x ""). simpl in *. lia.
Qed.

#[export] Instance laws : XMLLaws.
Proof. split. intros x _. exists x. by rewrite unmarshal_marshal. Qed.

Definition spec : DomainSpec :=
  {| sp_Name := "5"; sp_MemoryMiB := 8192; sp_VCPUs := 4; sp_DiskPath := "/img/5.qcow2";
     sp_CloudInitISOPath := "/seed/5.iso"; sp_NetworkName := "default"; sp_MachineType := "";
     sp_Emulator := ""; sp_PassthroughPCI := ["0000:16:00.0"; "0000:16:00.1"] |}.
End DemoXML.
#[local] Existing Instances DemoXML.lib DemoXML.laws.

Lemma passthrough_roundtrip_witness :
  BuildDomainXML DemoXML.spec = Ok (default "" (match BuildDomainXML DemoXML.spec with Ok x => Some x | _ => None end)) /\
  ParsePassthroughPCIFromXML (default "" (match BuildDomainXML DemoXML.spec with Ok x => Some x | _ => None end)) =
    Ok ["0000:16:00.0"; "0000:16:00.1"].
Proof.
  split; [reflexivity|].
  apply (passthrough_roundtrip DemoXML.spec); reflexivity.
Defined.

Example malformed_pci : buildHostdev "0000:16:00" = Err (malformed "slot.function in " "0000:16:00").
Proof. reflexivity. Qed.
