(* ===== verification/LibvirtManager.v ===== *)
(** * The libvirt manager (compute-agent, internal/libvirt/manager.go)

    The manager's operations over a [Connector], the slice of go-libvirt the
    program uses, and the interface [Manager] the VM handler is written
    against.  [ConnectorLaws] states what libvirt documents of these calls. *)

From S2P Require Import Prelude GoStrings GoCrypto DomainXML.
From Stdlib Require Import Ascii.

#[local] Open Scope string_scope.
#[local] Open Scope list_scope.
#[local] Open Scope go_scope.

(** [golibvirt.Domain], the handle of a domain. *)
Record Domain := { dom_Name : string; dom_UUID : list N }.
(** [golibvirt.DomainInterface]: the type and text of each address. *)
Abbreviation DomainInterface := (list (Z * string)).

(** Every call may fail with an error of its own. *)
Class Connector (H : Type) := {
  DomainDefineXML : string -> ST H (result Domain);
  DomainCreate : Domain -> ST H (result unit);
  DomainDestroy : Domain -> ST H (result unit);
  DomainUndefineFlags : Domain -> ST H (result unit);
  DomainLookupByName : string -> ST H (result Domain);
  DomainGetState : Domain -> ST H (result Z);
  DomainGetXMLDesc : Domain -> ST H (result string);
  DomainInterfaceAddresses : Domain -> ST H (result (list DomainInterface))
}.

(** [ctx.Err()] when a call starts: nil, or why the context is done. *)
Abbreviation Ctx := (option error).

(** The interface of domain.go the handlers code against. *)
Class Manager (M : Type) := {
  mgr_CreateDomain : Ctx -> DomainSpec -> ST M (result DomainInfo);
  mgr_DestroyDomain : Ctx -> string -> ST M (result unit);
  mgr_DomainPassthroughPCI : Ctx -> string -> ST M (result (list string));
  mgr_DomainIPv4 : Ctx -> string -> ST M (result string)
}.

(** ** Helpers *)

Definition mapLibvirtState (raw : Z) : DomainState :=
  if (raw =? 1)%Z || (raw =? 2)%Z then StateRunning
  else if (raw =? 4)%Z || (raw =? 5)%Z then StateStopped
  else if (raw =? 6)%Z then StateFailed
  else StateUnknown.

(** The loop over the positions at which [sub] fits. *)
Definition hasSub (s sub : string) : bool :=
  existsb (fun i => String.eqb (String.substring i (String.length sub) s) sub)
          (seq 0 (String.length s + 1 - String.length sub)).

Definition errContains (e : error) (sub : string) : bool :=
  (String.length sub <=? String.length (Error e))%nat && hasSub (Error e) sub.

Definition isLibvirtDomainNotRunning (e : error) : bool := errContains e "domain is not running".

(** The bytes from position [i] on. *)
Fixpoint uuid_from (i : nat) (l : list N) : string :=
  match l with
  | [] => ""
  | b :: l' =>
      (if (i =? 4)%nat || (i =? 6)%nat || (i =? 8)%nat || (i =? 10)%nat then "-" else "") +:+
      String (hex_digit (N.shiftr b 4)) (String (hex_digit (N.land b 15)) (uuid_from (S i) l'))
  end.
Definition uuidString (uuid : list N) : string := uuid_from 0 uuid.

(** ** manager.go *)

Definition not_found (name : string) : error := ErrWrap "" ErrDomainNotFound (": " +:+ name).
Definition already_exists (name : string) : error := ErrWrap "" ErrDomainExists (": " +:+ name).

Section manager.
Context {H : Type} `{Connector H, XMLLib}.

(** The early return of [if err := ctx.Err(); err != nil]. *)
Definition with_ctx {A} (ctx : Ctx) (m : ST H (result A)) : ST H (result A) :=
  match ctx with Some e => ret (Err e) | None => m end.

(** [DomainLookupByName], any failure reported as a missing domain. *)
Definition lookup_domain (name : string) : ST H (result Domain) :=
  r <- DomainLookupByName name ;;
  ret match r with Ok d => Ok d | Err _ => Err (not_found name) end.

Definition DomainState_of (ctx : Ctx) (name : string) : ST H (result DomainState) :=
  with_ctx ctx (
    dom <-? lookup_domain name ;;
    raw <-? wrapErr "get state: " (DomainGetState dom) ;;
    ret (Ok (mapLibvirtState raw))).

(** Define, start, and on a failed start take the definition back. *)
Definition define_and_start (name xml : string) : ST H (result Domain) :=
  dom <-? wrapErr "define domain: " (DomainDefineXML xml) ;;
  started <- DomainCreate dom ;;
  match started with
  | Err e => DomainUndefineFlags dom ;;; ret (Err (ErrWrap "start domain: " e ""))
  | Ok _ => ret (Ok dom)
  end.

Definition CreateDomain (ctx : Ctx) (spec : DomainSpec) : ST H (result DomainInfo) :=
  with_ctx ctx
    match BuildDomainXML spec with
    | Err e => ret (Err e)
    | Ok xml =>
        existing <- DomainLookupByName (sp_Name spec) ;;
        if (if existing is Ok d then negb (String.eqb (dom_Name d) "") else false)
        then ret (Err (already_exists (sp_Name spec)))
        else
          dom <-? define_and_start (sp_Name spec) xml ;;
          st <- DomainState_of None (sp_Name spec) ;;
          ret (Ok {| di_Name := sp_Name spec; di_UUID := uuidString (dom_UUID dom);
                     di_InitialState := match st with Ok s => s | Err _ => StateUnknown end |})
    end.

Definition DestroyDomain (ctx : Ctx) (name : string) : ST H (result unit) :=
  with_ctx ctx (
    dom <-? lookup_domain name ;;
    off <- DomainDestroy dom ;;
    match off with
    | Err e =>
        if isLibvirtDomainNotRunning e then wrapErr "undefine: " (DomainUndefineFlags dom)
        else ret (Err (ErrWrap "destroy: " e ""))
    | Ok _ => wrapErr "undefine: " (DomainUndefineFlags dom)
    end).

Definition DomainPassthroughPCI (ctx : Ctx) (name : string) : ST H (result (list string)) :=
  with_ctx ctx (
    dom <-? lookup_domain name ;;
    raw <-? wrapErr "get xml: " (DomainGetXMLDesc dom) ;;
    ret (ParsePassthroughPCIFromXML raw)).

(** The first IPv4 address of the interfaces, in order. *)
Definition first_ipv4 (ifaces : list DomainInterface) : string :=
  match List.find (fun a => (a.1 =? 0)%Z && negb (String.eqb a.2 "")) (concat ifaces) with
  | Some a => a.2
  | None => ""
  end.

Definition DomainIPv4 (ctx : Ctx) (name : string) : ST H (result string) :=
  with_ctx ctx (
    dom <-? lookup_domain name ;;
    ifaces <-? wrapErr "interface addresses: " (DomainInterfaceAddresses dom) ;;
    ret (Ok (first_ipv4 ifaces))).

#[export] Instance LibvirtManager : Manager H := {|
  mgr_CreateDomain := CreateDomain;
  mgr_DestroyDomain := DestroyDomain;
  mgr_DomainPassthroughPCI := DomainPassthroughPCI;
  mgr_DomainIPv4 := DomainIPv4
|}.
End manager.

(** ** hasSub is strings.Contains *)

Lemma HasPrefix_substring s sub :
  HasPrefix s sub = String.eqb (String.substring 0 (String.length sub) s) sub.
Proof.
  revert s. induction sub as [|c sub IH]; intros s; [by destruct s|].
  destruct s as [|d s]; [done|]. unfold HasPrefix. simpl.
  destruct (Ascii.eqb_spec c d) as [->|Hne].
  - rewrite Ascii.eqb_refl. apply IH.
  - apply not_eq_sym, Ascii.eqb_neq in Hne as ->. done.
Qed.

Lemma substring_S i n c s : String.substring (S i) n (String c s) = String.substring i n s.
Proof. done. Qed.

Lemma short_no_prefix s sub : String.length s < String.length sub -> HasPrefix s sub = false.
Proof.
  intros Hl. apply not_true_iff_false. intros [r ->]%HasPrefix_spec.
  rewrite str_length_app in Hl. lia.
Qed.

(** The index loop of manager.go finds what [strings.Contains] finds: an
    occurrence of the text at some position. *)
Theorem hasSub_Contains s sub :
  hasSub s sub = Contains s sub /\ (hasSub s sub = true <-> exists a b, s = (a +:+ sub +:+ b)%string).
Proof.
  assert (hasSub s sub = Contains s sub) as Heq.
  { unfold hasSub. induction s as [|c s IH].
    - destruct sub as [|d sub]; [done|]. simpl. by destruct (String.length sub).
    - cbn [Contains]. rewrite HasPrefix_substring.
      destruct (decide (String.length sub <= S (String.length s))) as [Hle|Hgt].
      + replace (String.length (String c s) + 1 - String.length sub)
          with (S (String.length s + 1 - String.length sub)) by (simpl; lia).
        cbn [seq existsb]. f_equal. rewrite <- IH, <- (seq_shift _ 0).
        clear IH. induction (seq 0 _) as [|i l IHl]; [done|]. cbn [map existsb]. by rewrite IHl, substring_S.
      + replace (String.length (String c s) + 1 - String.length sub) with 0 by (simpl; lia).
        rewrite <- HasPrefix_substring, short_no_prefix by (simpl; lia). simpl. rewrite <- IH.
        by replace (String.length s + 1 - String.length sub) with 0 by lia. }
  split; [done|]. rewrite Heq. clear Heq. induction s as [|c s IH]; cbn [Contains].
  - rewrite orb_false_r, HasPrefix_spec. split; [intros [r Hr]; by exists "", r|].
    intros (a & b & Hab). destruct a; [|done]. by exists b.
  - rewrite orb_true_iff, HasPrefix_spec, IH. split.
    + intros [[r Hr]|(a & b & ->)]; [by exists "", r|by exists (String c a), b].
    + intros ([|c' a] & b & Hab); [left; by exists b|]. injection Hab as -> Hs. right. by exists a, b.
Qed.

Example uuidString_example :
  uuidString [85; 14; 132; 0; 226; 155; 65; 212; 167; 22; 68; 102; 85; 68; 0; 255]%N =
  "550e8400-e29b-41d4-a716-4466554400ff".
Proof. reflexivity. Qed.

(** ** What libvirt documents *)

(** A domain as libvirt holds it; one that is not persistent is forgotten when
    it stops. *)
Record LvDomain := { lv_XML : string; lv_Running : bool; lv_Persistent : bool }.

Definition defined_domain (xml : string) : LvDomain :=
  {| lv_XML := xml; lv_Running := false; lv_Persistent := true |}.
Definition started (v : LvDomain) : LvDomain :=
  {| lv_XML := lv_XML v; lv_Running := true; lv_Persistent := lv_Persistent v |}.

(** The domains after one was stopped, and after its definition was removed
    (a running one becomes transient). *)
Definition stop_domain (n : string) (v : LvDomain) (m : gmap string LvDomain) : gmap string LvDomain :=
  if lv_Persistent v
  then <[n := {| lv_XML := lv_XML v; lv_Running := false; lv_Persistent := true |}]> m else delete n m.
Definition undefine_domain (n : string) (v : LvDomain) (m : gmap string LvDomain) : gmap string LvDomain :=
  if lv_Running v
  then <[n := {| lv_XML := lv_XML v; lv_Running := true; lv_Persistent := false |}]> m else delete n m.

Definition lower_hex (c : ascii) : bool := is_hex c && negb (is_upper c).
Definition hex_word (n : nat) (s : string) : bool := (String.length s =? n)%nat && str_forall lower_hex s.

(** An address in sysfs form, as libvirt itself prints it. *)
Definition canonical_pci (pci : string) : bool :=
  match Split pci ":" with
  | [d; b; sf] => match Split sf "." with
                  | [s; f] => hex_word 4 d && hex_word 2 b && hex_word 2 s && hex_word 1 f
                  | _ => false
                  end
  | _ => false
  end.

(** What libvirt documents of the calls.  A call that changes a domain and
    returns an error may have failed before it took effect, or after it (its
    answer can be lost on the way back). *)
Class ConnectorLaws (H : Type) `{Connector H, XMLLib} := {
  lv_domains : H -> gmap string LvDomain;
  lookup_pure n h : lv_domains (DomainLookupByName n h).2 = lv_domains h;
  lookup_ok n h d : (DomainLookupByName n h).1 = Ok d ->
    dom_Name d = n /\ is_Some (lv_domains h !! n);
  define_effect dx h : lv_domains h !! dx_Name dx = None ->
    let '(r, h') := DomainDefineXML (xml_MarshalIndent (domain_tree dx)) h in
    let m := <[dx_Name dx := defined_domain (xml_MarshalIndent (domain_tree dx))]> (lv_domains h) in
    match r with
    | Ok d => dom_Name d = dx_Name dx /\ lv_domains h' = m
    | Err _ => lv_domains h' = lv_domains h \/ lv_domains h' = m
    end;
  create_effect d h v : lv_domains h !! dom_Name d = Some v ->
    let '(r, h') := DomainCreate d h in
    let m := <[dom_Name d := started v]> (lv_domains h) in
    match r with
    | Ok _ => lv_domains h' = m
    | Err _ => lv_domains h' = lv_domains h \/ lv_domains h' = m
    end;
  destroy_effect d h v : lv_domains h !! dom_Name d = Some v ->
    let '(r, h') := DomainDestroy d h in
    match r with
    | Ok _ => lv_domains h' = stop_domain (dom_Name d) v (lv_domains h)
    | Err e => if isLibvirtDomainNotRunning e then lv_domains h' = lv_domains h /\ lv_Running v = false
               else lv_domains h' = lv_domains h \/ lv_domains h' = stop_domain (dom_Name d) v (lv_domains h)
    end;
  undefine_effect d h v : lv_domains h !! dom_Name d = Some v ->
    let '(r, h') := DomainUndefineFlags d h in
    match r with
    | Ok _ => lv_domains h' = undefine_domain (dom_Name d) v (lv_domains h)
    | Err _ => lv_domains h' = lv_domains h \/ lv_domains h' = undefine_domain (dom_Name d) v (lv_domains h)
    end;
  undefine_absent d h : lv_domains h !! dom_Name d = None ->
    is_ok (DomainUndefineFlags d h).1 = false /\ lv_domains (DomainUndefineFlags d h).2 = lv_domains h;
  get_state_pure d h : lv_domains (DomainGetState d h).2 = lv_domains h;
  get_xml_pure d h : lv_domains (DomainGetXMLDesc d h).2 = lv_domains h;
  get_xml_pci d h raw v l : (DomainGetXMLDesc d h).1 = Ok raw -> lv_domains h !! dom_Name d = Some v ->
    ParsePassthroughPCIFromXML (lv_XML v) = Ok l -> forallb canonical_pci l = true ->
    ParsePassthroughPCIFromXML raw = Ok l
}.

Section laws.
Context {H : Type} `{ConnectorLaws H}.

Lemma lookup_domain_spec name h :
  lv_domains (lookup_domain name h).2 = lv_domains h /\
  match (lookup_domain name h).1 with
  | Ok d => dom_Name d = name /\ is_Some (lv_domains h !! name)
  | Err e => e = not_found name
  end.
Proof.
  unfold lookup_domain. rewrite bind_eq. pose proof (lookup_pure name h) as Hp.
  pose proof (lookup_ok name h) as Hk. destruct (DomainLookupByName name h) as [[d|e] h1]; simpl in *; auto.
Qed.

Lemma DomainState_of_pure name h : lv_domains (DomainState_of None name h).2 = lv_domains h.
Proof.
  unfold DomainState_of, with_ctx. rewrite bindR_eq.
  destruct (lookup_domain_spec name h) as [Hp _]. destruct (lookup_domain name h) as [[d|e] h1]; simpl in *; [|done].
  rewrite bindR_eq, wrapErr_eq. pose proof (get_state_pure d h1).
  destruct (DomainGetState d h1) as [[z|e] h2]; simpl in *; congruence.
Qed.

(** The document a specification is built into. *)
Lemma BuildDomainXML_document spec xml :
  BuildDomainXML spec = Ok xml ->
  exists dx, xml = xml_MarshalIndent (domain_tree dx) /\ dx_Name dx = sp_Name spec.
Proof.
  unfold BuildDomainXML. destruct (DomainSpec_Validate spec); [done|].
  destruct (hostdevs _) as [hds|]; [|done]. intros [= <-]. by exists (spec_document spec hds).
Qed.

(** libvirt reported an error for the start of the domain although it had
    started it: the calls of a create, up to the start. *)
Definition start_lost (spec : DomainSpec) (h : H) : Prop :=
  exists xml d h1 e v, BuildDomainXML spec = Ok xml /\
    DomainDefineXML xml (DomainLookupByName (sp_Name spec) h).2 = (Ok d, h1) /\
    (DomainCreate d h1).1 = Err e /\
    lv_domains (DomainCreate d h1).2 !! sp_Name spec = Some v /\ lv_Running v = true.

Lemma delete_insert_same {A} k (x : A) (m m0 : gmap string A) :
  m !! k = None -> m0 = <[k := x]> m -> delete k m0 = m.
Proof. intros Hk ->. by apply delete_insert_id. Qed.

(** The change that an undefine makes, if it makes one, concerns one name. *)
Lemma undefine_only d h v :
  lv_domains h !! dom_Name d = Some v ->
  delete (dom_Name d) (lv_domains (DomainUndefineFlags d h).2) = delete (dom_Name d) (lv_domains h) /\
  (forall v', lv_domains (DomainUndefineFlags d h).2 !! dom_Name d = Some v' -> lv_Running v' = lv_Running v).
Proof.
  intros Hv. pose proof (undefine_effect d h v Hv) as He.
  destruct (DomainUndefineFlags d h) as [r h']. simpl.
  assert (lv_domains h' = lv_domains h \/ lv_domains h' = undefine_domain (dom_Name d) v (lv_domains h)) as [->| ->]
    by (destruct r; auto).
  - split; [done|]. intros v' Hv'. congruence.
  - unfold undefine_domain. destruct (lv_Running v) eqn:Hr.
    + rewrite delete_insert_eq. split; [done|]. intros v'. rewrite lookup_insert_eq. by intros [= <-].
    + rewrite delete_delete_eq. split; [done|]. intros v'. by rewrite lookup_delete_eq.
Qed.

Lemma define_and_start_spec spec xml h h0 :
  BuildDomainXML spec = Ok xml -> lv_domains h !! sp_Name spec = None ->
  h = (DomainLookupByName (sp_Name spec) h0).2 ->
  let '(r, h') := define_and_start (sp_Name spec) xml h in
  match r with
  | Ok d => lv_domains h' = <[sp_Name spec := started (defined_domain xml)]> (lv_domains h)
  | Err _ => delete (sp_Name spec) (lv_domains h') = lv_domains h /\
      forall v, lv_domains h' !! sp_Name spec = Some v -> lv_Running v = true -> start_lost spec h0
  end.
Proof.
  intros Hx Hnone Hh. pose proof Hx as (dx & Hxml & Hn)%BuildDomainXML_document. subst xml.
  unfold define_and_start. rewrite bindR_eq, wrapErr_eq.
  pose proof (define_effect dx h) as Hdef. rewrite Hn in Hdef. specialize (Hdef Hnone).
  destruct (DomainDefineXML _ h) as [[d|e] h1] eqn:Ed; simpl in *.
  2:{ destruct Hdef as [->| ->]; [rewrite delete_id by done|rewrite delete_insert_id by done].
      - split; [done|]. intros v Hv. congruence.
      - split; [done|]. rewrite lookup_insert_eq. intros v [= <-]. done. }
  destruct Hdef as [Hd Hm]. rewrite bind_eq.
  assert (lv_domains h1 !! dom_Name d = Some (defined_domain (xml_MarshalIndent (domain_tree dx)))) as Hl
    by (rewrite Hm, Hd; apply lookup_insert_eq).
  pose proof (create_effect d h1 _ Hl) as Hcr.
  destruct (DomainCreate d h1) as [[[]|e] h2] eqn:Ec; simpl in *.
  { rewrite Hcr, Hm, Hd. apply insert_insert_eq. }
  rewrite bind_eq. simpl.
  assert (exists v2, lv_domains h2 = <[sp_Name spec := v2]> (lv_domains h)) as [v2 Hm2].
  { rewrite Hm, Hd in Hcr. destruct Hcr as [->| ->]; [|rewrite insert_insert_eq]; eauto. }
  assert (lv_domains h2 !! dom_Name d = Some v2) as Hl2 by (rewrite Hm2, Hd; apply lookup_insert_eq).
  destruct (undefine_only d h2 v2 Hl2) as [Hdel Hrun]. rewrite Hd in Hdel, Hrun, Hl2.
  destruct (DomainUndefineFlags d h2) as [r h3]. simpl in *. split.
  - by rewrite Hdel, Hm2, delete_insert_id.
  - intros v Hv Hr. exists (xml_MarshalIndent (domain_tree dx)), d, h1, e, v2.
    rewrite <- Hh, Ec. rewrite (Hrun v Hv) in Hr. by rewrite Ed.
Qed.

(** Creating a domain that does not exist yet: on success it is defined with
    the specification's document and running.  On failure no domain of that
    name runs, unless libvirt reported an error for a start that took effect;
    a stopped definition may be left behind.  No other domain changes. *)
Lemma CreateDomain_absent ctx spec h :
  lv_domains h !! sp_Name spec = None ->
  let '(r, h') := CreateDomain ctx spec h in
  match r with
  | Ok info => ctx = None /\ di_Name info = sp_Name spec /\
      exists xml, BuildDomainXML spec = Ok xml /\
        lv_domains h' = <[sp_Name spec := started (defined_domain xml)]> (lv_domains h)
  | Err _ => delete (sp_Name spec) (lv_domains h') = lv_domains h /\
      forall v, lv_domains h' !! sp_Name spec = Some v -> lv_Running v = true -> start_lost spec h
  end.
Proof.
  intros Hnone. assert (delete (sp_Name spec) (lv_domains h) = lv_domains h /\
    forall v, lv_domains h !! sp_Name spec = Some v -> lv_Running v = true -> start_lost spec h) as Hsame.
  { split; [by apply delete_id|]. intros v Hv. congruence. }
  unfold CreateDomain, with_ctx. destruct ctx as [e|]; [done|].
  destruct (BuildDomainXML spec) as [xml|e] eqn:Eb; [|done]. rewrite bind_eq.
  pose proof (lookup_pure (sp_Name spec) h) as Hp. pose proof (lookup_ok (sp_Name spec) h) as Hk.
  pose proof (define_and_start_spec spec xml (DomainLookupByName (sp_Name spec) h).2 h Eb) as Hds.
  destruct (DomainLookupByName (sp_Name spec) h) as [[d|e] h1]; simpl in *.
  { destruct (Hk d eq_refl) as [_ [v Hv]]. congruence. }
  rewrite Hp in Hds. specialize (Hds Hnone eq_refl). rewrite bindR_eq.
  destruct (define_and_start _ _ h1) as [[dom|e'] h2]; [|done].
  rewrite bind_eq. simpl. split; [done|]. split; [done|]. exists xml. split; [done|].
  rewrite <- Hds. apply DomainState_of_pure.
Qed.

(** A name libvirt already knows is refused and nothing changes. *)
Lemma CreateDomain_present ctx spec h d :
  (DomainLookupByName (sp_Name spec) h).1 = Ok d -> sp_Name spec <> "" ->
  exists e h', CreateDomain ctx spec h = (Err e, h') /\ lv_domains h' = lv_domains h.
Proof.
  intros Hl Hne. unfold CreateDomain, with_ctx. destruct ctx as [e|]; [by eauto|].
  destruct (BuildDomainXML spec) as [xml|e]; [|by eauto]. rewrite bind_eq.
  pose proof (lookup_pure (sp_Name spec) h) as Hp. pose proof (lookup_ok (sp_Name spec) h d Hl) as [Hd _].
  rewrite Hl, Hd. apply String.eqb_neq in Hne as ->. simpl. eauto.
Qed.

Lemma stop_only n v m :
  m !! n = Some v ->
  delete n (stop_domain n v m) = delete n m /\
  (forall v', stop_domain n v m !! n = Some v' -> lv_Running v' = false).
Proof.
  intros Hv. unfold stop_domain. destruct (lv_Persistent v).
  - rewrite delete_insert_eq. split; [done|]. intros v'. rewrite lookup_insert_eq. by intros [= <-].
  - rewrite delete_delete_eq. split; [done|]. intros v'. by rewrite lookup_delete_eq.
Qed.

(** Destroying: success means the domain is gone, and no other domain
    changed; [ErrDomainNotFound] means that nothing was done, whatever made
    the lookup fail. *)
Lemma DestroyDomain_result ctx name h :
  let '(r, h') := DestroyDomain ctx name h in
  match r with
  | Ok _ => ctx = None /\ lv_domains h' = delete name (lv_domains h)
  | Err e => delete name (lv_domains h') = delete name (lv_domains h) /\
             (e = not_found name -> lv_domains h' = lv_domains h)
  end.
Proof.
  unfold DestroyDomain, with_ctx. destruct ctx as [e|]; [done|]. rewrite bindR_eq.
  pose proof (lookup_domain_spec name h) as [Hp Hk].
  destruct (lookup_domain name h) as [[d|e] h1]; simpl in *; [|by rewrite Hp].
  destruct Hk as [Hd [v Hv]]. rewrite <- Hp in *. clear Hp h. rewrite bind_eq. subst name.
  (* what remains once the domain is off *)
  assert (forall h2, delete (dom_Name d) (lv_domains h2) = delete (dom_Name d) (lv_domains h1) ->
    (forall v', lv_domains h2 !! dom_Name d = Some v' -> lv_Running v' = false) ->
    let '(r, h') := wrapErr "undefine: " (DomainUndefineFlags d) h2 in
    match r with
    | Ok _ => @None error = None /\ lv_domains h' = delete (dom_Name d) (lv_domains h1)
    | Err e => delete (dom_Name d) (lv_domains h') = delete (dom_Name d) (lv_domains h1) /\
               (e = not_found (dom_Name d) -> lv_domains h' = lv_domains h1)
    end) as Hun.
  { intros h2 Hdel Hoff. rewrite wrapErr_eq. destruct (lv_domains h2 !! dom_Name d) as [v2|] eqn:Hv2.
    - destruct (undefine_only d h2 v2 Hv2) as [Hsame _]. pose proof (undefine_effect d h2 v2 Hv2) as He.
      destruct (DomainUndefineFlags d h2) as [[[]|e] h3]; simpl in *.
      + split; [done|]. rewrite He. unfold undefine_domain. by rewrite (Hoff v2 eq_refl).
      + rewrite Hsame. split; [done|]. done.
    - destruct (undefine_absent d h2 Hv2) as [Hno Hsame].
      destruct (DomainUndefineFlags d h2) as [[[]|e] h3]; simpl in *; [done|].
      rewrite Hsame. split; [done|]. done. }
  pose proof (destroy_effect d h1 v Hv) as He. destruct (stop_only (dom_Name d) v (lv_domains h1) Hv) as [Hs Hoff].
  destruct (DomainDestroy d h1) as [[[]|e] h2]; simpl in *.
  - apply Hun; by rewrite He.
  - destruct (isLibvirtDomainNotRunning e).
    + destruct He as [He Hr]. apply Hun; rewrite He; [done|]. intros v' Hv'. congruence.
    + simpl. split; [|done]. by destruct He as [->| ->].
Qed.

(** Reading the devices of a domain changes nothing, and gives those it was
    defined with. *)
Lemma DomainPassthroughPCI_spec ctx name h :
  let '(r, h') := DomainPassthroughPCI ctx name h in
  lv_domains h' = lv_domains h /\
  forall v l, lv_domains h !! name = Some v -> ParsePassthroughPCIFromXML (lv_XML v) = Ok l ->
    forallb canonical_pci l = true -> forall l', r = Ok l' -> l' = l.
Proof.
  unfold DomainPassthroughPCI, with_ctx. destruct ctx as [e|]; [done|]. rewrite bindR_eq.
  pose proof (lookup_domain_spec name h) as [Hp Hk].
  destruct (lookup_domain name h) as [[d|e] h1]; simpl in *; [|done]. destruct Hk as [Hd _].
  rewrite bindR_eq, wrapErr_eq. pose proof (get_xml_pure d h1) as Hx. pose proof (get_xml_pci d h1) as Hpci.
  destruct (DomainGetXMLDesc d h1) as [[raw|e] h2]; simpl in *; [|by rewrite Hx, Hp].
  rewrite Hx, Hp. split; [done|]. intros v l Hv Hl Hc l' Hr.
  rewrite (Hpci raw v l) in Hr; [congruence|done|by rewrite Hp, Hd|done|done].
Qed.
End laws.

(** ** A libvirtd for the witnesses

    Domains by name, and whether the daemon answers. *)
Module DemoVirt.
#[export] Existing Instances DemoXML.lib DemoXML.laws.

Record state := { vs_domains : gmap string LvDomain; vs_down : bool }.

Definition handle (n : string) : Domain := {| dom_Name := n; dom_UUID := replicate 16 0%N |}.

(** A call that changes the domains, or fails. *)
Definition call {A} (f : gmap string LvDomain -> result (A * gmap string LvDomain)) : ST state (result A) :=
  fun s => if vs_down s then (Err (ErrNew "end of file while reading data"), s)
           else match f (vs_domains s) with
                | Ok (a, m) => (Ok a, {| vs_domains := m; vs_down := false |})
                | Err e => (Err e, s)
                end.

Definition doc_name (x : xnode) : string :=
  match kids_named "name" x with XElem _ _ t _ :: _ => t | [] => "" end.

Definition xml_name (raw : string) : string :=
  match xml_Unmarshal raw with Ok x => doc_name x | Err _ => "" end.

Definition with_domain {A} (d : Domain) (f : LvDomain -> gmap string LvDomain -> result (A * gmap string LvDomain)) :=
  call (fun m => match m !! dom_Name d with
                 | Some v => f v m
                 | None => Err (ErrNew "Domain not found")
                 end).

#[export] Instance conn : Connector state := {|
  DomainDefineXML raw := call (fun m => if m !! xml_name raw is Some _ then Err (ErrNew "operation failed: domain already exists")
     else Ok (handle (xml_name raw), <[xml_name raw := defined_domain raw]> m));
  DomainCreate d := with_domain d (fun v m => Ok (tt, <[dom_Name d := started v]> m));
  DomainDestroy d := with_domain d (fun v m =>
     if lv_Running v then Ok (tt, stop_domain (dom_Name d) v m)
     else Err (ErrNew "Requested operation is not valid: domain is not running"));
  DomainUndefineFlags d := with_domain d (fun v m => Ok (tt, undefine_domain (dom_Name d) v m));
  DomainLookupByName n := call (fun m => if m !! n is Some _ then Ok (handle n, m) else Err (ErrNew "Domain not found"));
  DomainGetState d := with_domain d (fun v m => Ok ((if lv_Running v then 1 else 5)%Z, m));
  DomainGetXMLDesc d := with_domain d (fun v m => Ok (lv_XML v, m));
  DomainInterfaceAddresses d := with_domain d (fun v m => Ok ([[(0%Z, "192.168.122.10")]], m))
|}.

Lemma xml_name_domain dx : xml_name (xml_MarshalIndent (domain_tree dx)) = dx_Name dx.
Proof.
  unfold xml_name. by rewrite DemoXML.unmarshal_marshal.
Qed.

(** A call's outcome: refused, or what [f] says. *)
Lemma call_eq {A} f s (r : result A) s' :
  call f s = (r, s') ->
  (exists e, r = Err e /\ s' = s) \/
  (exists a, r = Ok a /\ f (vs_domains s) = Ok (a, vs_domains s')).
Proof.
  unfold call. destruct (vs_down s); [intros [= <- <-]; left; eauto|].
  destruct (f (vs_domains s)) as [[a m]|e]; intros [= <- <-]; eauto.
Qed.

Lemma with_domain_eq {A} d f s (r : result A) s' :
  with_domain d f s = (r, s') ->
  (exists e, r = Err e /\ s' = s) \/
  (exists a v, r = Ok a /\ vs_domains s !! dom_Name d = Some v /\ f v (vs_domains s) = Ok (a, vs_domains s')).
Proof.
  intros [?|(a & -> & Hf)]%call_eq; [by left|]. right.
  destruct (vs_domains s !! dom_Name d); [eauto|done].
Qed.

Ltac demo_call :=
  match goal with
  | |- context [call ?f ?s] =>
      let E := fresh "E" in destruct (call f s) as [[?|?] ?] eqn:E;
      apply call_eq in E as [(? & ? & ->)|(? & ? & E)]; simplify_eq/=
  | |- context [with_domain ?d ?f ?s] =>
      let E := fresh "E" in destruct (with_domain d f s) as [[?|?] ?] eqn:E;
      apply with_domain_eq in E as [(? & ? & ->)|(? & ? & ? & ? & E)]; simplify_eq/=
  end.

#[export, refine] Instance conn_laws : ConnectorLaws state := {| lv_domains := vs_domains |}.
Proof.
  - intros n h. simpl. demo_call; [|done]. by case_match; simplify_eq.
  - intros n h d. simpl. demo_call; intros; simplify_eq. case_match; simplify_eq/=. eauto.
  - intros dx h Hno. unfold DomainDefineXML, conn. rewrite xml_name_domain. demo_call; [|by left].
    by case_match; simplify_eq/=.
  - intros d h v Hv. simpl. demo_call; [done|by left].
  - intros d h v Hv. simpl. unfold with_domain, call. destruct (vs_down h).
    { change (isLibvirtDomainNotRunning _) with false. by left. }
    rewrite Hv. destruct (lv_Running v) eqn:Hr; [done|]. by change (isLibvirtDomainNotRunning _) with true.
  - intros d h v Hv. simpl. demo_call; [done|by left].
  - intros d h Hno. simpl. by demo_call.
  - intros d h. simpl. by demo_call.
  - intros d h. simpl. by demo_call.
  - intros d h raw v l. simpl. demo_call; intros; simplify_eq. done.
Defined.
End DemoVirt.
