(* ===== verification/IOMMU.v ===== *)
(** * GPU passthrough state of a host (compute-agent, internal/gpu/iommu.go)

    The functions that read /sys, over a [Sysfs] tree: for each PCI device the
    files and links the program reads, and the directory of each IOMMU group.
    An entry is absent, unreadable, or holds a value. *)

From S2P Require Import Prelude GoStrings.
From Stdlib Require Import Ascii.

#[local] Open Scope string_scope.
#[local] Open Scope list_scope.

(** What reading a path gives. *)
Inductive entry (A : Type) := Absent | Unreadable (e : error) | Present (a : A).
Arguments Absent {A}.
Arguments Unreadable {A} e.
Arguments Present {A} a.

Record pciDevice := {
  pd_iommu_group : entry string;                       (* the target of the link *)
  pd_driver : entry string;                            (* the target of the link *)
  pd_class : entry string;
  pd_vendor : entry string;
  pd_device : entry string;
  pd_reset : entry unit;                               (* stat *)
  pd_reset_write : option error;                       (* the error of writing to it *)
  pd_reset_method : entry string
}.

Record Sysfs := {
  sf_iommu_groups : entry (list string);               (* kernel/iommu_groups *)
  sf_group_devices : string -> entry (list string);    (* .../<group>/devices *)
  sf_pci_devices : entry (list string);                (* bus/pci/devices *)
  sf_device : string -> option pciDevice               (* .../<addr> *)
}.

Definition ErrIOMMUDisabled : error := Sentinel "gpu: iommu disabled".
Definition ErrDeviceNotFound : error := Sentinel "gpu: pci device not found in sysfs".

(** [os.IsNotExist], and the [*fs.PathError] of a missing path. *)
Definition ENOENT : error := Sentinel "no such file or directory".
Definition path_error (op path : string) : error := ErrWrap (op +:+ " " +:+ path +:+ ": ") ENOENT "".

(** [filepath.Base] of a link target. *)
Definition Base (p : string) : string :=
  if String.eqb p "" then "."
  else match List.filter (fun w => negb (String.eqb w "")) (Split p "/") with
       | [] => "/"
       | ws => default "" (last ws)
       end.

Section reads.
Context (s : Sysfs).

(** The entry [f] of the directory of a device. *)
Definition dev_entry {A} (f : pciDevice -> entry A) (pciAddr : string) : entry A :=
  match sf_device s pciAddr with Some d => f d | None => Absent end.

Definition device_path (pciAddr file : string) : string :=
  "/sys/bus/pci/devices/" +:+ pciAddr +:+ "/" +:+ file.

Definition dev_not_found (pciAddr : string) : error := ErrWrap "" ErrDeviceNotFound (": " +:+ pciAddr).

Definition IOMMUEnabled : bool :=
  match sf_iommu_groups s with Present entries => (0 <? length entries)%nat | _ => false end.

Definition IOMMUGroup (pciAddr : string) : result string :=
  match dev_entry pd_iommu_group pciAddr with
  | Absent => Err (dev_not_found pciAddr)
  | Unreadable e => Err e
  | Present link => Ok (Base link)
  end.

Definition GroupMembers (pciAddr : string) : result (list string) :=
  match IOMMUGroup pciAddr with
  | Err e => Err e
  | Ok group =>
      let pre := "read iommu group " +:+ group +:+ ": " in
      match sf_group_devices s group with
      | Absent => Err (ErrWrap pre (path_error "open" ("/sys/kernel/iommu_groups/" +:+ group +:+ "/devices")) "")
      | Unreadable e => Err (ErrWrap pre e "")
      | Present names => Ok (merge_sort str_le names)
      end
  end.

Definition Companions (pciAddr : string) : result (list string) :=
  result_map (List.filter (fun m => negb (String.eqb m pciAddr))) (GroupMembers pciAddr).

Definition CurrentDriver (pciAddr : string) : result string :=
  match dev_entry pd_driver pciAddr with
  | Absent => match sf_device s pciAddr with
              | Some _ => Ok ""                        (* no driver bound *)
              | None => Err (dev_not_found pciAddr)
              end
  | Unreadable e => Err e
  | Present link => Ok (Base link)
  end.

(** [for _, m := range members]: all on vfio-pci? *)
Fixpoint all_vfio (members : list string) : result bool :=
  match members with
  | [] => Ok true
  | m :: rest => match CurrentDriver m with
                 | Err e => Err e
                 | Ok drv => if String.eqb drv "vfio-pci" then all_vfio rest else Ok false
                 end
  end.

Definition VFIOReady (pciAddr : string) : result bool :=
  match GroupMembers pciAddr with Err e => Err e | Ok members => all_vfio members end.

(** [os.ReadFile] and [strings.TrimSpace]. *)
Definition read_trimmed (f : pciDevice -> entry string) (file pciAddr : string) : result string :=
  match dev_entry f pciAddr with
  | Absent => Err (path_error "open" (device_path pciAddr file))
  | Unreadable e => Err e
  | Present b => Ok (TrimSpace b)
  end.

Definition deviceClass : string -> result string := read_trimmed pd_class "class".
Definition DeviceVendor : string -> result string := read_trimmed pd_vendor "vendor".
Definition DeviceID : string -> result string := read_trimmed pd_device "device".
Definition ResetMethods : string -> result string := read_trimmed pd_reset_method "reset_method".

Definition is_gpu_class (class : string) : bool := HasPrefix class "0x030000" || HasPrefix class "0x030200".

(** The classes accepted in the group of a GPU. *)
Definition accepted_class (class : string) : bool :=
  is_gpu_class class || HasPrefix class "0x040" || HasPrefix class "0x0c0330".

(** [nonGPUCount] and [totalCount] over the members. *)
Fixpoint count_classes (members : list string) (nonGPU total : Z) : result (Z * Z) :=
  match members with
  | [] => Ok (nonGPU, total)
  | m :: rest =>
      match deviceClass m with
      | Err e => Err e
      | Ok class => count_classes rest (if accepted_class class then nonGPU else (nonGPU + 1)%Z) (total + 1)%Z
      end
  end.

Definition DiagnoseBindability (pciAddr : string) : result (bool * string) :=
  if negb IOMMUEnabled then Ok (false, "iommu not enabled on host (enable VT-d / intel_iommu=on)")
  else match GroupMembers pciAddr with
  | Err e => Err e
  | Ok members =>
      match count_classes members 0 0 with
      | Err e => Err e
      | Ok (nonGPU, total) =>
          if (0 <? nonGPU)%Z then
            Ok (false, "iommu group has " +:+ Itoa nonGPU +:+ " non-GPU/non-audio devices — needs review")
          else if (total =? 0)%Z then Ok (false, "iommu group empty")
          else Ok (true, "")
      end
  end.

Definition HasResetFile (pciAddr : string) : bool :=
  match dev_entry pd_reset pciAddr with Present _ => true | _ => false end.

(** The error, if any; nil means that the device was reset. *)
Definition ResetDevice (pciAddr : string) : option error :=
  match dev_entry pd_reset pciAddr with
  | Absent => Some (ErrWrap ("reset file missing for " +:+ pciAddr +:+ ": ")
                            (path_error "stat" (device_path pciAddr "reset")) "")
  | Unreadable e => Some (ErrWrap ("reset file missing for " +:+ pciAddr +:+ ": ") e "")
  | Present _ => sf_device s pciAddr ≫= pd_reset_write
  end.

Definition is_nvidia_gpu (pci : string) : bool :=
  match DeviceVendor pci with
  | Err _ => false
  | Ok vendor =>
      String.eqb vendor "0x10de" &&
      match deviceClass pci with Err _ => false | Ok class => is_gpu_class class end
  end.

Definition ListNVIDIAGPUs : result (list string) :=
  match sf_pci_devices s with
  | Absent => Err (path_error "open" "/sys/bus/pci/devices")
  | Unreadable e => Err e
  | Present names => Ok (merge_sort str_le (List.filter is_nvidia_gpu names))
  end.

(** ** Facts *)

Lemma elem_of_sorted (l : list string) x : x ∈ merge_sort str_le l <-> x ∈ l.
Proof. by rewrite (merge_sort_Permutation str_le l). Qed.

Lemma Companions_Ok pci l :
  Companions pci = Ok l ->
  exists members, GroupMembers pci = Ok members /\ forall a, a ∈ l <-> a ∈ members /\ a <> pci.
Proof.
  unfold Companions. destruct (GroupMembers pci) as [ms|]; [|done]. intros [= <-].
  exists ms. split; [done|]. intros a.
  rewrite list_elem_of_In, List.filter_In, <- list_elem_of_In, negb_true_iff, String.eqb_neq. done.
Qed.

Lemma GroupMembers_Ok pci ms :
  GroupMembers pci = Ok ms ->
  exists g names, IOMMUGroup pci = Ok g /\ sf_group_devices s g = Present names /\ forall a, a ∈ ms <-> a ∈ names.
Proof.
  unfold GroupMembers. destruct (IOMMUGroup pci) as [g|]; [|done].
  destruct (sf_group_devices s g) as [| |names] eqn:E; [done..|]. intros [= <-].
  exists g, names. split_and!; [done..|]. intros a. apply elem_of_sorted.
Qed.

Lemma all_vfio_true members :
  all_vfio members = Ok true <-> Forall (fun m => CurrentDriver m = Ok "vfio-pci") members.
Proof.
  induction members as [|m rest IH]; simpl; [by split|]. rewrite Forall_cons, <- IH.
  destruct (CurrentDriver m) as [drv|e]; [|naive_solver].
  destruct (String.eqb_spec drv "vfio-pci") as [->|Hne]; [naive_solver|].
  split; [done|]. intros [[= ->] _]. done.
Qed.

Lemma count_classes_Ok members a b x t :
  count_classes members a b = Ok (x, t) ->
  (t = b + Z.of_nat (length members) /\ a <= x /\
   (x = a <-> Forall (fun m => exists c, deviceClass m = Ok c /\ accepted_class c = true) members))%Z.
Proof.
  revert a b. induction members as [|m rest IH]; intros a b; simpl.
  - intros [= <- <-]. split; [lia|]. split; [lia|]. done.
  - destruct (deviceClass m) as [c|] eqn:Ec; [|done].
    intros (Ht & Ha & Hx)%IH. split; [lia|]. rewrite Forall_cons.
    destruct (accepted_class c) eqn:Eacc.
    + split; [lia|]. rewrite Hx. split; [eauto|tauto].
    + split; [lia|]. split; [lia|]. intros [(c' & Hc' & Hacc) _]. congruence.
Qed.

(** What the diagnosis of a GPU promises: a group is bindable exactly when the
    host has IOMMU groups and every device of the GPU's group is a GPU, audio
    or USB function; it is ready for a VM exactly when every device of the
    group is held by vfio-pci. *)
Theorem passthrough_diagnosis pci members :
  GroupMembers pci = Ok members ->
  (DiagnoseBindability pci = Ok (true, "") <->
   IOMMUEnabled = true /\ members <> [] /\
   Forall (fun m => exists c, deviceClass m = Ok c /\ accepted_class c = true) members) /\
  (VFIOReady pci = Ok true <-> Forall (fun m => CurrentDriver m = Ok "vfio-pci") members).
Proof.
  intros Hm. split.
  - unfold DiagnoseBindability. rewrite Hm. destruct IOMMUEnabled; simpl; [|naive_solver].
    destruct (count_classes members 0 0) as [[x t]|e] eqn:Ec.
    + apply count_classes_Ok in Ec as (-> & Hx & Hall). rewrite <- Hall.
      destruct (Z.ltb_spec 0 x); [split; [done|lia]|].
      destruct (Z.eqb_spec (0 + Z.of_nat (length members)) 0) as [Hz|Hz].
      * destruct members; [naive_solver|simpl in Hz; lia].
      * split; [|done]. intros _. split_and!; [done|by intros ->|lia].
    + split; [done|]. intros (_ & _ & Hall). exfalso. revert Ec. generalize 0%Z at 1, 0%Z at 1.
      clear Hm. induction Hall as [|m l (c & Hc & _) _ IH]; intros a b; simpl; [done|]. rewrite Hc. apply IH.
  - unfold VFIOReady. rewrite Hm. apply all_vfio_true.
Qed.
End reads.

(** ** Hosts for the witnesses: devices by IOMMU group *)
Module DemoSysfs.
Definition device (group driver class : string) : pciDevice :=
  {| pd_iommu_group := Present ("../../../kernel/iommu_groups/" +:+ group);
     pd_driver := Present ("../../../bus/pci/drivers/" +:+ driver);
     pd_class := Present class; pd_vendor := Present "0x10de"; pd_device := Present "0x2b85";
     pd_reset := Present tt; pd_reset_write := None; pd_reset_method := Present "flr bus" |}.

(** A host whose devices are in the groups given by [grouping]. *)
Definition host (groups : list (string * list string)) : Sysfs :=
  {| sf_iommu_groups := Present (map fst groups);
     sf_group_devices g := match List.find (fun p => String.eqb p.1 g) groups with
                           | Some p => Present p.2
                           | None => Absent
                           end;
     sf_pci_devices := Present (flat_map snd groups);
     sf_device a := match List.find (fun p => existsb (String.eqb a) p.2) groups with
                    | Some p => Some (device p.1 "vfio-pci"
                                       (if HasSuffix a ".0" then "0x030000" else "0x040300"))
                    | None => None
                    end |}.

Definition two_groups : Sysfs :=
  host [("13", ["0000:43:00.0"; "0000:43:00.1"]); ("16", ["0000:16:00.0"; "0000:16:00.1"])].
Definition one_group : Sysfs :=
  host [("13", ["0000:16:00.0"; "0000:16:00.1"; "0000:43:00.0"; "0000:43:00.1"])].
End DemoSysfs.
