(* ===== verification/Topology.v ===== *)
(** * The host's GPU topology (compute-agent, internal/topology)

    What the agent reports when it registers: the GPUs known to nvidia-smi, or
    to sysfs when nvidia-smi is of no use, completed with what sysfs says of
    their IOMMU groups. *)

From S2P Require Import Prelude GoStrings Proto IOMMU DomainXML.
From Stdlib Require Import Ascii.

#[local] Open Scope string_scope.
#[local] Open Scope list_scope.

(** ** topology.go *)

Definition empty_topology : Topology := {| top_Gpus := []; top_IommuEnabled := false; top_Profile := None |}.

(** [Static.Collect]; [Empty] collects from [empty_topology]. *)
Definition Static_Collect (t : option Topology) : result Topology := Ok (default empty_topology t).
Definition Empty : option Topology := Some empty_topology.

(** ** Parsing helpers (linux.go) *)

Definition trimHexPrefix (s : string) : string := TrimPrefix s "0x".

Definition normalisePCI (s0 : string) : string :=
  let s := TrimSpace s0 in
  if (String.length s =? 16)%nat && bool_decide (String.get 8 s = Some ":"%char)
     && bool_decide (String.get 11 s = Some ":"%char) && HasPrefix s "0000"
  then str_drop 4 s else s.

Definition parseMemMiB (s : string) : Z :=
  match Fields s with
  | [n; unit] =>
      match Sscanf_uint64 n with
      | None => 0
      | Some mib => if String.eqb unit "MiB" then uint64 (mib * 1024 * 1024)
                    else if String.eqb unit "GiB" then uint64 (mib * 1024 * 1024 * 1024)
                    else 0
      end
  | _ => 0
  end%Z.

(** A GPU before sysfs has been asked. *)
Definition bare_gpu (index : Z) (pci model : string) (memory : Z) : Gpu :=
  {| gpu_Index := index; gpu_PciAddress := pci; gpu_Model := model; gpu_MemoryBytes := memory;
     gpu_IommuGroup := ""; gpu_Driver := ""; gpu_CompanionPciAddresses := []; gpu_VfioReady := false;
     gpu_BindBlocker := "" |}.

Definition x_text (x : xnode) : string := let 'XElem _ _ t _ := x in t.

(** A string field decoded from the children named [n]. *)
Definition text_field (n : string) (l : list xnode) : string :=
  match last (flat_map (kids_named n) l) with Some x => x_text x | None => "" end.

Definition smi_gpu (i : nat) (g : xnode) : Gpu :=
  bare_gpu (int32 (Z.of_nat i)) (normalisePCI (attr "id" (x_attrs g))) (TrimSpace (text_field "product_name" [g]))
           (parseMemMiB (text_field "total" (kids_named "fb_memory_usage" g))).

Section collector.
Context `{XMLLib}.

Definition parseNvidiaSmiXML (data : string) : result (list Gpu) :=
  result_map (fun l => imap smi_gpu (kids_named "gpu" l)) (xml_Unmarshal data).

(** [smi] is what running nvidia-smi prints, [None] when the binary is
    missing or fails.  The slice is nil only when there is nothing to parse. *)
Definition collectViaNvidiaSmi (smi : option string) : option (list Gpu) :=
  out ← smi; match parseNvidiaSmiXML out with Ok l => Some l | Err _ => None end.

Definition sysfs_model (s : Sysfs) (pci : string) : string :=
  match DeviceVendor s pci with
  | Err _ => "NVIDIA"
  | Ok vendor => match DeviceID s pci with
                 | Err _ => "NVIDIA"
                 | Ok devID => "NVIDIA " +:+ trimHexPrefix vendor +:+ ":" +:+ trimHexPrefix devID
                 end
  end.

Definition collectViaSysfs (s : Sysfs) : option (list Gpu) :=
  match ListNVIDIAGPUs s with
  | Err _ => None
  | Ok pcis => Some (imap (fun i pci => bare_gpu (int32 (Z.of_nat i)) pci (sysfs_model s pci) 0) pcis)
  end.

Definition drivers_hold : string := "host drivers hold the group — run scripts/node-bootstrap.sh".

(** The body of the loop that completes a GPU. *)
Definition enrich (s : Sysfs) (g : Gpu) : Gpu :=
  if String.eqb (gpu_PciAddress g) "" then g else
  let pci := gpu_PciAddress g in
  let diag := DiagnoseBindability s pci in
  let vfio := match VFIOReady s pci with Ok b => b | Err _ => false end in
  {| gpu_Index := gpu_Index g; gpu_PciAddress := pci; gpu_Model := gpu_Model g;
     gpu_MemoryBytes := gpu_MemoryBytes g;
     gpu_IommuGroup := match IOMMUGroup s pci with Ok grp => grp | Err _ => gpu_IommuGroup g end;
     gpu_Driver := match CurrentDriver s pci with Ok drv => drv | Err _ => gpu_Driver g end;
     gpu_CompanionPciAddresses :=
       match Companions s pci with Ok l => l | Err _ => gpu_CompanionPciAddresses g end;
     gpu_VfioReady := match diag with Ok _ => vfio | Err _ => gpu_VfioReady g end;
     gpu_BindBlocker := match diag with
                        | Ok (ok, reason) =>
                            if negb ok then reason else if negb vfio then drivers_hold else gpu_BindBlocker g
                        | Err _ => gpu_BindBlocker g
                        end |}.

(** [LinuxCollector.Collect], which never fails. *)
Definition Collect (profile : option Profile) (smi : option string) (s : Sysfs) : Topology :=
  let gpus := match collectViaNvidiaSmi smi with Some l => Some l | None => collectViaSysfs s end in
  {| top_Gpus := map (enrich s) (default [] gpus);
     top_IommuEnabled := IOMMUEnabled s;
     top_Profile := profile |}.

(** ** Facts *)

Lemma bare_gpus_companions smi s g :
  g ∈ default [] (match collectViaNvidiaSmi smi with Some l => Some l | None => collectViaSysfs s end) ->
  gpu_CompanionPciAddresses g = [] /\ gpu_BindBlocker g = "" /\ gpu_VfioReady g = false.
Proof.
  assert (forall {A} (f : nat -> A -> Gpu) (l : list A) g,
    (forall i a, gpu_CompanionPciAddresses (f i a) = [] /\ gpu_BindBlocker (f i a) = "" /\ gpu_VfioReady (f i a) = false) ->
    g ∈ imap f l -> gpu_CompanionPciAddresses g = [] /\ gpu_BindBlocker g = "" /\ gpu_VfioReady g = false) as Himap.
  { intros A f l g' Hf Hg. apply list_elem_of_lookup in Hg as [i Hi]. rewrite list_lookup_imap in Hi.
    destruct (l !! i); simplify_eq/=. apply Hf. }
  unfold collectViaNvidiaSmi, collectViaSysfs, parseNvidiaSmiXML.
  destruct smi as [out|]; simpl.
  - destruct (xml_Unmarshal out) as [x|]; simpl; [by apply Himap|].
    destruct (ListNVIDIAGPUs s); simpl; [by apply Himap|by intros ?%not_elem_of_nil].
  - destruct (ListNVIDIAGPUs s); simpl; [by apply Himap|by intros ?%not_elem_of_nil].
Qed.

(** A companion of a reported GPU is a member of the GPU's IOMMU group. *)
Lemma Collect_companion profile smi s g a :
  g ∈ top_Gpus (Collect profile smi s) -> a ∈ gpu_CompanionPciAddresses g ->
  exists grp names, IOMMUGroup s (gpu_PciAddress g) = Ok grp /\
    sf_group_devices s grp = Present names /\ a ∈ names.
Proof.
  simpl. intros Hg Ha. apply list_elem_of_In, in_map_iff in Hg as (b & <- & Hb).
  apply list_elem_of_In, bare_gpus_companions in Hb as [Hnil _].
  unfold enrich in *. destruct (String.eqb (gpu_PciAddress b) ""); simpl in *.
  { rewrite Hnil in Ha. by apply not_elem_of_nil in Ha. }
  destruct (Companions s (gpu_PciAddress b)) as [l|] eqn:Ec.
  - apply Companions_Ok in Ec as (ms & Hm & Hl). apply Hl in Ha as [Ha _].
    apply GroupMembers_Ok in Hm as (grp & names & Hg & Hn & Hin). exists grp, names.
    split_and!; [done|done|by apply Hin].
  - rewrite Hnil in Ha. by apply not_elem_of_nil in Ha.
Qed.
End collector.

Example normalise_smi : normalisePCI "00000000:81:00.0" = "0000:81:00.0".
Proof. reflexivity. Qed.
Example memory_5090 : parseMemMiB "32607 MiB" = 34190917632%Z.
Proof. reflexivity. Qed.
Example memory_overflow : parseMemMiB "17592186044416 MiB" = 0%Z.
Proof. reflexivity. Qed.
