(* ===== verification/GPUProfile.v ===== *)
(** * Slot layouts (compute-agent, internal/profile)

    The per-node YAML of slot layouts, the validation of the active one
    against the GPUs of the host, and its proto form. *)

From S2P Require Import Prelude GoStrings GoCrypto Proto IOMMU Topology DomainXML.

#[local] Open Scope string_scope.
#[local] Open Scope list_scope.

Record SlotYAML := { sy_Size : Z; sy_GpuIndices : list Z; sy_NvlinkDomain : string }.
Record Layout := { ly_Name : string; ly_Slots : list SlotYAML }.
Record File := { fl_Active : string; fl_Layouts : list Layout }.
Record Resolved := { rs_Name : string; rs_Hash : string; rs_Slots : list SlotYAML }.

Definition ErrActiveMissing : error := Sentinel "profile: active layout not found".
Definition ErrSlotSizeMismatch : error := Sentinel "profile: slot size != len(gpu_indices)".
Definition ErrUnknownGPU : error := Sentinel "profile: slot references unknown GPU index".
Definition ErrDuplicateGPU : error := Sentinel "profile: gpu claimed by two slots".
Definition ErrEmptyGpuIndices : error := Sentinel "profile: slot.gpu_indices is empty".
Definition ErrSharedNvlinkDomain : error := Sentinel "profile: nvlink_domain claimed by two slots".

(** What the slots seen so far claim. *)
Record claims := { cl_gpus : gset Z; cl_domains : gmap string nat }.

Definition size_error (i : nat) (s : SlotYAML) : error :=
  ErrWrap "" ErrSlotSizeMismatch (": slot " +:+ Itoa (Z.of_nat i) +:+ " size=" +:+ Itoa (sy_Size s)).
Definition empty_error (i : nat) (s : SlotYAML) : error :=
  ErrWrap "" ErrEmptyGpuIndices (": slot " +:+ Itoa (Z.of_nat i) +:+ " declares size=" +:+ Itoa (sy_Size s)).
Definition mismatch_error (i : nat) (s : SlotYAML) : error :=
  ErrWrap "" ErrSlotSizeMismatch (": slot " +:+ Itoa (Z.of_nat i) +:+ " declares size=" +:+ Itoa (sy_Size s) +:+
    " but lists " +:+ Itoa (Z.of_nat (length (sy_GpuIndices s))) +:+ " gpus").
Definition unknown_error (i : nat) (g : Z) : error :=
  ErrWrap "" ErrUnknownGPU (": gpu " +:+ Itoa g +:+ " in slot " +:+ Itoa (Z.of_nat i)).
Definition duplicate_error (g : Z) : error := ErrWrap "" ErrDuplicateGPU (": gpu " +:+ Itoa g).
Definition domain_error (d : string) (other i : nat) : error :=
  ErrWrap "" ErrSharedNvlinkDomain (": " +:+ Quote d +:+ " in slots " +:+ Itoa (Z.of_nat other) +:+ " and " +:+ Itoa (Z.of_nat i)).

(** [for _, g := range s.GpuIndices]. *)
Fixpoint claim_gpus (known : gset Z) (i : nat) (l : list Z) (claimed : gset Z) : result (gset Z) :=
  match l with
  | [] => Ok claimed
  | g :: l' =>
      if negb (bool_decide (g ∈ known)) then Err (unknown_error i g)
      else if bool_decide (g ∈ claimed) then Err (duplicate_error g)
      else claim_gpus known i l' ({[ g ]} ∪ claimed)
  end.

Definition claim_domain (i : nat) (d : string) (domains : gmap string nat) : result (gmap string nat) :=
  if String.eqb d "" then Ok domains
  else match domains !! d with
       | Some other => Err (domain_error d other i)
       | None => Ok (<[d := i]> domains)
       end.

(** The body of the loop over the slots of the active layout. *)
Definition check_slot (known : gset Z) (i : nat) (s : SlotYAML) (c : claims) : result claims :=
  if (sy_Size s <=? 0)%Z then Err (size_error i s)
  else if (length (sy_GpuIndices s) =? 0)%nat then Err (empty_error i s)
  else if negb (sy_Size s =? Z.of_nat (length (sy_GpuIndices s)))%Z then Err (mismatch_error i s)
  else match claim_gpus known i (sy_GpuIndices s) (cl_gpus c) with
       | Err e => Err e
       | Ok gpus => match claim_domain i (sy_NvlinkDomain s) (cl_domains c) with
                    | Err e => Err e
                    | Ok domains => Ok {| cl_gpus := gpus; cl_domains := domains |}
                    end
       end.

Fixpoint check_slots (known : gset Z) (i : nat) (l : list SlotYAML) (c : claims) : result claims :=
  match l with
  | [] => Ok c
  | s :: l' => match check_slot known i s c with
               | Err e => Err e
               | Ok c' => check_slots known (S i) l' c'
               end
  end.

Definition Resolve (f : File) (rawYAML : list N) (hostGPUIndices : list Z) : result Resolved :=
  match List.find (fun l => String.eqb (ly_Name l) (fl_Active f)) (fl_Layouts f) with
  | None => Err (ErrWrap "" ErrActiveMissing (": " +:+ Quote (fl_Active f)))
  | Some active =>
      match check_slots (list_to_set hostGPUIndices) 0 (ly_Slots active) {| cl_gpus := ∅; cl_domains := ∅ |} with
      | Err e => Err e
      | Ok _ => Ok {| rs_Name := ly_Name active; rs_Hash := hex_EncodeToString (Sum256 rawYAML);
                      rs_Slots := ly_Slots active |}
      end
  end.

(** [Resolved.Proto]. *)
Definition slot_spec (i : nat) (s : SlotYAML) : SlotSpec :=
  {| ss_SlotIndex := int32 (Z.of_nat i); ss_GpuCount := sy_Size s; ss_GpuIndices := sy_GpuIndices s;
     ss_NvlinkDomain := sy_NvlinkDomain s |}.
Definition Resolved_Proto (r : Resolved) : Profile :=
  {| pf_Name := rs_Name r; pf_Hash := rs_Hash r; pf_Slots := imap slot_spec (rs_Slots r) |}.

(** [detectGPUIndices] of cmd/compute-agent: the indices the profile is
    checked against at start-up. *)
Definition detectGPUIndices `{XMLLib} (fakeTopology : bool) (smi : option string) (s : Sysfs) : list Z :=
  if fakeTopology then [] else map gpu_Index (top_Gpus (Collect None smi s)).

(** ** What an accepted layout is *)

Definition domains_of (l : list SlotYAML) : list string :=
  List.filter (fun d => negb (String.eqb d "")) (map sy_NvlinkDomain l).

Record layout_ok (known : gset Z) (l : list SlotYAML) : Prop := {
  lo_size s : s ∈ l -> (0 < sy_Size s)%Z /\ sy_Size s = Z.of_nat (length (sy_GpuIndices s));
  lo_known g : g ∈ flat_map sy_GpuIndices l -> g ∈ known;
  lo_gpus : NoDup (flat_map sy_GpuIndices l);
  lo_domains : NoDup (domains_of l)
}.

Lemma claim_gpus_Ok known i l c c' :
  claim_gpus known i l c = Ok c' <->
  c' = list_to_set l ∪ c /\ NoDup l /\ (forall g, g ∈ l -> g ∈ known /\ g ∉ c).
Proof.
  revert c. induction l as [|g l IH]; intros c; simpl.
  - split; [intros [= <-]|intros (-> & _ & _); f_equal; set_solver].
    split; [set_solver|]. split; [constructor|]. by intros g ?%not_elem_of_nil.
  - case_bool_decide as Hk; simpl.
    2:{ split; [done|]. intros (_ & _ & Hg). destruct (Hg g); [left|done]. }
    case_bool_decide as Hc.
    { split; [done|]. intros (_ & _ & Hg). destruct (Hg g); [left|done]. }
    rewrite IH, NoDup_cons. split.
    + intros (-> & Hnd & Hg). split; [set_solver|]. split.
      * split; [|done]. intros Hin. destruct (Hg g Hin) as [_ Hn]. set_solver.
      * intros g' [->|Hin]%elem_of_cons; [done|]. destruct (Hg g' Hin). set_solver.
    + intros (-> & [Hn Hnd] & Hg). split; [set_solver|]. split; [done|].
      intros g' Hin. destruct (Hg g') as [? Hc']; [by right|]. split; [done|].
      intros [->%elem_of_singleton|?]%elem_of_union; done.
Qed.

Lemma claim_domain_Ok i d m m' :
  claim_domain i d m = Ok m' -> dom m' = list_to_set (List.filter (fun d => negb (String.eqb d "")) [d]) ∪ dom m /\
    (d <> "" -> m !! d = None).
Proof.
  unfold claim_domain. simpl. destruct (String.eqb_spec d "") as [->|Hne]; simpl.
  - intros [= <-]. split; [set_solver|done].
  - destruct (m !! d) eqn:E; [done|]. intros [= <-]. rewrite dom_insert_L. split; [set_solver|done].
Qed.

Lemma domains_of_cons s l : domains_of (s :: l) = domains_of [s] ++ domains_of l.
Proof. unfold domains_of. simpl. by destruct (negb _). Qed.

Lemma domains_of_single s d : d ∈ domains_of [s] <-> d = sy_NvlinkDomain s /\ d <> "".
Proof.
  unfold domains_of. simpl. destruct (String.eqb_spec (sy_NvlinkDomain s) "") as [->|Hne]; simpl.
  - split; [by intros ?%not_elem_of_nil|by intros [-> []]].
  - rewrite list_elem_of_singleton. naive_solver.
Qed.

(** Accepting the rest of a layout after some claims. *)
Lemma check_slots_Ok known i l c :
  (exists c', check_slots known i l c = Ok c') <->
  layout_ok known l /\ (forall g, g ∈ flat_map sy_GpuIndices l -> g ∉ cl_gpus c) /\
  (forall d, d ∈ domains_of l -> cl_domains c !! d = None).
Proof.
  revert i c. induction l as [|s l IH]; intros i c; cbn [check_slots].
  - split; [|by eauto]. intros _.
    split; [constructor; [..|apply NoDup_nil_2|apply NoDup_nil_2]|split]; by intros ? ?%not_elem_of_nil.
  - unfold check_slot. transitivity (
      (0 < sy_Size s)%Z /\ sy_Size s = Z.of_nat (length (sy_GpuIndices s)) /\
      exists gpus doms, claim_gpus known i (sy_GpuIndices s) (cl_gpus c) = Ok gpus /\
        claim_domain i (sy_NvlinkDomain s) (cl_domains c) = Ok doms /\
        exists c', check_slots known (S i) l {| cl_gpus := gpus; cl_domains := doms |} = Ok c').
    { destruct (Z.leb_spec (sy_Size s) 0); [naive_solver lia|].
      destruct (Nat.eqb_spec (length (sy_GpuIndices s)) 0); [naive_solver lia|].
      destruct (Z.eqb_spec (sy_Size s) (Z.of_nat (length (sy_GpuIndices s)))); simpl; [|naive_solver].
      destruct (claim_gpus _ _ _ _); [|naive_solver].
      destruct (claim_domain _ _ _); naive_solver. }
    setoid_rewrite IH. clear IH. split.
    + intros (Hp & Hs & gpus & doms & (-> & Hnd & Hg)%claim_gpus_Ok & [Hdom Hfresh]%claim_domain_Ok
              & [L1 L2 L3 L4] & Hgl & Hdl). simpl in Hgl, Hdl.
      assert (forall d, d ∈ domains_of l -> d ∉ domains_of [s] /\ cl_domains c !! d = None) as Hd2.
      { intros d Hd. specialize (Hdl d Hd). apply not_elem_of_dom in Hdl. rewrite Hdom in Hdl.
        apply not_elem_of_union in Hdl as [H1 H2]. rewrite elem_of_list_to_set in H1.
        split; [exact H1|by apply not_elem_of_dom]. }
      split; [constructor|split].
      * intros s' [->|?]%elem_of_cons; auto.
      * simpl. intros g [?|?]%elem_of_app; [by apply Hg|auto].
      * simpl. apply NoDup_app. split_and!; [done| |done]. intros g Hin Hin'. specialize (Hgl g Hin'). set_solver.
      * rewrite domains_of_cons. apply NoDup_app. split_and!; [|by intros d ? [? _]%Hd2|done].
        unfold domains_of. simpl. destruct (negb _); repeat constructor. by apply not_elem_of_nil.
      * simpl. intros g [?|Hin]%elem_of_app; [by apply Hg|]. specialize (Hgl g Hin). set_solver.
      * intros d. rewrite domains_of_cons, elem_of_app, domains_of_single. intros [[-> ?]|?%Hd2]; [auto|tauto].
    + intros ([L1 L2 L3 L4] & Hgc & Hdc). destruct (L1 s) as [Hp Hs]; [left|].
      split; [done|]. split; [done|]. simpl in L2, L3, Hgc. apply NoDup_app in L3 as (N1 & N2 & N3).
      rewrite domains_of_cons in L4, Hdc. apply NoDup_app in L4 as (_ & M2 & M3).
      setoid_rewrite elem_of_app in Hdc. setoid_rewrite elem_of_app in L2. setoid_rewrite elem_of_app in Hgc.
      eexists. assert (exists doms, claim_domain i (sy_NvlinkDomain s) (cl_domains c) = Ok doms) as [doms Hd].
      { unfold claim_domain. destruct (String.eqb_spec (sy_NvlinkDomain s) ""); [by eauto|].
        rewrite Hdc; [by eauto|]. left. by apply domains_of_single. }
      exists doms. split; [apply claim_gpus_Ok; split; [reflexivity|auto]|]. split; [done|].
      apply claim_domain_Ok in Hd as [Hdom _]. split; [constructor|split]; simpl.
      * intros s' ?. apply L1. by right.
      * auto.
      * done.
      * done.
      * intros g Hin [Hin'%elem_of_list_to_set|Hin']%elem_of_union; [by eapply N2|]. by eapply Hgc; eauto.
      * intros d Hin. apply not_elem_of_dom. rewrite Hdom.
        intros [Hin'%elem_of_list_to_set|Hin']%elem_of_union; [by eapply M2|].
        apply elem_of_dom in Hin' as [? Hin']. rewrite Hdc in Hin'; [done|]. by right.
Qed.

(** Resolve accepts a file exactly when its active layout (the first of that
    name) gives every slot as many GPUs as its size, at least one, all of them
    on the host, no GPU to two slots and no NVLink domain to two slots; the
    result is that layout, with the hash of the file. *)
Theorem Resolve_spec f raw host r :
  Resolve f raw host = Ok r <->
  exists active,
    List.find (fun l => String.eqb (ly_Name l) (fl_Active f)) (fl_Layouts f) = Some active /\
    layout_ok (list_to_set host) (ly_Slots active) /\
    r = {| rs_Name := fl_Active f; rs_Hash := hex_EncodeToString (Sum256 raw); rs_Slots := ly_Slots active |}.
Proof.
  unfold Resolve. destruct (List.find _ (fl_Layouts f)) as [active|] eqn:Ef; [|naive_solver].
  pose proof (List.find_some _ _ Ef) as [_ Hn%String.eqb_eq].
  pose proof (check_slots_Ok (list_to_set host) 0 (ly_Slots active) {| cl_gpus := ∅; cl_domains := ∅ |}) as Hc.
  assert (layout_ok (list_to_set host) (ly_Slots active) <->
          exists c', check_slots (list_to_set host) 0 (ly_Slots active) {| cl_gpus := ∅; cl_domains := ∅ |} = Ok c') as Hok.
  { rewrite Hc. simpl. split; [|tauto]. intros. split; [done|]. set_solver. }
  rewrite Hn. destruct (check_slots _ _ _ _) as [c'|e].
  - split; [intros [= <-]; exists active; rewrite Hok; eauto|]. by intros (? & [= <-] & _ & ->).
  - split; [done|]. intros (? & [= <-] & [c' ?]%Hok & _). done.
Qed.

(** An entry of the proto form, and the slot it came from. *)
Lemma Resolved_Proto_slot r p :
  p ∈ pf_Slots (Resolved_Proto r) -> exists i s, rs_Slots r !! i = Some s /\ p = slot_spec i s.
Proof.
  simpl. intros [i Hi]%list_elem_of_lookup. rewrite list_lookup_imap in Hi.
  destruct (rs_Slots r !! i) as [s|] eqn:E; simplify_eq/=. eauto.
Qed.
