(* ===== verification/PassthroughProof.v ===== *)
(** * From the slot layout of a host to the devices of a VM

    Composition of the agent's profile and topology reports with main-api's
    slot inventory and passthrough resolution: a layout the agent accepts
    never lets two instances share a PCI device, provided that no two GPUs of
    the host sit in one IOMMU group; and a host where they do. *)

From S2P Require Import Prelude GoStrings GoCrypto Proto Db Queries Demo SlotRepo AgentStream AgentRegistry Dispatcher Http AdminInstances CreateGates DomainXML IOMMU Topology GPUProfile.

#[local] Open Scope string_scope.
#[local] Open Scope list_scope.

(** The kernel's links agree: a device listed in a group's directory has its
    link to that group. *)
Definition sysfs_consistent (s : Sysfs) : Prop :=
  forall grp names a, sf_group_devices s grp = Present names -> a ∈ names -> IOMMUGroup s a = Ok grp.

(** No two GPUs share an address or an IOMMU group. *)
Definition gpus_separate (s : Sysfs) (top : Topology) : Prop :=
  forall g g', g ∈ top_Gpus top -> g' ∈ top_Gpus top ->
    gpu_PciAddress g = gpu_PciAddress g' \/
    (exists grp, IOMMUGroup s (gpu_PciAddress g) = Ok grp /\ IOMMUGroup s (gpu_PciAddress g') = Ok grp) ->
    gpu_Index g = gpu_Index g'.

(** Then the devices reported for different GPUs are different. *)
Lemma Collect_disjoint `{XMLLib} profile smi s g g' a :
  sysfs_consistent s -> gpus_separate s (Collect profile smi s) ->
  g ∈ top_Gpus (Collect profile smi s) -> g' ∈ top_Gpus (Collect profile smi s) ->
  a ∈ gpu_devices g -> a ∈ gpu_devices g' -> gpu_Index g = gpu_Index g'.
Proof.
  intros Hc Hsep Hg Hg' Ha Ha'. apply Hsep; [done..|]. unfold gpu_devices in *.
  assert (forall g, g ∈ top_Gpus (Collect profile smi s) -> a ∈ gpu_CompanionPciAddresses g ->
            exists grp, IOMMUGroup s (gpu_PciAddress g) = Ok grp /\ IOMMUGroup s a = Ok grp) as Hcomp.
  { intros x Hx (grp & names & Hgrp & Hn & Hin)%(Collect_companion profile smi s x a Hx). eauto. }
  apply elem_of_cons in Ha as [Ea|Ha], Ha' as [Ea'|Ha'].
  - left. congruence.
  - right. destruct (Hcomp g' Hg' Ha') as (grp & ? & ?). exists grp. by rewrite <- Ea.
  - right. destruct (Hcomp g Hg Ha) as (grp & ? & ?). exists grp. by rewrite <- Ea'.
  - right. destruct (Hcomp g Hg Ha) as (grp & ? & ?), (Hcomp g' Hg' Ha') as (grp' & ? & ?).
    exists grp. split; congruence.
Qed.

Lemma NoDup_flat_map_lookup {A B} (f : A -> list B) (l : list A) i j a b x :
  NoDup (flat_map f l) -> l !! i = Some a -> l !! j = Some b -> i <> j -> x ∈ f a -> ~ x ∈ f b.
Proof.
  revert i j. induction l as [|y l IH]; intros i j; [done|]. simpl.
  intros (N1 & N2 & N3)%NoDup_app Hi Hj Hij Ha Hb.
  assert (forall k c, l !! k = Some c -> x ∈ f c -> x ∈ flat_map f l) as Hin.
  { intros k c Hk Hx. apply list_elem_of_In, in_flat_map. exists c.
    split; apply list_elem_of_In; [by eapply list_elem_of_lookup_2|done]. }
  destruct i as [|i], j as [|j]; simpl in *; simplify_eq.
  - apply (N2 x Ha). by eapply Hin.
  - apply (N2 x Hb). by eapply Hin.
  - eapply (IH i j); eauto.
Qed.

(** Two slots of a node whose slots were replaced by an accepted layout have
    no GPU in common. *)
Lemma synced_slots_disjoint f raw host r n s s' id1 id2 v1 v2 :
  Resolve f raw host = Ok r -> (Z.of_nat (length (rs_Slots r)) < 2 ^ 31)%Z ->
  slots_ok (pg_db s) ->
  SyncFromProfile n (pf_Hash (Resolved_Proto r)) (toProfileSlots (pf_Slots (Resolved_Proto r))) s = (Ok SyncReplaced, s') ->
  db_gpu_slots (pg_db s') !! id1 = Some v1 -> db_gpu_slots (pg_db s') !! id2 = Some v2 ->
  gs_NodeID v1 = n -> gs_NodeID v2 = n -> id1 <> id2 ->
  forall idx, idx ∈ gs_GpuIndices v1 -> ~ idx ∈ gs_GpuIndices v2.
Proof.
  intros Hr Hlen Hok HS H1 H2 N1 N2 Hne idx Hi1 Hi2.
  assert (NoDup (flat_map sy_GpuIndices (rs_Slots r))) as Hnd.
  { apply Resolve_spec in Hr as (active & _ & Hlay & ->). apply Hlay. }
  pose proof (SyncFromProfile_slots n (pf_Hash (Resolved_Proto r)) (toProfileSlots (pf_Slots (Resolved_Proto r))) s Hok) as Hok'.
  rewrite HS in Hok'. destruct Hok' as [_ Huniq].
  apply Sync_Ok in HS as (nd & _ & _ & m' & env & Hdb & Hold & _). rewrite Hdb in *.
  cbn [db_gpu_slots set_nodes set_gpu_slots snd] in H1, H2, Huniq.
  assert (forall id v, m' !! id = Some v -> gs_NodeID v = n -> idx ∈ gs_GpuIndices v ->
    exists i sl, rs_Slots r !! i = Some sl /\ gs_SlotIndex v = Z.of_nat i /\ idx ∈ sy_GpuIndices sl) as Hslot.
  { intros id v Hv Hn Hidx. destruct (Hold id v Hv) as [Hk|(p & Hp & _ & Hsi & _ & Hgi & _)].
    { by apply map_lookup_filter_Some in Hk as [_ ?]. }
    unfold toProfileSlots in Hp. apply list_elem_of_fmap in Hp as (q & -> & Hq).
    apply Resolved_Proto_slot in Hq as (i & sl & Hi & ->). simpl in Hsi, Hgi.
    exists i, sl. split; [done|].
    apply lookup_lt_Some in Hi as Hlt. rewrite Hsi, int32_id by lia. split; [done|].
    destruct (sy_GpuIndices sl); [done|]. injection Hgi as Hgi. by rewrite <- Hgi. }
  destruct (Hslot id1 v1 H1 N1 Hi1) as (i1 & s1 & L1 & X1 & G1).
  destruct (Hslot id2 v2 H2 N2 Hi2) as (i2 & s2 & L2 & X2 & G2).
  apply (NoDup_flat_map_lookup sy_GpuIndices (rs_Slots r) i1 i2 s1 s2 idx); try done.
  intros ->. apply Hne, (Huniq id1 id2 v1 v2); congruence.
Qed.

Section end_to_end.
Context `{XMLLib} (protojson_Unmarshal : string -> result Topology).

(** C2: Tenants are isolated from the layout file to the PCI devices.  When
    the agent accepts a slot layout, main-api stores it for the node, and the
    stored topology is what the agent's collector reports on a host where no
    two GPUs share an IOMMU group, then the PCI addresses passed through for
    two different slots of the node (companion functions of the IOMMU groups
    included) are disjoint, and each address belongs to a GPU the slot's
    layout entry names. *)
Theorem tenant_isolation f raw host r n s s' smi sysfs json id1 id2 v1 v2 pci1 pci2 :
  Resolve f raw host = Ok r -> (Z.of_nat (length (rs_Slots r)) < 2 ^ 31)%Z ->
  slots_ok (pg_db s) ->
  SyncFromProfile n (pf_Hash (Resolved_Proto r)) (toProfileSlots (pf_Slots (Resolved_Proto r))) s = (Ok SyncReplaced, s') ->
  protojson_Unmarshal json = Ok (Collect (Some (Resolved_Proto r)) smi sysfs) ->
  sysfs_consistent sysfs -> gpus_separate sysfs (Collect (Some (Resolved_Proto r)) smi sysfs) ->
  db_gpu_slots (pg_db s') !! id1 = Some v1 -> db_gpu_slots (pg_db s') !! id2 = Some v2 ->
  gs_NodeID v1 = n -> gs_NodeID v2 = n -> id1 <> id2 ->
  resolvePassthroughPCI protojson_Unmarshal json [v1] = Ok pci1 ->
  resolvePassthroughPCI protojson_Unmarshal json [v2] = Ok pci2 ->
  (forall a, a ∈ pci1 -> ~ a ∈ pci2) /\
  (forall a, a ∈ pci1 -> exists g, g ∈ top_Gpus (Collect (Some (Resolved_Proto r)) smi sysfs) /\
     a ∈ gpu_devices g /\ gpu_Index g ∈ gs_GpuIndices v1).
Proof.
  intros Hr Hlen Hok HS Hj Hcons Hsep H1 H2 N1 N2 Hne P1 P2.
  pose proof (passthrough_isolation protojson_Unmarshal json _ [v1] [v2] pci1 pci2 Hj) as Hiso.
  simpl flat_map in Hiso. rewrite !app_nil_r in Hiso. apply Hiso; [| |done|done].
  - intros g g' a. by apply Collect_disjoint.
  - by eapply synced_slots_disjoint.
Qed.
End end_to_end.

(** ** Witness and a finding *)

#[local] Existing Instances DemoXML.lib.

Module DemoHost.
Definition layout : Layout :=
  {| ly_Name := "1x1"; ly_Slots := [{| sy_Size := 1; sy_GpuIndices := [0%Z]; sy_NvlinkDomain := "" |};
                                    {| sy_Size := 1; sy_GpuIndices := [1%Z]; sy_NvlinkDomain := "" |}] |}.
Definition file : File := {| fl_Active := "1x1"; fl_Layouts := [layout] |}.
Definition resolved : Resolved :=
  {| rs_Name := "1x1"; rs_Hash := hex_EncodeToString (Sum256 []); rs_Slots := ly_Slots layout |}.
Definition unmarshal (s : Sysfs) (json : string) : result Topology :=
  Ok (Collect (Some (Resolved_Proto resolved)) None s).
Definition before : Pg := on_demo (set_gpu_slots ∅ demo_db).
Definition slot (id : UUID) (idx : Z) : GpuSlot := demo_slot id idx "" SlotStatusFree None.
End DemoHost.

Section witnesses.

Lemma host_consistent groups :
  forallb (fun p => forallb (fun a =>
    match IOMMUGroup (DemoSysfs.host groups) a with Ok g => String.eqb g p.1 | Err _ => false end) p.2) groups = true ->
  sysfs_consistent (DemoSysfs.host groups).
Proof.
  intros Hall grp names a Hn Ha. simpl in Hn.
  destruct (List.find _ groups) as [p|] eqn:Ef; [|done]. injection Hn as <-.
  apply List.find_some in Ef as [Hin Hg%String.eqb_eq].
  rewrite forallb_forall in Hall. specialize (Hall p Hin). simpl in Hall.
  rewrite forallb_forall in Hall. specialize (Hall a (proj1 (list_elem_of_In _ _) Ha)). simpl in Hall.
  destruct (IOMMUGroup _ a) as [g|]; [|done]. apply String.eqb_eq in Hall as ->. by rewrite Hg.
Qed.

(** [gpus_separate], checked. *)
Definition separate_check (s : Sysfs) (top : Topology) : bool :=
  forallb (fun g => forallb (fun g' =>
    Z.eqb (gpu_Index g) (gpu_Index g') ||
    negb (String.eqb (gpu_PciAddress g) (gpu_PciAddress g') ||
          match IOMMUGroup s (gpu_PciAddress g), IOMMUGroup s (gpu_PciAddress g') with
          | Ok a, Ok b => String.eqb a b
          | _, _ => false
          end)) (top_Gpus top)) (top_Gpus top).

Lemma separate_check_sound s top : separate_check s top = true -> gpus_separate s top.
Proof.
  intros Hall g g' Hg Hg' Hs. unfold separate_check in Hall.
  rewrite forallb_forall in Hall. specialize (Hall g (proj1 (list_elem_of_In _ _) Hg)). simpl in Hall.
  rewrite forallb_forall in Hall. specialize (Hall g' (proj1 (list_elem_of_In _ _) Hg')). simpl in Hall.
  apply orb_true_iff in Hall as [?%Z.eqb_eq|Hn]; [done|]. exfalso.
  apply negb_true_iff, orb_false_iff in Hn as [Hp Hq]. destruct Hs as [Hs|(grp & E & E')].
  - apply String.eqb_neq in Hp. done.
  - rewrite E, E', String.eqb_refl in Hq. done.
Qed.

Abbreviation synced := (SyncFromProfile 3 (pf_Hash (Resolved_Proto DemoHost.resolved))
  (toProfileSlots (pf_Slots (Resolved_Proto DemoHost.resolved))) DemoHost.before).
Abbreviation resolve s := (resolvePassthroughPCI (DemoHost.unmarshal s) "top").

Lemma tenant_isolation_witness :
  resolve DemoSysfs.two_groups [DemoHost.slot 105 0] = Ok ["0000:16:00.0"; "0000:16:00.1"] /\
  ~ "0000:16:00.0" ∈ ["0000:43:00.0"; "0000:43:00.1"].
Proof.
  assert (resolve DemoSysfs.two_groups [DemoHost.slot 105 0] = Ok ["0000:16:00.0"; "0000:16:00.1"])
    as P1 by (vm_compute; reflexivity).
  assert (resolve DemoSysfs.two_groups [DemoHost.slot 106 1] = Ok ["0000:43:00.0"; "0000:43:00.1"])
    as P2 by (vm_compute; reflexivity).
  assert (slots_ok (pg_db DemoHost.before)) as Hok.
  { split; simpl; intros *; rewrite lookup_empty; done. }
  assert (synced = (Ok SyncReplaced, synced.2)) as HS.
  { vm_compute. reflexivity. }
  split; [exact P1|].
  refine (proj1 (tenant_isolation (DemoHost.unmarshal DemoSysfs.two_groups) DemoHost.file [] [0%Z; 1%Z]
    DemoHost.resolved 3 DemoHost.before synced.2 None DemoSysfs.two_groups "top" 105 106
    (DemoHost.slot 105 0) (DemoHost.slot 106 1) _ _
    _ _ Hok HS eq_refl _ _ _ _ eq_refl eq_refl _ P1 P2) "0000:16:00.0" _).
  - vm_compute. reflexivity.
  - vm_compute. reflexivity.
  - apply host_consistent. vm_compute. reflexivity.
  - apply separate_check_sound. vm_compute. reflexivity.
  - vm_compute. reflexivity.
  - vm_compute. reflexivity.
  - discriminate.
  - left.
Defined.

(** Without the hypothesis on IOMMU groups: on a host whose two GPUs sit in one
    group, the diagnosis reports both GPUs ready and without a blocker, the
    layout that gives each its own slot is accepted, and the devices resolved
    for the two slots overlap: each VM would be given the other's GPU. *)
Theorem shared_group_overlaps :
  (forall g, g ∈ top_Gpus (Collect None None DemoSysfs.one_group) -> gpu_VfioReady g = true /\ gpu_BindBlocker g = "") /\
  Resolve DemoHost.file [] (detectGPUIndices false None DemoSysfs.one_group) = Ok DemoHost.resolved /\
  exists pci1 pci2,
    resolve DemoSysfs.one_group [DemoHost.slot 105 0] = Ok pci1 /\
    resolve DemoSysfs.one_group [DemoHost.slot 106 1] = Ok pci2 /\
    "0000:16:00.0" ∈ pci1 /\ "0000:16:00.0" ∈ pci2.
Proof.
  split; [|split].
  - intros g Hg. assert (Forall (fun g => gpu_VfioReady g = true /\ gpu_BindBlocker g = "")
      (top_Gpus (Collect None None DemoSysfs.one_group))) as Hall by (vm_compute; repeat constructor).
    rewrite Forall_forall in Hall. by apply Hall.
  - vm_compute. reflexivity.
  - eexists _, _. split; [vm_compute; reflexivity|]. split; [vm_compute; reflexivity|].
    rewrite !elem_of_cons. tauto.
Qed.
End witnesses.
