(* ===== verification/CloudInit.v ===== *)
(** * cloud-init seeds (compute-agent, internal/cloudinit)

    The user-data and meta-data documents of a VM and the ISO image that
    carries them.  YAML scalars and ISO images are made by third-party
    packages, the classes [YAMLLib] and [ISO9660]. *)

From S2P Require Import Prelude GoStrings.
From Stdlib Require Import Ascii.

#[local] Open Scope string_scope.

Record SeedRequest := {
  cq_InstanceID : string;
  cq_Hostname : string;
  cq_SSHPubkeys : list string;
  cq_ExtraRunCmds : list string
}.

(** gopkg.in/yaml.v3, on strings. *)
Class YAMLLib := { yaml_Marshal : string -> result string }.

(** github.com/kdomanski/iso9660. *)
Class ISO9660 := {
  iso_Writer : Type;
  iso_NewWriter : result iso_Writer;
  iso_AddFile : iso_Writer -> string -> string -> result iso_Writer;   (* content, name *)
  iso_WriteTo : iso_Writer -> string -> result string                  (* volume id; the image *)
}.

Definition SeedRequest_validate (r : SeedRequest) : option error :=
  if String.eqb (cq_InstanceID r) "" then Some (ErrNew "cloudinit: InstanceID required")
  else if String.eqb (cq_Hostname r) "" then Some (ErrNew "cloudinit: Hostname required")
  else None.

Definition newline : ascii := "010"%char.
Definition line (s : string) : string := s +:+ String newline "".
Definition backslash : string := String "092" "".
Definition quote_mark : string := String "034" "".

Section seed.
Context `{YAMLLib, ISO9660}.

Definition yamlString (s : string) : string :=
  match yaml_Marshal s with
  | Err _ => quote_mark +:+ ReplaceByte (ReplaceByte s "092" (backslash +:+ backslash)) "034" (backslash +:+ quote_mark)
             +:+ quote_mark
  | Ok out => TrimRightByte out newline
  end.

Definition list_block (key : string) (l : list string) : string :=
  match l with
  | [] => ""
  | _ => line (key +:+ ":") +:+ String.concat "" (map (fun k => line ("  - " +:+ yamlString k)) l)
  end.

Definition renderUserData (r : SeedRequest) : string :=
  line "#cloud-config" +:+
  line ("hostname: " +:+ yamlString (cq_Hostname r)) +:+
  line "preserve_hostname: false" +:+
  line "manage_etc_hosts: true" +:+
  list_block "ssh_authorized_keys" (cq_SSHPubkeys r) +:+
  line "users:" +:+
  line "  - default" +:+
  list_block "runcmd" (cq_ExtraRunCmds r).

Definition renderMetaData (r : SeedRequest) : string :=
  line ("instance-id: " +:+ yamlString (cq_InstanceID r)) +:+
  line ("local-hostname: " +:+ yamlString (cq_Hostname r)).

Definition wrap_result {A} (pre : string) (r : result A) : result A :=
  match r with Ok a => Ok a | Err e => Err (ErrWrap pre e "") end.

(** The image written, or the error. *)
Definition BuildSeed (req : SeedRequest) : result string :=
  match SeedRequest_validate req with
  | Some e => Err e
  | None =>
      match wrap_result "iso writer: " iso_NewWriter with
      | Err e => Err e
      | Ok w =>
          match wrap_result "add user-data: " (iso_AddFile w (renderUserData req) "user-data") with
          | Err e => Err e
          | Ok w =>
              match wrap_result "add meta-data: " (iso_AddFile w (renderMetaData req) "meta-data") with
              | Err e => Err e
              | Ok w => wrap_result "write iso: " (iso_WriteTo w "CIDATA")
              end
          end
      end
  end.
End seed.

(** ** A concrete encoder and image, for the witnesses *)
Module DemoSeed.
#[export] Instance yaml : YAMLLib := {| yaml_Marshal s := Ok (line s) |}.
#[export] Instance iso : ISO9660 := {|
  iso_Writer := string;
  iso_NewWriter := Ok "";
  iso_AddFile w content name := Ok (w +:+ "[" +:+ name +:+ "]" +:+ content);
  iso_WriteTo w label := Ok (label +:+ w)
|}.
End DemoSeed.
