(* ===== verification/VMOps.v ===== *)
(** * Operation slots of the VM handler (compute-agent, internal/vm/handler.go)

    OnControl starts a goroutine per message; [acquireOp] and [release] order
    the operations on one instance.  The goroutines interleave at every lock
    and channel operation: a step relation on the table of slots and the
    program points of the goroutines.  It refines one lock per instance, in
    which a destroy is never lost behind a create; and every execution ends
    once no new messages arrive. *)

From stdpp Require Import relations.
From S2P Require Import Prelude.

Inductive opKind := opCreate | opDestroy.
#[export] Instance opKind_eq_dec : EqDecision opKind.
Proof. solve_decision. Defined.

(** A slot: [cancel] has been called, [done] is closed. *)
Record opSlot := { os_kind : opKind; os_cancelled : bool; os_done : bool }.

(** Where a goroutine is. *)
Inductive pc :=
  | AtLoop                                  (* about to lock in acquireOp *)
  | ToCancel (s : nat)                      (* unlocked, about to call preempted.cancel() *)
  | AwaitDone (s : nat)                     (* <-preempted.done *)
  | InOp (s : nat)                          (* owns the slot: the body of the handler *)
  | Closing (s : nat)                       (* release: table updated, done not closed yet *)
  | Finished
  | Dropped.                                (* acquireOp returned false *)

#[export] Instance pc_eq_dec : EqDecision pc.
Proof. solve_decision. Defined.

Record goroutine := { go_id : string; go_kind : opKind; go_pc : pc }.

Record Ops := {
  op_inFlight : gmap string nat;
  op_slots : list opSlot;
  op_threads : list goroutine
}.

Definition no_ops : Ops := {| op_inFlight := ∅; op_slots := []; op_threads := [] |}.

Definition at_pc (g : goroutine) (p : pc) : goroutine :=
  {| go_id := go_id g; go_kind := go_kind g; go_pc := p |}.
Definition set_thread (i : nat) (g : goroutine) (p : pc) (c : Ops) : Ops :=
  {| op_inFlight := op_inFlight c; op_slots := op_slots c; op_threads := <[i := at_pc g p]> (op_threads c) |}.

Definition fresh_slot (k : opKind) : opSlot := {| os_kind := k; os_cancelled := false; os_done := false |}.
Definition cancel_slot (s : opSlot) : opSlot := {| os_kind := os_kind s; os_cancelled := true; os_done := os_done s |}.
Definition close_slot (s : opSlot) : opSlot := {| os_kind := os_kind s; os_cancelled := os_cancelled s; os_done := true |}.

(** The condition under which [acquireOp] drops a request. *)
Definition must_drop (existing kind : opKind) : bool :=
  bool_decide (existing = kind) || negb (bool_decide (kind = opDestroy)) || negb (bool_decide (existing = opCreate)).

(** The critical section of [acquireOp], run by goroutine [i]. *)
Definition acquireOp (i : nat) (g : goroutine) (c : Ops) : Ops :=
  match op_inFlight c !! go_id g with
  | None =>
      let s := length (op_slots c) in
      {| op_inFlight := <[go_id g := s]> (op_inFlight c);
         op_slots := op_slots c ++ [fresh_slot (go_kind g)];
         op_threads := <[i := at_pc g (InOp s)]> (op_threads c) |}
  | Some s =>
      match op_slots c !! s with
      | Some slot => set_thread i g (if must_drop (os_kind slot) (go_kind g) then Dropped else ToCancel s) c
      | None => c
      end
  end.

(** The critical section of [release]. *)
Definition release (i : nat) (g : goroutine) (s : nat) (c : Ops) : Ops :=
  {| op_inFlight := if bool_decide (op_inFlight c !! go_id g = Some s)
                    then delete (go_id g) (op_inFlight c) else op_inFlight c;
     op_slots := op_slots c;
     op_threads := <[i := at_pc g (Closing s)]> (op_threads c) |}.

Definition alter_slot (f : opSlot -> opSlot) (s : nat) (c : Ops) : Ops :=
  {| op_inFlight := op_inFlight c; op_slots := alter f s (op_slots c); op_threads := op_threads c |}.

(** A step of goroutine [i]. *)
Inductive gstep (c : Ops) : Ops -> Prop :=
  | g_acquire i g : op_threads c !! i = Some g -> go_pc g = AtLoop -> gstep c (acquireOp i g c)
  | g_cancel i g s : op_threads c !! i = Some g -> go_pc g = ToCancel s ->
      gstep c (set_thread i g (AwaitDone s) (alter_slot cancel_slot s c))
  | g_wake i g s slot : op_threads c !! i = Some g -> go_pc g = AwaitDone s ->
      op_slots c !! s = Some slot -> os_done slot = true -> gstep c (set_thread i g AtLoop c)
  | g_release i g s : op_threads c !! i = Some g -> go_pc g = InOp s -> gstep c (release i g s c)
  | g_close i g s : op_threads c !! i = Some g -> go_pc g = Closing s ->
      gstep c (set_thread i g Finished (alter_slot close_slot s c)).

(** [OnControl] starts a goroutine. *)
Definition arrive (id : string) (k : opKind) (c : Ops) : Ops :=
  {| op_inFlight := op_inFlight c; op_slots := op_slots c;
     op_threads := op_threads c ++ [{| go_id := id; go_kind := k; go_pc := AtLoop |}] |}.

Inductive step (c : Ops) : Ops -> Prop :=
  | s_arrive id k : step c (arrive id k c)
  | s_go c' : gstep c c' -> step c c'.

(** ** The invariant *)

(** The slot a goroutine has allocated and not closed yet. *)
Definition holds (g : goroutine) (s : nat) : Prop := go_pc g = InOp s \/ go_pc g = Closing s.
Definition waits_on (g : goroutine) (s : nat) : Prop := go_pc g = ToCancel s \/ go_pc g = AwaitDone s.

Record ops_ok (c : Ops) : Prop := {
  (* a goroutine in its operation is the one the table names *)
  oo_owner i g s : op_threads c !! i = Some g -> go_pc g = InOp s -> op_inFlight c !! go_id g = Some s;
  (* the table names a goroutine in its operation *)
  oo_table id s : op_inFlight c !! id = Some s ->
    exists i g, op_threads c !! i = Some g /\ go_id g = id /\ go_pc g = InOp s;
  (* a slot is held by one goroutine, of the slot's kind, and open *)
  oo_held i g s : op_threads c !! i = Some g -> holds g s ->
    exists slot, op_slots c !! s = Some slot /\ os_kind slot = go_kind g /\ os_done slot = false;
  oo_unique i j g g' s : op_threads c !! i = Some g -> op_threads c !! j = Some g' ->
    holds g s -> holds g' s -> i = j;
  (* an open slot is held *)
  oo_open s slot : op_slots c !! s = Some slot -> os_done slot = false ->
    exists i g, op_threads c !! i = Some g /\ holds g s;
  (* only a destroy waits, and for a create *)
  oo_waits i g s : op_threads c !! i = Some g -> waits_on g s ->
    go_kind g = opDestroy /\ exists slot, op_slots c !! s = Some slot /\ os_kind slot = opCreate
}.

Lemma no_ops_ok : ops_ok no_ops.
Proof. constructor; simpl; intros *; rewrite ?lookup_nil, ?lookup_empty; done. Qed.

Lemma lookup_thread (l : list goroutine) i j g g' x :
  l !! i = Some g -> (<[i := g']> l) !! j = Some x -> (j = i /\ x = g') \/ (j <> i /\ l !! j = Some x).
Proof.
  intros Hi Hj. destruct (decide (j = i)) as [->|Hne].
  - rewrite list_lookup_insert_eq in Hj by by eapply lookup_lt_Some. left. by simplify_eq.
  - right. by rewrite list_lookup_insert_ne in Hj.
Qed.

Lemma lookup_snoc (l : list goroutine) x j y : (l ++ [x]) !! j = Some y -> l !! j = Some y \/ (j = length l /\ y = x).
Proof.
  intros Hj. apply lookup_app_Some in Hj as [?|[Hl Hj]]; [by left|]. right.
  destruct (j - length l) as [|k] eqn:E; simpl in Hj; [|done]. split; [lia|congruence].
Qed.

Lemma alter_slot_lookup f s (l : list opSlot) k x :
  alter f s l !! k = Some x -> exists y, l !! k = Some y /\ x = (if decide (k = s) then f y else y).
Proof.
  destruct (decide (k = s)) as [->|Hne].
  - rewrite list_lookup_alter_eq. intros (y & Hy & ->)%fmap_Some. eauto.
  - rewrite list_lookup_alter_ne by done. eauto.
Qed.

(** Moving a goroutine that holds nothing, before and after. *)
Lemma ok_move i g p c :
  ops_ok c -> op_threads c !! i = Some g -> (forall s, ~ holds g s) -> (forall s, p <> InOp s) -> (forall s, p <> Closing s) ->
  (forall s, p = ToCancel s \/ p = AwaitDone s ->
     go_kind g = opDestroy /\ exists slot, op_slots c !! s = Some slot /\ os_kind slot = opCreate) ->
  ops_ok (set_thread i g p c).
Proof.
  intros [O1 O2 O3 O4 O5 O6] Hi Hg P1 P2 P3. unfold holds in *.
  assert (forall j x s, <[i := at_pc g p]> (op_threads c) !! j = Some x -> holds x s ->
            j <> i /\ op_threads c !! j = Some x) as Hh.
  { intros j x s [[-> ->]|[? ?]]%(lookup_thread _ _ _ _ _ _ Hi) Hx; [|done]. exfalso.
    destruct Hx as [Hx|Hx]; simpl in Hx; [by apply (P1 s)|by apply (P2 s)]. }
  constructor; simpl.
  - intros j x s Hj Hx. apply (O1 j); [|done]. eapply Hh; [done|by left].
  - intros id s (j & x & Hj & Hid & Hx)%O2. exists j, x. split_and!; [|done|done].
    rewrite list_lookup_insert_ne; [done|]. intros <-. apply (Hg s). simplify_eq. by left.
  - intros j x s Hj Hx. apply (O3 j); [|done]. by eapply Hh.
  - intros j k x y s Hj Hk Hx Hy. apply (O4 j k x y s); try done; by eapply Hh.
  - intros s slot Hs Hd. destruct (O5 s slot Hs Hd) as (j & x & Hj & Hx). exists j, x. split; [|done].
    rewrite list_lookup_insert_ne; [done|]. intros <-. simplify_eq. by apply (Hg s).
  - intros j x s [[-> ->]|[? Hj]]%(lookup_thread _ _ _ _ _ _ Hi) Hx; [by apply P3|by apply (O6 j)].
Qed.

Lemma ok_cancel s c : ops_ok c -> ops_ok (alter_slot cancel_slot s c).
Proof.
  intros [O1 O2 O3 O4 O5 O6].
  assert (forall k x, op_slots c !! k = Some x -> exists y, alter cancel_slot s (op_slots c) !! k = Some y /\
            os_kind y = os_kind x /\ os_done y = os_done x) as Hup.
  { intros k x Hk. destruct (decide (k = s)) as [->|Hne].
    - rewrite list_lookup_alter_eq, Hk. simpl. eauto.
    - rewrite list_lookup_alter_ne by done. eauto. }
  constructor; simpl; try done.
  - intros i g k Hi Hh. destruct (O3 i g k Hi Hh) as (x & Hx & Ek & Ed).
    destruct (Hup k x Hx) as (y & Hy & ? & ?). exists y. split_and!; congruence.
  - intros k x (y & Hy & ->)%alter_slot_lookup Hd. apply (O5 k y Hy). by case_decide.
  - intros i g k Hi Hw. destruct (O6 i g k Hi Hw) as (? & x & Hx & Ek).
    destruct (Hup k x Hx) as (y & Hy & ? & ?). split; [done|]. exists y. split; congruence.
Qed.

Lemma ok_acquire i g c : ops_ok c -> op_threads c !! i = Some g -> go_pc g = AtLoop -> ops_ok (acquireOp i g c).
Proof.
  intros Hok Hi Hpc. assert (forall s, ~ holds g s) as Hn by (intros s [|]; congruence).
  unfold acquireOp. destruct (op_inFlight c !! go_id g) as [s|] eqn:Et.
  - destruct (op_slots c !! s) as [slot|] eqn:Es; [|done].
    apply ok_move; try done; destruct (must_drop (os_kind slot) (go_kind g)) eqn:Hd; try done.
    + by intros s' [?|?].
    + intros s' [?|?]; simplify_eq. unfold must_drop in Hd.
      apply orb_false_iff in Hd as [[_ H1]%orb_false_iff H2]. apply negb_false_iff, bool_decide_eq_true in H1, H2. eauto.
  - destruct Hok as [O1 O2 O3 O4 O5 O6]. set (s0 := length (op_slots c)).
    assert (forall j x s, op_threads c !! j = Some x -> holds x s -> s <> s0) as Hlt.
    { intros j x s Hj Hx ->. destruct (O3 j x _ Hj Hx) as (? & Hs & _). apply lookup_lt_Some in Hs. unfold s0 in Hs. lia. }
    assert (forall j x, <[i := at_pc g (InOp s0)]> (op_threads c) !! j = Some x ->
              (j = i /\ x = at_pc g (InOp s0)) \/ (j <> i /\ op_threads c !! j = Some x)) as Hin
      by (intros j x; by eapply lookup_thread).
    assert (<[i := at_pc g (InOp s0)]> (op_threads c) !! i = Some (at_pc g (InOp s0))) as Hnew
      by (apply list_lookup_insert_eq; by eapply lookup_lt_Some).
    constructor; simpl.
    + intros j x s [[-> ->]|[Hne Hj]]%Hin Hx; simpl in *; [simplify_eq; apply lookup_insert_eq|].
      rewrite lookup_insert_ne; [by apply (O1 j)|]. intros Heq. pose proof (O1 j x s Hj Hx). congruence.
    + intros id s Hs. rewrite lookup_insert in Hs. case_decide; simplify_eq.
      * eexists i, _. split; [exact Hnew|]. done.
      * destruct (O2 id s Hs) as (j & x & Hj & ? & ?). exists j, x.
        rewrite list_lookup_insert_ne; [done|]. intros <-. congruence.
    + intros j x s [[-> ->]|[Hne Hj]]%Hin Hx.
      * destruct Hx as [Hx|Hx]; simpl in Hx; [|done]. injection Hx as <-. exists (fresh_slot (go_kind g)).
        split; [|done]. by apply list_lookup_middle.
      * destruct (O3 j x s Hj Hx) as (slot & Hs & ?). exists slot. split; [|done]. by apply lookup_app_l_Some.
    + intros j k x y s [[-> ->]|[? Hj]]%Hin [[-> ->]|[? Hk]]%Hin Hx Hy; try done.
      * destruct Hx as [Hx|Hx]; simpl in Hx; [|done]. injection Hx as <-. by destruct (Hlt k y s0 Hk Hy).
      * destruct Hy as [Hy|Hy]; simpl in Hy; [|done]. injection Hy as <-. by destruct (Hlt j x s0 Hj Hx).
      * by apply (O4 j k x y s).
    + intros s slot Hs Hd. apply lookup_app_Some in Hs as [Hs|[Hl Hs]].
      * destruct (O5 s slot Hs Hd) as (j & x & Hj & Hx). exists j, x. split; [|done].
        rewrite list_lookup_insert_ne; [done|]. intros <-. simplify_eq. by apply (Hn s).
      * exists i, (at_pc g (InOp s0)). split; [exact Hnew|]. left. simpl. f_equal.
        destruct (s - length (op_slots c)) eqn:E; simpl in Hs; [|done]. unfold s0. lia.
    + intros j x s [[-> ->]|[? Hj]]%Hin Hx; [by destruct Hx|].
      destruct (O6 j x s Hj Hx) as (? & slot & ? & ?). split; [done|]. exists slot. split; [|done].
      by apply lookup_app_l_Some.
Qed.

Lemma ok_release i g s c : ops_ok c -> op_threads c !! i = Some g -> go_pc g = InOp s -> ops_ok (release i g s c).
Proof.
  intros [O1 O2 O3 O4 O5 O6] Hi Hpc.
  assert (forall j x, <[i := at_pc g (Closing s)]> (op_threads c) !! j = Some x ->
            (j = i /\ x = at_pc g (Closing s)) \/ (j <> i /\ op_threads c !! j = Some x)) as Hin
    by (intros j x; by eapply lookup_thread).
  assert (<[i := at_pc g (Closing s)]> (op_threads c) !! i = Some (at_pc g (Closing s))) as Hnew
    by (apply list_lookup_insert_eq; by eapply lookup_lt_Some).
  assert (forall j x t, <[i := at_pc g (Closing s)]> (op_threads c) !! j = Some x -> holds x t ->
            exists x0, op_threads c !! j = Some x0 /\ holds x0 t /\ go_kind x0 = go_kind x) as Hh.
  { intros j x t [[-> ->]|[? Hj]]%Hin Hx; [|by eauto]. exists g. split_and!; [done| |done].
    destruct Hx as [Hx|Hx]; simpl in Hx; simplify_eq. by left. }
  assert (op_inFlight c !! go_id g = Some s) as Ht by by apply (O1 i).
  unfold release. rewrite bool_decide_eq_true_2 by done. constructor; simpl.
  - intros j x t [[-> ->]|[Hne Hj]]%Hin Hx; [done|]. rewrite lookup_delete_ne; [by apply (O1 j)|].
    intros Heq. pose proof (O1 j x t Hj Hx) as Hxt. rewrite <- Heq, Ht in Hxt. injection Hxt as <-.
    apply Hne, (O4 j i x g s); try done; by left.
  - intros id t Hid. rewrite lookup_delete in Hid. case_decide as Hne; [done|].
    destruct (O2 id t Hid) as (j & x & Hj & Hxid & Hx). exists j, x.
    rewrite list_lookup_insert_ne; [done|]. intros <-. congruence.
  - intros j x t Hj Hx. destruct (Hh j x t Hj Hx) as (x0 & Hj0 & Hx0 & <-). by apply (O3 j x0).
  - intros j k x y t Hj Hk Hx Hy. destruct (Hh j x t Hj Hx) as (x0 & ? & ? & _), (Hh k y t Hk Hy) as (y0 & ? & ? & _).
    by apply (O4 j k x0 y0 t).
  - intros t slot Hs Hd. destruct (O5 t slot Hs Hd) as (j & x & Hj & Hx). destruct (decide (j = i)) as [->|Hne].
    + exists i, (at_pc g (Closing s)). split; [exact Hnew|]. simplify_eq.
      destruct Hx as [Hx|Hx]; rewrite Hpc in Hx; simplify_eq. by right.
    + exists j, x. by rewrite list_lookup_insert_ne.
  - intros j x t [[-> ->]|[? Hj]]%Hin Hx; [by destruct Hx|by apply (O6 j)].
Qed.

Lemma ok_close i g s c :
  ops_ok c -> op_threads c !! i = Some g -> go_pc g = Closing s ->
  ops_ok (set_thread i g Finished (alter_slot close_slot s c)).
Proof.
  intros [O1 O2 O3 O4 O5 O6] Hi Hpc.
  assert (forall j x, <[i := at_pc g Finished]> (op_threads c) !! j = Some x ->
            (j = i /\ x = at_pc g Finished) \/ (j <> i /\ op_threads c !! j = Some x)) as Hin
    by (intros j x; by eapply lookup_thread).
  assert (forall j x t, <[i := at_pc g Finished]> (op_threads c) !! j = Some x -> holds x t ->
            j <> i /\ op_threads c !! j = Some x /\ t <> s) as Hh.
  { intros j x t [[-> ->]|[? Hj]]%Hin Hx; [by destruct Hx|]. split_and!; [done..|]. intros ->.
    assert (j = i); [|done]. apply (O4 j i x g s); try done. by right. }
  constructor; simpl.
  - intros j x t Hj Hx. apply (O1 j); [|done]. eapply Hh; [done|by left].
  - intros id t Hid. destruct (O2 id t Hid) as (j & x & Hj & ? & Hx). exists j, x.
    rewrite list_lookup_insert_ne; [done|]. intros <-. congruence.
  - intros j x t Hj Hx. destruct (Hh j x t Hj Hx) as (_ & Hj' & Ht).
    rewrite list_lookup_alter_ne by done. by apply (O3 j).
  - intros j k x y t Hj Hk Hx Hy. apply (O4 j k x y t); try done; by eapply Hh.
  - intros t slot (y & Hy & ->)%alter_slot_lookup Hd. case_decide as Hts; [done|].
    destruct (O5 t y Hy Hd) as (j & x & Hj & Hx). exists j, x. split; [|done].
    rewrite list_lookup_insert_ne; [done|]. intros <-. simplify_eq.
    destruct Hx as [Hx|Hx]; rewrite Hpc in Hx; by simplify_eq.
  - intros j x t [[-> ->]|[? Hj]]%Hin Hx; [by destruct Hx|]. destruct (O6 j x t Hj Hx) as (? & y & Hy & ?).
    split; [done|]. destruct (decide (t = s)) as [->|Hne].
    + rewrite list_lookup_alter_eq, Hy. simpl. eauto.
    + rewrite list_lookup_alter_ne by done. eauto.
Qed.

Lemma ok_arrive id k c : ops_ok c -> ops_ok (arrive id k c).
Proof.
  intros [O1 O2 O3 O4 O5 O6].
  assert (forall j x t, (op_threads (arrive id k c)) !! j = Some x -> holds x t \/ waits_on x t -> op_threads c !! j = Some x) as Hh.
  { intros j x t [?|[-> ->]]%lookup_snoc Hx; [done|]. by destruct Hx as [[|]|[|]]. }
  constructor; simpl.
  - intros j x s Hj Hx. apply (O1 j); [|done]. eapply Hh; [done|left; by left].
  - intros id' s (j & x & Hj & ?)%O2. exists j, x. split; [by apply lookup_app_l_Some|done].
  - intros j x s Hj Hx. apply (O3 j); [|done]. eapply Hh; [done|by left].
  - intros i j x y s Hi Hj Hx Hy. apply (O4 i j x y s); try done; eapply Hh; eauto.
  - intros s slot Hs Hd. destruct (O5 s slot Hs Hd) as (j & x & Hj & ?). exists j, x. split; [by apply lookup_app_l_Some|done].
  - intros j x s Hj Hx. apply (O6 j); [|done]. eapply Hh; [done|by right].
Qed.

Lemma gstep_ok c c' : ops_ok c -> gstep c c' -> ops_ok c'.
Proof.
  intros Hok [i g Hi Hpc|i g s Hi Hpc|i g s slot Hi Hpc Hs Hd|i g s Hi Hpc|i g s Hi Hpc].
  - by apply ok_acquire.
  - apply (ok_move i g (AwaitDone s) (alter_slot cancel_slot s c)); try done; [by apply ok_cancel|by intros t [|]; congruence|].
    intros t [|[= <-]]; [done|]. destruct (oo_waits c Hok i g s Hi) as (? & slot & Hs & Hk); [by left|].
    split; [done|]. simpl. rewrite list_lookup_alter_eq, Hs. simpl. eauto.
  - apply ok_move; try done; [intros t [|]; congruence|by intros t [|]].
  - by apply ok_release.
  - by apply ok_close.
Qed.

Lemma ops_step_ok c c' : ops_ok c -> step c c' -> ops_ok c'.
Proof. intros Hok [id k|c'' Hg]; [by apply ok_arrive|by apply (gstep_ok c)]. Qed.

Lemma ops_reachable_ok c : rtc step no_ops c -> ops_ok c.
Proof.
  intros Hr. remember no_ops as c0. assert (ops_ok c0) as Hok by (subst; apply no_ops_ok). clear Heqc0.
  induction Hr; eauto using ops_step_ok.
Qed.

(** ** The specification: one lock per instance

    A request waits, runs, and is over; or it is refused.  A create is refused
    when the instance is busy, a destroy only when a destroy is running; at
    most one request of an instance runs. *)
Inductive phase := Waiting | Running | Over | Refused.
Record request := { rq_id : string; rq_kind : opKind; rq_phase : phase }.

Definition to_phase (r : request) (p : phase) : request :=
  {| rq_id := rq_id r; rq_kind := rq_kind r; rq_phase := p |}.

Definition busy (a : list request) (id : string) : Prop :=
  exists j r, a !! j = Some r /\ rq_id r = id /\ rq_phase r = Running.

Inductive lock_step (a : list request) : list request -> Prop :=
  | l_arrive id k : lock_step a (a ++ [{| rq_id := id; rq_kind := k; rq_phase := Waiting |}])
  | l_grant i r : a !! i = Some r -> rq_phase r = Waiting -> ~ busy a (rq_id r) ->
      lock_step a (<[i := to_phase r Running]> a)
  | l_refuse i r j o : a !! i = Some r -> rq_phase r = Waiting ->
      a !! j = Some o -> rq_id o = rq_id r -> rq_phase o = Running ->
      rq_kind r = opCreate \/ rq_kind o = opDestroy ->
      lock_step a (<[i := to_phase r Refused]> a)
  | l_finish i r : a !! i = Some r -> rq_phase r = Running -> lock_step a (<[i := to_phase r Over]> a).

Definition phase_of (p : pc) : phase :=
  match p with
  | AtLoop | ToCancel _ | AwaitDone _ => Waiting
  | InOp _ => Running
  | Closing _ | Finished => Over
  | Dropped => Refused
  end.
Definition request_of (g : goroutine) : request :=
  {| rq_id := go_id g; rq_kind := go_kind g; rq_phase := phase_of (go_pc g) |}.
Definition abs (c : Ops) : list request := request_of <$> op_threads c.

Lemma abs_lookup c i g : op_threads c !! i = Some g -> abs c !! i = Some (request_of g).
Proof. unfold abs. intros Hi. by rewrite list_lookup_fmap, Hi. Qed.

Lemma abs_set c i g p (l : list goroutine) :
  op_threads c !! i = Some g -> request_of <$> <[i := at_pc g p]> (op_threads c) = <[i := to_phase (request_of g) (phase_of p)]> (abs c).
Proof. intros Hi. unfold abs. by rewrite list_fmap_insert. Qed.

(** The phases of a goroutine that moves within one phase. *)
Lemma abs_same c i g p :
  op_threads c !! i = Some g -> phase_of p = phase_of (go_pc g) -> request_of <$> <[i := at_pc g p]> (op_threads c) = abs c.
Proof.
  intros Hi Hp. rewrite (abs_set c i g p []) by done. apply list_insert_id.
  rewrite (abs_lookup c i g Hi). unfold to_phase, request_of. simpl. by rewrite Hp.
Qed.

Lemma must_drop_true a b : must_drop a b = true <-> b = opCreate \/ a = opDestroy.
Proof. destruct a, b; cbv; intuition congruence. Qed.

(** A free table entry is a free lock. *)
Lemma table_free c id : ops_ok c -> op_inFlight c !! id = None -> ~ busy (abs c) id.
Proof.
  intros Hok Hn (j & r & Hj & <- & Hr). unfold abs in Hj. rewrite list_lookup_fmap in Hj.
  destruct (op_threads c !! j) as [g|] eqn:Hg; simplify_eq/=.
  destruct (go_pc g) eqn:Hpc; try done. pose proof (oo_owner c Hok j g s Hg Hpc). congruence.
Qed.

Lemma gstep_refines c c' : ops_ok c -> gstep c c' -> abs c' = abs c \/ lock_step (abs c) (abs c').
Proof.
  intros Hok [i g Hi Hpc|i g s Hi Hpc|i g s slot Hi Hpc Hs Hd|i g s Hi Hpc|i g s Hi Hpc].
  - assert (rq_phase (request_of g) = Waiting) as Hw by (simpl; by rewrite Hpc).
    unfold acquireOp. destruct (op_inFlight c !! go_id g) as [s|] eqn:Et.
    + destruct (oo_table c Hok _ _ Et) as (j & o & Hj & Hid & Ho).
      destruct (oo_held c Hok j o s Hj) as (slot & Hs & Hk & _); [by left|]. rewrite Hs.
      destruct (must_drop (os_kind slot) (go_kind g)) eqn:Hm.
      * right. unfold abs at 2. simpl. rewrite (abs_set c i g Dropped []) by done.
        apply must_drop_true in Hm. rewrite Hk in Hm.
        apply (l_refuse (abs c) i (request_of g) j (request_of o)); try done; [by apply abs_lookup..|].
        simpl. by rewrite Ho.
      * left. apply abs_same; [done|]. by rewrite Hpc.
    + right. unfold abs at 2. simpl. rewrite (abs_set c i g _ []) by done.
      apply l_grant; [by apply abs_lookup|done|]. by apply table_free.
  - left. unfold set_thread, alter_slot, abs at 1. simpl. apply abs_same; [done|]. by rewrite Hpc.
  - left. apply abs_same; [done|]. by rewrite Hpc.
  - right. unfold release, abs at 2. simpl. rewrite (abs_set c i g _ []) by done.
    apply l_finish; [by apply abs_lookup|]. simpl. by rewrite Hpc.
  - left. unfold set_thread, alter_slot, abs at 1. simpl. apply abs_same; [done|]. by rewrite Hpc.
Qed.

Lemma step_refines c c' : ops_ok c -> step c c' -> abs c' = abs c \/ lock_step (abs c) (abs c').
Proof.
  intros Hok [id k|c'' Hg]; [|by apply gstep_refines]. right.
  unfold arrive, abs at 2. simpl. rewrite fmap_app. apply l_arrive.
Qed.

Definition exclusive (a : list request) : Prop :=
  forall i j r r', a !! i = Some r -> a !! j = Some r' -> rq_id r = rq_id r' ->
    rq_phase r = Running -> rq_phase r' = Running -> i = j.

Lemma lock_exclusive a a' : exclusive a -> lock_step a a' -> exclusive a'.
Proof.
  intros He Hs. assert (forall i r p k x, a !! i = Some r -> <[i := to_phase r p]> a !! k = Some x ->
    (k = i /\ x = to_phase r p) \/ (k <> i /\ a !! k = Some x)) as Hin.
  { intros i r p k x Hi Hk. destruct (decide (k = i)) as [->|Hne].
    - rewrite list_lookup_insert_eq in Hk by by eapply lookup_lt_Some. left. by simplify_eq.
    - right. by rewrite list_lookup_insert_ne in Hk. }
  destruct Hs as [id k|i r Hi Hw Hb|i r j o Hi Hw Hj Hid Ho Hk|i r Hi Hr]; intros x y rx ry Hx Hy Hxy Rx Ry.
  - apply lookup_app_Some in Hx as [Hx|[_ Hx]], Hy as [Hy|[_ Hy]]; [by apply (He x y rx ry)|..];
      [apply list_lookup_singleton_Some in Hy as [_ <-]|apply list_lookup_singleton_Some in Hx as [_ <-]..]; done.
  - apply (Hin _ _ _ _ _ Hi) in Hx as [[-> ->]|[? Hx]], Hy as [[-> ->]|[? Hy]]; [done| | |by apply (He x y rx ry)];
      exfalso; apply Hb; simpl in *; [exists y, ry|exists x, rx]; done.
  - apply (Hin _ _ _ _ _ Hi) in Hx as [[-> ->]|[? Hx]]; [done|].
    apply (Hin _ _ _ _ _ Hi) in Hy as [[-> ->]|[? Hy]]; [done|]. by apply (He x y rx ry).
  - apply (Hin _ _ _ _ _ Hi) in Hx as [[-> ->]|[? Hx]]; [done|].
    apply (Hin _ _ _ _ _ Hi) in Hy as [[-> ->]|[? Hy]]; [done|]. by apply (He x y rx ry).
Qed.

(** C12: The goroutines of the VM handler implement one lock per instance.
    Every interleaving of the locking, cancelling, waiting and releasing steps
    of acquireOp and release is an execution of the lock, in which a request
    starts only when no other request of the instance runs, a create is
    refused when the instance is busy, and a destroy is refused only while
    another destroy of the instance runs: a destroy that arrives during a
    slow create is never lost.  At most one operation per instance runs. *)
Theorem ops_refine_lock c :
  rtc step no_ops c -> rtc lock_step [] (abs c) /\ exclusive (abs c).
Proof.
  intros Hr. enough (rtc lock_step [] (abs c)) as Hl.
  { split; [done|]. assert (exclusive []) as He by (intros i j r r' Hi; by rewrite lookup_nil in Hi).
    revert He. induction Hl as [|x y z Hs _ IH]; [done|]. intros He. by eapply IH, lock_exclusive. }
  revert c Hr. apply (rtc_ind_r (fun c => rtc lock_step [] (abs c)) no_ops); [done|].
  intros y z Hy Hs IH. destruct (step_refines y z (ops_reachable_ok y Hy) Hs) as [->|Hl]; [done|].
  by eapply rtc_r.
Qed.

(** ** Every execution ends

    A create that has not released its slot yet can make a destroy go round
    the loop of acquireOp once more. *)
Definition alive (g : goroutine) : nat :=
  match go_kind g, go_pc g with
  | opCreate, AtLoop | opCreate, InOp _ => 1
  | _, _ => 0
  end.

(** The creates alive, the owner of a slot not counted. *)
Definition alive_but (s : nat) (g : goroutine) : nat :=
  if decide (go_pc g = InOp s) then 0 else alive g.

Definition effort (l : list goroutine) (g : goroutine) : nat :=
  match go_kind g, go_pc g with
  | opCreate, AtLoop | opCreate, ToCancel _ | opCreate, AwaitDone _ => 3
  | opDestroy, AtLoop => 4 * sum_list_with alive l + 3
  | opDestroy, ToCancel s => 4 * sum_list_with (alive_but s) l + 5
  | opDestroy, AwaitDone s => 4 * sum_list_with (alive_but s) l + 4
  | _, InOp _ => 2
  | _, Closing _ => 1
  | _, Finished | _, Dropped => 0
  end.

Definition total_effort (c : Ops) : nat := sum_list_with (effort (op_threads c)) (op_threads c).

Section sums.
Implicit Types (l : list goroutine) (f : goroutine -> nat).

Lemma sum_insert f l i g x : l !! i = Some g -> sum_list_with f (<[i := x]> l) + f g = sum_list_with f l + f x.
Proof.
  revert i. induction l as [|y l IH]; intros [|i] Hi; simpl in *; simplify_eq; [lia|].
  specialize (IH i Hi). lia.
Qed.

Lemma sum_le f f' l : (forall g, g ∈ l -> f' g <= f g) -> sum_list_with f' l <= sum_list_with f l.
Proof.
  induction l as [|y l IH]; intros Hf; simpl; [lia|].
  assert (f' y <= f y) by (apply Hf; left). assert (sum_list_with f' l <= sum_list_with f l); [|lia].
  apply IH. intros g Hg. apply Hf. by right.
Qed.

(** One goroutine moves and gets lighter, the others do not get heavier. *)
Lemma sum_decreases f f' l i g x :
  l !! i = Some g -> (forall y, y ∈ l -> f' y <= f y) -> f' x < f g ->
  sum_list_with f' (<[i := x]> l) < sum_list_with f l.
Proof.
  intros Hi Hle Hlt. pose proof (sum_insert f' l i g x Hi). pose proof (sum_le f f' l Hle).
  assert (g ∈ l) as Hg by by eapply list_elem_of_lookup_2.
  pose proof (sum_insert f l i g g Hi) as Hf. pose proof (sum_insert f' l i g g Hi).
  (* the weight of [g] itself is at most its old one *)
  assert (sum_list_with f' l + f g <= sum_list_with f l + f' g); [|lia].
  clear -Hi Hle. revert i Hi. induction l as [|y l IH]; intros [|i] Hi; simpl in *; simplify_eq.
  - assert (sum_list_with f' l <= sum_list_with f l); [|lia]. apply sum_le. intros z Hz. apply Hle. by right.
  - assert (sum_list_with f' l + f g <= sum_list_with f l + f' g) by (eapply IH; [|done]; intros z Hz; apply Hle; by right).
    assert (f' y <= f y) by (apply Hle; left). lia.
Qed.
End sums.

Lemma sum_insert_le f (l : list goroutine) i g x :
  l !! i = Some g -> f x <= f g -> sum_list_with f (<[i := x]> l) <= sum_list_with f l.
Proof. intros Hi Hle. pose proof (sum_insert f l i g x Hi). lia. Qed.

Lemma sum_lt_at f f' (l : list goroutine) i g :
  l !! i = Some g -> (forall y, y ∈ l -> f' y <= f y) -> f' g < f g -> sum_list_with f' l < sum_list_with f l.
Proof.
  intros Hi Hle Hlt. rewrite <- (list_insert_id l i g Hi) at 1. by eapply sum_decreases.
Qed.

(** The move of goroutine [i] from [g] to [x], seen by the others. *)
Lemma effort_others (l : list goroutine) i g x y :
  l !! i = Some g -> alive x <= alive g -> (forall s, alive_but s x <= alive_but s g) ->
  effort (<[i := x]> l) y <= effort l y.
Proof.
  intros Hi H1 H2. pose proof (sum_insert_le alive l i g x Hi H1) as HA.
  pose proof (fun s => sum_insert_le (alive_but s) l i g x Hi (H2 s)) as HB.
  unfold effort. destruct (go_kind y), (go_pc y) as [|s|s| | | |]; try lia; specialize (HB s); lia.
Qed.

Lemma total_effort_move c c' i g x :
  op_threads c !! i = Some g -> op_threads c' = <[i := x]> (op_threads c) ->
  alive x <= alive g -> (forall s, alive_but s x <= alive_but s g) ->
  effort (<[i := x]> (op_threads c)) x < effort (op_threads c) g -> total_effort c' < total_effort c.
Proof.
  intros Hi Hc H1 H2 Hlt. unfold total_effort. rewrite Hc.
  eapply sum_decreases; [done| |done]. intros y _. by eapply effort_others.
Qed.

Lemma alive_but_le s g : alive_but s g <= alive g.
Proof. unfold alive_but. case_decide; lia. Qed.

Lemma gstep_effort c c' : ops_ok c -> gstep c c' -> total_effort c' < total_effort c.
Proof.
  intros Hok [i g Hi Hpc|i g s Hi Hpc|i g s slot Hi Hpc Hs Hd|i g s Hi Hpc|i g s Hi Hpc].
  - assert (forall p, alive (at_pc g p) <= alive g /\ forall s, alive_but s (at_pc g p) <= alive_but s g) as Hal.
    { intros p. unfold alive_but, alive. rewrite Hpc. simpl.
      destruct (go_kind g); [|split; [lia|intros; repeat case_decide; lia]].
      split; [destruct p; lia|]. intros s. destruct (decide (AtLoop = InOp s)); [done|]. case_decide; destruct p; lia. }
    unfold acquireOp. destruct (op_inFlight c !! go_id g) as [s|] eqn:Et.
    + destruct (oo_table c Hok _ _ Et) as (j & o & Hj & Hid & Ho).
      destruct (oo_held c Hok j o s Hj) as (slot & Hs & Hk & _); [by left|]. rewrite Hs.
      destruct (must_drop (os_kind slot) (go_kind g)) eqn:Hm.
      * eapply (total_effort_move c _ i g); [done|done|apply Hal..|].
        unfold effort. rewrite Hpc. simpl. destruct (go_kind g); lia.
      * eapply (total_effort_move c _ i g); [done|done|apply Hal..|].
        assert (go_kind g = opDestroy /\ go_kind o = opCreate) as [Hg Hc].
        { rewrite <- Hk. destruct (os_kind slot), (go_kind g); try done; cbv in Hm; done. }
        unfold effort. rewrite Hpc. simpl. rewrite Hg.
        assert (sum_list_with (alive_but s) (op_threads c) < sum_list_with alive (op_threads c)).
        { apply (sum_lt_at _ _ _ j o Hj); [intros; apply alive_but_le|].
          unfold alive_but, alive. rewrite Hc, Ho, decide_True by done. lia. }
        pose proof (sum_insert_le (alive_but s) _ i g (at_pc g (ToCancel s)) Hi (proj2 (Hal _) s)). lia.
    + eapply (total_effort_move c _ i g); [done|done|apply Hal..|].
      unfold effort. rewrite Hpc. simpl. destruct (go_kind g); lia.
  - destruct (oo_waits c Hok i g s Hi) as [Hk _]; [by left|].
    assert (forall t, alive_but t (at_pc g (AwaitDone s)) = alive_but t g) as Hb.
    { intros t. unfold alive_but, alive. simpl. by rewrite Hk, Hpc. }
    eapply (total_effort_move c _ i g); [done|done| | |].
    + unfold alive. simpl. by rewrite Hk.
    + intros t. by rewrite Hb.
    + unfold effort. rewrite Hpc. simpl. rewrite Hk.
      pose proof (sum_insert_le (alive_but s) _ i g (at_pc g (AwaitDone s)) Hi ltac:(by rewrite Hb)). lia.
  - destruct (oo_waits c Hok i g s Hi) as [Hk _]; [by right|].
    eapply (total_effort_move c _ i g); [done|done| | |].
    + unfold alive. simpl. by rewrite Hk.
    + intros t. unfold alive_but, alive. simpl. rewrite Hk. repeat case_decide; lia.
    + unfold effort. rewrite Hpc. simpl. rewrite Hk.
      assert (sum_list_with alive (op_threads c) <= sum_list_with (alive_but s) (op_threads c)).
      { apply sum_le. intros y [j Hj]%list_elem_of_lookup. unfold alive_but. case_decide as Hy; [|lia].
        destruct (oo_held c Hok j y s Hj) as (sl & Hsl & _ & Hop); [by left|]. congruence. }
      pose proof (sum_insert_le alive _ i g (at_pc g AtLoop) Hi) as Hle.
      assert (alive (at_pc g AtLoop) <= alive g) by (unfold alive; simpl; by rewrite Hk). lia.
  - eapply (total_effort_move c _ i g); [done|done| | |].
    + unfold alive. simpl. rewrite Hpc. destruct (go_kind g); lia.
    + intros t. unfold alive_but, alive. simpl. rewrite Hpc. destruct (go_kind g); repeat case_decide; lia.
    + unfold effort. simpl. rewrite Hpc. destruct (go_kind g); lia.
  - eapply (total_effort_move c _ i g); [done|done| | |].
    + unfold alive. simpl. rewrite Hpc. destruct (go_kind g); lia.
    + intros t. unfold alive_but, alive. simpl. rewrite Hpc. destruct (go_kind g); repeat case_decide; lia.
    + unfold effort. simpl. rewrite Hpc. destruct (go_kind g); lia.
Qed.

(** ** Nothing is stuck *)

Definition settled (c : Ops) : Prop :=
  op_inFlight c = ∅ /\
  (forall i g, op_threads c !! i = Some g -> go_pc g = Finished \/ go_pc g = Dropped) /\
  (forall s slot, op_slots c !! s = Some slot -> os_done slot = true).

Lemma progress c : ops_ok c -> nf gstep c -> settled c.
Proof.
  intros Hok Hnf.
  assert (forall i g, op_threads c !! i = Some g ->
    go_pc g = Finished \/ go_pc g = Dropped \/ exists s, go_pc g = AwaitDone s) as Hpc.
  { intros i g Hi. destruct (go_pc g) eqn:Hg; eauto; exfalso; apply Hnf; eexists;
      [by eapply g_acquire|by eapply g_cancel|by eapply g_release|by eapply g_close]. }
  assert (forall s slot, op_slots c !! s = Some slot -> os_done slot = true) as Hdone.
  { intros s slot Hs. destruct (os_done slot) eqn:Hd; [done|].
    destruct (oo_open c Hok s slot Hs Hd) as (i & g & Hi & [Hg|Hg]);
      destruct (Hpc i g Hi) as [?|[?|[? ?]]]; congruence. }
  split; [|split; [|done]].
  - apply map_empty. intros id. destruct (op_inFlight c !! id) as [s|] eqn:Hs; [|done].
    destruct (oo_table c Hok id s Hs) as (i & g & Hi & _ & Hg).
    destruct (Hpc i g Hi) as [?|[?|[? ?]]]; congruence.
  - intros i g Hi. destruct (Hpc i g Hi) as [?|[?|[s Hg]]]; [by left|by right|]. exfalso.
    destruct (oo_waits c Hok i g s Hi) as (_ & slot & Hs & _); [by right|].
    apply Hnf. eexists. eapply g_wake; eauto.
Qed.

(** C32: The operations drain.  From any reachable state, once no new message
    arrives there is no infinite execution of the goroutines; and an execution
    that cannot go on has ended well: no goroutine waits or holds a slot,
    every slot's channel is closed and the table is empty, so that the
    WaitGroup the shutdown waits on reaches zero and no instance is locked
    for ever. *)
Theorem ops_drain c :
  rtc step no_ops c ->
  sn gstep c /\ forall c', rtc gstep c c' -> nf gstep c' -> settled c'.
Proof.
  intros Hr%ops_reachable_ok. split.
  - remember (total_effort c) as n eqn:Hn. revert c Hr Hn. induction (lt_wf n) as [n _ IH]. intros c Hok ->.
    constructor. intros c' Hs. eapply IH; [by eapply gstep_effort|by eapply gstep_ok|done].
  - intros c' Hs Hnf. apply progress; [|done]. clear Hnf. induction Hs; eauto using gstep_ok.
Qed.

(** ** Witnesses *)

(** A create in its operation, and a destroy that has just arrived. *)
Definition create_running : Ops :=
  {| op_inFlight := <["5"%string := 0]> ∅; op_slots := [fresh_slot opCreate];
     op_threads := [{| go_id := "5"; go_kind := opCreate; go_pc := InOp 0 |};
                    {| go_id := "5"; go_kind := opDestroy; go_pc := AtLoop |}] |}.

Lemma create_running_reachable : rtc step no_ops create_running.
Proof.
  eapply rtc_l; [apply (s_arrive no_ops "5" opCreate)|].
  eapply rtc_l; [apply s_go; by eapply (g_acquire _ 0)|].
  eapply rtc_l; [apply (s_arrive _ "5" opDestroy)|]. apply rtc_refl.
Defined.

Lemma ops_refine_lock_witness : exclusive (abs create_running).
Proof. exact (proj2 (ops_refine_lock create_running create_running_reachable)). Defined.

Lemma ops_drain_witness : sn gstep create_running.
Proof. exact (proj1 (ops_drain create_running create_running_reachable)). Defined.
