(* ===== verification/VMHandler.v ===== *)
(** * VM operations of the agent (compute-agent, internal/vm/handler.go)

    What CreateInstance and DestroyInstance do on the host once the operation
    owns the instance's slot (VMOps.v models the slots): the staged files, the
    libvirt domain, the resets of passthrough devices, and what is reported
    to main-api, in order.  Every call that can fail is answered by the next
    fate of the host. *)

From S2P Require Import Prelude GoStrings Proto DomainXML LibvirtManager IOMMU CloudInit.

#[local] Open Scope string_scope.
#[local] Open Scope list_scope.
#[local] Open Scope go_scope.

Record Config := {
  cf_ImageDir : string;
  cf_SeedDir : string;
  cf_BaseImage : string;
  cf_NetworkName : string;
  cf_DiskSizeGB : Z
}.

(** A call is done, fails without effect, or fails after its effect. *)
Inductive fate := Done | Failed (e : error) | Half (e : error).

(** What an operation leaves behind besides files and domains, in order:
    messages sent, warnings logged, devices reset, the slot released, the
    poller for the VM's address started. *)
Inductive event :=
  | Sent (st : InstanceStatus)
  | WarnCleanup (path : string) (e : error)
  | WarnReset (pci : string) (e : error)
  | WarnReadPCI (e : error)
  | WarnIPLookup (e : error)
  | WarnIPUnresolved
  | DeviceReset (pci : string)
  | Released
  | PollerStarted.

#[export] Instance event_eq_dec : EqDecision event.
Proof. solve_decision. Defined.

Record Host (M : Type) := {
  ho_mgr : M;                                   (* the libvirt manager *)
  ho_files : gmap string Z;                     (* permission bits *)
  ho_sysfs : Sysfs;
  ho_fates : list fate;
  ho_trace : list event
}.
Arguments ho_mgr {M} _.
Arguments ho_files {M} _.
Arguments ho_sysfs {M} _.
Arguments ho_fates {M} _.
Arguments ho_trace {M} _.

Definition mode_0600 : Z := 384.
Definition mode_0644 : Z := 420.

Section handler.
Context {M : Type} `{Manager M, YAMLLib, ISO9660}.
Implicit Types (h : Host M) (cfg : Config) (req : CreateInstanceMsg).

Definition emit (e : event) : ST (Host M) unit := fun h =>
  (tt, {| ho_mgr := ho_mgr h; ho_files := ho_files h; ho_sysfs := ho_sysfs h;
          ho_fates := ho_fates h; ho_trace := ho_trace h ++ [e] |}).

Definition next_fate : ST (Host M) fate := fun h =>
  (match ho_fates h with f :: _ => f | [] => Done end,
   {| ho_mgr := ho_mgr h; ho_files := ho_files h; ho_sysfs := ho_sysfs h;
      ho_fates := tail (ho_fates h); ho_trace := ho_trace h |}).

Definition change_files (f : gmap string Z -> gmap string Z) : ST (Host M) unit := fun h =>
  (tt, {| ho_mgr := ho_mgr h; ho_files := f (ho_files h); ho_sysfs := ho_sysfs h;
          ho_fates := ho_fates h; ho_trace := ho_trace h |}).

Definition set_mgr (m : M) h : Host M :=
  {| ho_mgr := m; ho_files := ho_files h; ho_sysfs := ho_sysfs h;
     ho_fates := ho_fates h; ho_trace := ho_trace h |}.

Definition on_mgr {A} (m : ST M A) : ST (Host M) A := fun h =>
  let '(a, s) := m (ho_mgr h) in (a, set_mgr s h).

(** A system call whose effect on the files is [f]. *)
Definition os_call (f : gmap string Z -> gmap string Z) : ST (Host M) (result unit) :=
  x <- next_fate ;;
  match x with
  | Done => change_files f ;;; ret (Ok tt)
  | Half e => change_files f ;;; ret (Err e)
  | Failed e => ret (Err e)
  end.

(** The context of a create, at the moment it is consulted. *)
Definition ctx_now : ST (Host M) Ctx :=
  x <- next_fate ;; ret match x with Done => None | Failed e | Half e => Some e end.

Definition status (id : string) (state : ProtoState) (ip err : string) : InstanceStatus :=
  {| st_InstanceId := id; st_State := state; st_VmInternalIp := ip; st_ErrorMessage := err |}.
Definition sendStatus (id : string) (state : ProtoState) (ip err : string) : ST (Host M) unit :=
  emit (Sent (status id state ip err)).

Definition disk_path cfg (id : string) : string := Join (cf_ImageDir cfg) (id +:+ ".qcow2").
Definition seed_path cfg (id : string) : string := Join (cf_SeedDir cfg) (id +:+ ".iso").

Definition networkName cfg : string := or_else (cf_NetworkName cfg) "default".

(** [qemu-img create]: a new file has mode 0644. *)
Definition imgFn (dst : string) : ST (Host M) (result unit) :=
  os_call (fun m => <[dst := default mode_0644 (m !! dst)]> m).
Definition resizeFn (dst : string) : ST (Host M) (result unit) := os_call id.

(** [os.Chmod] of a missing file fails. *)
Definition os_Chmod (path : string) (mode : Z) : ST (Host M) (result unit) := fun h =>
  match ho_files h !! path with
  | Some _ => os_call (fun m => <[path := mode]> m) h
  | None => (Err (path_error "chmod" path), h)
  end.

(** [os.OpenFile] with O_CREATE and O_TRUNC: an existing file keeps its mode. *)
Definition os_Create (path : string) (mode : Z) : ST (Host M) (result unit) :=
  os_call (fun m => <[path := default mode (m !! path)]> m).

(** Writing the seed image to the open file. *)
Definition write_seed req : ST (Host M) (result unit) :=
  match BuildSeed {| cq_InstanceID := ci_InstanceId req; cq_Hostname := ci_Name req;
                     cq_SSHPubkeys := ci_SshPubkeys req; cq_ExtraRunCmds := [] |} with
  | Err e => ret (Err e)
  | Ok _ => wrapErr "write iso: " (os_call id)
  end.

Definition prepare_disk cfg (path : string) : ST (Host M) (result unit) :=
  if String.eqb (cf_BaseImage cfg) "" then ret (Ok tt)
  else
    _ <-? wrapErr "create disk: " (imgFn path) ;;
    _ <-? wrapErr "chmod disk: " (os_Chmod path mode_0600) ;;
    if (0 <? cf_DiskSizeGB cfg)%Z then wrapErr "resize disk: " (resizeFn path) else ret (Ok tt).

Definition prepareFiles cfg req : ST (Host M) (result (string * string)) :=
  _ <-? wrapErr "mkdir image dir: " (os_call id) ;;
  _ <-? wrapErr "mkdir seed dir: " (os_call id) ;;
  let diskPath := disk_path cfg (ci_InstanceId req) in
  let seedPath := seed_path cfg (ci_InstanceId req) in
  _ <-? prepare_disk cfg diskPath ;;
  _ <-? wrapErr "create seed: " (os_Create seedPath mode_0600) ;;
  _ <-? wrapErr "build seed: " (write_seed req) ;;
  ret (Ok (diskPath, seedPath)).

(** [os.Remove]; a file that is not there is no error. *)
Definition remove_file (path : string) : ST (Host M) unit :=
  r <- os_call (delete path) ;;
  match r with Ok _ => ret tt | Err e => emit (WarnCleanup path e) end.

Definition cleanupFiles cfg (id : string) : ST (Host M) unit :=
  forRange [disk_path cfg id; seed_path cfg id] remove_file.

(** Reset a device that has a reset file. *)
Definition reset_device (pci : string) : ST (Host M) unit := fun h =>
  if negb (HasResetFile (ho_sysfs h) pci) then (tt, h)
  else emit (match ResetDevice (ho_sysfs h) pci with
             | None => DeviceReset pci
             | Some e => WarnReset pci e
             end) h.

Definition domain_spec cfg req (diskPath seedPath : string) : DomainSpec :=
  {| sp_Name := ci_InstanceId req; sp_MemoryMiB := ci_MemoryMb req; sp_VCPUs := ci_Vcpus req;
     sp_DiskPath := diskPath; sp_CloudInitISOPath := seedPath; sp_NetworkName := networkName cfg;
     sp_MachineType := ""; sp_Emulator := ""; sp_PassthroughPCI := ci_PassthroughPciAddresses req |}.

(** [handleCreate] from the moment it owns the slot; [Released] marks where
    the slot is given back. *)
Definition handleCreate cfg req : ST (Host M) unit :=
  let id := ci_InstanceId req in
  sendStatus id INSTANCE_STATE_PROVISIONING "" "" ;;;
  p <- prepareFiles cfg req ;;
  match p with
  | Err e =>
      cleanupFiles cfg id ;;;
      sendStatus id INSTANCE_STATE_FAILED "" ("prepare: " +:+ Error e) ;;;
      emit Released
  | Ok (diskPath, seedPath) =>
      ctx <- ctx_now ;;
      info <- on_mgr (mgr_CreateDomain ctx (domain_spec cfg req diskPath seedPath)) ;;
      match info with
      | Err e =>
          cleanupFiles cfg id ;;;
          forRange (ci_PassthroughPciAddresses req) reset_device ;;;
          sendStatus id INSTANCE_STATE_FAILED "" ("libvirt-create: " +:+ Error e) ;;;
          emit Released
      | Ok _ =>
          emit Released ;;;
          sendStatus id INSTANCE_STATE_RUNNING "" "" ;;;
          emit PollerStarted
      end
  end.

(** [err != nil && !errors.Is(err, libvirt.ErrDomainNotFound)]. *)
Definition destroy_failure (d : result unit) : option error :=
  match d with Err e => if errors_Is e ErrDomainNotFound then None else Some e | Ok _ => None end.

Definition warn_read (pcis : result (list string)) : ST (Host M) unit :=
  match pcis with
  | Err e => if errors_Is e ErrDomainNotFound then ret tt else emit (WarnReadPCI e)
  | Ok _ => ret tt
  end.

(** [handleDestroy], likewise; its context is never cancelled. *)
Definition handleDestroy cfg (id : string) : ST (Host M) unit :=
  sendStatus id INSTANCE_STATE_STOPPING "" "" ;;;
  pcis <- on_mgr (mgr_DomainPassthroughPCI None id) ;;
  warn_read pcis ;;;
  d <- on_mgr (mgr_DestroyDomain None id) ;;
  match destroy_failure d with
  | Some e => sendStatus id INSTANCE_STATE_FAILED "" (Error e) ;;; emit Released
  | None =>
      cleanupFiles cfg id ;;;
      forRange (match pcis with Ok l => l | Err _ => [] end) reset_device ;;;
      sendStatus id INSTANCE_STATE_STOPPED "" "" ;;;
      emit Released
  end.

(** ** The poller of the VM's address

    Each turn reads the clock, then waits for one of three events. *)
Inductive wake := CtxDone | ShutdownClosed | Waited3s.

(** True when the poller has returned, false when it still waits after the
    given turns. *)
Fixpoint detectAndPublishIP (id : string) (deadline : Z) (turns : list (Z * wake)) : ST (Host M) bool :=
  match turns with
  | [] => ret false
  | (now, w) :: rest =>
      if (deadline <=? now)%Z then emit WarnIPUnresolved ;;; ret true
      else match w with
      | CtxDone | ShutdownClosed => ret true
      | Waited3s =>
          ctx <- ctx_now ;;
          ip <- on_mgr (mgr_DomainIPv4 ctx id) ;;
          match ip with
          | Err e => (if errors_Is e ErrDomainNotFound then ret tt else emit (WarnIPLookup e)) ;;; ret true
          | Ok a => if String.eqb a "" then detectAndPublishIP id deadline rest
                    else sendStatus id INSTANCE_STATE_RUNNING a "" ;;; ret true
          end
      end
  end.
End handler.
