(* ===== verification/VMProof.v ===== *)
(** * VM operations: what they leave behind

    Every branch of handleCreate and handleDestroy over an arbitrary libvirt
    manager and arbitrary failures of system calls; the poller; and the
    composition with the libvirt manager: what a create hands to a VM, the
    matching destroy takes back. *)

From S2P Require Import Prelude GoStrings Proto DomainXML LibvirtManager IOMMU CloudInit VMHandler.

#[local] Open Scope string_scope.
#[local] Open Scope list_scope.
#[local] Open Scope go_scope.

Section proofs.
Context {M : Type} `{Manager M, YAMLLib, ISO9660}.
Implicit Types (h : Host M) (cfg : Config) (req : CreateInstanceMsg).

(** [h'] differs from [h] in its fates, in the files [P], and by the events
    [t]. *)
Record extends (P : string -> Prop) (t : list event) h h' : Prop := {
  ex_mgr : ho_mgr h' = ho_mgr h;
  ex_sysfs : ho_sysfs h' = ho_sysfs h;
  ex_trace : ho_trace h' = ho_trace h ++ t;
  ex_files p : ~ P p -> ho_files h' !! p = ho_files h !! p
}.

Lemma extends_refl P h : extends P [] h h.
Proof. by constructor; rewrite ?app_nil_r. Qed.

Lemma extends_trans P t1 t2 h1 h2 h3 :
  extends P t1 h1 h2 -> extends P t2 h2 h3 -> extends P (t1 ++ t2) h1 h3.
Proof.
  intros [A1 A2 A3 A4] [B1 B2 B3 B4]. constructor; try congruence.
  - by rewrite B3, A3, app_assoc.
  - intros p Hp. by rewrite B4, A4.
Qed.

Lemma extends_trans_nil P t h1 h2 h3 : extends P [] h1 h2 -> extends P t h2 h3 -> extends P t h1 h3.
Proof. apply (extends_trans P [] t). Qed.

Lemma emit_extends P e h : extends P [e] h (emit e h).2.
Proof. by constructor. Qed.

(** A system call: its effect took place when it succeeded. *)
Lemma os_call_spec (P : string -> Prop) f h :
  (forall m p, ~ P p -> f m !! p = m !! p) ->
  extends P [] h (os_call f h).2 /\
  ((ho_files (os_call f h).2 = f (ho_files h)) \/
   (ho_files (os_call f h).2 = ho_files h /\ exists e, (os_call f h).1 = Err e)).
Proof.
  intros Hf. unfold os_call, bind, next_fate. destruct (match ho_fates h with f :: _ => f | [] => Done end); simpl.
  - split; [|by left]. constructor; simpl; rewrite ?app_nil_r; auto.
  - split; [|right; eauto]. constructor; simpl; rewrite ?app_nil_r; auto.
  - split; [|by left]. constructor; simpl; rewrite ?app_nil_r; auto.
Qed.

Lemma os_call_id P h : extends P [] h (os_call id h).2 /\ ho_files (os_call id h).2 = ho_files h.
Proof. destruct (os_call_spec P id h) as [He Hf]; [done|]. split; [done|]. by destruct Hf as [?|[? _]]. Qed.

(** ** Cleaning up *)

Lemma remove_file_spec (P : string -> Prop) path h : P path ->
  exists w, extends P w h (remove_file path h).2 /\
    (ho_files (remove_file path h).2 !! path = None \/ exists e, WarnCleanup path e ∈ w) /\
    (forall p, ho_files h !! p = None -> ho_files (remove_file path h).2 !! p = None) /\
    (forall ev, ev ∈ w -> exists e, ev = WarnCleanup path e).
Proof.
  intros HP. unfold remove_file. rewrite bind_eq.
  destruct (os_call_spec P (delete path) h) as [He Hf].
  { intros m p Hp. apply lookup_delete_ne. by intros ->. }
  assert (forall p, ho_files h !! p = None -> ho_files (os_call (delete path) h).2 !! p = None) as Hnone.
  { intros p Hp. destruct Hf as [->|[-> _]]; [|done]. by rewrite lookup_delete, Hp; case_decide. }
  destruct (os_call (delete path) h) as [[u|e] h1]; simpl in *.
  - exists []. split; [done|]. split; [|split; [done|by intros ? ?%not_elem_of_nil]].
    left. destruct Hf as [->|[_ [? ?]]]; [apply lookup_delete_eq|done].
  - exists [WarnCleanup path e]. split; [by eapply extends_trans_nil, emit_extends|].
    split; [right; exists e; left|]. split; [done|]. intros ev ->%list_elem_of_singleton. eauto.
Qed.

(** The files an instance has on the host. *)
Definition instance_file cfg (id p : string) : Prop := p = disk_path cfg id \/ p = seed_path cfg id.

(** Both files are gone, or a warning names the one that is not. *)
Definition cleaned cfg (id : string) (w : list event) h' : Prop :=
  (forall p, instance_file cfg id p -> ho_files h' !! p = None \/ exists e, WarnCleanup p e ∈ w) /\
  (forall ev, ev ∈ w -> exists p e, ev = WarnCleanup p e).

Lemma cleanupFiles_spec cfg id h :
  exists w, extends (instance_file cfg id) w h (cleanupFiles cfg id h).2 /\
            cleaned cfg id w (cleanupFiles cfg id h).2.
Proof.
  unfold cleanupFiles. simpl. rewrite bind_eq.
  destruct (remove_file_spec (instance_file cfg id) (disk_path cfg id) h) as (w1 & E1 & F1 & _ & V1); [by left|].
  set (h1 := (remove_file (disk_path cfg id) h).2) in *. rewrite bind_eq.
  destruct (remove_file_spec (instance_file cfg id) (seed_path cfg id) h1) as (w2 & E2 & F2 & N2 & V2); [by right|].
  exists (w1 ++ w2). split; [by eapply extends_trans|]. split.
  - intros p [->| ->]; simpl.
    + destruct F1 as [F1|[e He]]; [left; by apply N2|]. right. exists e. apply elem_of_app. by left.
    + destruct F2 as [F2|[e He]]; [by left|]. right. exists e. apply elem_of_app. by right.
  - intros ev [[e ->]%V1|[e ->]%V2]%elem_of_app; eauto.
Qed.

(** The resets of a list of devices. *)
Definition reset_events (s : Sysfs) (pcis : list string) : list event :=
  flat_map (fun pci => if HasResetFile s pci then
              [match ResetDevice s pci with None => DeviceReset pci | Some e => WarnReset pci e end]
            else []) pcis.

Lemma resets_spec P (pcis : list string) h :
  extends P (reset_events (ho_sysfs h) pcis) h (forRange pcis reset_device h).2 /\
  ho_files (forRange pcis reset_device h).2 = ho_files h.
Proof.
  revert h. induction pcis as [|pci l IH]; intros h; [split; [apply extends_refl|done]|].
  cbn [forRange reset_events flat_map]. rewrite bind_eq. fold (reset_events (ho_sysfs h) l).
  assert (extends P (reset_events (ho_sysfs h) [pci]) h (reset_device pci h).2 /\
          ho_files (reset_device pci h).2 = ho_files h) as [He Hf].
  { unfold reset_device, reset_events. simpl. destruct (HasResetFile _ _); simpl; [by split|].
    split; [apply extends_refl|done]. }
  destruct (IH (reset_device pci h).2) as [He' Hf']. split; [|congruence].
  unfold reset_events in He at 1. simpl in He. rewrite app_nil_r in He.
  rewrite (ex_sysfs _ _ _ _ He) in He'. by eapply extends_trans.
Qed.

(** ** Staging the files *)

Lemma prepare_disk_spec cfg id h :
  let '(r, h') := prepare_disk cfg (disk_path cfg id) h in
  extends (instance_file cfg id) [] h h' /\
  (forall p, p <> disk_path cfg id -> ho_files h' !! p = ho_files h !! p) /\
  (is_ok r -> cf_BaseImage cfg <> "" -> ho_files h' !! disk_path cfg id = Some mode_0600).
Proof.
  set (P := fun p => p = disk_path cfg id).
  enough (let '(r, h') := prepare_disk cfg (disk_path cfg id) h in
    extends P [] h h' /\ (is_ok r -> cf_BaseImage cfg <> "" -> ho_files h' !! disk_path cfg id = Some mode_0600)) as Hp.
  { destruct (prepare_disk _ _ h) as [r h']. destruct Hp as [[? ? ? Hf] ?]. split; [|auto].
    constructor; try done. intros p Hp. apply Hf. intros ->. apply Hp. by left. }
  unfold prepare_disk. destruct (String.eqb_spec (cf_BaseImage cfg) "") as [->|Hne].
  { split; [apply extends_refl|done]. }
  rewrite bindR_eq, wrapErr_eq. unfold imgFn.
  match goal with |- context [os_call ?f h] =>
    destruct (os_call_spec P f h) as [E1 _]; [|destruct (os_call f h) as [[u|e] h1]]; simpl in * end.
  { intros m p Hp. apply lookup_insert_ne. intros <-. by apply Hp. }
  2:{ split; [done|by intros []]. }
  rewrite bindR_eq, wrapErr_eq. unfold os_Chmod.
  destruct (ho_files h1 !! disk_path cfg id) eqn:Ed; [|split; [done|by intros []]].
  match goal with |- context [os_call ?f h1] =>
    destruct (os_call_spec P f h1) as [E2 F2]; [|destruct (os_call f h1) as [[u'|e] h2]]; simpl in * end.
  { intros m p Hp. apply lookup_insert_ne. intros <-. by apply Hp. }
  2:{ split; [by eapply extends_trans_nil|by intros []]. }
  assert (ho_files h2 !! disk_path cfg id = Some mode_0600) as Hm.
  { destruct F2 as [->|[_ [? ?]]]; [apply lookup_insert_eq|done]. }
  assert (extends P [] h h2) as E3 by by eapply extends_trans_nil.
  destruct (0 <? cf_DiskSizeGB cfg)%Z; [|done].
  rewrite wrapErr_eq. unfold resizeFn. destruct (os_call_id P h2) as [E4 F4].
  destruct (os_call Datatypes.id h2) as [[]]; simpl in *; (split; [by eapply extends_trans_nil|]); intros; by rewrite ?F4.
Qed.

Lemma write_seed_spec P req h :
  extends P [] h (write_seed req h).2 /\ ho_files (write_seed req h).2 = ho_files h.
Proof.
  unfold write_seed. destruct (BuildSeed _); [|split; [apply extends_refl|done]].
  rewrite wrapErr_eq. destruct (os_call_id P h). by destruct (os_call Datatypes.id h) as [[]].
Qed.

(** Staging touches the two files of the instance only; when it succeeds they
    are there, readable by their owner alone unless the seed existed before
    with other permissions. *)
Lemma prepareFiles_spec cfg req h :
  let '(r, h') := prepareFiles cfg req h in
  let disk := disk_path cfg (ci_InstanceId req) in
  let seed := seed_path cfg (ci_InstanceId req) in
  extends (instance_file cfg (ci_InstanceId req)) [] h h' /\
  forall d s, r = Ok (d, s) -> d = disk /\ s = seed /\
    (cf_BaseImage cfg <> "" -> ho_files h' !! disk = Some mode_0600) /\
    is_Some (ho_files h' !! seed) /\
    (ho_files h !! seed = None -> disk <> seed -> ho_files h' !! seed = Some mode_0600).
Proof.
  unfold prepareFiles. set (P := instance_file cfg (ci_InstanceId req)).
  rewrite bindR_eq, wrapErr_eq. destruct (os_call_id P h) as [E1 F1].
  destruct (os_call Datatypes.id h) as [[[]|e] h1]; simpl in E1, F1; [|by split].
  rewrite bindR_eq, wrapErr_eq. destruct (os_call_id P h1) as [E2 F2].
  destruct (os_call Datatypes.id h1) as [[[]|e] h2]; simpl in E2, F2; [|by split; [eapply extends_trans_nil|]].
  assert (extends P [] h h2) as E12 by by eapply extends_trans_nil.
  assert (ho_files h2 = ho_files h) as F12 by congruence. clear E1 E2 F1 F2 h1.
  cbv zeta. rewrite bindR_eq. pose proof (prepare_disk_spec cfg (ci_InstanceId req) h2) as E3.
  destruct (prepare_disk _ _ h2) as [[[]|e] h3]; destruct E3 as (E3 & O3 & D3); fold P in E3;
    [|by split; [eapply extends_trans_nil|]].
  rewrite bindR_eq, wrapErr_eq. unfold os_Create.
  match goal with |- context [os_call ?f h3] =>
    destruct (os_call_spec P f h3) as [E4 F4]; [|destruct (os_call f h3) as [[[]|e] h4]] end.
  { intros m p Hp. apply lookup_insert_ne. intros <-. apply Hp. by right. }
  2:{ simpl in E4. split; [|done]. eapply extends_trans_nil, extends_trans_nil; eauto. }
  simpl in E4. destruct F4 as [F4|[_ [? ?]]]; [|done]. simpl in F4.
  rewrite bindR_eq, wrapErr_eq. destruct (write_seed_spec P req h4) as [E5 F5].
  assert (extends P [] h h4) as E14 by (eapply extends_trans_nil, extends_trans_nil; eauto).
  destruct (write_seed req h4) as [[[]|e] h5]; simpl in E5, F5; [|by split; [eapply extends_trans_nil|]].
  simpl. split; [by eapply extends_trans_nil|]. intros d s [= <- <-]. rewrite F5, F4.
  split_and!; [done|done| | |].
  - intros Hb. specialize (D3 I Hb). rewrite lookup_insert. case_decide as Heq; [|done].
    by rewrite Heq, D3.
  - rewrite lookup_insert_eq. eauto.
  - intros Hnone Hne. rewrite lookup_insert_eq. by rewrite O3, F12, Hnone by done.
Qed.

(** ** Creating *)

Definition report cfg (id : string) (state : ProtoState) (err : string) : event := Sent (status id state "" err).

(** What a create leaves behind. *)
Inductive create_outcome cfg req h h' : list event -> Prop :=
  | Started info :
      let id := ci_InstanceId req in
      (exists ctx, mgr_CreateDomain ctx (domain_spec cfg req (disk_path cfg id) (seed_path cfg id)) (ho_mgr h)
                   = (Ok info, ho_mgr h')) ->
      (cf_BaseImage cfg <> "" -> ho_files h' !! disk_path cfg id = Some mode_0600) ->
      is_Some (ho_files h' !! seed_path cfg id) ->
      create_outcome cfg req h h'
        [report cfg id INSTANCE_STATE_PROVISIONING ""; Released; report cfg id INSTANCE_STATE_RUNNING ""; PollerStarted]
  | NotPrepared e w :
      let id := ci_InstanceId req in
      ho_mgr h' = ho_mgr h ->
      cleaned cfg id w h' ->
      create_outcome cfg req h h'
        (report cfg id INSTANCE_STATE_PROVISIONING "" :: w ++
         [report cfg id INSTANCE_STATE_FAILED ("prepare: " +:+ Error e); Released])
  | NotStarted e w :
      let id := ci_InstanceId req in
      (exists ctx, mgr_CreateDomain ctx (domain_spec cfg req (disk_path cfg id) (seed_path cfg id)) (ho_mgr h)
                   = (Err e, ho_mgr h')) ->
      cleaned cfg id w h' ->
      create_outcome cfg req h h'
        (report cfg id INSTANCE_STATE_PROVISIONING "" :: w ++
         reset_events (ho_sysfs h) (ci_PassthroughPciAddresses req) ++
         [report cfg id INSTANCE_STATE_FAILED ("libvirt-create: " +:+ Error e); Released]).

Lemma trace_snoc (t : list event) a b : (t ++ [a]) ++ [b] = t ++ [a; b].
Proof. by rewrite <- app_assoc. Qed.

(** Whatever the manager does and whichever system calls fail, a create
    ends in one of three ways.  Started: libvirt created the domain from the
    staged files; PROVISIONING, then RUNNING is reported, the slot is given
    back in between, and the poller runs.  Not prepared: libvirt was not
    called.  Not started: libvirt refused.  In the last two FAILED with the
    reason is the last report, the slot is given back, and each of the two
    staged files is gone or a warning names it; when libvirt may have touched
    the devices, every passthrough device with a reset file was reset or a
    warning names it.  No file of another instance changes in any case. *)
Theorem handleCreate_spec cfg req h :
  let h' := (handleCreate cfg req h).2 in
  (forall p, ~ instance_file cfg (ci_InstanceId req) p -> ho_files h' !! p = ho_files h !! p) /\
  ho_sysfs h' = ho_sysfs h /\
  exists t, ho_trace h' = ho_trace h ++ t /\ create_outcome cfg req h h' t.
Proof.
  cbv zeta. unfold handleCreate. rewrite bind_eq.
  set (P := instance_file cfg (ci_InstanceId req)).
  pose proof (emit_extends P (report cfg (ci_InstanceId req) INSTANCE_STATE_PROVISIONING "") h) as E0.
  change (emit _ h) with (sendStatus (ci_InstanceId req) INSTANCE_STATE_PROVISIONING "" "" h) in E0.
  set (h0 := (sendStatus (ci_InstanceId req) INSTANCE_STATE_PROVISIONING "" "" h).2) in *.
  rewrite bind_eq. pose proof (prepareFiles_spec cfg req h0) as Hp.
  destruct (prepareFiles cfg req h0) as [r h1]. destruct Hp as [E1 Hok].
  fold P in E1. assert (extends P _ h h1) as E01 by (eapply extends_trans; eassumption). simpl in E01.
  destruct r as [[d s]|e]; cbn [fst snd].
  2:{ rewrite bind_eq. destruct (cleanupFiles_spec cfg (ci_InstanceId req) h1) as (w & E2 & Hc). fold P in E2.
      assert (extends P _ h _) as E02 by (eapply extends_trans; [exact E01|exact E2]).
      destruct (cleanupFiles cfg (ci_InstanceId req) h1) as [[] h2]. simpl in *.
      destruct E02 as [X1 X2 X3 X4]. split; [exact X4|]. split; [exact X2|]. eexists. split.
      - rewrite trace_snoc, X3, <- app_assoc. reflexivity.
      - apply (NotPrepared cfg req h _ e w); [exact X1|exact Hc]. }
  destruct (Hok d s eq_refl) as (-> & -> & Hdisk & Hseed & _). rewrite bind_eq.
  assert (extends P [] h1 (ctx_now h1).2 /\ ho_files (ctx_now h1).2 = ho_files h1) as [E12 F2].
  { split; [|done]. by constructor; rewrite ?app_nil_r. }
  destruct (ctx_now h1) as [ctx h2]. cbn [fst snd] in *. rewrite bind_eq.
  assert (extends P _ h h2) as E02 by (eapply extends_trans; [exact E01|exact E12]). simpl in E02.
  destruct E02 as [X1 X2 X3 X4].
  unfold on_mgr. rewrite X1.
  destruct (mgr_CreateDomain ctx _ (ho_mgr h)) as [[info|e] m'] eqn:Ec; cbn [fst snd].
  - simpl. split; [exact X4|]. split; [exact X2|]. eexists. split.
    + rewrite X3, <- !app_assoc. reflexivity.
    + apply (Started cfg req h _ info); simpl; rewrite ?F2; eauto.
  - set (h3 := set_mgr m' h2).
    rewrite bind_eq. destruct (cleanupFiles_spec cfg (ci_InstanceId req) h3) as (w & [Y1 Y2 Y3 Y4] & Hc1 & Hc2).
    set (h4 := (cleanupFiles cfg (ci_InstanceId req) h3).2) in *. rewrite bind_eq.
    destruct (resets_spec P (ci_PassthroughPciAddresses req) h4) as [[Z1 Z2 Z3 Z4] F5].
    set (h5 := (forRange (ci_PassthroughPciAddresses req) reset_device h4).2) in *. simpl.
    split; [intros p Hp; rewrite Z4, Y4 by exact Hp; by apply X4|]. split; [by rewrite Z2, Y2|].
    eexists. split.
    + rewrite trace_snoc, Z3, Y3. simpl. rewrite X3, <- !app_assoc. reflexivity.
    + replace (ho_sysfs h4) with (ho_sysfs h) by (rewrite Y2; simpl; congruence).
      eapply (NotStarted cfg req h _ e w); [exists ctx; simpl; rewrite Z1, Y1; done|].
      split; [|done]. simpl. by rewrite F5.
Qed.

(** ** Destroying *)

Definition read_warning (pcis : result (list string)) : list event :=
  match pcis with
  | Err e => if errors_Is e ErrDomainNotFound then [] else [WarnReadPCI e]
  | Ok _ => []
  end.
Definition known_pcis (pcis : result (list string)) : list string :=
  match pcis with Ok l => l | Err _ => [] end.

Lemma warn_read_spec P pcis h :
  extends P (read_warning pcis) h (warn_read pcis h).2 /\ ho_files (warn_read pcis h).2 = ho_files h.
Proof.
  destruct pcis as [l|e]; simpl; [|destruct (errors_Is e ErrDomainNotFound)];
    (split; [|done]); [apply extends_refl|apply extends_refl|apply emit_extends].
Qed.

Lemma on_mgr_eq {A} (m : ST M A) h a s : m (ho_mgr h) = (a, s) -> on_mgr m h = (a, set_mgr s h).
Proof. unfold on_mgr. by intros ->. Qed.

(** What a destroy leaves behind. *)
Inductive destroy_outcome cfg (id : string) h h' : list event -> Prop :=
  | Stopped pcis m d w :
      mgr_DomainPassthroughPCI None id (ho_mgr h) = (pcis, m) ->
      mgr_DestroyDomain None id m = (d, ho_mgr h') ->
      destroy_failure d = None ->
      cleaned cfg id w h' ->
      destroy_outcome cfg id h h'
        (report cfg id INSTANCE_STATE_STOPPING "" :: read_warning pcis ++ w ++
         reset_events (ho_sysfs h) (known_pcis pcis) ++ [report cfg id INSTANCE_STATE_STOPPED ""; Released])
  | NotStopped pcis m d e :
      mgr_DomainPassthroughPCI None id (ho_mgr h) = (pcis, m) ->
      mgr_DestroyDomain None id m = (d, ho_mgr h') ->
      destroy_failure d = Some e ->
      ho_files h' = ho_files h ->
      destroy_outcome cfg id h h'
        (report cfg id INSTANCE_STATE_STOPPING "" :: read_warning pcis ++
         [report cfg id INSTANCE_STATE_FAILED (Error e); Released]).

(** Whatever the manager does and whichever system calls fail, a destroy
    reads the passthrough devices before it destroys the domain, and ends in
    one of two ways.  Stopped, when the domain was destroyed or reported
    missing: the two files are gone or a warning names them, every device
    read beforehand that has a reset file was reset or a warning names it,
    and only then STOPPED is reported.  Not stopped: the files are kept and
    FAILED carries the manager's error.  The slot is given back in both, and
    no file of another instance changes. *)
Theorem handleDestroy_spec cfg id h :
  let h' := (handleDestroy cfg id h).2 in
  (forall p, ~ instance_file cfg id p -> ho_files h' !! p = ho_files h !! p) /\
  ho_sysfs h' = ho_sysfs h /\
  exists t, ho_trace h' = ho_trace h ++ t /\ destroy_outcome cfg id h h' t.
Proof.
  cbv zeta. unfold handleDestroy. rewrite bind_eq. set (P := instance_file cfg id).
  pose proof (emit_extends P (report cfg id INSTANCE_STATE_STOPPING "") h) as [A1 A2 A3 A4].
  change (emit _ h) with (sendStatus id INSTANCE_STATE_STOPPING "" "" h) in *.
  assert (ho_files (sendStatus id INSTANCE_STATE_STOPPING "" "" h).2 = ho_files h) as F0 by done.
  destruct (sendStatus id INSTANCE_STATE_STOPPING "" "" h) as [[] h0]. cbn [fst snd] in *.
  rewrite bind_eq. destruct (mgr_DomainPassthroughPCI None id (ho_mgr h)) as [pcis m] eqn:Ep.
  rewrite (on_mgr_eq _ h0 pcis m) by by rewrite A1. cbn [fst snd].
  rewrite bind_eq. destruct (warn_read_spec P pcis (set_mgr m h0)) as [[B1 B2 B3 B4] F1].
  destruct (warn_read pcis (set_mgr m h0)) as [[] h1].
  cbn [fst snd] in *. simpl in B1, B2, B3, B4, F1. rewrite A2 in B2. rewrite A3 in B3. rewrite F0 in F1.
  rewrite bind_eq. destruct (mgr_DestroyDomain None id m) as [d m'] eqn:Ed.
  rewrite (on_mgr_eq _ h1 d m') by by rewrite B1. cbn [fst snd].
  destruct (destroy_failure d) as [e|] eqn:Ef.
  - simpl. split; [intros p Hp; by rewrite B4, A4|]. split; [exact B2|]. eexists. split.
    + rewrite trace_snoc, B3, <- !app_assoc. reflexivity.
    + by eapply NotStopped.
  - set (h2 := set_mgr m' h1).
    rewrite bind_eq. destruct (cleanupFiles_spec cfg id h2) as (w & [Y1 Y2 Y3 Y4] & Hc1 & Hc2).
    set (h3 := (cleanupFiles cfg id h2).2) in *. rewrite bind_eq. fold (known_pcis pcis).
    destruct (resets_spec P (known_pcis pcis) h3) as [[Z1 Z2 Z3 Z4] F5].
    set (h4 := (forRange (known_pcis pcis) reset_device h3).2) in *. simpl.
    split; [intros p Hp; rewrite Z4, Y4 by exact Hp; simpl; by rewrite F1|].
    split; [by rewrite Z2, Y2|]. eexists. split.
    + rewrite trace_snoc, Z3, Y3. simpl. rewrite B3, <- !app_assoc. reflexivity.
    + replace (ho_sysfs h3) with (ho_sysfs h) by (rewrite Y2; simpl; congruence).
      eapply Stopped; [done|simpl; rewrite Z1, Y1; done|done|].
      split; [|done]. simpl. by rewrite F5.
Qed.

(** ** The poller *)

(** What the poller adds: at most one report, RUNNING with an address. *)
Lemma detect_trace id deadline turns h :
  exists t, ho_trace (detectAndPublishIP id deadline turns h).2 = ho_trace h ++ t /\
    (t = [] \/ t = [WarnIPUnresolved] \/ (exists e, t = [WarnIPLookup e]) \/
     exists ip, ip <> "" /\ t = [Sent (status id INSTANCE_STATE_RUNNING ip "")]) /\
    ho_files (detectAndPublishIP id deadline turns h).2 = ho_files h.
Proof.
  revert h. induction turns as [|[now w] rest IH]; intros h; [exists []; rewrite app_nil_r; auto|].
  cbn [detectAndPublishIP]. destruct (deadline <=? now)%Z; [exists [WarnIPUnresolved]; auto|].
  destruct w; [exists []; rewrite app_nil_r; auto..|].
  rewrite bind_eq. destruct (ctx_now h) as [ctx h1] eqn:E1.
  assert (ho_trace h1 = ho_trace h /\ ho_files h1 = ho_files h) as [T1 F1] by (by injection E1 as _ <-).
  cbn [fst snd]. rewrite bind_eq. unfold on_mgr. destruct (mgr_DomainIPv4 ctx id (ho_mgr h1)) as [[ip|e] m].
  - cbn [fst snd]. destruct (String.eqb_spec ip "") as [->|Hne].
    + destruct (IH (set_mgr m h1)) as (t & Ht & Hc & Hf). exists t. simpl in Ht, Hf. by rewrite Ht, Hf, T1, F1.
    + eexists. simpl. rewrite T1. split; [reflexivity|]. eauto 10.
  - cbn [fst snd]. destruct (errors_Is e ErrDomainNotFound); simpl.
    + exists []. rewrite app_nil_r. auto.
    + eexists. rewrite T1. split; [reflexivity|]. eauto 10.
Qed.

(** C34: The poller ends.  When it starts at [t0] with the deadline 90s later
    and each turn of the loop takes at least the three seconds of its timer,
    it has returned by its 31st turn at the latest, whatever libvirt answers;
    it sends at most one message, RUNNING with a non-empty address; and it
    leaves the files alone. *)
Theorem poller_terminates id t0 turns h :
  (forall i now w, turns !! i = Some (now, w) -> t0 + Z.of_nat i * (3 * second) <= now)%Z ->
  31 <= length turns ->
  let '(returned, h') := detectAndPublishIP id (t0 + 90 * second) turns h in
  returned = true /\ ho_files h' = ho_files h /\
  exists t, ho_trace h' = ho_trace h ++ t /\
    (t = [] \/ t = [WarnIPUnresolved] \/ (exists e, t = [WarnIPLookup e]) \/
     exists ip, ip <> "" /\ t = [Sent (status id INSTANCE_STATE_RUNNING ip "")]).
Proof.
  intros Hclock Hlen. destruct (detect_trace id (t0 + 90 * second) turns h) as (t & Ht & Hc & Hf).
  assert ((detectAndPublishIP id (t0 + 90 * second) turns h).1 = true) as Hret.
  { clear Ht Hc Hf. assert (exists k, k <= 30 /\ 31 <= k + length turns /\
      forall i now w, turns !! i = Some (now, w) -> (t0 + Z.of_nat (k + i) * (3 * second) <= now)%Z) as (k & Hk & Hl & Hcl).
    { exists 0. split; [lia|]. split; [done|]. exact Hclock. }
    clear Hclock Hlen. revert k h Hk Hl Hcl. induction turns as [|[now w] rest IH]; intros k h Hk Hl Hcl; [simpl in Hl; lia|].
    cbn [detectAndPublishIP]. destruct (Z.leb_spec (t0 + 90 * second) now); [done|]. destruct w; [done..|].
    assert (k < 30).
    { pose proof (Hcl 0 now Waited3s eq_refl) as Hn. unfold second in *. lia. }
    rewrite bind_eq. destruct (ctx_now h) as [ctx h1]. cbn [fst snd]. rewrite bind_eq.
    unfold on_mgr. destruct (mgr_DomainIPv4 ctx id (ho_mgr h1)) as [[ip|e] m]; cbn [fst snd].
    - destruct (String.eqb ip ""); [|done]. apply (IH (S k)); [lia|simpl in Hl; lia|].
      intros i now' w Hi. replace (S k + i) with (k + S i) by lia. by apply (Hcl (S i) now' w).
    - by destruct (errors_Is e ErrDomainNotFound). }
  destruct (detectAndPublishIP id (t0 + 90 * second) turns h) as [r h']. simpl in *. eauto.
Qed.
End proofs.

(** A VM whose lease has been handed out by the first turn. *)
Section poller_witness.
#[local] Existing Instances DemoXML.lib DemoXML.laws DemoVirt.conn.

Definition poller_host : Host DemoVirt.state :=
  {| ho_mgr := {| DemoVirt.vs_domains := {["5" := started (defined_domain "")]}; DemoVirt.vs_down := false |};
     ho_files := ∅; ho_sysfs := DemoSysfs.two_groups; ho_fates := []; ho_trace := [] |}.

Definition poller_turns : list (Z * wake) :=
  (fun i => (Z.of_nat i * (3 * second), Waited3s)%Z) <$> seq 0 31.

Lemma poller_terminates_witness :
  let '(returned, h') := detectAndPublishIP "5" (90 * second) poller_turns poller_host in
  returned = true /\ ho_trace h' = [Sent (status "5" INSTANCE_STATE_RUNNING "192.168.122.10" "")].
Proof.
  split; [|vm_compute; reflexivity].
  assert (forall i now w, poller_turns !! i = Some (now, w) -> (0 + Z.of_nat i * (3 * second) <= now)%Z) as Hclock.
  { unfold poller_turns. intros i now w. rewrite list_lookup_fmap, fmap_Some.
    intros (j & [-> _]%lookup_seq & [= -> ->]). rewrite Z.add_0_l. reflexivity. }
  exact (proj1 (poller_terminates "5" 0 poller_turns poller_host Hclock (le_n 31))).
Defined.
End poller_witness.
