(* ===== verification/VMLifecycle.v ===== *)
(** * A VM from create to destroy

    The VM handler over the libvirt manager over any connection that behaves
    as libvirt documents: RUNNING means running, and a destroy resets the
    devices the create passed through; and what happens when libvirt does not
    answer, when a create is delivered twice, and when the definition cannot
    be read. *)

From S2P Require Import Prelude GoStrings Proto DomainXML LibvirtManager IOMMU CloudInit VMHandler VMProof.

#[local] Open Scope string_scope.
#[local] Open Scope list_scope.

Section lifecycle.
Context {L : Type} `{ConnectorLaws L, YAMLLib, ISO9660}.
Implicit Types (h : Host L) (cfg : Config) (req : CreateInstanceMsg).

(** Only [Sent] events report. *)
Lemma no_report cfg id w s pcis st (h' : Host L) :
  cleaned cfg id w h' -> ~ Sent st ∈ w /\ ~ Sent st ∈ reset_events s pcis.
Proof.
  intros [_ Hw]. split; [by intros (? & ? & ?)%Hw|].
  unfold reset_events. intros (pci & _ & Hin)%list_elem_of_In%in_flat_map.
  destruct (HasResetFile s pci); [|done]. destruct (ResetDevice s pci); by destruct Hin as [|[]].
Qed.

Definition running (h : Host L) (id : string) : Prop :=
  exists v, lv_domains (ho_mgr h) !! id = Some v /\ lv_Running v = true.

(** In the course of the create on this host, libvirt reported an error for a
    start that had taken effect. *)
Definition create_start_lost cfg req h : Prop :=
  let id := ci_InstanceId req in
  start_lost (domain_spec cfg req (disk_path cfg id) (seed_path cfg id)) (ho_mgr h).

(** A create of a domain libvirt does not know. *)
Lemma create_domains cfg req h :
  lv_domains (ho_mgr h) !! ci_InstanceId req = None ->
  let id := ci_InstanceId req in
  let h' := (handleCreate cfg req h).2 in
  exists t, ho_trace h' = ho_trace h ++ t /\
    delete id (lv_domains (ho_mgr h')) = lv_domains (ho_mgr h) /\
    if decide (Sent (status id INSTANCE_STATE_RUNNING "" "") ∈ t) then
      exists xml, BuildDomainXML (domain_spec cfg req (disk_path cfg id) (seed_path cfg id)) = Ok xml /\
        lv_domains (ho_mgr h') !! id = Some (started (defined_domain xml))
    else running h' id -> create_start_lost cfg req h.
Proof.
  intros Hnone id h'. destruct (handleCreate_spec cfg req h) as (_ & _ & t & Ht & Ho).
  fold h' in Ht, Ho. exists t. split; [done|].
  destruct Ho as [info id' [ctx Hc] _ _|e w id' Hm Hcl|e w id' [ctx Hc] Hcl]; change id' with id in *; clear id'.
  - pose proof (CreateDomain_absent ctx (domain_spec cfg req (disk_path cfg id) (seed_path cfg id)) (ho_mgr h) Hnone) as Hd.
    unfold mgr_CreateDomain, LibvirtManager in Hc. rewrite Hc in Hd. destruct Hd as (_ & _ & xml & Hx & Hd).
    rewrite Hd. simpl. split; [by apply delete_insert_id|].
    rewrite decide_True by (rewrite !elem_of_cons; tauto). exists xml. by rewrite lookup_insert_eq.
  - rewrite Hm. split; [by apply delete_id|]. rewrite decide_False.
    + intros (v & Hv & _). rewrite Hm in Hv. unfold id in Hv. congruence.
    + destruct (no_report cfg id w (ho_sysfs h) [] (status id INSTANCE_STATE_RUNNING "" "") h' Hcl) as [Hn _].
      rewrite elem_of_cons, elem_of_app, !elem_of_cons. intros [?|[?|[?|[?|?%not_elem_of_nil]]]]; done.
  - pose proof (CreateDomain_absent ctx (domain_spec cfg req (disk_path cfg id) (seed_path cfg id)) (ho_mgr h) Hnone) as Hd.
    unfold mgr_CreateDomain, LibvirtManager in Hc. rewrite Hc in Hd. destruct Hd as [Hdel Hrun].
    split; [exact Hdel|]. rewrite decide_False; [intros (v & Hv & Hr); exact (Hrun v Hv Hr)|].
    destruct (no_report cfg id w (ho_sysfs h) (ci_PassthroughPciAddresses req)
                (status id INSTANCE_STATE_RUNNING "" "") h' Hcl) as [Hn Hn'].
    rewrite elem_of_cons, !elem_of_app, !elem_of_cons. intros [?|[?|[?|[?|[?|?%not_elem_of_nil]]]]]; done.
Qed.

(** RUNNING is the truth.  For an instance libvirt does not know yet, a
    create that reports RUNNING leaves the domain defined and running under
    the instance's id; one that does not leaves no running domain of that
    name, unless libvirt reported an error for a start that took effect.  The
    other domains of the host are untouched. *)
Theorem running_reported_iff_running cfg req h :
  lv_domains (ho_mgr h) !! ci_InstanceId req = None ->
  let id := ci_InstanceId req in
  let h' := (handleCreate cfg req h).2 in
  exists t, ho_trace h' = ho_trace h ++ t /\
    (Sent (status id INSTANCE_STATE_RUNNING "" "") ∈ t -> running h' id) /\
    (running h' id -> Sent (status id INSTANCE_STATE_RUNNING "" "") ∈ t \/ create_start_lost cfg req h) /\
    delete id (lv_domains (ho_mgr h')) = lv_domains (ho_mgr h).
Proof.
  intros Hnone. destruct (create_domains cfg req h Hnone) as (t & Ht & Hdel & Hr).
  exists t. split; [done|]. case_decide as Hin; [|tauto].
  destruct Hr as (xml & _ & Hx). split; [|tauto]. intros _. by eexists.
Qed.

(** What the handler's texts must be for encoding/xml to keep them. *)
Definition printable_request cfg req : Prop :=
  printable_text (disk_path cfg (ci_InstanceId req)) = true /\
  printable_text (seed_path cfg (ci_InstanceId req)) = true /\
  printable_text (networkName cfg) = true.

Lemma destroyed_as_created `{!XMLLaws} cfg req h t l :
  let id := ci_InstanceId req in
  let h1 := (handleCreate cfg req h).2 in
  let h2 := (handleDestroy cfg id h1).2 in
  lv_domains (ho_mgr h) !! id = None ->
  forallb canonical_pci (ci_PassthroughPciAddresses req) = true -> printable_request cfg req ->
  ho_trace h1 = ho_trace h ++ t -> Sent (status id INSTANCE_STATE_RUNNING "" "") ∈ t ->
  DomainPassthroughPCI None id (ho_mgr h1) = (Ok l, (DomainPassthroughPCI None id (ho_mgr h1)).2) ->
  (DestroyDomain None id (DomainPassthroughPCI None id (ho_mgr h1)).2).1 = Ok tt ->
  lv_domains (ho_mgr h2) = lv_domains (ho_mgr h) /\
  exists w, cleaned cfg id w h2 /\
    ho_trace h2 = ho_trace h1 ++ report cfg id INSTANCE_STATE_STOPPING "" :: w ++
      reset_events (ho_sysfs h) (ci_PassthroughPciAddresses req) ++
      [report cfg id INSTANCE_STATE_STOPPED ""; Released].
Proof.
  intros id h1 h2 Hnone Hcan (P1 & P2 & P3) Ht Hrun Hpci Hdes.
  destruct (create_domains cfg req h Hnone) as (t' & Ht' & Hdel & Hr). fold h1 id in Ht', Hdel, Hr.
  rewrite Ht in Ht'. apply app_inv_head in Ht' as <-. rewrite decide_True in Hr by done.
  destruct Hr as (xml & Hx & Hd).
  assert (l = ci_PassthroughPciAddresses req) as ->.
  { pose proof (DomainPassthroughPCI_spec None id (ho_mgr h1)) as Hs. rewrite Hpci in Hs.
    destruct Hs as [_ Hs]. apply (Hs _ (ci_PassthroughPciAddresses req) Hd); [|done|done].
    simpl. apply (passthrough_roundtrip _ _ Hx). unfold printable_spec. rewrite !andb_true_iff. done. }
  pose proof (DomainPassthroughPCI_spec None id (ho_mgr h1)) as Hs. rewrite Hpci in Hs. destruct Hs as [Hs _].
  set (m := (DomainPassthroughPCI None id (ho_mgr h1)).2) in *.
  pose proof (DestroyDomain_result None id m) as Hdr.
  destruct (handleDestroy_spec cfg id h1) as (_ & _ & t2 & Ht2 & Ho). fold h2 in Ht2, Ho.
  assert (ho_sysfs h1 = ho_sysfs h) as Hsys by by destruct (handleCreate_spec cfg req h) as (_ & ? & _).
  destruct Ho as [pcis m1 d w Hq Hq' Hf Hcl|pcis m1 d e Hq Hq' Hf _];
    unfold mgr_DomainPassthroughPCI, mgr_DestroyDomain, LibvirtManager in Hq, Hq'; rewrite Hpci in Hq;
    injection Hq as <- <-; rewrite Hq' in Hdr, Hdes; simpl in Hdes; subst d; [|done].
  split; [by rewrite (proj2 Hdr), Hs|]. exists w. split; [done|]. by rewrite Ht2, Hsys.
Qed.

(** C13: What a create hands out, the destroy takes back.  The PCI addresses of
    the create are in the form sysfs and libvirt print them (four, two, two
    and one lower-case hexadecimal digits), the agent's paths and network name
    are texts XML can hold, and libvirt did not know the domain before.  After
    a create that
    reported RUNNING, a destroy for which libvirt answers without an error
    (reads the definition, destroys the domain) leaves the host's domains as
    they were before the create, resets exactly the devices the create
    passed through (those with a reset file, in order), with each of the two
    staged files gone or named by a warning, and reports STOPPED after that. *)
Theorem destroy_undoes_create `{!XMLLaws} cfg req h t l :
  let id := ci_InstanceId req in
  let h1 := (handleCreate cfg req h).2 in
  let h2 := (handleDestroy cfg id h1).2 in
  lv_domains (ho_mgr h) !! id = None ->
  forallb canonical_pci (ci_PassthroughPciAddresses req) = true -> printable_request cfg req ->
  ho_trace h1 = ho_trace h ++ t -> Sent (status id INSTANCE_STATE_RUNNING "" "") ∈ t ->
  DomainPassthroughPCI None id (ho_mgr h1) = (Ok l, (DomainPassthroughPCI None id (ho_mgr h1)).2) ->
  (DestroyDomain None id (DomainPassthroughPCI None id (ho_mgr h1)).2).1 = Ok tt ->
  lv_domains (ho_mgr h2) = lv_domains (ho_mgr h) /\
  exists w, cleaned cfg id w h2 /\
    ho_trace h2 = ho_trace h1 ++ report cfg id INSTANCE_STATE_STOPPING "" :: w ++
      reset_events (ho_sysfs h) (ci_PassthroughPciAddresses req) ++
      [report cfg id INSTANCE_STATE_STOPPED ""; Released].
Proof. exact (destroyed_as_created cfg req h t l). Qed.
End lifecycle.

(** ** Witnesses *)
Section witnesses.
#[local] Existing Instances DemoXML.lib DemoXML.laws DemoVirt.conn DemoVirt.conn_laws DemoSeed.yaml DemoSeed.iso.

Definition demo_cfg : Config :=
  {| cf_ImageDir := "/img"; cf_SeedDir := "/seed"; cf_BaseImage := "/base.qcow2"; cf_NetworkName := "";
     cf_DiskSizeGB := 50 |}.

Definition demo_create : CreateInstanceMsg :=
  {| ci_InstanceId := "5"; ci_Name := "vm"; ci_MemoryMb := 8192; ci_Vcpus := 4; ci_SshPubkeys := ["k"];
     ci_SlotIndices := [0%Z]; ci_ImageRef := ""; ci_PassthroughPciAddresses := ["0000:16:00.0"; "0000:16:00.1"] |}.

Definition demo_host : Host DemoVirt.state :=
  {| ho_mgr := {| DemoVirt.vs_domains := ∅; DemoVirt.vs_down := false |}; ho_files := ∅;
     ho_sysfs := DemoSysfs.two_groups; ho_fates := []; ho_trace := [] |}.

Definition demo_created : Host DemoVirt.state := (handleCreate demo_cfg demo_create demo_host).2.

(** The events so far as states reported and devices reset. *)
Definition summary (h : Host DemoVirt.state) : list (option ProtoState * string) :=
  flat_map (fun e => match e with
                     | Sent st => [(Some (st_State st), st_ErrorMessage st)]
                     | DeviceReset pci => [(None, pci)]
                     | _ => []
                     end) (ho_trace h).

Definition is_running (h : Host DemoVirt.state) (id : string) : bool :=
  match DemoVirt.vs_domains (ho_mgr h) !! id with Some v => lv_Running v | None => false end.

Lemma demo_created_reported : Sent (status "5" INSTANCE_STATE_RUNNING "" "") ∈ ho_trace demo_created.
Proof.
  assert (ho_trace demo_created = [report demo_cfg "5" INSTANCE_STATE_PROVISIONING ""; Released;
    report demo_cfg "5" INSTANCE_STATE_RUNNING ""; PollerStarted]) as -> by (vm_compute; reflexivity).
  right. right. left.
Qed.

Lemma running_reported_iff_running_witness :
  Sent (status "5" INSTANCE_STATE_RUNNING "" "") ∈ ho_trace demo_created /\ running demo_created "5".
Proof.
  split; [exact demo_created_reported|].
  destruct (running_reported_iff_running demo_cfg demo_create demo_host (lookup_empty _)) as (t & Ht & Hr & _).
  apply Hr. change (ho_trace demo_created = t) in Ht. rewrite <- Ht. exact demo_created_reported.
Defined.

Lemma destroy_undoes_create_witness :
  summary (handleDestroy demo_cfg "5" demo_created).2 =
    [(Some INSTANCE_STATE_PROVISIONING, ""); (Some INSTANCE_STATE_RUNNING, "");
     (Some INSTANCE_STATE_STOPPING, ""); (None, "0000:16:00.0"); (None, "0000:16:00.1");
     (Some INSTANCE_STATE_STOPPED, "")] /\
  lv_domains (ho_mgr (handleDestroy demo_cfg "5" demo_created).2) = ∅.
Proof.
  split; [vm_compute; reflexivity|].
  refine (proj1 (destroy_undoes_create demo_cfg demo_create demo_host (ho_trace demo_created)
            ["0000:16:00.0"; "0000:16:00.1"] _ _ _ _ _ _ _)).
  - apply lookup_empty.
  - reflexivity.
  - repeat split; reflexivity.
  - reflexivity.
  - exact demo_created_reported.
  - vm_compute. reflexivity.
  - vm_compute. reflexivity.
Defined.

(** ** Findings *)

(** libvirt does not answer: the destroy of a running VM deletes its disk,
    resets none of its devices and reports STOPPED, and the VM still runs. *)
Theorem outage_reported_as_stopped :
  let down := set_mgr {| DemoVirt.vs_domains := DemoVirt.vs_domains (ho_mgr demo_created); DemoVirt.vs_down := true |}
                demo_created in
  let h := (handleDestroy demo_cfg "5" down).2 in
  is_running h "5" = true /\
  ho_files down !! disk_path demo_cfg "5" = Some mode_0600 /\ ho_files h !! disk_path demo_cfg "5" = None /\
  summary h = summary down ++ [(Some INSTANCE_STATE_STOPPING, ""); (Some INSTANCE_STATE_STOPPED, "")].
Proof. vm_compute. repeat split. Qed.

(** A CreateInstance delivered again while the VM runs: libvirt refuses the
    second definition, and the clean-up of the failed create deletes the
    running VM's disk, resets the GPUs it holds, and reports it FAILED. *)
Theorem redelivered_create_breaks_vm :
  let h := (handleCreate demo_cfg demo_create demo_created).2 in
  is_running h "5" = true /\
  ho_files demo_created !! disk_path demo_cfg "5" = Some mode_0600 /\ ho_files h !! disk_path demo_cfg "5" = None /\
  summary h = summary demo_created ++
    [(Some INSTANCE_STATE_PROVISIONING, ""); (None, "0000:16:00.0"); (None, "0000:16:00.1");
     (Some INSTANCE_STATE_FAILED, "libvirt-create: libvirt: domain already defined: 5")].
Proof. vm_compute. repeat split. Qed.
End witnesses.

Section unread.
Context {M : Type} `{Manager M, YAMLLib, ISO9660}.

(** When the definition cannot be read but the domain can be destroyed, the
    destroy reports STOPPED although no device was reset. *)
Theorem unread_definition_resets_nothing cfg id (h : Host M) e m m' :
  mgr_DomainPassthroughPCI None id (ho_mgr h) = (Err e, m) -> mgr_DestroyDomain None id m = (Ok tt, m') ->
  exists t, ho_trace (handleDestroy cfg id h).2 = ho_trace h ++ t /\
    report cfg id INSTANCE_STATE_STOPPED "" ∈ t /\ forall pci, ~ DeviceReset pci ∈ t.
Proof.
  intros Hp Hd. destruct (handleDestroy_spec cfg id h) as (_ & _ & t & Ht & Ho). exists t. split; [done|].
  destruct Ho as [pcis m1 d w Hp' Hd' Hf [_ Hw]|pcis m1 d e' Hp' Hd' Hf _]; rewrite Hp in Hp'; simplify_eq;
    rewrite Hd in Hd'; simplify_eq/=.
  split.
  - rewrite elem_of_cons, !elem_of_app, !elem_of_cons. tauto.
  - intros pci. rewrite elem_of_cons, !elem_of_app, !elem_of_cons.
    destruct (errors_Is e ErrDomainNotFound); rewrite ?list_elem_of_singleton;
      intros [?|[?|[(? & ? & ?)%Hw|[?|[?|?]]]]]; try done; by eapply not_elem_of_nil.
Qed.
End unread.
