(* ===== verification/MuxRegistry.v ===== *)
(** * Registry of mux sessions (ssh-proxy, internal/muxregistry)

    Which yamux session leads to a node's agent.  Register, Deregister, Close
    and the health watcher of each session interleave at every lock, cancel,
    close and channel operation: a step relation on the map, the entries and
    the program points of the calls in flight. *)

From stdpp Require Import relations.
From S2P Require Import Prelude.

#[local] Open Scope string_scope.
#[local] Open Scope list_scope.

Definition ErrUnknownNode : error := Sentinel "muxregistry: no session for node".

(** Where a Register call is, after its critical section; [p] is the entry it
    replaced. *)
Inductive rstage :=
  | RCancel (p : nat)                       (* prev.cancel() *)
  | RClose (p : nat)                        (* prev.sess.Close() *)
  | RAwait (p : nat)                        (* <-prev.done *)
  | RStart                                  (* go r.watchHealth *)
  | RReturned.

(** Where the health watcher of an entry is. *)
Inductive wstage :=
  | WIdle                                   (* not started *)
  | Watching
  | WDead                                   (* in handleDeath, before the lock *)
  | WRemoved                                (* before e.sess.Close() *)
  | WClosed                                 (* before the report *)
  | WReported                               (* before close(e.done) *)
  | WDone.

Record mentry := {
  en_node : string;
  en_closed : bool;                         (* its session is closed *)
  en_cancelled : bool;
  en_reg : rstage;
  en_watch : wstage
}.

(** Deregister and Close, after their critical section. *)
Inductive kstage := KCancel | KClose | KDone.

Record Registry := {
  mr_sessions : gmap string nat;
  mr_closed : bool;
  mr_entries : list mentry;
  mr_killers : list (nat * kstage);
  mr_refused : list string;                 (* Register after Close: session closed at once *)
  mr_reports : list string                  (* ReportDegraded *)
}.

Definition New : Registry :=
  {| mr_sessions := ∅; mr_closed := false; mr_entries := []; mr_killers := [];
     mr_refused := []; mr_reports := [] |}.

Definition set_reg (r : rstage) (e : mentry) : mentry :=
  {| en_node := en_node e; en_closed := en_closed e; en_cancelled := en_cancelled e; en_reg := r; en_watch := en_watch e |}.
Definition set_watch (w : wstage) (e : mentry) : mentry :=
  {| en_node := en_node e; en_closed := en_closed e; en_cancelled := en_cancelled e; en_reg := en_reg e; en_watch := w |}.
Definition cancel_entry (e : mentry) : mentry :=
  {| en_node := en_node e; en_closed := en_closed e; en_cancelled := true; en_reg := en_reg e; en_watch := en_watch e |}.
Definition close_session (e : mentry) : mentry :=
  {| en_node := en_node e; en_closed := true; en_cancelled := en_cancelled e; en_reg := en_reg e; en_watch := en_watch e |}.

Definition upd (f : mentry -> mentry) (i : nat) (c : Registry) : Registry :=
  {| mr_sessions := mr_sessions c; mr_closed := mr_closed c; mr_entries := alter f i (mr_entries c);
     mr_killers := mr_killers c; mr_refused := mr_refused c; mr_reports := mr_reports c |}.

Definition set_killers (k : list (nat * kstage)) (c : Registry) : Registry :=
  {| mr_sessions := mr_sessions c; mr_closed := mr_closed c; mr_entries := mr_entries c;
     mr_killers := k; mr_refused := mr_refused c; mr_reports := mr_reports c |}.

(** The critical section of [Register]. *)
Definition Register (node : string) (c : Registry) : Registry :=
  if mr_closed c then
    {| mr_sessions := mr_sessions c; mr_closed := true; mr_entries := mr_entries c;
       mr_killers := mr_killers c; mr_refused := node :: mr_refused c; mr_reports := mr_reports c |}
  else
    {| mr_sessions := <[node := length (mr_entries c)]> (mr_sessions c);
       mr_closed := false;
       mr_entries := mr_entries c ++
         [{| en_node := node; en_closed := false; en_cancelled := false;
             en_reg := match mr_sessions c !! node with Some p => RCancel p | None => RStart end;
             en_watch := WIdle |}];
       mr_killers := mr_killers c; mr_refused := mr_refused c; mr_reports := mr_reports c |}.

(** The critical section of [Deregister]. *)
Definition Deregister (node : string) (c : Registry) : Registry :=
  match mr_sessions c !! node with
  | None => c
  | Some e => {| mr_sessions := delete node (mr_sessions c); mr_closed := mr_closed c; mr_entries := mr_entries c;
                 mr_killers := mr_killers c ++ [(e, KCancel)]; mr_refused := mr_refused c; mr_reports := mr_reports c |}
  end.

(** The critical section of [Close]. *)
Definition Close (c : Registry) : Registry :=
  {| mr_sessions := ∅; mr_closed := true; mr_entries := mr_entries c;
     mr_killers := mr_killers c ++ map (fun e => (e, KCancel)) (map_to_list (mr_sessions c)).*2;
     mr_refused := mr_refused c; mr_reports := mr_reports c |}.

(** The critical section of [handleDeath]. *)
Definition remove_if_current (i : nat) (e : mentry) (c : Registry) : Registry :=
  {| mr_sessions := if bool_decide (mr_sessions c !! en_node e = Some i)
                    then delete (en_node e) (mr_sessions c) else mr_sessions c;
     mr_closed := mr_closed c; mr_entries := alter (set_watch WRemoved) i (mr_entries c);
     mr_killers := mr_killers c; mr_refused := mr_refused c; mr_reports := mr_reports c |}.

Definition report (i : nat) (node : string) (c : Registry) : Registry :=
  {| mr_sessions := mr_sessions c; mr_closed := mr_closed c;
     mr_entries := alter (set_watch WReported) i (mr_entries c);
     mr_killers := mr_killers c; mr_refused := mr_refused c; mr_reports := node :: mr_reports c |}.

(** Steps of the calls in flight. *)
Inductive mstep (c : Registry) : Registry -> Prop :=
  | m_cancel i e p : mr_entries c !! i = Some e -> en_reg e = RCancel p ->
      mstep c (upd (set_reg (RClose p)) i (upd cancel_entry p c))
  | m_close i e p : mr_entries c !! i = Some e -> en_reg e = RClose p ->
      mstep c (upd (set_reg (RAwait p)) i (upd close_session p c))
  | m_await i e p q : mr_entries c !! i = Some e -> en_reg e = RAwait p ->
      mr_entries c !! p = Some q -> en_watch q = WDone -> mstep c (upd (set_reg RStart) i c)
  | m_start i e : mr_entries c !! i = Some e -> en_reg e = RStart ->
      mstep c (upd (fun e => set_reg RReturned (set_watch Watching e)) i c)
  | m_stop i e : mr_entries c !! i = Some e -> en_watch e = Watching -> en_cancelled e = true ->
      mstep c (upd (set_watch WDone) i c)
  | m_tick_closed i e : mr_entries c !! i = Some e -> en_watch e = Watching -> en_closed e = true ->
      mstep c (upd (set_watch WDead) i c)
  | m_remove i e : mr_entries c !! i = Some e -> en_watch e = WDead -> mstep c (remove_if_current i e c)
  | m_death_close i e : mr_entries c !! i = Some e -> en_watch e = WRemoved ->
      mstep c (upd (fun e => set_watch WClosed (close_session e)) i c)
  | m_report i e : mr_entries c !! i = Some e -> en_watch e = WClosed -> mstep c (report i (en_node e) c)
  | m_done i e : mr_entries c !! i = Some e -> en_watch e = WReported -> mstep c (upd (set_watch WDone) i c)
  | m_kill_cancel k e : mr_killers c !! k = Some (e, KCancel) ->
      mstep c (set_killers (<[k := (e, KClose)]> (mr_killers c)) (upd cancel_entry e c))
  | m_kill_close k e : mr_killers c !! k = Some (e, KClose) ->
      mstep c (set_killers (<[k := (e, KDone)]> (mr_killers c)) (upd close_session e c)).

(** What comes from outside: calls, a session that ends, a ping that fails or
    times out. *)
Inductive step (c : Registry) : Registry -> Prop :=
  | e_register node : step c (Register node c)
  | e_deregister node : step c (Deregister node c)
  | e_close : step c (Close c)
  | e_session_ends i e : mr_entries c !! i = Some e -> step c (upd close_session i c)
  | e_ping_fails i e : mr_entries c !! i = Some e -> en_watch e = Watching ->
      step c (upd (set_watch WDead) i c)
  | e_internal c' : mstep c c' -> step c c'.

(** [OpenStream]: the entry whose session is asked for a stream. *)
Definition OpenStream (node : string) (c : Registry) : result nat :=
  match mr_sessions c !! node with
  | None => Err ErrUnknownNode
  | Some i => match mr_entries c !! i with
              | Some e => if en_closed e then Err (ErrWrap "" ErrUnknownNode ": session is closed") else Ok i
              | None => Err ErrUnknownNode
              end
  end.

(** ** The invariant *)

(** Some call in flight will cancel and close entry [p]. *)
Definition doomed_by_call (c : Registry) (p : nat) : Prop :=
  (exists i e, mr_entries c !! i = Some e /\ (en_reg e = RCancel p)) \/
  (exists k, mr_killers c !! k = Some (p, KCancel)).
Definition closing_by_call (c : Registry) (p : nat) : Prop :=
  (exists i e, mr_entries c !! i = Some e /\ (en_reg e = RCancel p \/ en_reg e = RClose p)) \/
  (exists k st, mr_killers c !! k = Some (p, st) /\ st <> KDone).

Definition past_death (w : wstage) : bool :=
  match w with WRemoved | WClosed | WReported | WDone => true | _ => false end.

Record registry_ok (c : Registry) : Prop := {
  (* the map points to the latest entry of the node, whose watcher has not
     left and whom nobody has cancelled *)
  ro_map node i : mr_sessions c !! node = Some i -> exists e, mr_entries c !! i = Some e /\
    en_node e = node /\ en_cancelled e = false /\ past_death (en_watch e) = false;
  ro_latest i j e e' : mr_sessions c !! en_node e = Some i -> mr_entries c !! i = Some e ->
    mr_entries c !! j = Some e' -> en_node e' = en_node e -> j <= i;
  (* an entry that is not in the map is on its way out *)
  ro_out i e : mr_entries c !! i = Some e -> mr_sessions c !! en_node e <> Some i ->
    en_cancelled e = true \/ doomed_by_call c i \/ past_death (en_watch e) = true;
  ro_closing i e : mr_entries c !! i = Some e -> mr_sessions c !! en_node e <> Some i ->
    en_closed e = true \/ closing_by_call c i \/ en_watch e = WRemoved;
  (* a call waits for an older entry, and its own watcher has not started *)
  ro_reg i e p : mr_entries c !! i = Some e -> en_reg e = RCancel p \/ en_reg e = RClose p \/ en_reg e = RAwait p ->
    p < i /\ exists q, mr_entries c !! p = Some q /\ mr_sessions c !! en_node q <> Some p;
  ro_idle i e : mr_entries c !! i = Some e -> (en_watch e = WIdle <-> en_reg e <> RReturned);
  ro_killers k p st : mr_killers c !! k = Some (p, st) ->
    exists q, mr_entries c !! p = Some q /\ mr_sessions c !! en_node q <> Some p
}.

Lemma New_ok : registry_ok New.
Proof. constructor; simpl; intros *; rewrite ?lookup_empty, ?lookup_nil; done. Qed.

Definition points_to (e : mentry) (p : nat) : Prop := en_reg e = RCancel p \/ en_reg e = RClose p \/ en_reg e = RAwait p.

(** What every step does to an entry: nothing is undone. *)
Record grows (e e' : mentry) : Prop := {
  gr_node : en_node e' = en_node e;
  gr_cancelled : en_cancelled e = true -> en_cancelled e' = true;
  gr_closed : en_closed e = true -> en_closed e' = true;
  gr_death : past_death (en_watch e) = true -> past_death (en_watch e') = true;
  gr_removed : en_watch e = WRemoved -> en_watch e' = WRemoved \/ en_closed e' = true;
  gr_points p : points_to e' p -> points_to e p;
  gr_idle : (en_watch e = WIdle <-> en_reg e <> RReturned) -> (en_watch e' = WIdle <-> en_reg e' <> RReturned)
}.

Lemma grows_refl e : grows e e.
Proof. constructor; auto. Qed.

Lemma grows_trans e1 e2 e3 : grows e1 e2 -> grows e2 e3 -> grows e1 e3.
Proof.
  intros [A1 A2 A3 A4 A5 A6 A7] [B1 B2 B3 B4 B5 B6 B7].
  constructor; auto; [congruence|]. intros [?|?]%A5; [auto|right; auto].
Qed.

(** Steps that leave the map alone. *)
Record frame (c c' : Registry) : Prop := {
  fr_map : mr_sessions c' = mr_sessions c;
  fr_new i e' : mr_entries c' !! i = Some e' -> exists e, mr_entries c !! i = Some e /\ grows e e';
  fr_old i e : mr_entries c !! i = Some e -> exists e', mr_entries c' !! i = Some e' /\ grows e e';
  fr_alive i e' : mr_entries c' !! i = Some e' -> mr_sessions c !! en_node e' = Some i ->
    en_cancelled e' = false /\ past_death (en_watch e') = false;
  fr_doom p : doomed_by_call c p -> doomed_by_call c' p \/ exists e', mr_entries c' !! p = Some e' /\ en_cancelled e' = true;
  fr_closing p : closing_by_call c p -> closing_by_call c' p \/ exists e', mr_entries c' !! p = Some e' /\ en_closed e' = true;
  fr_kill k p st : mr_killers c' !! k = Some (p, st) -> exists st0, mr_killers c !! k = Some (p, st0)
}.

Lemma ok_frame c c' : registry_ok c -> frame c c' -> registry_ok c'.
Proof.
  intros [O1 O2 O3 O4 O5 O6 O7] [F1 F2 F3 F4 F5 F6 F7]. constructor; rewrite ?F1 in *.
  - intros node i Hi. destruct (O1 node i Hi) as (e & He & Hn & _). destruct (F3 i e He) as (e' & He' & Hg).
    exists e'. destruct Hg as [Hgn _ _ _ _ _ _]. split; [done|]. rewrite Hgn. split; [done|].
    apply (F4 i e' He'). by rewrite Hgn, Hn.
  - intros i j e' x' Hm Hi Hj Hn. destruct (F2 i e' Hi) as (e & He & [Gn _ _ _ _ _ _]).
    destruct (F2 j x' Hj) as (x & Hx & [Gn' _ _ _ _ _ _]). rewrite Gn, Gn' in *. by apply (O2 i j e x).
  - intros i e' Hi Hm. destruct (F2 i e' Hi) as (e & He & [Gn Gc _ Gd _ _ _]). rewrite Gn in Hm.
    destruct (O3 i e He Hm) as [?|[Hd|?]]; [auto| |auto].
    destruct (F5 i Hd) as [?|(x & Hx & ?)]; [auto|]. simplify_eq. auto.
  - intros i e' Hi Hm. destruct (F2 i e' Hi) as (e & He & [Gn _ Gc _ Gr _ _]). rewrite Gn in Hm.
    destruct (O4 i e He Hm) as [?|[Hd|Hr]]; [auto| |].
    + destruct (F6 i Hd) as [?|(x & Hx & ?)]; [auto|]. simplify_eq. auto.
    + destruct (Gr Hr) as [?|?]; auto.
  - intros i e' p Hi Hp. destruct (F2 i e' Hi) as (e & He & [_ _ _ _ _ Gp _]).
    destruct (O5 i e p He (Gp p Hp)) as (Hlt & q & Hq & Hm). split; [done|].
    destruct (F3 p q Hq) as (q' & Hq' & [Gn _ _ _ _ _ _]). exists q'. by rewrite Gn.
  - intros i e' Hi. destruct (F2 i e' Hi) as (e & He & [_ _ _ _ _ _ Gi]). apply Gi, (O6 i e He).
  - intros k p st Hk. destruct (F7 k p st Hk) as (st0 & Hk0). destruct (O7 k p st0 Hk0) as (q & Hq & Hm).
    destruct (F3 p q Hq) as (q' & Hq' & [Gn _ _ _ _ _ _]). exists q'. by rewrite Gn.
Qed.

Lemma alter_lookup_Some (f : mentry -> mentry) i (l : list mentry) k x :
  alter f i l !! k = Some x -> exists y, l !! k = Some y /\ x = (if decide (k = i) then f y else y).
Proof.
  destruct (decide (k = i)) as [->|Hne].
  - rewrite list_lookup_alter_eq. intros (y & Hy & ->)%fmap_Some. eauto.
  - rewrite list_lookup_alter_ne by done. eauto.
Qed.

Lemma lookup_alter_at (f : mentry -> mentry) i (l : list mentry) k y :
  l !! k = Some y -> alter f i l !! k = Some (if decide (k = i) then f y else y).
Proof.
  intros Hk. destruct (decide (k = i)) as [->|Hne]; [by rewrite list_lookup_alter_eq, Hk|by rewrite list_lookup_alter_ne].
Qed.

(** One entry changes, nothing else. *)
Lemma frame_upd f i e c :
  registry_ok c -> mr_entries c !! i = Some e -> grows e (f e) ->
  (mr_sessions c !! en_node e = Some i -> en_cancelled (f e) = false /\ past_death (en_watch (f e)) = false) ->
  (forall p, en_reg e = RCancel p -> en_reg (f e) = RCancel p) ->
  (forall p, en_reg e = RClose p -> en_reg (f e) = RClose p) ->
  frame c (upd f i c).
Proof.
  intros Hok Hi Hg Hin Hc Hcl. constructor; simpl; try done.
  - intros k x (y & Hy & ->)%alter_lookup_Some. exists y. split; [done|].
    case_decide; [subst; by simplify_eq|apply grows_refl].
  - intros k y Hy. eexists. split; [by apply lookup_alter_at|]. case_decide; [subst; by simplify_eq|apply grows_refl].
  - intros k x (y & Hy & ->)%alter_lookup_Some. case_decide; [subst|].
    + simplify_eq. rewrite (gr_node _ _ Hg). done.
    + intros Hm. destruct (ro_map c Hok _ _ Hm) as (z & Hz & _ & ?). by simplify_eq.
  - intros p [(k & x & Hk & Hx)|Hk]; left; [left|by right].
    exists k. eexists. split; [by apply lookup_alter_at|]. case_decide; [subst; simplify_eq; auto|done].
  - intros p [(k & x & Hk & Hx)|Hk]; left; [left|by right].
    exists k. eexists. split; [by apply lookup_alter_at|]. case_decide; [subst; simplify_eq|done].
    destruct Hx as [Hx|Hx]; [left|right]; auto.
  - eauto.
Qed.

(** A call has cancelled, or closed, the entry it is after. *)
Lemma frame_mark mark f i p c e q :
  mark = cancel_entry \/ mark = close_session ->
  registry_ok c -> mr_entries c !! i = Some e -> mr_entries c !! p = Some q -> i <> p ->
  mr_sessions c !! en_node q <> Some p ->
  grows e (f e) -> en_cancelled (f e) = en_cancelled e -> past_death (en_watch (f e)) = past_death (en_watch e) ->
  (forall p', en_reg e = RCancel p' -> en_reg (f e) = RCancel p' \/
     (mark = cancel_entry /\ p' = p /\ en_reg (f e) = RClose p)) ->
  (forall p', en_reg e = RClose p' -> en_reg (f e) = RClose p' \/ (mark = close_session /\ p' = p)) ->
  frame c (upd f i (upd mark p c)).
Proof.
  intros Hmark Hok Hi Hp Hne Hout Hg Hfc Hfd Hc Hcl.
  assert (forall y, grows y (mark y) /\ en_reg (mark y) = en_reg y) as Hmg by (intros y; destruct Hmark as [->| ->]; (split; [constructor; auto|done])).
  assert (forall k y, mr_entries c !! k = Some y ->
    alter f i (alter mark p (mr_entries c)) !! k =
    Some (if decide (k = i) then f (if decide (k = p) then mark y else y) else if decide (k = p) then mark y else y)) as Hup.
  { intros k y Hk. apply (lookup_alter_at f i). by apply lookup_alter_at. }
  assert (alter f i (alter mark p (mr_entries c)) !! i = Some (f e)) as Hnewi.
  { rewrite (Hup i e Hi), decide_True by done. by rewrite decide_False. }
  assert (alter f i (alter mark p (mr_entries c)) !! p = Some (mark q)) as Hnewp.
  { rewrite (Hup p q Hp), decide_False by done. by rewrite decide_True. }
  assert (forall k y, k <> i -> k <> p -> mr_entries c !! k = Some y ->
    alter f i (alter mark p (mr_entries c)) !! k = Some y) as Hrest.
  { intros k y H1 H2 Hk. rewrite (Hup k y Hk). by rewrite !decide_False. }
  constructor; simpl; try done.
  - intros k x Hk. assert (is_Some (mr_entries c !! k)) as [y Hy].
    { apply lookup_lt_is_Some. apply lookup_lt_Some in Hk. by rewrite !length_alter in Hk. }
    exists y. split; [done|]. destruct (decide (k = i)) as [->|?]; [simplify_eq; congruence|].
    destruct (decide (k = p)) as [->|?]; [|rewrite (Hrest k y) in Hk by done; simplify_eq; apply grows_refl].
    rewrite Hnewp in Hk. simplify_eq. apply Hmg.
  - intros k y Hy. destruct (decide (k = i)) as [->|?]; [simplify_eq; eauto|].
    destruct (decide (k = p)) as [->|?]; [simplify_eq; eexists; split; [done|apply Hmg]|].
    exists y. split; [by apply Hrest|apply grows_refl].
  - intros k x Hk Hm. destruct (decide (k = i)) as [->|?].
    { rewrite Hnewi in Hk. injection Hk as <-. rewrite (gr_node _ _ Hg) in Hm.
      destruct (ro_map c Hok _ _ Hm) as (z & Hz & _ & Hz1 & Hz2). simplify_eq. rewrite Hfc, Hfd. done. }
    destruct (decide (k = p)) as [->|?].
    { rewrite Hnewp in Hk. injection Hk as <-. exfalso. apply Hout. by destruct Hmark as [->| ->]. }
    destruct (ro_map c Hok _ _ Hm) as (z & Hz & _ & ?). rewrite (Hrest k z) in Hk by done. by simplify_eq.
  - intros p' [(k & x & Hk & Hx)|Hk]; [|left; by right]. destruct (decide (k = i)) as [->|?].
    { simplify_eq. destruct (Hc p' Hx) as [?|(-> & -> & ?)]; [left; left; eauto|right; eauto]. }
    left. left. exists k. eexists. split; [by apply Hup|]. rewrite decide_False by done.
    case_decide; [|done]. by rewrite (proj2 (Hmg x)).
  - intros p' [(k & x & Hk & Hx)|Hk]; [|left; by right]. destruct (decide (k = i)) as [->|?].
    { simplify_eq. destruct Hx as [Hx|Hx].
      - destruct (Hc p' Hx) as [?|(-> & -> & ?)]; left; left; eauto.
      - destruct (Hcl p' Hx) as [?|(-> & ->)]; [left; left; eauto|right; eauto]. }
    left. left. exists k. eexists. split; [by apply Hup|]. rewrite decide_False by done.
    case_decide; [|done]. by rewrite (proj2 (Hmg x)).
  - eauto.
Qed.

(** The two steps of a Deregister or Close on entry [p]. *)
Lemma frame_kill mark k p st st' c q :
  (mark = cancel_entry /\ st = KCancel /\ st' = KClose) \/ (mark = close_session /\ st = KClose /\ st' = KDone) ->
  registry_ok c -> mr_killers c !! k = Some (p, st) -> mr_entries c !! p = Some q ->
  mr_sessions c !! en_node q <> Some p ->
  frame c (set_killers (<[k := (p, st')]> (mr_killers c)) (upd mark p c)).
Proof.
  intros Hmark Hok Hk Hp Hout.
  assert (forall y, grows y (mark y) /\ en_reg (mark y) = en_reg y /\ en_node (mark y) = en_node y) as Hmg
    by (intros y; destruct Hmark as [(-> & _)|(-> & _)]; (split; [constructor; auto|done])).
  assert (forall j y, mr_entries c !! j = Some y -> alter mark p (mr_entries c) !! j = Some (if decide (j = p) then mark y else y))
    as Hup by (intros j y; apply lookup_alter_at).
  assert (forall j x, <[k := (p, st')]> (mr_killers c) !! j = Some x -> (j = k /\ x = (p, st')) \/ mr_killers c !! j = Some x) as Hkill.
  { intros j x. destruct (decide (j = k)) as [->|Hne].
    - rewrite list_lookup_insert_eq by (by eapply lookup_lt_Some). intros [= <-]. by left.
    - rewrite list_lookup_insert_ne by done. by right. }
  assert (forall j x, mr_killers c !! j = Some x -> j <> k -> <[k := (p, st')]> (mr_killers c) !! j = Some x) as Hkeep
    by (intros j x Hj Hne; by rewrite list_lookup_insert_ne).
  constructor; simpl; try done.
  - intros j x (y & Hy & ->)%alter_lookup_Some. exists y. split; [done|]. case_decide; [apply Hmg|apply grows_refl].
  - intros j y Hy. eexists. split; [by apply Hup|]. case_decide; [apply Hmg|apply grows_refl].
  - intros j x (y & Hy & ->)%alter_lookup_Some Hm. case_decide; [subst|].
    + exfalso. simplify_eq. apply Hout. by rewrite (proj2 (proj2 (Hmg q))) in Hm.
    + destruct (ro_map c Hok _ _ Hm) as (z & Hz & _ & ?). by simplify_eq.
  - intros p' [(j & x & Hj & Hx)|[j Hj]].
    { left. left. exists j. eexists. split; [by apply Hup|]. case_decide; [|done]. by rewrite (proj1 (proj2 (Hmg x))). }
    destruct (decide (j = k)) as [->|Hne]; [|left; right; exists j; by apply Hkeep].
    simplify_eq. right. eexists. split; [by apply Hup|]. rewrite decide_True by done.
    by destruct Hmark as [(-> & _)|(_ & ? & _)].
  - intros p' [(j & x & Hj & Hx)|(j & st1 & Hj & Hst)].
    { left. left. exists j. eexists. split; [by apply Hup|]. case_decide; [|done]. by rewrite (proj1 (proj2 (Hmg x))). }
    destruct (decide (j = k)) as [->|Hne]; [|left; right; exists j, st1; split; [by apply Hkeep|done]].
    simplify_eq. destruct Hmark as [(_ & _ & ->)|(-> & _ & ->)].
    + left. right. exists k, KClose. simpl. rewrite list_lookup_insert_eq by (by eapply lookup_lt_Some). done.
    + right. eexists. split; [by apply Hup|]. by rewrite decide_True.
  - intros j p' st1 [(-> & [= -> ->])|Hj]%Hkill; eauto.
Qed.

(** Steps on the stage of the watcher of [i] alone. *)
Lemma frame_watch w i e c (mark : mentry -> mentry) :
  registry_ok c -> mr_entries c !! i = Some e -> mark = id \/ mark = close_session ->
  en_watch e <> WIdle -> w <> WIdle ->
  (past_death (en_watch e) = true -> past_death w = true) ->
  (en_watch e = WRemoved -> w = WRemoved \/ en_closed (mark e) = true) ->
  (mr_sessions c !! en_node e = Some i -> past_death w = false) ->
  frame c (upd (fun x => set_watch w (mark x)) i c).
Proof.
  intros Hok Hi Hmark W1 W2 W3 W4 W5. apply (frame_upd _ i e); try done.
  - destruct Hmark as [->| ->]; constructor; simpl in *; tauto.
  - intros Hm. destruct (ro_map c Hok _ _ Hm) as (z & Hz & _ & ? & _). simplify_eq.
    split; [by destruct Hmark as [->| ->]|by apply W5].
  - by destruct Hmark as [->| ->].
  - by destruct Hmark as [->| ->].
Qed.

Lemma reg_older c i e p : registry_ok c -> mr_entries c !! i = Some e -> points_to e p ->
  i <> p /\ exists q, mr_entries c !! p = Some q /\ mr_sessions c !! en_node q <> Some p.
Proof. intros Hok Hi Hp. destruct (ro_reg c Hok i e p Hi Hp) as [? ?]. split; [lia|done]. Qed.

(** Moving on to the next stage of a Register call. *)
Lemma grows_reg e r : en_reg e <> RReturned -> r <> RReturned -> (forall p, points_to (set_reg r e) p -> points_to e p) -> grows e (set_reg r e).
Proof. intros H1 H2 H3. constructor; simpl; auto. tauto. Qed.

Lemma remove_frame i e c :
  registry_ok c -> mr_entries c !! i = Some e -> en_watch e = WDead -> registry_ok (remove_if_current i e c).
Proof.
  intros Hok Hi Hw. set (c1 := {| mr_sessions := if bool_decide (mr_sessions c !! en_node e = Some i)
      then delete (en_node e) (mr_sessions c) else mr_sessions c;
      mr_closed := mr_closed c; mr_entries := mr_entries c; mr_killers := mr_killers c;
      mr_refused := mr_refused c; mr_reports := mr_reports c |}).
  assert (forall node j, mr_sessions c1 !! node = Some j -> mr_sessions c !! node = Some j /\ j <> i) as Hsub.
  { intros node j. simpl. case_bool_decide as Hcur.
    - rewrite lookup_delete. case_decide; [done|]. intros Hj. split; [done|]. intros ->.
      destruct (ro_map c Hok _ _ Hj) as (x & Hx & Hn & _). simplify_eq.
    - intros Hj. split; [done|]. intros ->. destruct (ro_map c Hok _ _ Hj) as (x & Hx & Hn & _). simplify_eq. }
  assert (forall j x, mr_entries c !! j = Some x -> j <> i -> mr_sessions c !! en_node x = Some j -> mr_sessions c1 !! en_node x = Some j) as Hsup.
  { intros j x Hj Hne Hm. simpl. case_bool_decide as Hcur; [|done]. rewrite lookup_delete_ne; [done|].
    intros Heq. rewrite Heq in Hcur. congruence. }
  destruct Hok as [O1 O2 O3 O4 O5 O6 O7].
  assert (forall j x, alter (set_watch WRemoved) i (mr_entries c) !! j = Some x ->
    exists y, mr_entries c !! j = Some y /\ x = if decide (j = i) then set_watch WRemoved y else y) as Hl
    by (intros j x; apply alter_lookup_Some).
  assert (forall j y, mr_entries c !! j = Some y ->
    alter (set_watch WRemoved) i (mr_entries c) !! j = Some (if decide (j = i) then set_watch WRemoved y else y)) as Hr
    by (intros j y; apply lookup_alter_at).
  assert (forall j (y : mentry) , en_node (if decide (j = i) then set_watch WRemoved y else y) = en_node y) as Hnode
    by (intros; by case_decide).
  assert (forall p, doomed_by_call c p -> doomed_by_call (remove_if_current i e c) p) as Hd.
  { intros p [(j & x & Hj & Hx)|?]; [left|by right]. exists j. eexists. split; [by apply Hr|]. case_decide; exact Hx. }
  assert (forall p, closing_by_call c p -> closing_by_call (remove_if_current i e c) p) as Hcl.
  { intros p [(j & x & Hj & Hx)|?]; [left|by right]. exists j. eexists. split; [by apply Hr|]. case_decide; exact Hx. }
  constructor; simpl.
  - intros node j [Hj Hne]%Hsub. destruct (O1 node j Hj) as (x & Hx & ?). exists x.
    split; [|done]. rewrite (Hr j x Hx). by rewrite decide_False.
  - intros j k x y [Hm Hne]%Hsub (x0 & Hx0 & ->)%Hl (y0 & Hy0 & ->)%Hl. rewrite !Hnode in *. by apply (O2 j k x0 y0).
  - intros j x (x0 & Hx0 & ->)%Hl Hm. rewrite Hnode in Hm. destruct (decide (j = i)) as [Hji|Hji]; [by (right; right)|].
    destruct (O3 j x0 Hx0) as [?|[?|?]]; [|auto|right; left; by apply Hd|auto]. intros Hm'. by apply Hm, Hsup.
  - intros j x (x0 & Hx0 & ->)%Hl Hm. rewrite Hnode in Hm. destruct (decide (j = i)) as [Hji|Hji]; [by (right; right)|].
    destruct (O4 j x0 Hx0) as [?|[?|?]]; [|auto|right; left; by apply Hcl|auto]. intros Hm'. by apply Hm, Hsup.
  - intros j x p (x0 & Hx0 & ->)%Hl Hp. assert (points_to x0 p) as Hp' by by case_decide.
    destruct (O5 j x0 p Hx0 Hp') as (Hlt & q & Hq & Hm). split; [done|]. eexists. split; [by apply Hr|].
    rewrite Hnode. by intros [? _]%Hsub.
  - intros j x (x0 & Hx0 & ->)%Hl. destruct (decide (j = i)) as [Hji|Hji]; [|by apply (O6 j)]. subst j. assert (x0 = e) as -> by congruence. simpl.
    pose proof (O6 i e Hi) as H6. rewrite Hw in H6. split; [done|]. intros Hn. by apply H6 in Hn.
  - intros k p st Hk. destruct (O7 k p st Hk) as (q & Hq & Hm). eexists. split; [by apply Hr|].
    rewrite Hnode. by intros [? _]%Hsub.
Qed.

Lemma mstep_ok c c' : registry_ok c -> mstep c c' -> registry_ok c'.
Proof.
  intros Hok Hs. destruct Hs as
    [i e p Hi Hr|i e p Hi Hr|i e p q Hi Hr Hp Hq|i e Hi Hr|i e Hi Hw Hc|i e Hi Hw Hc|i e Hi Hw|i e Hi Hw|i e Hi Hw
    |i e Hi Hw|k p Hk|k p Hk].
  - destruct (reg_older c i e p Hok Hi) as (Hne & q & Hp & Hm); [by left|].
    apply (ok_frame c); [done|]. apply (frame_mark cancel_entry _ i p c e q); auto; simpl.
    + apply grows_reg; [congruence|done|]. intros p' [|[|]]; simplify_eq/=. by left.
    + intros p' Hp'. right. rewrite Hr in Hp'. by simplify_eq.
    + intros p' Hp'. congruence.
  - destruct (reg_older c i e p Hok Hi) as (Hne & q & Hp & Hm); [by right; left|].
    apply (ok_frame c); [done|]. apply (frame_mark close_session _ i p c e q); auto; simpl.
    + apply grows_reg; [congruence|done|]. intros p' [|[|]]; simplify_eq/=. by right; left.
    + intros p' Hp'. congruence.
    + intros p' Hp'. right. rewrite Hr in Hp'. by simplify_eq.
  - apply (ok_frame c); [done|]. apply (frame_upd _ i e); try done; try congruence.
    + apply grows_reg; [congruence|done|]. by intros p' [|[|]].
    + intros Hm. destruct (ro_map c Hok _ _ Hm) as (z & Hz & _ & ?). by simplify_eq.
  - assert (en_watch e = WIdle) as Hw by (apply (ro_idle c Hok i e Hi); congruence).
    apply (ok_frame c); [done|]. apply (frame_upd _ i e); try done; try congruence.
    + constructor; simpl; rewrite ?Hw; auto; try done. by intros p' [|[|]].
    + intros Hm. destruct (ro_map c Hok _ _ Hm) as (z & Hz & _ & ? & _). by simplify_eq.
  - apply (ok_frame c); [done|]. apply (frame_watch WDone i e c id); rewrite ?Hw; auto; try done.
    intros Hm. destruct (ro_map c Hok _ _ Hm) as (z & Hz & _ & ? & _). simplify_eq. congruence.
  - apply (ok_frame c); [done|]. by apply (frame_watch WDead i e c id); rewrite ?Hw; auto.
  - by apply remove_frame.
  - apply (ok_frame c); [done|]. apply (frame_watch WClosed i e c close_session); rewrite ?Hw; auto; try done.
    intros Hm. destruct (ro_map c Hok _ _ Hm) as (z & Hz & _ & _ & Hd). simplify_eq. by rewrite Hw in Hd.
  - apply (ok_frame c); [done|].
    enough (frame c (upd (set_watch WReported) i c)) as [F1 F2 F3 F4 F5 F6 F7] by by constructor.
    apply (frame_watch WReported i e c id); rewrite ?Hw; auto; try done.
    intros Hm. destruct (ro_map c Hok _ _ Hm) as (z & Hz & _ & _ & Hd). simplify_eq. by rewrite Hw in Hd.
  - apply (ok_frame c); [done|]. apply (frame_watch WDone i e c id); rewrite ?Hw; auto; try done.
    intros Hm. destruct (ro_map c Hok _ _ Hm) as (z & Hz & _ & _ & Hd). simplify_eq. by rewrite Hw in Hd.
  - destruct (ro_killers c Hok k p _ Hk) as (q & Hq & Hm).
    apply (ok_frame c); [done|]. by eapply (frame_kill cancel_entry k p KCancel KClose c q); auto.
  - destruct (ro_killers c Hok k p _ Hk) as (q & Hq & Hm).
    apply (ok_frame c); [done|]. by eapply (frame_kill close_session k p KClose KDone c q); auto.
Qed.

Lemma Register_ok node c : registry_ok c -> registry_ok (Register node c).
Proof.
  intros [O1 O2 O3 O4 O5 O6 O7]. unfold Register. destruct (mr_closed c); [by constructor|].
  set (n := length (mr_entries c)).
  set (e0 := {| en_node := node; en_closed := false; en_cancelled := false;
                en_reg := match mr_sessions c !! node with Some p => RCancel p | None => RStart end; en_watch := WIdle |}).
  assert (forall j x, (mr_entries c ++ [e0]) !! j = Some x -> mr_entries c !! j = Some x /\ j <> n \/ j = n /\ x = e0) as Hin.
  { intros j x [Hj|[Hl Hj]]%lookup_app_Some.
    - left. split; [done|]. apply lookup_lt_Some in Hj. unfold n. lia.
    - right. apply list_lookup_singleton_Some in Hj as [Hj <-]. split; [unfold n; lia|done]. }
  assert ((mr_entries c ++ [e0]) !! n = Some e0) as Hnew by by apply list_lookup_middle.
  assert (forall j x, mr_entries c !! j = Some x -> (mr_entries c ++ [e0]) !! j = Some x) as Hup
    by (intros; by apply lookup_app_l_Some).
  assert (forall node' j, mr_sessions c !! node' = Some j -> j <> n) as Hlt.
  { intros node' j Hj. destruct (O1 node' j Hj) as (x & Hx & _). apply lookup_lt_Some in Hx. unfold n. lia. }
  (* an entry that is out now was out before, or was just replaced *)
  assert (forall j x, mr_entries c !! j = Some x -> <[node := n]> (mr_sessions c) !! en_node x <> Some j ->
    mr_sessions c !! en_node x <> Some j \/ (en_node x = node /\ mr_sessions c !! node = Some j)) as Hout.
  { intros j x Hj Hm. destruct (decide (mr_sessions c !! en_node x = Some j)) as [Hs|]; [|by left]. right.
    destruct (decide (en_node x = node)) as [Hn|Hn]; [by rewrite <- Hn|]. by rewrite lookup_insert_ne in Hm. }
  constructor; simpl.
  - intros node' j Hj. rewrite lookup_insert in Hj. case_decide; simplify_eq; [by exists e0|].
    destruct (O1 node' j Hj) as (x & Hx & ?). exists x. auto.
  - intros i j x y Hm [[Hi Hni]|[-> ->]]%Hin [[Hj Hnj]|[-> ->]]%Hin Hn; try done.
    + rewrite lookup_insert in Hm. case_decide; simplify_eq. by apply (O2 i j x y).
    + simpl in Hn. rewrite Hn, lookup_insert in Hm. by case_decide; simplify_eq.
    + apply lookup_lt_Some in Hj. unfold n. lia.
  - intros j x [[Hj Hnj]|[-> ->]]%Hin Hm; [|simpl in Hm; by rewrite lookup_insert_eq in Hm].
    destruct (Hout j x Hj Hm) as [Ho|[Hn Hs]].
    + destruct (O3 j x Hj Ho) as [?|[[(k & z & Hk & Hz)|?]|?]]; auto; right; left; [left|by right].
      exists k, z. auto.
    + right. left. left. exists n, e0. split; [done|]. simpl. by rewrite Hs.
  - intros j x [[Hj Hnj]|[-> ->]]%Hin Hm; [|simpl in Hm; by rewrite lookup_insert_eq in Hm].
    destruct (Hout j x Hj Hm) as [Ho|[Hn Hs]].
    + destruct (O4 j x Hj Ho) as [?|[[(k & z & Hk & Hz)|?]|?]]; auto; right; left; [left|by right].
      exists k, z. auto.
    + right. left. left. exists n, e0. split; [done|]. left. simpl. by rewrite Hs.
  - intros j x p [[Hj Hnj]|[-> ->]]%Hin Hp.
    + destruct (O5 j x p Hj Hp) as (Hlt' & q & Hq & Hm). split; [done|]. exists q. split; [by apply Hup|].
      rewrite lookup_insert. case_decide; [|done]. intros [= <-]. apply lookup_lt_Some in Hq. unfold n in Hq. lia.
    + assert (mr_sessions c !! node = Some p) as Hs.
      { unfold points_to, e0 in Hp. simpl in Hp. destruct (mr_sessions c !! node); naive_solver. }
      destruct (O1 node p Hs) as (q & Hq & Hqn & _). split; [apply lookup_lt_Some in Hq; unfold n; lia|].
      exists q. split; [by apply Hup|]. rewrite Hqn, lookup_insert_eq. intros [= Hn]. by apply (Hlt _ _ Hs).
  - intros j x [[Hj Hnj]|[-> ->]]%Hin; [by apply (O6 j)|]. simpl. split; [|done]. by destruct (mr_sessions c !! node).
  - intros k p st Hk. destruct (O7 k p st Hk) as (q & Hq & Hm). exists q. split; [by apply Hup|].
    rewrite lookup_insert. case_decide; [|done]. intros [= <-]. apply lookup_lt_Some in Hq. unfold n in Hq. lia.
Qed.

(** Taking entries out of the map and handing them to a killer. *)
Lemma evict_ok (gone : list nat) (m' : gmap string nat) closed c :
  registry_ok c ->
  (forall node i, m' !! node = Some i -> mr_sessions c !! node = Some i /\ i ∉ gone) ->
  (forall node i, mr_sessions c !! node = Some i -> m' !! node = Some i \/ i ∈ gone) ->
  (forall i, i ∈ gone -> exists node, mr_sessions c !! node = Some i) ->
  registry_ok {| mr_sessions := m'; mr_closed := closed; mr_entries := mr_entries c;
                 mr_killers := mr_killers c ++ map (fun e => (e, KCancel)) gone;
                 mr_refused := mr_refused c; mr_reports := mr_reports c |}.
Proof.
  intros [O1 O2 O3 O4 O5 O6 O7] Hsub Hsup Hgone.
  assert (forall i, i ∈ gone -> exists k, (mr_killers c ++ map (fun e => (e, KCancel)) gone) !! k = Some (i, KCancel)) as Hkill.
  { intros i [j Hj]%list_elem_of_lookup. exists (length (mr_killers c) + j).
    rewrite lookup_app_r by lia. rewrite Nat.add_comm, Nat.add_sub, list_lookup_fmap, Hj. done. }
  constructor; simpl.
  - intros node i [Hi _]%Hsub. by apply O1.
  - intros i j e e' [Hi _]%Hsub. by apply O2.
  - intros i e Hi Hm. destruct (decide (mr_sessions c !! en_node e = Some i)) as [Hs|Hs].
    + destruct (Hsup _ _ Hs) as [?|Hg]; [done|]. right. left. right. by apply Hkill.
    + destruct (O3 i e Hi Hs) as [?|[[?|[k Hk]]|?]]; auto; right; left; [by left|right].
      exists k. by apply lookup_app_l_Some.
  - intros i e Hi Hm. destruct (decide (mr_sessions c !! en_node e = Some i)) as [Hs|Hs].
    + destruct (Hsup _ _ Hs) as [?|Hg]; [done|]. right. left. right. destruct (Hkill i Hg) as [k Hk]. by exists k, KCancel.
    + destruct (O4 i e Hi Hs) as [?|[[?|(k & st & Hk & ?)]|?]]; auto; right; left; [by left|right].
      exists k, st. split; [by apply lookup_app_l_Some|done].
  - intros i e p Hi Hp. destruct (O5 i e p Hi Hp) as (? & q & Hq & Hm). split; [done|]. exists q.
    split; [done|]. by intros [? _]%Hsub.
  - apply O6.
  - intros k p st [Hk|[_ Hk]]%lookup_app_Some.
    + destruct (O7 k p st Hk) as (q & Hq & Hm). exists q. split; [done|]. by intros [? _]%Hsub.
    + assert (p ∈ gone) as Hg.
      { change (map (fun e => (e, KCancel)) gone) with ((fun e => (e, KCancel)) <$> gone) in Hk.
        rewrite list_lookup_fmap in Hk. destruct (gone !! _) eqn:E; simplify_eq/=. by eapply list_elem_of_lookup_2. }
      destruct (Hgone p Hg) as [node Hn]. destruct (O1 node p Hn) as (q & Hq & _). exists q. split; [done|].
      by intros [_ ?]%Hsub.
Qed.

Lemma Deregister_ok node c : registry_ok c -> registry_ok (Deregister node c).
Proof.
  intros Hok. unfold Deregister. destruct (mr_sessions c !! node) as [i|] eqn:Hi; [|done].
  apply (evict_ok [i] (delete node (mr_sessions c)) (mr_closed c) c Hok).
  - intros node' j Hj. rewrite lookup_delete in Hj. case_decide as Hn; [done|]. split; [done|].
    intros ->%list_elem_of_singleton. destruct (ro_map c Hok _ _ Hi) as (x & Hx & Hxn & _).
    destruct (ro_map c Hok _ _ Hj) as (y & Hy & Hyn & _). congruence.
  - intros node' j Hj. rewrite lookup_delete. case_decide; [|by left]. subst. right.
    apply list_elem_of_singleton. congruence.
  - intros j ->%list_elem_of_singleton. eauto.
Qed.

Lemma Close_ok c : registry_ok c -> registry_ok (Close c).
Proof.
  intros Hok. apply (evict_ok (map_to_list (mr_sessions c)).*2 ∅ true c Hok).
  - intros node i. by rewrite lookup_empty.
  - intros node i Hi. right. apply list_elem_of_fmap. exists (node, i). split; [done|]. by apply elem_of_map_to_list.
  - intros i ([node j] & -> & Hj)%list_elem_of_fmap. apply elem_of_map_to_list in Hj. by exists node.
Qed.

Lemma mux_step_ok c c' : registry_ok c -> step c c' -> registry_ok c'.
Proof.
  intros Hok [node|node| |i e Hi|i e Hi Hw|c'' Hs].
  - by apply Register_ok.
  - by apply Deregister_ok.
  - by apply Close_ok.
  - apply (ok_frame c); [done|]. apply (frame_upd _ i e); try done; [by constructor; auto|].
    intros Hm. destruct (ro_map c Hok _ _ Hm) as (z & Hz & _ & ? & ?). by simplify_eq.
  - apply (ok_frame c); [done|]. by apply (frame_watch WDead i e c id); rewrite ?Hw; auto.
  - by apply (mstep_ok c).
Qed.

Lemma mux_reachable_ok c : rtc step New c -> registry_ok c.
Proof. revert c. apply rtc_ind_r; [apply New_ok|]. intros y z _ Hs Hy. by apply (mux_step_ok y). Qed.

(** ** What a lookup gives *)

(** C14: The registry routes to the latest session.  In every reachable state,
    under any interleaving of registrations, deregistrations, shutdown, dying
    sessions and health checks, OpenStream asks the session of the most recent
    registration of the node, one that is open, that no caller has cancelled
    and whose watcher has not given up; the session of every earlier
    registration of that node is closed, or a call or watcher in flight is
    about to close it. *)
Theorem latest_session_wins c node i :
  rtc step New c -> OpenStream node c = Ok i ->
  exists e, mr_entries c !! i = Some e /\ en_node e = node /\
    en_closed e = false /\ en_cancelled e = false /\ past_death (en_watch e) = false /\
    forall j e', mr_entries c !! j = Some e' -> en_node e' = node ->
      j <= i /\ (j < i -> en_closed e' = true \/ closing_by_call c j \/ en_watch e' = WRemoved).
Proof.
  intros Hr%mux_reachable_ok. unfold OpenStream. destruct (mr_sessions c !! node) as [k|] eqn:Hs; [|done].
  destruct (ro_map c Hr node k Hs) as (e & He & Hn & Hc & Hd). rewrite He.
  destruct (en_closed e) eqn:Hcl; [done|]. intros [= ->]. exists e. split_and!; try done.
  intros j e' Hj Hn'. split.
  - apply (ro_latest c Hr i j e e'); congruence.
  - intros Hlt. apply (ro_closing c Hr j e' Hj). rewrite Hn', Hs. intros [= ->]. lia.
Qed.

(** ** Calls return and ghosts disappear *)

Definition reg_left (r : rstage) : nat :=
  match r with RCancel _ => 4 | RClose _ => 3 | RAwait _ => 2 | RStart => 1 | RReturned => 0 end.
Definition watch_left (w : wstage) : nat :=
  match w with WIdle => 7 | Watching => 6 | WDead => 5 | WRemoved => 4 | WClosed => 3 | WReported => 2 | WDone => 0 end.
Definition kill_left (k : nat * kstage) : nat := match k.2 with KCancel => 2 | KClose => 1 | KDone => 0 end.
Definition entry_left (e : mentry) : nat := reg_left (en_reg e) + watch_left (en_watch e).
Definition work_left (c : Registry) : nat :=
  sum_list_with entry_left (mr_entries c) + sum_list_with kill_left (mr_killers c).

Lemma sum_alter {A} (f : A -> nat) (g : A -> A) (l : list A) i e :
  l !! i = Some e -> sum_list_with f (alter g i l) + f e = sum_list_with f l + f (g e).
Proof.
  revert i. induction l as [|y l IH]; intros [|i] Hi; simpl in *; simplify_eq; [lia|].
  specialize (IH i Hi). unfold alter in *. simpl. lia.
Qed.

Lemma sum_alter_same {A} (f : A -> nat) (g : A -> A) (l : list A) i :
  (forall y, f (g y) = f y) -> sum_list_with f (alter g i l) = sum_list_with f l.
Proof.
  intros Hg. revert i. induction l as [|y l IH]; intros [|i]; simpl; [done..|by rewrite Hg|].
  specialize (IH i). unfold alter in *. lia.
Qed.

Lemma sum_kill (l : list (nat * kstage)) k p st st' :
  l !! k = Some (p, st) ->
  sum_list_with kill_left (<[k := (p, st')]> l) + kill_left (p, st) = sum_list_with kill_left l + kill_left (p, st').
Proof.
  revert k. induction l as [|y l IH]; intros [|k] Hk; simpl in *; simplify_eq; [lia|].
  specialize (IH k Hk). lia.
Qed.

Lemma mstep_work c c' : registry_ok c -> mstep c c' -> work_left c' < work_left c.
Proof.
  intros Hok.
  assert (forall i, sum_list_with entry_left (alter cancel_entry i (mr_entries c)) = sum_list_with entry_left (mr_entries c))
    as Hca by (intros; by apply sum_alter_same).
  assert (forall i, sum_list_with entry_left (alter close_session i (mr_entries c)) = sum_list_with entry_left (mr_entries c))
    as Hcl by (intros; by apply sum_alter_same).
  assert (forall g i e, mr_entries c !! i = Some e -> entry_left (g e) < entry_left e ->
    sum_list_with entry_left (alter g i (mr_entries c)) < sum_list_with entry_left (mr_entries c)) as Hone.
  { intros g i e Hi Hlt. pose proof (sum_alter entry_left g _ i e Hi). lia. }
  assert (forall m i e p g, mr_entries c !! i = Some e -> m = cancel_entry \/ m = close_session ->
    (forall e1, en_reg e1 = en_reg e -> en_watch e1 = en_watch e -> entry_left (g e1) < entry_left e1) ->
    sum_list_with entry_left (alter g i (alter m p (mr_entries c))) < sum_list_with entry_left (mr_entries c)) as Hreg.
  { intros m i e p g Hi Hm Hg. pose proof (lookup_alter_at m p _ i e Hi) as He1.
    pose proof (sum_alter entry_left g _ i _ He1) as Hsum.
    assert (sum_list_with entry_left (alter m p (mr_entries c)) = sum_list_with entry_left (mr_entries c)) as Hsame
      by (destruct Hm as [->| ->]; [apply Hca|apply Hcl]). rewrite Hsame in Hsum.
    assert (entry_left (g (if decide (i = p) then m e else e)) < entry_left (if decide (i = p) then m e else e)); [|lia].
    apply Hg; destruct Hm as [->| ->]; by case_decide. }
  unfold work_left. intros Hs. destruct Hs as
    [i e p Hi Hr|i e p Hi Hr|i e p q Hi Hr Hp Hq|i e Hi Hr|i e Hi Hw Hc|i e Hi Hw Hc|i e Hi Hw|i e Hi Hw|i e Hi Hw
    |i e Hi Hw|k p Hk|k p Hk]; simpl.
  - apply Nat.add_lt_mono_r, (Hreg _ i e p _ Hi (or_introl eq_refl)). intros e1 R1 _.
    unfold entry_left. simpl. rewrite R1, Hr. simpl. lia.
  - apply Nat.add_lt_mono_r, (Hreg _ i e p _ Hi (or_intror eq_refl)). intros e1 R1 _.
    unfold entry_left. simpl. rewrite R1, Hr. simpl. lia.
  - apply Nat.add_lt_mono_r, (Hone _ i e Hi). unfold entry_left. simpl. rewrite Hr. simpl. lia.
  - apply Nat.add_lt_mono_r, (Hone _ i e Hi). unfold entry_left. simpl. rewrite Hr. simpl.
    destruct (ro_idle c Hok i e Hi) as [_ Hw]. rewrite Hw by congruence. simpl. lia.
  - apply Nat.add_lt_mono_r, (Hone _ i e Hi). unfold entry_left. simpl. rewrite Hw. simpl. lia.
  - apply Nat.add_lt_mono_r, (Hone _ i e Hi). unfold entry_left. simpl. rewrite Hw. simpl. lia.
  - apply Nat.add_lt_mono_r, (Hone _ i e Hi). unfold entry_left. simpl. rewrite Hw. simpl. lia.
  - apply Nat.add_lt_mono_r, (Hone _ i e Hi). unfold entry_left. simpl. rewrite Hw. simpl. lia.
  - apply Nat.add_lt_mono_r, (Hone _ i e Hi). unfold entry_left. simpl. rewrite Hw. simpl. lia.
  - apply Nat.add_lt_mono_r, (Hone _ i e Hi). unfold entry_left. simpl. rewrite Hw. simpl. lia.
  - rewrite Hca. pose proof (sum_kill _ k p KCancel KClose Hk) as Hsum. unfold kill_left at 2 4 in Hsum. simpl in Hsum. lia.
  - rewrite Hcl. pose proof (sum_kill _ k p KClose KDone Hk) as Hsum. unfold kill_left at 2 4 in Hsum. simpl in Hsum. lia.
Qed.

(** Nothing internal can happen. *)
Record at_rest (c : Registry) : Prop := {
  ar_returned i e : mr_entries c !! i = Some e -> en_reg e = RReturned;
  ar_killed k p st : mr_killers c !! k = Some (p, st) -> st = KDone;
  ar_live i e : mr_entries c !! i = Some e -> mr_sessions c !! en_node e = Some i ->
    en_watch e = Watching /\ en_closed e = false;
  ar_gone i e : mr_entries c !! i = Some e -> mr_sessions c !! en_node e <> Some i ->
    en_watch e = WDone /\ en_closed e = true
}.

Lemma rest_watch c i e :
  nf mstep c -> mr_entries c !! i = Some e -> en_watch e <> WIdle ->
  en_watch e = WDone \/ (en_watch e = Watching /\ en_cancelled e = false /\ en_closed e = false).
Proof.
  intros Hnf Hi Hw. destruct (en_watch e) eqn:He; try done; try (exfalso; apply Hnf; eexists;
    first [by eapply m_remove | by eapply m_death_close | by eapply m_report | by eapply m_done]); [|by left].
  right. split; [done|]. destruct (en_cancelled e) eqn:Hc; [exfalso; apply Hnf; eexists; by eapply m_stop|].
  destruct (en_closed e) eqn:Hcl; [exfalso; apply Hnf; eexists; by eapply m_tick_closed|done].
Qed.

Lemma rest_returned c : registry_ok c -> nf mstep c -> forall i e, mr_entries c !! i = Some e -> en_reg e = RReturned.
Proof.
  intros Hok Hnf i. induction (lt_wf i) as [i _ IH]. intros e Hi.
  destruct (en_reg e) as [p|p|p| |] eqn:Hr; [..|done].
  - exfalso. apply Hnf. eexists. by eapply m_cancel.
  - exfalso. apply Hnf. eexists. by eapply m_close.
  - destruct (ro_reg c Hok i e p Hi) as (Hlt & q & Hq & Hm); [by right; right|].
    assert (en_watch q <> WIdle) as Hw.
    { rewrite (ro_idle c Hok p q Hq). intros Hn. by apply Hn, (IH p Hlt). }
    exfalso. destruct (rest_watch c p q Hnf Hq Hw) as [Hd|(Hwq & Hc & _)].
    + apply Hnf. eexists. by apply (m_await c i e p q).
    + destruct (ro_out c Hok p q Hq Hm) as [?|[[(k & x & Hk & Hx)|[k Hk]]|Hd]]; [congruence| | |by rewrite Hwq in Hd].
      * apply Hnf. eexists. by apply (m_cancel c k x p).
      * apply Hnf. eexists. by apply (m_kill_cancel c k p).
  - exfalso. apply Hnf. eexists. by eapply m_start.
Qed.

Lemma rest_at_rest c : registry_ok c -> nf mstep c -> at_rest c.
Proof.
  intros Hok Hnf. pose proof (rest_returned c Hok Hnf) as Hret.
  assert (forall k p st, mr_killers c !! k = Some (p, st) -> st = KDone) as Hkill.
  { intros k p [] Hk; [exfalso; apply Hnf; eexists; by eapply m_kill_cancel
      |exfalso; apply Hnf; eexists; by eapply m_kill_close|done]. }
  assert (forall i e, mr_entries c !! i = Some e -> en_watch e <> WIdle) as Hidle.
  { intros i e Hi. rewrite (ro_idle c Hok i e Hi). intros Hn. by apply Hn, (Hret i). }
  constructor; try done.
  - intros i e Hi Hm. destruct (ro_map c Hok _ _ Hm) as (x & Hx & _ & _ & Hd). simplify_eq.
    destruct (rest_watch c i e Hnf Hi (Hidle i e Hi)) as [Hw|(? & _ & ?)]; [by rewrite Hw in Hd|done].
  - intros i e Hi Hm.
    assert (en_watch e = WDone) as Hw.
    { destruct (rest_watch c i e Hnf Hi (Hidle i e Hi)) as [?|(Hw & Hc & _)]; [done|].
      destruct (ro_out c Hok i e Hi Hm) as [?|[[(k & x & Hk & Hx)|[k Hk]]|Hd]]; [congruence| | |by rewrite Hw in Hd].
      - rewrite (Hret k x Hk) in Hx. done.
      - by specialize (Hkill k i _ Hk). }
    split; [done|]. destruct (ro_closing c Hok i e Hi Hm) as [?|[[(k & x & Hk & Hx)|(k & st & Hk & Hst)]|?]]; [done| | |congruence].
    + rewrite (Hret k x Hk) in Hx. by destruct Hx.
    + by destruct Hst; apply (Hkill k i).
Qed.

(** C33: No ghost session and no stuck caller.  From any reachable state the
    calls and watchers in flight come to an end (no internal execution is
    infinite), although each Register waits for the watcher of the session it
    replaced, which may not even have started.  When nothing internal is left
    to do, every Register, Deregister and Close has finished its work, every
    session that is not in the map is closed and its watcher gone, and every
    session in the map is open and watched. *)
Theorem registry_drains c :
  rtc step New c ->
  sn mstep c /\ forall c', rtc mstep c c' -> nf mstep c' -> at_rest c'.
Proof.
  intros Hr%mux_reachable_ok. split.
  - remember (work_left c) as n eqn:Hn. revert c Hr Hn. induction (lt_wf n) as [n _ IH]. intros c Hok ->.
    constructor. intros c' Hs. eapply IH; [by apply mstep_work|by eapply mstep_ok|done].
  - intros c' Hs Hnf. apply rest_at_rest; [|done]. clear Hnf. induction Hs; eauto using mstep_ok.
Qed.

(** ** Witnesses and a finding *)

(** An agent that reconnects while its old session is being watched. *)
Definition reconnected : Registry := Register "n" (upd (fun e => set_reg RReturned (set_watch Watching e)) 0 (Register "n" New)).

Lemma reconnected_reachable : rtc step New reconnected.
Proof.
  eapply rtc_l; [apply (e_register New "n")|].
  eapply rtc_l; [apply e_internal; by eapply (m_start _ 0)|].
  eapply rtc_l; [apply (e_register _ "n")|]. apply rtc_refl.
Defined.

Lemma latest_session_wins_witness : OpenStream "n" reconnected = Ok 1 /\ closing_by_call reconnected 0.
Proof.
  split; [reflexivity|].
  destruct (latest_session_wins reconnected "n" 1 reconnected_reachable eq_refl) as (e & _ & _ & _ & _ & _ & Hold).
  destruct (Hold 0 _ eq_refl eq_refl) as [_ [Hc|[Hc|Hc]]]; [lia|discriminate|exact Hc|discriminate].
Defined.

Lemma registry_drains_witness : sn mstep reconnected.
Proof. exact (proj1 (registry_drains reconnected reconnected_reachable)). Defined.

(** The old session's watcher may be at its tick, or have a ping in flight,
    when the reconnect cancels it and closes its session: it then goes through
    handleDeath and reports the node as degraded although the new session is
    open and in the map. *)
Theorem reconnect_reported_degraded :
  exists c, rtc step reconnected c /\ OpenStream "n" c = Ok 1 /\ mr_reports c = ["n"].
Proof.
  eexists. split; [|split].
  - eapply rtc_l; [apply e_internal; by eapply (m_cancel _ 1)|].
    eapply rtc_l; [apply e_internal; by eapply (m_close _ 1)|].
    eapply rtc_l; [apply e_internal; by eapply (m_tick_closed _ 0)|].
    eapply rtc_l; [apply e_internal; by eapply (m_remove _ 0)|].
    eapply rtc_l; [apply e_internal; by eapply (m_death_close _ 0)|].
    eapply rtc_l; [apply e_internal; by eapply (m_report _ 0)|]. apply rtc_refl.
  - vm_compute. reflexivity.
  - vm_compute. reflexivity.
Qed.
