(* ===== verification/Wire.v ===== *)
(** * What travels between the processes

    Lines read from a connection (bufio), bounded bodies (io.LimitReader),
    encoding/json on the messages of the data plane, and main-api as its HTTP
    clients in ssh-proxy see it: the interface [MainAPI]. *)

From S2P Require Import Prelude GoStrings Http.
From Stdlib Require Import Ascii.

#[local] Open Scope string_scope.
#[local] Open Scope list_scope.

(** ** Reading *)

Definition EOF : error := Sentinel "EOF".

Definition newline : string := String "010" "".

(** [bufio.Reader.ReadBytes]: [input] is what the peer sends before reading
    ends with [fin]; the line read with its delimiter, the error, and the
    bytes after it.  The buffer grows: no length bounds the line. *)
Fixpoint ReadBytes (delim : ascii) (input : string) (fin : error) : string * option error * string :=
  match input with
  | EmptyString => ("", Some fin, "")
  | String c rest =>
      if Ascii.eqb c delim then (String c "", None, rest)
      else let '(line, err, after) := ReadBytes delim rest fin in (String c line, err, after)
  end.

Definition LimitReader (n : nat) (s : string) : string := str_take n s.

Lemma ReadBytes_line delim s after fin :
  str_forall (fun c => negb (Ascii.eqb c delim)) s = true ->
  ReadBytes delim (s +:+ String delim after) fin = (s +:+ String delim "", None, after).
Proof.
  induction s as [|c s IH]; simpl; intros Hs.
  - by rewrite Ascii.eqb_refl.
  - apply andb_true_iff in Hs as [Hc Hs]. apply negb_true_iff in Hc. by rewrite Hc, IH.
Qed.

(** ** encoding/json

    [json_text] is [json.Marshal]; [json_parse] decodes one value.  [plain]
    singles out the values JSON represents exactly: all texts valid UTF-8. *)
Class JSON (A : Type) := { json_text : A -> result string; json_parse : string -> result A }.
Class Plain (A : Type) := plain : A -> bool.

(** [utf8.ValidString]. *)
Definition byte_in (lo hi : N) (c : ascii) : bool := (lo <=? N_of_ascii c)%N && (N_of_ascii c <=? hi)%N.

Fixpoint valid_utf8 (s : string) : bool :=
  match s with
  | EmptyString => true
  | String c s1 =>
      if byte_in 0 127 c then valid_utf8 s1
      else match s1 with
      | EmptyString => false
      | String d s2 =>
          if byte_in 194 223 c then byte_in 128 191 d && valid_utf8 s2
          else match s2 with
          | EmptyString => false
          | String e s3 =>
              let second := if byte_in 224 224 c then byte_in 160 191 d
                            else if byte_in 237 237 c then byte_in 128 159 d
                            else byte_in 128 191 d in
              if byte_in 224 239 c then second && byte_in 128 191 e && valid_utf8 s3
              else match s3 with
              | EmptyString => false
              | String f s4 =>
                  let second := if byte_in 240 240 c then byte_in 144 191 d
                                else if byte_in 244 244 c then byte_in 128 143 d
                                else byte_in 128 191 d in
                  byte_in 240 244 c && second && byte_in 128 191 e && byte_in 128 191 f && valid_utf8 s4
              end
          end
      end
  end.

(** Documented behaviour: a struct is encoded on one line; the text decodes to
    the value again, a line break after it does not matter, and no strict
    prefix of an object is a value, nor is the empty text; what is decoded is valid UTF-8. *)
Class JSONLaws (A : Type) `{JSON A, Plain A} : Prop := {
  parse_text a raw : json_text a = Ok raw -> plain a = true ->
    json_parse raw = Ok a /\ json_parse (raw +:+ newline) = Ok a;
  parse_prefix a raw n b : json_text a = Ok raw -> plain a = true ->
    json_parse (str_take n (raw +:+ newline)) = Ok b -> b = a;
  text_line a raw : json_text a = Ok raw -> str_forall (fun c => negb (Ascii.eqb c "010")) raw = true;
  parse_plain raw a : json_parse raw = Ok a -> plain a = true;
  parse_empty a : json_parse "" <> Ok a
}.

Lemma str_take_all n s : String.length s <= n -> str_take n s = s.
Proof.
  revert s. induction n as [|n IH]; intros [|c s]; simpl; try done; [lia|].
  unfold str_take in *. simpl. intros ?. f_equal. apply IH. lia.
Qed.

(** A body that fits the limit is read whole. *)
Lemma parse_limited `{JSONLaws A} n a raw :
  json_text a = Ok raw -> plain a = true -> String.length raw < n ->
  json_parse (LimitReader n (raw +:+ newline)) = Ok a.
Proof.
  intros Ht Hp Hn. unfold LimitReader. rewrite str_take_all; [by apply parse_text|].
  rewrite str_length_app. simpl. lia.
Qed.

Lemma str_take_le n s t : str_take (n `min` String.length s) (s +:+ t) = str_take n s.
Proof.
  revert n. induction s as [|c s IH]; intros [|n]; [by destruct t|by destruct t|done|].
  specialize (IH n). unfold str_take in *. simpl. by f_equal.
Qed.

(** [json.Unmarshal] of the first [limit] bytes of a request's body. *)
Definition decode_body {A} `{JSON A} (limit : nat) (text : string) : Body A :=
  match json_parse (LimitReader limit text) with Ok a => Decoded a | Err e => BadJSON (Error e) end.

(** What a server decodes of a body, within any limit, is what was sent. *)
Lemma decode_body_sound `{JSONLaws A} n a raw b :
  json_text a = Ok raw -> plain a = true -> decode_body n raw = Decoded b -> b = a.
Proof.
  intros Ht Hp. unfold decode_body, LimitReader. rewrite <- (str_take_le n raw newline).
  destruct (json_parse _) as [b'|] eqn:E; [|done]. intros [= <-]. by eapply parse_prefix.
Qed.

Lemma decode_body_fits `{JSONLaws A} n a raw :
  json_text a = Ok raw -> plain a = true -> String.length raw <= n -> decode_body n raw = Decoded a.
Proof.
  intros Ht Hp Hn. unfold decode_body, LimitReader. rewrite str_take_all by done.
  by destruct (parse_text a raw Ht Hp) as [-> _].
Qed.

Record error_body := { eb_error : string; eb_message : string }.

(** [writeJSON] and [writeError] on the wire: a status and a text. *)
Definition render {A} `{JSON A, JSON error_body} (r : Resp A) : Z * string :=
  let text {B} `{JSON B} (b : B) := match json_text b with Ok raw => raw +:+ newline | Err _ => "" end in
  match r with
  | WriteJSON status a => (status, text a)
  | WriteError status code msg => (status, text {| eb_error := code; eb_message := msg |})
  | WriteHeader status => (status, "")
  end.

(** ** main-api as ssh-proxy sees it

    A POST with an Authorization header: a status and a body, or an error of
    the HTTP client (no connection, a timeout).  [S] is what main-api keeps. *)
Class MainAPI (S : Type) := {
  api_post : string (* path *) -> string (* Authorization *) -> string (* body *) -> ST S (result (Z * string))
}.

(** ** A codec for the witnesses *)
Module DemoJSON.
(** Texts of values, free of the brace that ends them and of newlines. *)
Definition safe (c : ascii) : bool := negb (Ascii.eqb c "}") && negb (Ascii.eqb c "010").

Class Codec (A : Type) := {
  enc : A -> string;
  dec : string -> option A;
  dec_enc a : dec (enc a) = Some a;
  enc_safe a : str_forall safe (enc a) = true
}.

Lemma bits_safe p : str_forall safe (bits_of p) = true.
Proof. by induction p. Qed.

#[export] Instance countable_codec `{Countable A} : Codec A | 10.
Proof.
  refine {| enc a := bits_of (encode a); dec s := decode (of_bits s) |}.
  - intros a. by rewrite of_bits_of, decode_encode.
  - intros a. apply bits_safe.
Defined.

(** A text two letters a byte, and a comma. *)
Fixpoint letters (s : string) : string :=
  match s with
  | EmptyString => ","
  | String c s' => String (ascii_of_N (65 + N_of_ascii c / 16)) (String (ascii_of_N (65 + N_of_ascii c mod 16)) (letters s'))
  end.

Fixpoint unletters (s : string) : option (string * string) :=
  match s with
  | String a t =>
      if Ascii.eqb a "," then Some ("", t)
      else match t with
           | String b t' =>
               match unletters t' with
               | Some (x, r) => Some (String (ascii_of_N ((N_of_ascii a - 65) * 16 + (N_of_ascii b - 65))) x, r)
               | None => None
               end
           | EmptyString => None
           end
  | EmptyString => None
  end.

Lemma unletters_letters s r : unletters (letters s +:+ r) = Some (s, r).
Proof.
  induction s as [|c s IH]; [done|]. cbn [letters].
  destruct c as [[] [] [] [] [] [] [] []]; simpl; by rewrite IH.
Qed.

Lemma letters_safe s : str_forall safe (letters s) = true.
Proof. induction s as [|c s IH]; [done|]. by destruct c as [[] [] [] [] [] [] [] []]; cbn. Qed.

Definition pair_codec {A} (f : string -> string -> A) (g : A -> string * string) (Hf : forall a, f (g a).1 (g a).2 = a) :
  Codec A.
Proof.
  refine {| enc a := letters (g a).1 +:+ letters (g a).2;
            dec s := match unletters s with
                     | Some (x, r) => match unletters r with Some (y, _) => Some (f x y) | None => None end
                     | None => None
                     end |}.
  - intros a. rewrite unletters_letters, <- (str_app_nil_r (letters (g a).2)), unletters_letters. by rewrite Hf.
  - intros a. rewrite str_forall_app. by rewrite !letters_safe.
Defined.

Section codec.
Context {A : Type} `{Codec A, Plain A}.

Definition text (a : A) : string := enc a +:+ "}".

Definition parse (s : string) : result A :=
  match strip_suffix "}" (TrimSuffix s newline) with
  | Some digits =>
      match dec digits with
      | Some a => if String.eqb (text a) (TrimSuffix s newline) && plain a then Ok a else Err (ErrNew "bad value")
      | None => Err (ErrNew "bad value")
      end
  | None => Err (ErrNew "unexpected end of JSON input")
  end.

#[export] Instance json : JSON A := {| json_text a := Ok (text a); json_parse := parse |}.
End codec.

Lemma strip_suffix_app s suf : strip_suffix suf (s +:+ suf) = Some s.
Proof. by apply strip_suffix_Some. Qed.

Lemma safe_no c s : safe c = false -> str_forall safe s = true -> str_forall (fun d => negb (Ascii.eqb d c)) s = true.
Proof.
  intros Hc. apply str_forall_imp. intros d Hd. destruct (Ascii.eqb_spec d c) as [->|]; [congruence|done].
Qed.

(** Where a value's text ends. *)
Lemma enc_end `{Codec A} (a b : A) t u : enc a +:+ String "}" t = enc b +:+ String "}" u -> a = b.
Proof.
  assert (forall x : A, str_forall (fun c => negb (Ascii.eqb c "}")) (enc x) = true) as Hd
    by (intros x; by apply safe_no, enc_safe).
  intros E. pose proof (ReadBytes_line "}" (enc a) t EOF (Hd a)) as Hp. rewrite E, ReadBytes_line in Hp by done.
  injection Hp as Hp _. apply (f_equal (fun s => strip_suffix "}" s)) in Hp.
  change (String "}" "") with "}" in Hp. rewrite !strip_suffix_app in Hp. injection Hp as Hp.
  apply (f_equal dec) in Hp. rewrite !dec_enc in Hp. by injection Hp.
Qed.

Lemma no_newline_text `{Codec A} (a : A) : str_forall (fun c => negb (Ascii.eqb c "010")) (text a) = true.
Proof. unfold text. rewrite str_forall_app. by rewrite (safe_no "010" (enc a)) by (done || apply enc_safe). Qed.

Lemma str_take_app n s : exists t, s = str_take n s +:+ t.
Proof.
  revert s. induction n as [|n IH]; intros [|c s]; unfold str_take; simpl.
  - by exists "".
  - by exists (String c s).
  - by exists "".
  - destruct (IH s) as [t Ht]. exists t. unfold str_take in Ht. by rewrite Ht at 1.
Qed.

Section laws.
Context {A : Type} `{Codec A, Plain A}.

Lemma parse_Ok s (a : A) :
  parse s = Ok a <-> (s = text a \/ s = text a +:+ newline) /\ plain a = true.
Proof.
  assert (forall b : A, strip_suffix "}" (text b) = Some (enc b)) as Hb
    by (intros b; by apply strip_suffix_app).
  assert (forall b : A, TrimSuffix (text b) newline = text b) as Ht.
  { intros b. unfold TrimSuffix. destruct (strip_suffix newline (text b)) as [r|] eqn:E; [|done].
    apply strip_suffix_Some in E. pose proof (no_newline_text b) as Hn. rewrite E, str_forall_app in Hn.
    by apply andb_true_iff in Hn as [_ Hn]. }
  assert (forall b : A, TrimSuffix (text b +:+ newline) newline = text b) as Ht'.
  { intros b. unfold TrimSuffix. by rewrite strip_suffix_app. }
  unfold parse. split.
  - destruct (strip_suffix "}" _) as [digits|] eqn:E; [|done].
    destruct (dec _) as [b|]; [|done]. destruct (String.eqb_spec (text b) (TrimSuffix s newline)) as [Hs|]; [|done].
    destruct (plain b) eqn:Hp; [|done]. intros [= <-]. split; [|done]. unfold TrimSuffix in Hs.
    destruct (strip_suffix newline s) as [r|] eqn:Er; simpl in Hs; [|by left].
    apply strip_suffix_Some in Er. right. by rewrite Er, Hs.
  - intros [[-> | ->] Hp].
    + by rewrite Ht, Hb, dec_enc, String.eqb_refl, Hp.
    + by rewrite Ht', Hb, dec_enc, String.eqb_refl, Hp.
Qed.

#[export] Instance laws : JSONLaws A.
Proof.
  split.
  - intros a raw [= <-] Hp. split; apply parse_Ok; auto.
  - intros a raw n b [= <-] Hp [Hb _]%parse_Ok.
    destruct (str_take_app n (text a +:+ newline)) as [t Ht].
    assert (exists u, text b +:+ u = text a +:+ newline) as [u Hu].
    { destruct Hb as [Hb|Hb]; rewrite Hb in Ht; rewrite Ht; [by exists t|].
      exists (newline +:+ t). by rewrite str_app_assoc. }
    unfold text in Hu. rewrite !str_app_assoc in Hu. by apply enc_end in Hu.
  - intros a raw [= <-]. apply no_newline_text.
  - by intros raw a [_ Hp]%parse_Ok.
  - done.
Qed.
End laws.
End DemoJSON.
