(* ===== verification/MuxServer.v ===== *)
(** * ssh-proxy: which agents may attach (internal/muxserver)

    An agent connects over TLS, sends one line of JSON with its node and
    token, and the proxy asks main-api about them, with a cache of positive
    answers; an accepted connection becomes the node's session in the mux
    registry.  Main-api is any instance of [MainAPI]. *)

From S2P Require Import Prelude GoStrings Proto Db Http AgentAuth Wire MuxRegistry.
From Stdlib Require Import Ascii.

#[local] Open Scope string_scope.
#[local] Open Scope list_scope.
#[local] Open Scope go_scope.

Definition ErrUnauthenticated : error := Sentinel "muxserver: unauthenticated".

Record AuthRequest := { aq_NodeID : string; aq_Token : string; aq_AgentVersion : string }.
#[export] Instance AuthRequest_plain : Plain AuthRequest :=
  fun r => valid_utf8 (aq_NodeID r) && valid_utf8 (aq_Token r) && valid_utf8 (aq_AgentVersion r).

Record AuthResult := {
  ar_NodeID : string;
  ar_AccessPolicy : string;
  ar_OwnerTeamID : string;
  ar_AgentVersionSeen : string
}.

(** The bodies of /internal/agent-auth; [wireResponse] has the fields of
    main-api's response. *)
#[export] Instance request_plain : Plain AgentAuth.request :=
  fun r => valid_utf8 (AgentAuth.rq_NodeID r) && valid_utf8 (rq_Token r).
Abbreviation wireResponse := AgentAuth.response.
#[export] Instance response_plain : Plain wireResponse :=
  fun r => valid_utf8 (rp_NodeID r) && valid_utf8 (rp_AccessPolicy r) && valid_utf8 (rp_OwnerTeamID r) &&
           valid_utf8 (rp_AgentVersionSeen r).

(** ** auth.go: the verifier *)

Abbreviation vkey := (string * string)%type.       (* [cacheKey]: node id and token as sent *)
Record vcacheEntry := { ve_result : AuthResult; ve_expiresAt : Time }.
Record HTTPVerifier := {
  hv_internalToken : string;
  hv_cacheTTL : Z;
  hv_cache : gmap vkey vcacheEntry
}.

Definition NewHTTPVerifier (internalToken : string) (ttl : Z) : HTTPVerifier :=
  {| hv_internalToken := internalToken; hv_cacheTTL := if (ttl <? 0)%Z then 0%Z else ttl; hv_cache := ∅ |}.

(** The critical sections of [Verify]. *)
Definition vprobe (now : Time) (key : vkey) (v : HTTPVerifier) : option AuthResult :=
  if (0 <? hv_cacheTTL v)%Z then
    match hv_cache v !! key with
    | Some e => if (now <? ve_expiresAt e)%Z then Some (ve_result e) else None
    | None => None
    end
  else None.

Definition vstore (now : Time) (key : vkey) (r : AuthResult) (v : HTTPVerifier) : HTTPVerifier :=
  if (0 <? hv_cacheTTL v)%Z then
    {| hv_internalToken := hv_internalToken v; hv_cacheTTL := hv_cacheTTL v;
       hv_cache := <[key := {| ve_result := r; ve_expiresAt := (now + hv_cacheTTL v)%Z |}]> (hv_cache v) |}
  else v.

Definition auth_result (w : wireResponse) : AuthResult :=
  {| ar_NodeID := rp_NodeID w; ar_AccessPolicy := rp_AccessPolicy w; ar_OwnerTeamID := rp_OwnerTeamID w;
     ar_AgentVersionSeen := rp_AgentVersionSeen w |}.

Section verifier.
Context {S : Type} `{MainAPI S, JSON AgentAuth.request, JSON wireResponse}.

(** The answer of main-api, read. *)
Definition read_answer (r : result (Z * string)) : result AuthResult :=
  match r with
  | Err e => Err (ErrWrap "agent-auth call: " e "")
  | Ok (status, body) =>
      if (status =? StatusOK)%Z then
        match json_parse (LimitReader 8192 body) with
        | Err e => Err (ErrWrap "decode 200: " e "")
        | Ok w => if rp_OK w then Ok (auth_result w) else Err ErrUnauthenticated
        end
      else if (status =? StatusUnauthorized)%Z then Err ErrUnauthenticated
      else Err (ErrNew ("agent-auth status " +:+ Itoa status))
  end.

(** The request to main-api. *)
Definition ask (v : HTTPVerifier) (req : AuthRequest) : ST S (result AuthResult) :=
  match json_text {| AgentAuth.rq_NodeID := aq_NodeID req; rq_Token := aq_Token req |} with
  | Err e => ret (Err (ErrWrap "marshal: " e ""))
  | Ok body =>
      r <- api_post "/internal/agent-auth" ("Bearer " +:+ hv_internalToken v) body ;;
      ret (read_answer r)
  end.

(** [Verify], with the two readings of its clock. *)
Definition Verify (now1 now2 : Time) (req : AuthRequest) : ST (S * HTTPVerifier) (result AuthResult) :=
  fun '(s, v) =>
    let key := (aq_NodeID req, aq_Token req) in
    match vprobe now1 key v with
    | Some r => (Ok r, (s, v))
    | None =>
        match ask v req s with
        | (Ok r, s') => (Ok r, (s', vstore now2 key r v))
        | (Err e, s') => (Err e, (s', v))
        end
    end.
End verifier.

(** ** server.go *)

Definition authReasonTLSDowngrade : string := "tls_downgrade".
Definition authReasonBadHeader : string := "bad_header".
Definition authReasonUnauthed : string := "unauthenticated".
Definition authReasonAuthCallFailed : string := "auth_call_failed".

Definition classifyHandshakeError (err : error) : string :=
  let msg := Error err in
  if Contains msg "tls: client offered only unsupported versions" ||
     Contains msg "tls: no application protocol" ||
     Contains msg "protocol version not supported" then authReasonTLSDowngrade
  else if Contains msg "EOF" then authReasonTLSDowngrade
  else "tls_handshake_failed".

(** [input] is what the agent sends until reading ends with [fin]. *)
Definition readAuthHeader `{JSON AuthRequest} (input : string) (fin : error) : result AuthRequest :=
  let '(line, err, _) := ReadBytes "010" input fin in
  match match err with Some e => if bool_decide (e = EOF) then None else Some e | None => None end with
  | Some e => Err e
  | None =>
      if String.eqb line "" then Err (ErrNew "empty header")
      else match json_parse line with
           | Err e => Err e
           | Ok req => if String.eqb (aq_NodeID req) "" || String.eqb (aq_Token req) ""
                       then Err (ErrNew "missing node_id or token") else Ok req
           end
  end.

(** What becomes of a connection: closed with a reason for the metrics, or a
    session handed to the registry. *)
Inductive conn_outcome := Refused (reason : string) | Attached (node version : string).

(** One accepted connection: how the TLS handshake ends, the bytes the agent
    then sends, and whether yamux starts. *)
Record conn_script := {
  cs_handshake : option error;
  cs_input : string;
  cs_fin : error;
  cs_yamux : option error
}.

Section server.
Context {S : Type} `{MainAPI S, JSON AgentAuth.request, JSON wireResponse, JSON AuthRequest}.

Definition handleConn (now1 now2 : Time) (c : conn_script) : ST (S * HTTPVerifier) conn_outcome :=
  match cs_handshake c with
  | Some e => ret (Refused (classifyHandshakeError e))
  | None =>
      match readAuthHeader (cs_input c) (cs_fin c) with
      | Err _ => ret (Refused authReasonBadHeader)
      | Ok req =>
          r <- Verify now1 now2 req ;;
          ret match r with
              | Err e => Refused (if errors_Is e ErrUnauthenticated then authReasonUnauthed
                                  else authReasonAuthCallFailed)
              | Ok result =>
                  match cs_yamux c with
                  | Some _ => Refused "yamux_init_failed"
                  | None => Attached (ar_NodeID result) (ar_AgentVersionSeen result)
                  end
              end
      end
  end.
End server.

(** The registry after the connection: [deps.Registry.Register], which closes
    the session it replaces. *)
Definition attach (o : conn_outcome) (c : Registry) : Registry :=
  match o with Attached node _ => Register node c | Refused _ => c end.

(** [Serve]: the dependencies it insists on and the TLS version it sets. *)
Record Deps := {
  dp_TLSConfig : option (nat (* certificates *) * bool (* GetCertificate *) * Z (* MinVersion *));
  dp_Verifier : bool;
  dp_Registry : bool;
  dp_Log : bool;
  dp_HandshakeTimeout : Z
}.

Definition VersionTLS13 : Z := 772.

Definition validateDeps (d : Deps) : option error :=
  if match dp_TLSConfig d with
     | None => true
     | Some (certs, get, _) => (certs =? 0)%nat && negb get
     end then Some (ErrNew "muxserver: TLSConfig with certificates required")
  else if negb (dp_Verifier d) then Some (ErrNew "muxserver: Verifier required")
  else if negb (dp_Registry d) then Some (ErrNew "muxserver: Registry required")
  else if negb (dp_Log d) then Some (ErrNew "muxserver: Log required")
  else None.

(** The minimal TLS version and the handshake timeout connections are served
    with. *)
Definition serve_params (d : Deps) : result (Z * Z) :=
  match validateDeps d with
  | Some e => Err e
  | None =>
      Ok (match dp_TLSConfig d with Some (_, _, v) => Z.max v VersionTLS13 | None => VersionTLS13 end,
          if (dp_HandshakeTimeout d <=? 0)%Z then (30 * second)%Z else dp_HandshakeTimeout d)
  end.
