(* ===== verification/InternalAPI.v ===== *)
(** * main-api's internal endpoints, over the wire

    The implementation of [MainAPI]: a POST is routed by main-api's router,
    its body decoded within the handler's limit, the handler run, and its
    answer rendered. *)

From S2P Require Import Prelude GoStrings Proto Db Queries Http Auth AuthHandlers Router NodeRepo SSHTicket TicketEndpoint AgentAuth Wire MuxServer.
From Stdlib Require Import Ascii.

#[local] Open Scope string_scope.
#[local] Open Scope list_scope.
#[local] Open Scope go_scope.

#[export] Instance sshTicketRequest_plain : Plain sshTicketRequest :=
  fun r => valid_utf8 (tr_SubdomainPrefix r) && valid_utf8 (tr_SSHKeyFingerprint r).
#[export] Instance Signed_plain : Plain Signed :=
  fun s => valid_utf8 (sg_Payload s) && valid_utf8 (sg_Signature s).

(** The request of a client in ssh-proxy. *)
Definition proxy_request (authorization : string) : Request :=
  {| rq_RemoteAddr := ""; rq_XForwardedFor := ""; rq_Authorization := authorization; rq_Cookie := None |}.

Definition path_segments (path : string) : list string := tail (Split path "/").

Section internal_api.
Context `{UUIDLib, Bcrypt, TicketJSON}.
Context `{JSON AgentAuth.request, JSON wireResponse, JSON sshTicketRequest, JSON Signed, JSON error_body}.

(** How main-api is wired; [fresh], [now1], [now2] are the random draw and the
    clock readings of the request. *)
Variables (rs : Routers) (deps : SSHTicketDeps) (fresh : string) (now1 now2 : Time).

Definition not_found_page : Z * string := (StatusNotFound, "404 page not found" +:+ newline).

Definition serve (path authorization body : string) : ST AuthState (Z * string) :=
  match NewRouter rs (proxy_request authorization) None "POST" (path_segments path) with
  | Run AgentAuth _ _ => a <- ServeHTTP now1 now2 "POST" (decode_body 1024 body) ;; ret (render a)
  | Run SSHTicket _ _ => a <- onAuthPg (SSHTicketHandler deps fresh now1 (decode_body 1024 body)) ;; ret (render a)
  | Answer st code msg => ret (render (WriteError st code msg : Resp Signed))
  | Run _ _ _ | MuxNotFound | MuxRedirect => ret not_found_page   (* not the routes of the two paths *)
  end.

Definition main_api : MainAPI AuthState := {|
  api_post path authorization body := a <- serve path authorization body ;; ret (Ok a)
|}.

(** ** Routing *)

Lemma route_agent_auth authorization :
  NewRouter rs (proxy_request authorization) None "POST" (path_segments "/internal/agent-auth") =
  match rs_internal rs with
  | None => MuxNotFound
  | Some (aa, token) =>
      if bearer_ok token (proxy_request authorization)
      then if aa then Run AgentAuth [] None else MuxNotFound
      else Answer StatusUnauthorized "unauthenticated" "invalid or missing internal bearer token"
  end.
Proof.
  change (path_segments "/internal/agent-auth") with ["internal"; "agent-auth"].
  unfold NewRouter, NewInternalRouter, RequireInternalToken. simpl.
  destruct (rs_internal rs) as [[[] token]|]; [| |done]; by destruct (bearer_ok token _).
Qed.

Lemma route_ssh_ticket authorization :
  NewRouter rs (proxy_request authorization) None "POST" (path_segments "/internal/ssh-ticket") =
  match rs_internal rs with
  | None => MuxNotFound
  | Some (_, token) =>
      if bearer_ok token (proxy_request authorization) then Run SSHTicket [] None
      else Answer StatusUnauthorized "unauthenticated" "invalid or missing internal bearer token"
  end.
Proof.
  change (path_segments "/internal/ssh-ticket") with ["internal"; "ssh-ticket"].
  unfold NewRouter, NewInternalRouter, RequireInternalToken. simpl.
  destruct (rs_internal rs) as [[aa token]|]; [|done]. by destruct (bearer_ok token _).
Qed.

(** ** Answers with status 200 *)

Lemma render_200 `{JSON A} (r : Resp A) body :
  (forall st code msg, r = WriteError st code msg -> st <> StatusOK) -> (forall st, r = WriteHeader st -> st <> StatusOK) ->
  render r = (StatusOK, body) ->
  exists a, r = WriteJSON StatusOK a /\ body = match json_text a with Ok raw => raw +:+ newline | Err _ => "" end.
Proof.
  intros He Hh. destruct r as [st code msg|st a|st]; cbn [render]; intros [= -> <-].
  - by destruct (He StatusOK code msg).
  - eauto.
  - by destruct (Hh StatusOK).
Qed.

Lemma ServeHTTP_not_200 n1 n2 method b s st code msg :
  (ServeHTTP n1 n2 method b s).1 = WriteError st code msg -> st <> StatusOK.
Proof.
  unfold ServeHTTP. destruct (negb _); [by intros [= <- _ _]|]. destruct b as [m|m|req]; [by intros [= <- _ _]..|].
  destruct (uuid_Parse _) as [u|]; [|by intros [= <- _ _]].
  destruct (String.eqb _ _); [by intros [= <- _ _]|]. rewrite (bind_eq (S := AuthState)).
  destruct (lookup _ _ _ _) as [[v|] s']; [done|by intros [= <- _ _]].
Qed.

Lemma ServeHTTP_no_header n1 n2 method b s st : (ServeHTTP n1 n2 method b s).1 <> WriteHeader st.
Proof.
  unfold ServeHTTP. destruct (negb _); [done|]. destruct b as [m|m|req]; [done..|].
  destruct (uuid_Parse _) as [u|]; [|done]. destruct (String.eqb _ _); [done|].
  rewrite (bind_eq (S := AuthState)). by destruct (lookup _ _ _ _) as [[v|] s'].
Qed.
End internal_api.
