(* ===== verification/MuxAuthProof.v ===== *)
(** * Attaching an agent, end to end

    The mux server of ssh-proxy against main-api's endpoint: a session is
    registered for a node only when the token is an active one of that node,
    and for how long a revoked token can still attach. *)

From S2P Require Import Prelude GoStrings Proto Db Queries AccountQueries Demo Http Auth AuthHandlers Router NodeRepo SSHTicket TicketEndpoint AgentAuth Wire MuxRegistry MuxServer InternalAPI.

#[local] Open Scope string_scope.
#[local] Open Scope list_scope.
#[local] Open Scope go_scope.

(** The text of a uuid is ASCII. *)
Class UUIDText `{UUIDLib} : Prop := uuid_valid u : valid_utf8 (uuid_String u) = true.

Definition utf8_view (v : NodeAuthInfo) : bool := valid_utf8 (na_AccessPolicy v) && valid_utf8 (na_AgentVersion v).

(** Postgres stores UTF-8, and the cache what was read from it. *)
Definition utf8_nodes (s : AuthState) : Prop :=
  (forall u n, db_nodes (pg_db (as_pg s)) !! u = Some n -> utf8_view (auth_info n u) = true) /\
  (forall k e, ac_cache (as_cache s) !! k = Some e -> utf8_view (ce_view e) = true).

(** main-api vouches for a token at this moment: from its cache, or because an
    active token of an existing node matches. *)
Definition vouched `{Bcrypt} (now : Time) (key : UUID * string) (view : NodeAuthInfo) (s : AuthState) : Prop :=
  probe now key (as_cache s) = Some view \/
  active_match (pg_db (as_pg s)) key /\
  exists n, db_nodes (pg_db (as_pg s)) !! key.1 = Some n /\ view = auth_info n key.1.

Section endpoint.
Context `{UUIDLib, Bcrypt}.

Lemma NodeAuthView_Ok id s view :
  (NodeAuthView id s).1 = Ok view -> exists n, db_nodes (pg_db s) !! id = Some n /\ view = auth_info n id.
Proof.
  unfold NodeAuthView. rewrite (bind_eq (S := Pg)). destruct (exec _ s) as [[row|e] s1] eqn:E1; [|done].
  apply exec_Ok in E1 as [E1 _]. unfold nodeAccessPolicy, query_one in E1.
  destruct (db_nodes (pg_db s) !! id) as [n|] eqn:En; [|done]. simpl in E1. injection E1 as <- Hd.
  simpl. rewrite bindR_eq, wrapErr_eq. destruct (exec _ s1) as [[full|e] s2] eqn:E2; [|done].
  apply exec_Ok in E2 as [E2 _]. unfold getNode, query_one in E2. rewrite <- Hd, En in E2. simpl in E2.
  injection E2 as <- _. intros [= <-]. eauto.
Qed.

Lemma match_token_db key s : pg_db (match_token key s).2 = pg_db s.
Proof.
  unfold match_token, ListActiveNodeTokens. rewrite (bind_eq (S := Pg)), wrapErr_eq. simpl.
  unfold exec, listActiveNodeTokens, query. by destruct (next_fault s).
Qed.

(** A positive answer is vouched for, whatever round trips fail. *)
Lemma lookup_vouched n1 n2 key s view :
  (AgentAuth.lookup n1 n2 key s).1 = Some view -> vouched n1 key view s.
Proof.
  unfold AgentAuth.lookup, vouched. destruct (probe n1 key (as_cache s)) as [v|] eqn:Ep.
  - intros [= <-]. by left.
  - rewrite (bind_eq (S := AuthState)). unfold onAuthPg.
    pose proof (match_token_sound key (as_pg s)) as Hm. pose proof (match_token_db key (as_pg s)) as Hd.
    destruct (match_token key (as_pg s)) as [b pg1]. simpl in Hm, Hd. destruct b; simpl; [|done].
    rewrite (bind_eq (S := AuthState)). cbn [as_pg as_cache].
    destruct (NodeAuthView key.1 pg1) as [[v|e] pg2] eqn:Ev; simpl; [|done].
    intros [= <-]. right. split; [by apply Hm|].
    destruct (NodeAuthView_Ok key.1 pg1 v) as (n & Hn & Hv); [by rewrite Ev|]. rewrite Hd in Hn. eauto.
Qed.

Lemma ServeHTTP_Ok n1 n2 b s st r :
  (ServeHTTP n1 n2 "POST" b s).1 = WriteJSON st r ->
  st = StatusOK /\ exists req u view, b = Decoded req /\ uuid_Parse (AgentAuth.rq_NodeID req) = Ok u /\
    r = granted u view /\ vouched n1 (u, rq_Token req) view s.
Proof.
  unfold ServeHTTP. rewrite String.eqb_refl. change (negb true) with false. cbv iota.
  destruct b as [m|m|req]; [done..|]. destruct (uuid_Parse _) as [u|] eqn:Hu; [|done].
  destruct (String.eqb _ _); [done|]. rewrite (bind_eq (S := AuthState)).
  pose proof (lookup_vouched n1 n2 (u, rq_Token req) s) as Hl.
  destruct (AgentAuth.lookup _ _ _ _) as [[v|] s']; [|done]. simpl in *. intros [= <- <-].
  split; [done|]. exists req, u, v. auto.
Qed.

Lemma granted_plain `{!UUIDText} n1 u tok view s :
  utf8_nodes s -> vouched n1 (u, tok) view s -> plain (granted u view) = true.
Proof.
  intros [Hn Hc] Hv. assert (utf8_view view = true) as Hp.
  { destruct Hv as [Hv|(_ & n & Hu & ->)]; [|by eapply Hn].
    unfold probe in Hv. destruct (0 <? _)%Z; [|done]. destruct (ac_cache _ !! _) as [e|] eqn:Ee; [|done].
    destruct (_ <? _)%Z; [|done]. injection Hv as <-. by eapply Hc. }
  unfold utf8_view in Hp. apply andb_true_iff in Hp as [Hp1 Hp2].
  unfold plain, response_plain. simpl. rewrite uuid_valid, Hp1, Hp2.
  destruct (na_OwnerTeamID view); [by rewrite uuid_valid|done].
Qed.
End endpoint.

Section mux.
Context `{UUIDLib, !UUIDText, Bcrypt, TicketJSON, JSON sshTicketRequest, JSON Signed, JSON error_body}.
Context `{JSON AgentAuth.request, !JSONLaws AgentAuth.request}.
Context `{JSON wireResponse, !JSONLaws wireResponse}.
Context `{JSON AuthRequest, !JSONLaws AuthRequest}.
Variables (rs : Routers) (deps : SSHTicketDeps) (fresh : string) (now1 now2 : Time).
#[local] Existing Instance main_api.
#[local] Instance api : MainAPI AuthState := main_api rs deps fresh now1 now2.

Lemma read_answer_sound (a : Resp wireResponse) r :
  (forall st code msg, a = WriteError st code msg -> st <> StatusOK) -> (forall st, a <> WriteHeader st) ->
  (forall st w, a = WriteJSON st w -> plain w = true) ->
  read_answer (Ok (render a)) = Ok r ->
  exists w, a = WriteJSON StatusOK w /\ rp_OK w = true /\ r = auth_result w.
Proof.
  intros He Hh Hp. unfold read_answer. destruct (render a) as [status body] eqn:Ha.
  destruct (Z.eqb_spec status StatusOK) as [->|]; [|by destruct (_ =? _)%Z].
  destruct (render_200 a body) as (w & -> & ->); [done|by intros st Hw; destruct (Hh st)|done|].
  destruct (json_text w) as [raw|e] eqn:Ew; simpl.
  - destruct (json_parse _) as [w'|] eqn:Ep; [|done].
    apply (parse_prefix w) in Ep as ->; [|done|by eapply Hp]. destruct (rp_OK w) eqn:Eo; [|done].
    intros [= <-]. eauto.
  - destruct (json_parse _) as [w'|] eqn:Ep; [|done]. by apply parse_empty in Ep.
Qed.

(** The answer of main-api to the mux server, read: an accepted agent was
    vouched for. *)
Lemma ask_sound v req s r :
  utf8_nodes s -> plain req = true -> (ask v req s).1 = Ok r ->
  exists token u view, rs_internal rs = Some (true, token) /\
    bearer_ok token (proxy_request ("Bearer " +:+ hv_internalToken v)) = true /\
    uuid_Parse (aq_NodeID req) = Ok u /\ vouched now1 (u, aq_Token req) view s /\
    r = auth_result (granted u view).
Proof.
  intros Hutf Hplain. unfold ask.
  set (q := {| AgentAuth.rq_NodeID := aq_NodeID req; rq_Token := aq_Token req |}).
  assert (plain q = true) as Hq.
  { unfold plain, AuthRequest_plain in Hplain. apply andb_true_iff in Hplain as [Hp _]. exact Hp. }
  destruct (json_text q) as [body|e] eqn:Hbody; [|done].
  rewrite bind_eq. unfold api_post, api, main_api. rewrite bind_eq. unfold serve.
  rewrite route_agent_auth. destruct (rs_internal rs) as [[aa token]|]; [|done].
  destruct (bearer_ok token _) eqn:Hb; [|done]. destruct aa; [|done]. rewrite bind_eq.
  pose proof (ServeHTTP_not_200 now1 now2 "POST" (decode_body 1024 body) s) as Hne.
  pose proof (ServeHTTP_no_header now1 now2 "POST" (decode_body 1024 body) s) as Hnh.
  pose proof (ServeHTTP_Ok now1 now2 (decode_body 1024 body) s) as Hok.
  destruct (ServeHTTP now1 now2 "POST" (decode_body 1024 body) s) as [a s']. cbn [fst snd ret] in *.
  intros Hr. apply read_answer_sound in Hr as (w & Ha & _ & ->); [|done|done|].
  - apply Hok in Ha as (_ & req' & u & view & Hd & Hu & -> & Hv). apply (decode_body_sound _ q) in Hd as ->; [|done..].
    exists token, u, view. auto.
  - intros st w Ha. apply Hok in Ha as (_ & req' & u & view & Hd & Hu & -> & Hv). by eapply granted_plain.
Qed.

(** A connection that presents a token for a node, to a main-api that can be
    asked about it and has no answer cached. *)
Record presented (c : conn_script) (s : AuthState) (v : HTTPVerifier) (req : AuthRequest) (token : string)
    (u : UUID) : Prop := {
  pr_handshake : cs_handshake c = None;
  pr_header : readAuthHeader (cs_input c) (cs_fin c) = Ok req;
  pr_uuid : uuid_Parse (aq_NodeID req) = Ok u;
  pr_internal : rs_internal rs = Some (true, token);
  pr_bearer : bearer_ok token (proxy_request ("Bearer " +:+ hv_internalToken v)) = true;
  pr_clean : clean (as_pg s);
  pr_uncached : probe now1 (u, aq_Token req) (as_cache s) = None;
  pr_body : exists body, String.length body <= 1024 /\
    json_text {| AgentAuth.rq_NodeID := aq_NodeID req; rq_Token := aq_Token req |} = Ok body
}.

Lemma header_fields input fin req :
  readAuthHeader input fin = Ok req -> plain req = true /\ aq_NodeID req <> "" /\ aq_Token req <> "".
Proof.
  unfold readAuthHeader. destruct (ReadBytes _ _ _) as [[line err] after].
  destruct (match err with Some e => _ | None => _ end); [done|]. destruct (String.eqb line ""); [done|].
  destruct (json_parse line) as [r|] eqn:E; [|done]. apply parse_plain in E.
  destruct (String.eqb_spec (aq_NodeID r) ""); [done|]. destruct (String.eqb_spec (aq_Token r) ""); [done|].
  by intros [= <-].
Qed.

(** What main-api's handler makes of the question. *)
Lemma ask_presented c s v req token u :
  presented c s v req token u ->
  (ask v req s).1 = read_answer (Ok (render
    (ServeHTTP now1 now2 "POST" (Decoded {| AgentAuth.rq_NodeID := aq_NodeID req; rq_Token := aq_Token req |}) s).1)).
Proof.
  intros [_ Hh _ Hi Hb _ _ (body & Hlen & Hbody)]. apply header_fields in Hh as (Hp & _ & _).
  unfold plain, AuthRequest_plain in Hp. apply andb_true_iff in Hp as [Hp _].
  unfold ask. rewrite Hbody, bind_eq. unfold api_post, api, main_api. rewrite bind_eq. unfold serve.
  rewrite route_agent_auth, Hi, Hb, bind_eq.
  rewrite (decode_body_fits 1024 _ _ Hbody Hp Hlen). done.
Qed.

Lemma answer_granted view u :
  plain (granted u view) = true ->
  (exists raw, json_text (granted u view) = Ok raw /\ String.length raw < 8192) ->
  read_answer (Ok (render (WriteJSON StatusOK (granted u view)))) = Ok (auth_result (granted u view)).
Proof.
  intros Hp (raw & Hraw & Hlen). unfold read_answer, render. rewrite Hraw.
  change (StatusOK =? StatusOK)%Z with true. cbv iota beta.
  by rewrite (parse_limited 8192 _ _ Hraw Hp Hlen).
Qed.

(** C16: only an agent that main-api vouches for attaches.  Whatever the agent
    sends, whatever the two caches hold and whichever database round trips
    fail: when the connection ends in a registered session, the agent's line
    named a node and a token, and either the verifier of the proxy still holds
    an unexpired earlier answer for exactly that pair, under whose node and
    version the session is then registered, or it asked main-api with
    main-api's internal token and main-api vouched for the token at that
    moment (from its own cache of earlier lookups, or because an active token
    of that existing node matches), and the session is registered under the
    canonical text of that very node.  How long a revoked token can live in
    the two caches is the bound of [MuxRevocation.admission_latency].
    Conversely, when neither cache holds an answer for the pair, the round
    trips are served, the proxy has main-api's internal token, the request
    fits main-api's 1024 bytes and the answer the proxy's 8192: an active
    token of an existing node attaches (if yamux starts), and a token that is
    wrong or revoked, or of a node that does not exist, is refused as
    unauthenticated.  (The texts of the nodes are UTF-8, as Postgres stores
    them.) *)
Theorem mux_session_authenticated t1 t2 c s v :
  utf8_nodes s ->
  let o := (handleConn t1 t2 c (s, v)).1 in
  (forall node ver, o = Attached node ver ->
     exists req, readAuthHeader (cs_input c) (cs_fin c) = Ok req /\
       ((exists r, vprobe t1 (aq_NodeID req, aq_Token req) v = Some r /\
           node = ar_NodeID r /\ ver = ar_AgentVersionSeen r) \/
        (exists token u view, rs_internal rs = Some (true, token) /\
           bearer_ok token (proxy_request ("Bearer " +:+ hv_internalToken v)) = true /\
           uuid_Parse (aq_NodeID req) = Ok u /\ vouched now1 (u, aq_Token req) view s /\
           node = uuid_String u /\ ver = na_AgentVersion view))) /\
  (forall req token u, presented c s v req token u ->
     vprobe t1 (aq_NodeID req, aq_Token req) v = None ->
     (forall n, active_match (pg_db (as_pg s)) (u, aq_Token req) -> db_nodes (pg_db (as_pg s)) !! u = Some n ->
        cs_yamux c = None ->
        (exists raw, json_text (granted u (auth_info n u)) = Ok raw /\ String.length raw < 8192) ->
        o = Attached (uuid_String u) (nd_AgentVersion n)) /\
     (~ active_match (pg_db (as_pg s)) (u, aq_Token req) \/ db_nodes (pg_db (as_pg s)) !! u = None ->
        o = Refused authReasonUnauthed)).
Proof.
  intros Hutf. unfold handleConn. split.
  - intros node ver. destruct (cs_handshake c); [done|].
    destruct (readAuthHeader _ _) as [req|] eqn:Hh; [|done]. rewrite bind_eq.
    destruct (Verify t1 t2 req (s, v)) as [[r|e] s'] eqn:Hver; simpl; [|by destruct (errors_Is _ _)].
    destruct (cs_yamux c); [done|]. intros [= <- <-]. exists req. split; [done|].
    unfold Verify in Hver. destruct (vprobe t1 _ v) as [r0|]; [left; simplify_eq; eauto|right].
    destruct (ask v req s) as [[r1|e] s1] eqn:Ea; [|done]. injection Hver as -> _.
    assert ((ask v req s).1 = Ok r) as Ha by by rewrite Ea.
    apply ask_sound in Ha as (token & u & view & Hi & Hb & Hu & Hv & ->);
      [|done|by apply header_fields in Hh as [? _]]. exists token, u, view. auto 10.
  - intros req token u Hp Hmiss. pose proof (ask_presented _ _ _ _ _ _ Hp) as Ha.
    destruct Hp as [-> Hh Hu Hi Hb Hc Hpr Hbody]. rewrite Hh, bind_eq. unfold Verify. rewrite Hmiss.
    destruct (ask v req s) as [r s2]. cbn [fst] in Ha. rewrite Ha. clear Ha r.
    destruct (header_fields _ _ _ Hh) as (_ & _ & Htok).
    pose proof (ServeHTTP_spec now1 now2 {| AgentAuth.rq_NodeID := aq_NodeID req; rq_Token := aq_Token req |}
      u s Hc Hu Htok) as Hs. cbv zeta in Hs.
    destruct (ServeHTTP _ _ _ _ s) as [resp s']. cbn [fst snd rq_Token] in *. destruct Hs as [_ Hs].
    rewrite Hpr in Hs. destruct Hs as [Hok Hno]. split.
    + intros n Hm Hn -> Hraw. destruct (Hok n Hm Hn) as [-> _].
      rewrite answer_granted; [done|eapply (granted_plain now1 u (aq_Token req)); [done|right; eauto]|done].
    + intros Hbad. destruct (Hno Hbad) as [-> _]. done.
Qed.
End mux.

(** ** Witnesses *)

#[export] Instance request_eq_dec : EqDecision AgentAuth.request.
Proof. solve_decision. Defined.
#[export] Instance request_countable : Countable AgentAuth.request.
Proof.
  by refine (inj_countable' (fun r => (AgentAuth.rq_NodeID r, rq_Token r)) (fun '(a, b) => AgentAuth.Build_request a b) _);
  intros [].
Defined.
#[export] Instance response_eq_dec : EqDecision wireResponse.
Proof. solve_decision. Defined.
#[export] Instance response_countable : Countable wireResponse.
Proof.
  by refine (inj_countable' (fun r => (rp_OK r, rp_NodeID r, rp_AccessPolicy r, rp_OwnerTeamID r, rp_AgentVersionSeen r))
    (fun '(a, b, c, d, e) => Build_response a b c d e) _); intros [].
Defined.
#[export] Instance AuthRequest_eq_dec : EqDecision AuthRequest.
Proof. solve_decision. Defined.
#[export] Instance AuthRequest_countable : Countable AuthRequest.
Proof.
  by refine (inj_countable' (fun r => (aq_NodeID r, aq_Token r, aq_AgentVersion r))
    (fun '(a, b, c) => Build_AuthRequest a b c) _); intros [].
Defined.
#[export] Instance sshTicketRequest_eq_dec : EqDecision sshTicketRequest.
Proof. solve_decision. Defined.
#[export] Instance sshTicketRequest_countable : Countable sshTicketRequest.
Proof.
  by refine (inj_countable' (fun r => (tr_SubdomainPrefix r, tr_SSHKeyFingerprint r))
    (fun '(a, b) => Build_sshTicketRequest a b) _); intros [].
Defined.
#[export] Instance Signed_eq_dec : EqDecision Signed.
Proof. solve_decision. Defined.
#[export] Instance Signed_countable : Countable Signed.
Proof.
  by refine (inj_countable' (fun r => (sg_Payload r, sg_Signature r)) (fun '(a, b) => Build_Signed a b) _); intros [].
Defined.
#[export] Instance error_body_plain : Plain error_body := fun b => valid_utf8 (eb_error b) && valid_utf8 (eb_message b).
#[export] Instance error_body_eq_dec : EqDecision error_body.
Proof. solve_decision. Defined.
#[export] Instance error_body_countable : Countable error_body.
Proof.
  by refine (inj_countable' (fun r => (eb_error r, eb_message r)) (fun '(a, b) => Build_error_body a b) _); intros [].
Defined.

Section witnesses.
#[local] Existing Instances demo_bcrypt DemoUUID.lib demo_json DemoJSON.countable_codec DemoJSON.json DemoJSON.laws.

#[local] Instance demo_uuid_text : UUIDText.
Proof.
  assert (forall p, valid_utf8 (DemoUUID.pos_text p) = true) as Hp by by induction p.
  intros [|p]; [done|apply Hp].
Qed.

Definition demo_routers : Routers :=
  {| rs_instances := true; rs_credits := true; rs_adminToken := "adm"; rs_internal := Some (true, "int"); rs_user := None |}.

Definition hello : AuthRequest := {| aq_NodeID := uuid_String 3; aq_Token := "secret"; aq_AgentVersion := "v1" |}.

Definition demo_conn : conn_script :=
  {| cs_handshake := None; cs_input := DemoJSON.text hello +:+ newline; cs_fin := EOF; cs_yamux := None |}.

Definition demo_auth_state : AuthState := {| as_pg := token_pg None; as_cache := NewHandler 60 |}.

Lemma demo_utf8 : utf8_nodes demo_auth_state.
Proof.
  split.
  - intros u n Hn. change (db_nodes (pg_db (as_pg demo_auth_state))) with ({[ 3%N := demo_node ]} : gmap UUID Node) in Hn.
    apply lookup_singleton_Some in Hn as [<- <-]. reflexivity.
  - intros k e He. exfalso. exact (lookup_empty_Some k e He).
Qed.

Definition demo_verifier : HTTPVerifier := NewHTTPVerifier "int" 0.

Lemma demo_presented :
  presented demo_routers 1000 demo_conn demo_auth_state demo_verifier hello "int" 3%N.
Proof.
  split; try (vm_compute; reflexivity).
  eexists. split; [|reflexivity]. vm_compute. lia.
Qed.

Lemma mux_session_authenticated_witness :
  (handleConn (H := main_api demo_routers ticket_deps "s" 1000 1001) 1000 1001 demo_conn (demo_auth_state, demo_verifier)).1
    = Attached (uuid_String 3) (nd_AgentVersion demo_node).
Proof.
  pose proof (mux_session_authenticated demo_routers ticket_deps "s" 1000 1001 1000 1001 demo_conn demo_auth_state
    demo_verifier demo_utf8) as [_ H].
  destruct (H hello "int" 3%N demo_presented eq_refl) as [Hok _]. apply (Hok demo_node); [|reflexivity|reflexivity|].
  - apply active_match_exists. vm_compute. reflexivity.
  - eexists. split; [reflexivity|]. vm_compute. lia.
Defined.
End witnesses.
