(* ===== verification/MuxRevocation.v ===== *)
(** * How long a revoked token can still attach an agent

    main-api caches its positive answers, and the mux server caches the
    answers of main-api: a step relation over both caches, interleaved
    requests on both sides, database writes and the clock. *)

From S2P Require Import Prelude GoStrings Proto Db Queries AccountQueries Demo Http Auth AgentAuth Wire MuxServer.

#[local] Open Scope string_scope.
#[local] Open Scope list_scope.

(** Both processes; the two read the same clock ([sy_now] of main-api). *)
Record psys := {
  ps_api : AgentAuth.sys;
  ps_ver : HTTPVerifier;
  ps_calls : gmap nat (vkey * Time);         (* calls of [Verify] at main-api, and since when *)
  (* what happened: the (asked, answered) times of the calls accepted, and
     the agents admitted *)
  ps_done : list (Time * Time);
  ps_admitted : list (vkey * Time)
}.

Abbreviation pnow p := (sy_now (ps_api p)).

Section system.
Context `{UUIDLib, Bcrypt}.

Inductive pstep (p : psys) : psys -> Prop :=
  | p_api a : AgentAuth.step (ps_api p) a ->
      pstep p {| ps_api := a; ps_ver := ps_ver p; ps_calls := ps_calls p; ps_done := ps_done p;
                 ps_admitted := ps_admitted p |}
  | p_hit key r : vprobe (pnow p) key (ps_ver p) = Some r ->
      pstep p {| ps_api := ps_api p; ps_ver := ps_ver p; ps_calls := ps_calls p; ps_done := ps_done p;
                 ps_admitted := (key, pnow p) :: ps_admitted p |}
  | p_ask i key : ps_calls p !! i = None -> vprobe (pnow p) key (ps_ver p) = None ->
      pstep p {| ps_api := ps_api p; ps_ver := ps_ver p; ps_calls := <[i := (key, pnow p)]> (ps_calls p);
                 ps_done := ps_done p; ps_admitted := ps_admitted p |}
  | p_accept i key t0 u tg r :     (* main-api answered this question at [tg], positively *)
      ps_calls p !! i = Some (key, t0) -> uuid_Parse key.1 = Ok u ->
      ((u, key.2), tg) ∈ sy_granted (ps_api p) -> (t0 <= tg)%Z ->
      pstep p {| ps_api := ps_api p; ps_ver := vstore (pnow p) key r (ps_ver p);
                 ps_calls := delete i (ps_calls p); ps_done := (t0, pnow p) :: ps_done p;
                 ps_admitted := (key, pnow p) :: ps_admitted p |}
  | p_fail i :                     (* refused, no answer, or not understood *)
      pstep p {| ps_api := ps_api p; ps_ver := ps_ver p; ps_calls := delete i (ps_calls p);
                 ps_done := ps_done p; ps_admitted := ps_admitted p |}.

Definition psys_init (ttlA ttlV : Z) (now : Time) (pg : Pg) : psys :=
  {| ps_api := sys_init ttlA now pg; ps_ver := NewHTTPVerifier "" ttlV; ps_calls := ∅; ps_done := [];
     ps_admitted := [] |}.

Definition preachable (ttlA ttlV : Z) (p : psys) : Prop :=
  exists now pg, rtc pstep (psys_init ttlA ttlV now pg) p.

(** A positive answer to this question, read by the verifier at [ts]. *)
Definition confirmed (p : psys) (key : vkey) (ts : Time) : Prop :=
  exists u tg t0, uuid_Parse key.1 = Ok u /\ ((u, key.2), tg) ∈ sy_granted (ps_api p) /\ (t0 <= tg)%Z /\
    (t0, ts) ∈ ps_done p.

Record psys_inv (ttlA ttlV : Z) (p : psys) : Prop := {
  pi_api : AgentAuth.reachable ttlA (ps_api p);
  pi_ttl : hv_cacheTTL (ps_ver p) = Z.max 0 ttlV;
  pi_cache : forall key e, hv_cache (ps_ver p) !! key = Some e ->
    exists ts, confirmed p key ts /\ ve_expiresAt e = (ts + Z.max 0 ttlV)%Z;
  pi_admitted : forall key t, (key, t) ∈ ps_admitted p ->
    exists ts, confirmed p key ts /\ (t = ts \/ (t < ts + Z.max 0 ttlV)%Z)
}.

Lemma granted_grows a a' : AgentAuth.step a a' -> sy_granted a ⊆ sy_granted a'.
Proof. destruct 1; simpl; try done; intros x Hx; by right. Qed.

(** What was confirmed stays so. *)
Lemma confirmed_step p p' key ts : pstep p p' -> confirmed p key ts -> confirmed p' key ts.
Proof.
  intros Hs (u & tg & t0 & Hu & Hg & Ht & Hd). exists u, tg, t0.
  destruct Hs as [a Ha| | | |]; simpl; split_and!; try done; [|by right].
  eapply granted_grows; done.
Qed.

Lemma psys_inv_step ttlA ttlV p p' : psys_inv ttlA ttlV p -> pstep p p' -> psys_inv ttlA ttlV p'.
Proof.
  intros [Hapi Httl Hcache Hadm] Hs.
  assert (forall key e, hv_cache (ps_ver p) !! key = Some e ->
    exists ts, confirmed p' key ts /\ ve_expiresAt e = (ts + Z.max 0 ttlV)%Z) as Hcache'.
  { intros key e Hk. destruct (Hcache key e Hk) as (ts & Hc & He). exists ts. split; [by eapply confirmed_step|done]. }
  assert (forall key t, (key, t) ∈ ps_admitted p ->
    exists ts, confirmed p' key ts /\ (t = ts \/ (t < ts + Z.max 0 ttlV)%Z)) as Hadm'.
  { intros key t Ht. destruct (Hadm key t Ht) as (ts & Hc & Hor). exists ts. split; [by eapply confirmed_step|done]. }
  destruct Hs as [a Ha|key r Hp|i key Hi Hp|i key t0 u tg r Hi Hu Hg Ht|i]; split; try done.
  - destruct Hapi as (now & pg & Hr). exists now, pg. eapply rtc_r; done.
  - simpl. intros key' t [[= -> ->]|Hin]%elem_of_cons; [|by apply Hadm'].
    unfold vprobe in Hp. destruct (0 <? _)%Z; [|done].
    destruct (hv_cache (ps_ver p) !! key) as [e|] eqn:Ee; [|done].
    destruct (Z.ltb_spec (pnow p) (ve_expiresAt e)); [|done].
    destruct (Hcache' key e Ee) as (ts & Hc & He). exists ts. split; [done|right; lia].
  - simpl. unfold vstore. by destruct (0 <? _)%Z.
  - simpl. intros key' e He. unfold vstore in He. destruct (0 <? _)%Z; [|by apply Hcache'].
    cbn [hv_cache] in He. apply lookup_insert_Some in He as [[<- <-]|[_ He]]; [|by apply Hcache'].
    exists (pnow p). split; [|simpl; by rewrite Httl]. exists u, tg, t0. split_and!; [done..|left].
  - simpl. intros key' t [[= -> ->]|Hin]%elem_of_cons; [|by apply Hadm'].
    exists (pnow p). split; [|by left]. exists u, tg, t0. split_and!; [done..|left].
Qed.

Lemma psys_inv_reachable ttlA ttlV p : preachable ttlA ttlV p -> psys_inv ttlA ttlV p.
Proof.
  intros (now & pg & Hr). assert (psys_inv ttlA ttlV (psys_init ttlA ttlV now pg)) as Hinit.
  { split; simpl.
    - exists now, pg. apply rtc_refl.
    - destruct (Z.ltb_spec ttlV 0); lia.
    - intros key e He. by apply lookup_empty_Some in He.
    - intros key t Hin. by apply not_elem_of_nil in Hin. }
  induction Hr as [p|p p1 p2 Hs _ IH]; [done|]. apply IH. by eapply psys_inv_step.
Qed.
End system.

(** C17: the revocation budget of the two caches.  Over any interleaving of
    requests to main-api, database writes, connections of agents and the
    clock: suppose every lookup of main-api that succeeded stored its answer
    within [d] of reading the tokens, every accepted call of the verifier
    took at most [e], and from [r] on no read of the tokens saw an active one
    that matches (it was revoked at [r]).  Then no agent is admitted with
    that token at [r + d] plus main-api's cache lifetime, plus [e], plus the
    verifier's, or later; whatever textual form of the node id it sends. *)
Theorem admission_latency `{UUIDLib, Bcrypt} ttlA ttlV p key u r d e :
  preachable ttlA ttlV p -> uuid_Parse key.1 = Ok u ->
  (forall t0 ts, (t0, ts) ∈ sy_lookups (ps_api p) -> (ts <= t0 + d)%Z) ->
  (forall t0 ts, (t0, ts) ∈ ps_done p -> (ts <= t0 + e)%Z) ->
  (forall t0 db, (t0, db) ∈ sy_reads (ps_api p) -> (r <= t0)%Z -> ~ active_match db (u, key.2)) ->
  forall t, (key, t) ∈ ps_admitted p -> (t < r + d + Z.max 0 ttlA + e + Z.max 0 ttlV)%Z.
Proof.
  intros Hr Hu Hd He Hrev t Ht. apply psys_inv_reachable in Hr as [Hapi _ _ Hadm].
  destruct (Hadm key t Ht) as (ts & (u' & tg & t0 & Hu' & Hg & Hle & Hdone) & Hor).
  assert (u' = u) as -> by congruence.
  pose proof (revocation_latency ttlA (ps_api p) (u, key.2) r d Hapi Hd Hrev tg Hg).
  pose proof (He t0 ts Hdone). lia.
Qed.

(** ** Witness *)
Section witness.
#[local] Existing Instances demo_bcrypt DemoUUID.lib.

Definition agent_vkey : vkey := (uuid_String 3, "secret").

(** main-api's run [revoked_run] (revoked at 20, still answered from its cache
    at 70); the verifier reads that answer at 71 and admits from its own
    cache at 100. *)
Definition revoked_admission : psys :=
  {| ps_api := {| sy_now := 100; sy_pg := sy_pg revoked_run; sy_cache := sy_cache revoked_run;
                  sy_tasks := sy_tasks revoked_run; sy_reads := sy_reads revoked_run;
                  sy_lookups := sy_lookups revoked_run; sy_granted := sy_granted revoked_run |};
     ps_ver := vstore 71 agent_vkey (auth_result (granted 3 (auth_info demo_node 3))) (NewHTTPVerifier "" 30);
     ps_calls := ∅; ps_done := [(70, 71)%Z]; ps_admitted := [(agent_vkey, 100%Z); (agent_vkey, 71%Z)] |}.

Lemma api_run a a' v calls done adm :
  rtc AgentAuth.step a a' ->
  rtc pstep {| ps_api := a; ps_ver := v; ps_calls := calls; ps_done := done; ps_admitted := adm |}
    {| ps_api := a'; ps_ver := v; ps_calls := calls; ps_done := done; ps_admitted := adm |}.
Proof.
  induction 1 as [|a a1 a2 Hs _ IH]; [apply rtc_refl|]. eapply rtc_l; [|exact IH].
  by apply (p_api {| ps_api := a; ps_ver := v; ps_calls := calls; ps_done := done; ps_admitted := adm |}).
Qed.

Lemma revoked_admission_reachable : preachable 60 30 revoked_admission.
Proof.
  destruct revoked_run_reachable as (now & pg & Hr). exists now, pg.
  etransitivity; [apply api_run; exact Hr|].
  eapply rtc_l; [apply (p_ask _ 0 agent_vkey); vm_compute; reflexivity|]. cbn [ps_api ps_ver ps_calls ps_done ps_admitted].
  eapply rtc_l; [eapply p_api, (AgentAuth.st_time _ 71); vm_compute; congruence|].
  cbn [ps_api ps_ver ps_calls ps_done ps_admitted].
  eapply rtc_l.
  { eapply (p_accept _ 0 agent_vkey 70%Z 3%N 70%Z (auth_result (granted 3 (auth_info demo_node 3))));
      [vm_compute; reflexivity..|left|lia]. }
  cbn [ps_api ps_ver ps_calls ps_done ps_admitted].
  eapply rtc_l; [eapply p_api, (AgentAuth.st_time _ 100); vm_compute; congruence|].
  cbn [ps_api ps_ver ps_calls ps_done ps_admitted].
  eapply rtc_l; [eapply (p_hit _ agent_vkey); vm_compute; reflexivity|].
  cbn [ps_api ps_ver ps_calls ps_done ps_admitted].
  match goal with |- rtc _ ?x ?y => replace y with x; [apply rtc_refl|vm_compute; reflexivity] end.
Qed.

Lemma admission_latency_witness :
  (agent_vkey, 100%Z) ∈ ps_admitted revoked_admission /\ (100 < 20 + 1 + 60 + 1 + 30)%Z.
Proof.
  assert ((agent_vkey, 100%Z) ∈ ps_admitted revoked_admission) as Hin by left.
  split; [exact Hin|].
  apply (admission_latency 60 30 revoked_admission agent_vkey 3%N 20 1 1 revoked_admission_reachable);
    [vm_compute; reflexivity| | | |exact Hin].
  - intros t0 ts [= -> ->]%list_elem_of_singleton. lia.
  - intros t0 ts [= -> ->]%list_elem_of_singleton. lia.
  - intros t0 db [= -> ->]%list_elem_of_singleton. lia.
Defined.
End witness.
