(* ===== verification/SSHProxy.v ===== *)
(** * ssh-proxy: from an SSH channel to the node's session

    internal/router, internal/server, internal/ticketclient and
    internal/tunnelhandler up to the point where bytes are relayed: which
    targets are accepted, the ticket fetched for the client's key, and the
    stream opened to the node the ticket names. *)

From S2P Require Import Prelude GoStrings GoCrypto Proto Db Http RateLimiter SSHTicket TicketEndpoint Wire MuxRegistry.
From Stdlib Require Import Ascii.

#[local] Open Scope string_scope.
#[local] Open Scope list_scope.
#[local] Open Scope go_scope.

(** ** router.go *)

Definition ErrWrongZone : error := Sentinel "router: target host not in zone".
Definition ErrBadSubdomain : error := Sentinel "router: malformed subdomain".

Record Route := { ro_Prefix : string; ro_Zone : string }.

Definition ExtractRoute (target zone : string) : result Route :=
  let target := ToLower (TrimSuffix target ".") in
  let zone := ToLower (TrimPrefix zone ".") in
  if String.eqb zone "" then Err (ErrNew "router: zone is empty")
  else
    let suffix := "." +:+ zone in
    if negb (HasSuffix target suffix) then Err ErrWrongZone
    else
      let prefix := TrimSuffix target suffix in
      if String.eqb prefix "" || Contains prefix "." then Err ErrBadSubdomain
      else Ok {| ro_Prefix := prefix; ro_Zone := zone |}.

(** ** server.go *)

Record ConnInfo := { ci_Fingerprint : string; ci_RemoteAddr : string }.

(** [Handler]: what a channel does once its target is accepted; it owns the
    channel and closes it. *)
Class Handler (S : Type) := Connect : ConnInfo -> string (* prefix *) -> ST S (option error).

Definition DenyHandler {S} (reason : string) : Handler S := fun _ _ =>
  ret (Some (ErrNew (if String.eqb reason "" then "proxy: tunnel not implemented" else "proxy: " +:+ reason))).

(** [Config] without the handler: whether host keys are given, and the
    limits. *)
Record ServerConfig := {
  sc_Zone : string;
  sc_HostKeys : nat;
  sc_HandshakeTimeout : Z;
  sc_MaxConcurrentConns : Z;
  sc_IdleTimeout : Z
}.

Definition or_positive (v d : Z) : Z := if (v <=? 0)%Z then d else v.

Definition NewServer (cfg : ServerConfig) : result ServerConfig :=
  if String.eqb (sc_Zone cfg) "" then Err (ErrNew "server: Zone required")
  else if (sc_HostKeys cfg =? 0)%nat then Err (ErrNew "server: at least one host key required")
  else Ok {| sc_Zone := sc_Zone cfg; sc_HostKeys := sc_HostKeys cfg;
             sc_HandshakeTimeout := or_positive (sc_HandshakeTimeout cfg) (15 * second);
             sc_MaxConcurrentConns := or_positive (sc_MaxConcurrentConns cfg) 1024;
             sc_IdleTimeout := or_positive (sc_IdleTimeout cfg) (60 * second) |}.

Record directTCPIPReq := { dt_Host : string; dt_Port : Z; dt_OriginHost : string; dt_OriginPort : Z }.

(** x/crypto/ssh: the payload of a channel-open request. *)
Class SSHWire := ssh_Unmarshal : string -> result directTCPIPReq.

(** A channel the client asks for; [nc_accept] is the error of [Accept]. *)
Record NewChannel := { nc_ChannelType : string; nc_ExtraData : string; nc_accept : option error }.

Inductive RejectionReason := Prohibited | ConnectionFailed.

Inductive chan_outcome :=
  | Rejected (why : RejectionReason) (msg : string)
  | AcceptFailed (e : error)
  | Handled (err : option error).

Section server.
Context {S : Type} `{Handler S, SSHWire}.

Definition handleDirectTCPIP (zone : string) (info : ConnInfo) (nc : NewChannel) : ST S chan_outcome :=
  match ssh_Unmarshal (nc_ExtraData nc) with
  | Err _ => ret (Rejected ConnectionFailed "malformed direct-tcpip payload")
  | Ok req =>
      match ExtractRoute (dt_Host req) zone with
      | Err _ => ret (Rejected Prohibited "target not in hybrid-cloud zone")
      | Ok route =>
          if negb (dt_Port req =? 22)%Z then ret (Rejected Prohibited "only port 22 is forwarded")
          else match nc_accept nc with
               | Some e => ret (AcceptFailed e)
               | None => err <- Connect info (ro_Prefix route) ;; ret (Handled err)
               end
      end
  end.

(** The loop of [handleConn] over the channels of a connection: the outcome
    of each, and whether the idle timer was stopped. *)
Fixpoint serve_channels (zone : string) (info : ConnInfo) (chans : list NewChannel)
    : ST S (list chan_outcome * bool) :=
  match chans with
  | [] => ret ([], false)
  | nc :: rest =>
      o <- (if String.eqb (nc_ChannelType nc) "direct-tcpip" then handleDirectTCPIP zone info nc
            else ret (Rejected Prohibited
                   ("channel type " +:+ Quote (nc_ChannelType nc) +:+ " not supported; use direct-tcpip (ProxyJump)"))) ;;
      r <- serve_channels zone info rest ;;
      ret (o :: r.1, String.eqb (nc_ChannelType nc) "direct-tcpip" || r.2)
  end.
End server.

(** ** ticketclient *)

(** What the tunnel handler needs of it. *)
Class TicketIssuer (S : Type) := issue_ticket : string (* prefix *) -> string (* fingerprint *) -> ST S (result Signed).

Section ticketclient.
Context {S : Type} `{MainAPI S, JSON sshTicketRequest, JSON Signed}.

(** [Issue] of a client with this token. *)
Definition client_Issue (token : string) : TicketIssuer S := fun prefix fingerprint =>
  match json_text {| tr_SubdomainPrefix := prefix; tr_SSHKeyFingerprint := fingerprint |} with
  | Err e => ret (Err (ErrWrap "encode request: " e ""))
  | Ok body =>
      r <- api_post "/internal/ssh-ticket" ("Bearer " +:+ token) body ;;
      ret match r with
      | Err e => Err (ErrWrap "POST /internal/ssh-ticket: " e "")
      | Ok (status, text) =>
          if negb (status =? StatusOK)%Z then
            Err (ErrNew ("ticket status " +:+ Itoa status +:+ ": " +:+ LimitReader 1024 text))
          else match json_parse (LimitReader 16384 text) with
               | Err e => Err (ErrWrap "decode: " e "")
               | Ok signed => Ok signed
               end
      end
  end.
End ticketclient.

(** ** tunnelhandler *)

Record ticketPayload := {
  tp_SessionID : string;
  tp_InstanceID : string;
  tp_NodeID : string;
  tp_VMInternalIP : string;
  tp_VMPort : Z;
  tp_ExpiresAt : Time
}.

Record streamHeader := {
  sh_InstanceID : string;
  sh_VMInternalIP : string;
  sh_VMPort : Z;
  sh_ExpiresAt : Time
}.
#[export] Instance streamHeader_plain : Plain streamHeader := fun h =>
  valid_utf8 (sh_InstanceID h) && valid_utf8 (sh_VMInternalIP h) && (0 <=? sh_VMPort h)%Z && (sh_VMPort h <? 65536)%Z.

(** encoding/json from a ticket's text to the fields the relay reads. *)
Class PayloadJSON := payload_Unmarshal : string -> result ticketPayload.

(** [StreamOpener]: a stream on the session of a node; the session it is on. *)
Class StreamOpener (S : Type) := open_stream : string -> ST S (result nat).

Definition relay_skew : Z := second.

(** The check shared by the relay and the agent. *)
Definition stale (now expires : Time) : bool :=
  negb (bool_decide (expires = zeroTime)) && (expires - relay_skew <? now)%Z.

(** How a channel is dealt with: closed with an error or without, or bytes
    flow on a session after this header line. *)
Inductive relay_start := Closed (e : error) | Ended | Pumping (session : nat) (line : string).

(** Which dependencies are wired. *)
Record Relayer := { ry_Opener : bool }.
Record TunnelHandler := { th_Tickets : bool; th_AfterTicket : option Relayer }.

Section tunnelhandler.
Context {S : Type} `{TicketIssuer S, StreamOpener S, PayloadJSON, JSON streamHeader}.

Definition header_of (p : ticketPayload) : streamHeader :=
  {| sh_InstanceID := tp_InstanceID p; sh_VMInternalIP := tp_VMInternalIP p; sh_VMPort := tp_VMPort p;
     sh_ExpiresAt := tp_ExpiresAt p |}.

Definition header_line (h : streamHeader) : string :=
  match json_text h with Ok raw => raw | Err _ => "" end +:+ newline.

(** The payload of a ticket, checked (the time in the last message is left
    out). *)
Definition read_payload (now : Time) (signed : Signed) : result ticketPayload :=
  match StdEncoding_DecodeString (sg_Payload signed) with
  | Err e => Err (ErrWrap "decode ticket payload: " e "")
  | Ok raw =>
      match payload_Unmarshal (of_bytes raw) with
      | Err e => Err (ErrWrap "parse ticket payload: " e "")
      | Ok p =>
          if String.eqb (tp_NodeID p) "" then Err (ErrNew "ticket missing node_id")
          else if String.eqb (tp_VMInternalIP p) "" || (tp_VMPort p =? 0)%Z then Err (ErrNew "ticket missing vm address")
          else if stale now (tp_ExpiresAt p) then Err (ErrNew "ticket expired")
          else Ok p
      end
  end.

(** [Relay] up to the copying; [write] is the error of writing the header. *)
Definition Relay (r : Relayer) (now : Time) (write : option error) (signed : Signed) : ST S relay_start :=
  if negb (ry_Opener r) then ret (Closed (ErrNew "tunnelhandler: no StreamOpener configured"))
  else match read_payload now signed with
  | Err e => ret (Closed e)
  | Ok p =>
      r <- open_stream (tp_NodeID p) ;;
      ret match r with
          | Err e => Closed (ErrWrap ("open mux stream for node " +:+ tp_NodeID p +:+ ": ") e "")
          | Ok session =>
              match write with
              | Some e => Closed (ErrWrap "write stream header: " e "")
              | None => Pumping session (header_line (header_of p))
              end
          end
  end.

(** [Connect]. *)
Definition tunnel_Connect (h : TunnelHandler) (now : Time) (write : option error) (info : ConnInfo) (prefix : string)
    : ST S relay_start :=
  if negb (th_Tickets h) then ret (Closed (ErrNew "tunnelhandler: no ticket issuer configured"))
  else if String.eqb (ci_Fingerprint info) "" then ret (Closed (ErrNew "tunnelhandler: missing client fingerprint"))
  else
    r <- issue_ticket prefix (ci_Fingerprint info) ;;
    match r with
    | Err e => ret (Closed (ErrWrap "ticket: " e ""))
    | Ok signed => match th_AfterTicket h with
                   | None => ret Ended
                   | Some r => Relay r now write signed
                   end
    end.
End tunnelhandler.
