(* ===== verification/StreamClient.v ===== *)
(** * compute-agent: the control stream to main-api

    internal/stream/client.go: what one session does and the loop that
    reconnects; the backoff is that of internal/muxclient too.  What the peer
    and the clock do is a script; the random draws of the jitter are part of
    it. *)

From S2P Require Import Prelude GoStrings Proto LibvirtManager Topology.

#[local] Open Scope string_scope.
#[local] Open Scope list_scope.

(** [context.Canceled]. *)
Definition ctxCanceled : error := Sentinel "context canceled".

(** ** Backoff, which both files define alike *)

Definition int64 (z : Z) : Z := ((z + 2 ^ 63) mod 2 ^ 64 - 2 ^ 63)%Z.

Definition nextBackoff (cur max : Z) : Z :=
  let n := int64 (cur * 2) in if (max <? n)%Z then max else n.

(** [draw] is [rand.Int64N(half+1)]. *)
Definition jitter (draw d : Z) : Z := if (d <=? 0)%Z then 0%Z else int64 (d + draw).
Definition fair_draw (draw d : Z) : Prop := (0 <= draw <= d / 2)%Z.

(** ** The client *)

Record Config := {
  cf_Endpoint : string;
  cf_NodeName : string;
  cf_Hostname : string;
  cf_AgentVersion : string;
  cf_AgentToken : string;
  cf_Topology : bool;              (* a collector is given *)
  cf_InitialBackoff : Z;
  cf_MaxBackoff : Z
}.

(** [New]; the collector, dialer, callback and logger also get defaults. *)
Definition New (cfg : Config) : result Config :=
  if String.eqb (cf_Endpoint cfg) "" then Err (ErrNew "stream.New: Endpoint required")
  else if String.eqb (cf_NodeName cfg) "" then Err (ErrNew "stream.New: NodeName required")
  else if String.eqb (cf_AgentToken cfg) "" then Err (ErrNew "stream.New: AgentToken required")
  else Ok {| cf_Endpoint := cf_Endpoint cfg; cf_NodeName := cf_NodeName cfg; cf_Hostname := cf_Hostname cfg;
             cf_AgentVersion := cf_AgentVersion cfg; cf_AgentToken := cf_AgentToken cfg; cf_Topology := true;
             cf_InitialBackoff := if (cf_InitialBackoff cfg <=? 0)%Z then second else cf_InitialBackoff cfg;
             cf_MaxBackoff := if (cf_MaxBackoff cfg <=? 0)%Z then (60 * second)%Z else cf_MaxBackoff cfg |}.

(** One session: how dialing, opening, collecting and sending go, the first
    message of the server, and the error of the first of the three goroutines
    (sender, heartbeats, reader) to end; no error is the server's EOF. *)
Record session := {
  sn_dial : option error;
  sn_open : option error;
  sn_topology : result Topology;
  sn_send : option error;
  sn_ack : result ControlMessage;
  sn_end : option error
}.

Inductive event := SentRegister (r : RegisterMsg) | Registered (nodeID : string) (interval : Z).

Definition register_message (cfg : Config) (top : Topology) : RegisterMsg :=
  {| rg_NodeName := cf_NodeName cfg; rg_Hostname := cf_Hostname cfg; rg_AgentVersion := cf_AgentVersion cfg;
     rg_AgentToken := cf_AgentToken cfg; rg_Topology := Some top; rg_AgentTunnelEndpoint := "" |}.

Definition heartbeat_interval (seconds : Z) : Z :=
  let d := (seconds * second)%Z in if (d <=? 0)%Z then (15 * second)%Z else d.

Definition runOnce (cfg : Config) (s : session) : list event * option error :=
  match sn_dial s with
  | Some e => ([], Some (ErrWrap "dial: " e ""))
  | None =>
  match sn_open s with
  | Some e => ([], Some (ErrWrap "open stream: " e ""))
  | None =>
  match sn_topology s with
  | Err e => ([], Some (ErrWrap "collect topology: " e ""))
  | Ok top =>
  let m := register_message cfg top in
  match sn_send s with
  | Some e => ([SentRegister m], Some (ErrWrap "send Register: " e ""))
  | None =>
  match sn_ack s with
  | Err e => ([SentRegister m], Some (ErrWrap "recv RegisterAck: " e ""))
  | Ok (CM_RegisterAck nodeID seconds) =>
      ([SentRegister m; Registered nodeID (heartbeat_interval seconds)], sn_end s)
  | Ok _ => ([SentRegister m], Some (ErrNew "expected RegisterAck"))
  end end end end end.

(** One turn of [Run]: the context when it starts, the session, the context
    after it, the draw of the jitter, and the context while it waits. *)
Record turn := {
  tn_ctx : Ctx;
  tn_session : session;
  tn_after : Ctx;
  tn_draw : Z;
  tn_wait : Ctx
}.

(** [Run]: the waits, and what it returned, unless the script ends first. *)
Fixpoint run (cfg : Config) (backoff : Z) (turns : list turn) : list Z * option Ctx :=
  match turns with
  | [] => ([], None)
  | t :: rest =>
      if tn_ctx t is Some e then ([], Some (Some e))
      else
        let err := (runOnce cfg (tn_session t)).2 in
        if (if err is Some e then errors_Is e ctxCanceled else false) || (if tn_after t is Some _ then true else false)
        then ([], Some (tn_after t))
        else
          let d := jitter (tn_draw t) backoff in
          if tn_wait t is Some e then ([d], Some (Some e))
          else let '(ds, r) := run cfg (nextBackoff backoff (cf_MaxBackoff cfg)) rest in (d :: ds, r)
  end.

Definition Run (cfg : Config) (turns : list turn) : list Z * option Ctx := run cfg (cf_InitialBackoff cfg) turns.
