(* ===== verification/MuxClient.v ===== *)
(** * compute-agent: the data plane session to ssh-proxy

    internal/muxclient/muxclient.go: what one attempt does and the loop that
    reconnects, against a script of what the network, the clock and the
    jitter's draws do. *)

From S2P Require Import Prelude GoStrings Proto LibvirtManager Wire MuxServer StreamClient.

#[local] Open Scope string_scope.
#[local] Open Scope list_scope.

Record Config := {
  cf_Endpoint : string;
  cf_ServerName : string;
  cf_NodeID : string;
  cf_AgentToken : string;
  cf_AgentVersion : string;
  cf_InitialBackoff : Z;
  cf_MaxBackoff : Z;
  cf_HandshakeTimeout : Z;
  cf_OnAttach : bool
}.

Definition or_duration (v d : Z) : Z := if (v <=? 0)%Z then d else v.

Definition validate (cfg : Config) : result Config :=
  if String.eqb (cf_Endpoint cfg) "" then Err (ErrNew "muxclient: Endpoint required")
  else if String.eqb (cf_NodeID cfg) "" then Err (ErrNew "muxclient: NodeID required")
  else if String.eqb (cf_AgentToken cfg) "" then Err (ErrNew "muxclient: AgentToken required")
  else if negb (cf_OnAttach cfg) then Err (ErrNew "muxclient: OnAttach required")
  else Ok {| cf_Endpoint := cf_Endpoint cfg;
             cf_ServerName := if String.eqb (cf_ServerName cfg) ""
                              then match SplitHostPort (cf_Endpoint cfg) with Some (h, _) => h | None => "" end
                              else cf_ServerName cfg;
             cf_NodeID := cf_NodeID cfg; cf_AgentToken := cf_AgentToken cfg; cf_AgentVersion := cf_AgentVersion cfg;
             cf_InitialBackoff := or_duration (cf_InitialBackoff cfg) second;
             cf_MaxBackoff := or_duration (cf_MaxBackoff cfg) (60 * second);
             cf_HandshakeTimeout := or_duration (cf_HandshakeTimeout cfg) (10 * second);
             cf_OnAttach := true |}.

Section mux.
Context `{JSON AuthRequest}.

(** How one attempt goes on the network. *)
Record network := {
  nw_dial : option error;
  nw_handshake : option error;
  nw_write : option error;
  nw_yamux : option error
}.

Definition auth_header (cfg : Config) : AuthRequest :=
  {| aq_NodeID := cf_NodeID cfg; aq_Token := cf_AgentToken cfg; aq_AgentVersion := cf_AgentVersion cfg |}.

(** The line written and its error. *)
Definition writeAuthHeader (cfg : Config) (write : option error) : string * option error :=
  match json_text (auth_header cfg) with
  | Err e => ("", Some e)
  | Ok raw => (raw +:+ newline, write)
  end.

(** The bytes sent after the handshake, and the error of the attempt; the
    answer of the server is not awaited. *)
Definition dialAndAuth (cfg : Config) (n : network) : string * option error :=
  match nw_dial n with
  | Some e => ("", Some (ErrWrap ("dial " +:+ cf_Endpoint cfg +:+ ": ") e ""))
  | None =>
      match nw_handshake n with
      | Some e => ("", Some (ErrWrap "tls handshake: " e ""))
      | None =>
          let '(line, err) := writeAuthHeader cfg (nw_write n) in
          match err with
          | Some e => (line, Some (ErrWrap "write auth header: " e ""))
          | None => (line, (fun e => ErrWrap "yamux client: " e "") <$> nw_yamux n)
          end
      end
  end.

(** One turn of [Run]; [tu_wait] is the context when the timer of [sleep] or
    the context fires, [tu_after] the context when the session has ended. *)
Record turn := {
  tu_ctx : Ctx;
  tu_network : network;
  tu_draw : Z;
  tu_wait : Ctx;
  tu_after : Ctx
}.

Inductive event := Slept (d : Z) | AttachedSession.

Fixpoint run (cfg : Config) (backoff : Z) (turns : list turn) : list event * option Ctx :=
  match turns with
  | [] => ([], None)
  | t :: rest =>
      if tu_ctx t is Some e then ([], Some (Some e))
      else if (dialAndAuth cfg (tu_network t)).2 is Some _ then
        let d := jitter (tu_draw t) backoff in
        if tu_wait t is Some e then ([Slept d], Some (Some e))
        else let '(es, r) := run cfg (nextBackoff backoff (cf_MaxBackoff cfg)) rest in (Slept d :: es, r)
      else if tu_after t is Some e then ([AttachedSession], Some (Some e))
      else let '(es, r) := run cfg (cf_InitialBackoff cfg) rest in (AttachedSession :: es, r)
  end.

Definition Run (cfg : Config) (turns : list turn) : result (list event * option Ctx) :=
  match validate cfg with
  | Err e => Err e
  | Ok cfg => Ok (run cfg (cf_InitialBackoff cfg) turns)
  end.
End mux.
