(* ===== verification/ReconnectProof.v ===== *)
(** * Reconnecting: how long the agent waits

    The waits of both loops are the doubled backoff capped at the maximum,
    plus at most half of it; the loops do not give up; and two differences
    from what their comments say. *)

From S2P Require Import Prelude GoStrings Proto LibvirtManager Topology Wire MuxServer StreamClient MuxClient.

#[local] Open Scope string_scope.
#[local] Open Scope list_scope.

(** The backoff after [k] failures in a row. *)
Definition capped (init max : Z) (k : nat) : Z := Z.min (init * 2 ^ Z.of_nat k) max.

(** The bounds on initial and maximal backoff under which nothing overflows
    (the maximum is about 97 years). *)
Definition sane (init max : Z) : Prop := (0 < init <= max)%Z /\ (max < 2 ^ 61)%Z.

Lemma int64_small z : (0 <= z < 2 ^ 63)%Z -> int64 z = z.
Proof. intros Hz. unfold int64. rewrite Z.mod_small; lia. Qed.

Lemma capped_bounds init max k : sane init max -> (0 < capped init max k <= max)%Z.
Proof.
  intros [[Hi Hm] _]. unfold capped. assert (0 < 2 ^ Z.of_nat k)%Z by (apply Z.pow_pos_nonneg; lia). nia.
Qed.

Lemma nextBackoff_capped init max k :
  sane init max -> nextBackoff (capped init max k) max = capped init max (S k).
Proof.
  intros Hs. pose proof (capped_bounds init max k Hs) as Hb. destruct Hs as [Him Hmax].
  unfold nextBackoff. rewrite int64_small by lia.
  unfold capped in *. rewrite Nat2Z.inj_succ, Z.pow_succ_r by lia.
  assert (0 < 2 ^ Z.of_nat k)%Z by (apply Z.pow_pos_nonneg; lia).
  destruct (Z.ltb_spec max (Z.min (init * 2 ^ Z.of_nat k) max * 2)); nia.
Qed.

(** A wait when the backoff is [d]. *)
Definition wait_of (d w : Z) : Prop := (d <= w <= d + d / 2)%Z.

Lemma jitter_wait draw d : (0 < d < 2 ^ 61)%Z -> fair_draw draw d -> wait_of d (jitter draw d).
Proof.
  intros Hd [H1 H2]. unfold jitter, wait_of. destruct (Z.leb_spec d 0); [lia|].
  assert (d / 2 <= d)%Z by (apply Z.div_le_upper_bound; lia). rewrite int64_small; lia.
Qed.

(** ** The control stream *)
Section stream.
Context (cfg : StreamClient.Config).
Let init := StreamClient.cf_InitialBackoff cfg.
Let max := StreamClient.cf_MaxBackoff cfg.

(** The draws a script holds are those of [rand.Int64N] at the turn's
    backoff. *)
Definition stream_fair (k : nat) (turns : list StreamClient.turn) : Prop :=
  forall i t, turns !! i = Some t -> fair_draw (StreamClient.tn_draw t) (capped init max (k + i)).

Lemma stream_run_waits k turns : sane init max -> stream_fair k turns ->
  forall i w, (StreamClient.run cfg (capped init max k) turns).1 !! i = Some w -> wait_of (capped init max (k + i)) w.
Proof.
  intros Hs. revert k. induction turns as [|t rest IH]; intros k Hf i w; cbn [StreamClient.run]; [done|].
  destruct (StreamClient.tn_ctx t); [done|].
  destruct (_ || _); [done|].
  assert (wait_of (capped init max k) (jitter (StreamClient.tn_draw t) (capped init max k))) as Hw.
  { pose proof (capped_bounds init max k Hs). destruct Hs as [_ Hmax]. apply jitter_wait; [lia|].
    pose proof (Hf 0 t eq_refl) as Hd. by rewrite Nat.add_0_r in Hd. }
  fold max. rewrite nextBackoff_capped by done.
  assert (stream_fair (S k) rest) as Hf'.
  { intros j t' Hj. specialize (Hf (S j) t' Hj). by rewrite Nat.add_succ_r in Hf. }
  specialize (IH (S k) Hf').
  destruct (StreamClient.tn_wait t).
  - destruct i as [|i]; [|done]. intros [= <-]. by rewrite Nat.add_0_r.
  - destruct (StreamClient.run cfg _ rest) as [ds r]. simpl in *. destruct i as [|i].
    + intros [= <-]. by rewrite Nat.add_0_r.
    + intros Hi. rewrite Nat.add_succ_r. by apply IH.
Qed.
End stream.

(** ** The data plane session *)
Section mux.
Context `{JSON AuthRequest} (cfg : MuxClient.Config).
Let init := MuxClient.cf_InitialBackoff cfg.
Let max := MuxClient.cf_MaxBackoff cfg.

(** How many waits end the list of events: failures since a session was last
    attached. *)
Fixpoint failures_from (k : nat) (es : list MuxClient.event) : nat :=
  match es with
  | [] => k
  | MuxClient.Slept _ :: rest => failures_from (S k) rest
  | MuxClient.AttachedSession :: rest => failures_from 0 rest
  end.

(** Every draw is one of [rand.Int64N] at the backoff it is drawn for. *)
Fixpoint mux_fair (k : nat) (turns : list MuxClient.turn) : Prop :=
  match turns with
  | [] => True
  | t :: rest =>
      if (MuxClient.dialAndAuth cfg (MuxClient.tu_network t)).2 is Some _
      then fair_draw (MuxClient.tu_draw t) (capped init max k) /\ mux_fair (S k) rest
      else mux_fair 0 rest
  end.

Lemma mux_run_waits k turns : sane init max -> mux_fair k turns ->
  forall i w, (MuxClient.run cfg (capped init max k) turns).1 !! i = Some (MuxClient.Slept w) ->
    wait_of (capped init max (failures_from k (take i (MuxClient.run cfg (capped init max k) turns).1))) w.
Proof.
  intros Hs. revert k. induction turns as [|t rest IH]; intros k Hf i w; cbn [MuxClient.run]; [done|].
  cbn [mux_fair] in Hf. destruct (MuxClient.tu_ctx t); [done|].
  destruct ((MuxClient.dialAndAuth cfg (MuxClient.tu_network t)).2) as [e|].
  - destruct Hf as [Hd Hf]. fold max. rewrite nextBackoff_capped by done. specialize (IH (S k) Hf).
    assert (wait_of (capped init max k) (jitter (MuxClient.tu_draw t) (capped init max k))) as Hw.
    { pose proof (capped_bounds init max k Hs). destruct Hs as [_ Hmax]. apply jitter_wait; [lia|done]. }
    destruct (MuxClient.tu_wait t); [destruct i as [|i]; [|done]; by intros [= <-]|].
    destruct (MuxClient.run cfg _ rest) as [es r]. simpl in *. destruct i as [|i]; [by intros [= <-]|].
    intros Hi. by apply IH.
  - assert (capped init max 0 = init) as H0.
    { unfold capped. destruct Hs. rewrite Z.pow_0_r. lia. }
    specialize (IH 0 Hf). rewrite H0 in IH. fold init.
    destruct (MuxClient.tu_after t); [destruct i as [|i]; [done|done]|].
    destruct (MuxClient.run cfg init rest) as [es r]. simpl in *. destruct i as [|i]; [done|].
    intros Hi. by apply IH.
Qed.

(** [Run] returns only because its context ended. *)
Lemma mux_run_ends backoff turns r : (MuxClient.run cfg backoff turns).2 = Some r -> exists e, r = Some e.
Proof.
  revert backoff. induction turns as [|t rest IH]; intros backoff; cbn [MuxClient.run]; [done|].
  destruct (MuxClient.tu_ctx t); [intros [= <-]; eauto|].
  destruct ((MuxClient.dialAndAuth cfg (MuxClient.tu_network t)).2).
  - destruct (MuxClient.tu_wait t); [intros [= <-]; eauto|]. specialize (IH (nextBackoff backoff (MuxClient.cf_MaxBackoff cfg))).
    by destruct (MuxClient.run cfg _ rest) as [es r'].
  - destruct (MuxClient.tu_after t); [intros [= <-]; eauto|]. specialize (IH (MuxClient.cf_InitialBackoff cfg)).
    by destruct (MuxClient.run cfg _ rest) as [es r'].
Qed.
End mux.

(** C19: the waits between attempts are exponential, capped and jittered.
    With 0 < initial <= maximal backoff (below 2^61 ns, so nothing wraps) and
    draws in the range of the random source: the i-th wait of the control
    stream, counted from the start of the agent, lies between b and b + b/2
    for b = min(initial * 2^i, maximum); the same holds of a wait of the data
    plane with i the number of failures since the last attached session; and
    the data plane loop never gives up: it returns only when its context has
    ended. *)
Theorem reconnect_waits `{JSON AuthRequest} scfg sturns mcfg mturns :
  sane (StreamClient.cf_InitialBackoff scfg) (StreamClient.cf_MaxBackoff scfg) -> stream_fair scfg 0 sturns ->
  sane (MuxClient.cf_InitialBackoff mcfg) (MuxClient.cf_MaxBackoff mcfg) -> mux_fair mcfg 0 mturns ->
  (forall i w, (StreamClient.Run scfg sturns).1 !! i = Some w ->
     wait_of (capped (StreamClient.cf_InitialBackoff scfg) (StreamClient.cf_MaxBackoff scfg) i) w) /\
  (forall es r i w, MuxClient.run mcfg (MuxClient.cf_InitialBackoff mcfg) mturns = (es, r) -> es !! i = Some (MuxClient.Slept w) ->
     wait_of (capped (MuxClient.cf_InitialBackoff mcfg) (MuxClient.cf_MaxBackoff mcfg) (failures_from 0 (take i es))) w) /\
  (forall r, (MuxClient.run mcfg (MuxClient.cf_InitialBackoff mcfg) mturns).2 = Some r -> exists e, r = Some e).
Proof.
  intros Hss Hsf Hms Hmf.
  assert (forall init max, sane init max -> init = capped init max 0) as H0.
  { intros init max [? _]. unfold capped. rewrite Z.pow_0_r. lia. }
  split_and!.
  - intros i w. unfold StreamClient.Run. rewrite (H0 _ _ Hss) at 1. by apply stream_run_waits.
  - intros es r i w He Hi. pose proof (mux_run_waits mcfg 0 mturns Hms Hmf i w) as Hw.
    rewrite <- (H0 _ _ Hms), He in Hw. by apply Hw.
  - apply mux_run_ends.
Qed.

(** ** What the comments promise otherwise *)

(** [Run]'s comment promises a short backoff after a session that ended with
    the server's EOF, but its backoff is never reset: with the default
    backoffs, from the seventh session end of the agent's life on, however
    long and healthy the sessions were, the wait is at least the 60 seconds
    after which main-api declares a node dead. *)
Theorem stream_backoff_never_resets cfg turns i w :
  StreamClient.cf_InitialBackoff cfg = second -> StreamClient.cf_MaxBackoff cfg = (60 * second)%Z -> stream_fair cfg 0 turns ->
  6 <= i -> (StreamClient.Run cfg turns).1 !! i = Some w -> (60 * second <= w)%Z.
Proof.
  intros Hinit Hmax Hf Hi Hw.
  assert (sane (StreamClient.cf_InitialBackoff cfg) (StreamClient.cf_MaxBackoff cfg)) as Hs.
  { rewrite Hinit, Hmax. unfold sane, second. lia. }
  pose proof (stream_run_waits cfg 0 turns Hs Hf i w) as H.
  unfold StreamClient.Run in Hw.
  assert (capped (StreamClient.cf_InitialBackoff cfg) (StreamClient.cf_MaxBackoff cfg) 0 = StreamClient.cf_InitialBackoff cfg) as H0
    by (rewrite Hinit, Hmax; reflexivity).
  rewrite H0 in H. specialize (H Hw) as [H _].
  assert (capped (StreamClient.cf_InitialBackoff cfg) (StreamClient.cf_MaxBackoff cfg) i = 60 * second)%Z as Hc; [|simpl in *; lia].
  rewrite Hinit, Hmax. unfold capped. assert (2 ^ 6 <= 2 ^ Z.of_nat i)%Z by (apply Z.pow_le_mono_r; lia).
  unfold second. lia.
Qed.

(** [dialAndAuth] does not wait for the server's verdict, and a session that
    ends is followed by the next attempt at once: an agent whose token is
    refused attaches and is closed again as often as the network allows,
    without any wait. *)
Theorem refused_agent_spins `{JSON AuthRequest} cfg net n backoff :
  (MuxClient.dialAndAuth cfg net).2 = None ->
  MuxClient.run cfg backoff (replicate n {| MuxClient.tu_ctx := None; MuxClient.tu_network := net; MuxClient.tu_draw := 0;
                                      MuxClient.tu_wait := None; MuxClient.tu_after := None |}) =
    (replicate n MuxClient.AttachedSession, None).
Proof.
  intros Hok. revert backoff. induction n as [|n IH]; intros backoff; [done|].
  cbn [replicate MuxClient.run MuxClient.tu_ctx MuxClient.tu_network MuxClient.tu_after]. rewrite Hok, IH. done.
Qed.

(** ** Witnesses *)
Section witnesses.
#[local] Instance AuthRequest_text : JSON AuthRequest :=
  {| json_text r := Ok (aq_NodeID r); json_parse _ := Err (ErrNew "") |}.

Definition demo_stream : StreamClient.Config :=
  {| StreamClient.cf_Endpoint := "api:8081"; StreamClient.cf_NodeName := "n1"; StreamClient.cf_Hostname := "h"; StreamClient.cf_AgentVersion := "v";
     StreamClient.cf_AgentToken := "t"; StreamClient.cf_Topology := true; StreamClient.cf_InitialBackoff := second;
     StreamClient.cf_MaxBackoff := 60 * second |}.

(** Seven sessions that end with the server's EOF. *)
Definition demo_turns : list StreamClient.turn :=
  replicate 7 {| StreamClient.tn_ctx := None;
    StreamClient.tn_session := {| StreamClient.sn_dial := None; StreamClient.sn_open := None; StreamClient.sn_topology := Ok empty_topology;
      StreamClient.sn_send := None; StreamClient.sn_ack := Ok (CM_RegisterAck "n" 15); StreamClient.sn_end := None |};
    StreamClient.tn_after := None; StreamClient.tn_draw := 0; StreamClient.tn_wait := None |}.

Definition demo_mux : MuxClient.Config :=
  {| MuxClient.cf_Endpoint := "mux:443"; MuxClient.cf_ServerName := "mux"; MuxClient.cf_NodeID := "n"; MuxClient.cf_AgentToken := "t";
     MuxClient.cf_AgentVersion := "v"; MuxClient.cf_InitialBackoff := second; MuxClient.cf_MaxBackoff := 60 * second;
     MuxClient.cf_HandshakeTimeout := 10 * second; MuxClient.cf_OnAttach := true |}.

Definition mux_turn (down : bool) : MuxClient.turn :=
  {| MuxClient.tu_ctx := None;
     MuxClient.tu_network := {| MuxClient.nw_dial := if down then Some (ErrNew "connection refused") else None;
       MuxClient.nw_handshake := None; MuxClient.nw_write := None; MuxClient.nw_yamux := None |};
     MuxClient.tu_draw := 0; MuxClient.tu_wait := None; MuxClient.tu_after := None |}.

Lemma demo_stream_fair : stream_fair demo_stream 0 demo_turns.
Proof.
  intros i t Hi. unfold demo_turns in Hi. apply list_elem_of_lookup_2, elem_of_replicate_inv in Hi as ->.
  assert (sane second (60 * second)) as Hs by (unfold sane, second; lia).
  pose proof (capped_bounds _ _ (0 + i) Hs). unfold fair_draw. simpl.
  split; [lia|]. apply Z.div_pos; [|lia]. apply Z.lt_le_incl, H.
Qed.

Definition demo_mux_turns : list MuxClient.turn := [mux_turn true; mux_turn true; mux_turn false; mux_turn true].

Lemma demo_mux_fair : mux_fair demo_mux 0 demo_mux_turns.
Proof. repeat split; vm_compute; congruence. Qed.

(** The seventh wait of the control stream is a minute; the data plane waits
    1s, 2s, attaches, and starts again at 1s. *)
Lemma reconnect_waits_witness :
  (StreamClient.Run demo_stream demo_turns).1 = (fun n => n * second)%Z <$> [1; 2; 4; 8; 16; 32; 60]%Z /\
  (MuxClient.run demo_mux second demo_mux_turns).1 =
    [MuxClient.Slept second; MuxClient.Slept (2 * second); MuxClient.AttachedSession; MuxClient.Slept second] /\
  wait_of (60 * second) (60 * second) /\ wait_of second second.
Proof.
  assert (sane second (60 * second)) as Hs by (unfold sane, second; lia).
  destruct (reconnect_waits demo_stream demo_turns demo_mux demo_mux_turns Hs demo_stream_fair Hs demo_mux_fair)
    as (H1 & H2 & _).
  split; [vm_compute; reflexivity|]. split; [vm_compute; reflexivity|]. split.
  - apply (H1 6 (60 * second)%Z). vm_compute. reflexivity.
  - assert (MuxClient.run demo_mux (MuxClient.cf_InitialBackoff demo_mux) demo_mux_turns =
      ((MuxClient.run demo_mux second demo_mux_turns).1, None)) as Hrun by (vm_compute; reflexivity).
    pose proof (H2 _ None 3 second Hrun eq_refl) as H. vm_compute in H |- *. exact H.
Defined.
End witnesses.
