(* ===== verification/Relay.v ===== *)
(** * Relaying bytes between two connections

    The bidirectional copy with teardown that ssh-proxy
    (tunnelhandler/relay.go, [Relay]) and the agent (muxclient/handler.go,
    [relayBytes]) share: two goroutines copy, the relay closes both ends when
    the first of them is done, or earlier when its context ends or its timer
    fires, and returns when both are.  A step relation over one relay.  A
    connection takes no more bytes than its peer has made room for, and can
    fail at any time (the peer resets it, its session dies). *)

From S2P Require Import Prelude GoStrings.
From Stdlib Require Import String.

#[local] Open Scope string_scope.
#[local] Open Scope list_scope.

(** The two connections: the channel of the client and the stream to the node
    in ssh-proxy, the stream and the VM in the agent. *)
Inductive side := L | R.
#[export] Instance side_eq_dec : EqDecision side.
Proof. solve_decision. Defined.
Definition other (s : side) : side := match s with L => R | R => L end.

(** A connection as the relay uses it. *)
Record endpoint := {
  ep_sent : string;         (* all the peer has sent *)
  ep_inbox : list string;   (* what of it is not read yet *)
  ep_eof : bool;            (* the peer has ended its side *)
  ep_out : string;          (* what the connection has taken for the peer *)
  ep_room : nat;            (* how many bytes it takes before a write has to wait *)
  ep_closed : bool;         (* closed by the relay *)
  ep_broken : bool          (* it has failed: reads and writes return errors *)
}.

(** A copying goroutine: [io.Copy] before a read, or writing what it read (what
    is left of the chunk); then the half-close; then it has put its token in
    [done]. *)
Inductive copier := Copying | Holding (chunk : string) | Finishing | Sent.

(** The relay's own goroutine. *)
Inductive phase := AwaitFirst | ClosingBoth | AwaitSecond | Returned.

Record relay := {
  rl_L : endpoint;
  rl_R : endpoint;
  rl_copyL : copier;        (* from L to R *)
  rl_copyR : copier;        (* from R to L *)
  rl_done : nat;            (* tokens in the channel [done] *)
  rl_phase : phase
}.

Definition end_of (s : side) (r : relay) : endpoint := match s with L => rl_L r | R => rl_R r end.
Definition copy_of (s : side) (r : relay) : copier := match s with L => rl_copyL r | R => rl_copyR r end.

Definition set_end (s : side) (e : endpoint) (r : relay) : relay :=
  match s with
  | L => {| rl_L := e; rl_R := rl_R r; rl_copyL := rl_copyL r; rl_copyR := rl_copyR r; rl_done := rl_done r; rl_phase := rl_phase r |}
  | R => {| rl_L := rl_L r; rl_R := e; rl_copyL := rl_copyL r; rl_copyR := rl_copyR r; rl_done := rl_done r; rl_phase := rl_phase r |}
  end.
Definition set_copy (s : side) (c : copier) (r : relay) : relay :=
  match s with
  | L => {| rl_L := rl_L r; rl_R := rl_R r; rl_copyL := c; rl_copyR := rl_copyR r; rl_done := rl_done r; rl_phase := rl_phase r |}
  | R => {| rl_L := rl_L r; rl_R := rl_R r; rl_copyL := rl_copyL r; rl_copyR := c; rl_done := rl_done r; rl_phase := rl_phase r |}
  end.
Definition set_phase (done : nat) (p : phase) (r : relay) : relay :=
  {| rl_L := rl_L r; rl_R := rl_R r; rl_copyL := rl_copyL r; rl_copyR := rl_copyR r; rl_done := done; rl_phase := p |}.

Definition close_end (e : endpoint) : endpoint :=
  {| ep_sent := ep_sent e; ep_inbox := ep_inbox e; ep_eof := ep_eof e; ep_out := ep_out e;
     ep_room := ep_room e; ep_closed := true; ep_broken := ep_broken e |}.
Definition closeBoth (r : relay) : relay := set_end L (close_end (rl_L r)) (set_end R (close_end (rl_R r)) r).

Definition read_end (rest : list string) (e : endpoint) : endpoint :=
  {| ep_sent := ep_sent e; ep_inbox := rest; ep_eof := ep_eof e; ep_out := ep_out e;
     ep_room := ep_room e; ep_closed := ep_closed e; ep_broken := ep_broken e |}.
Definition write_end (bytes : string) (e : endpoint) : endpoint :=
  {| ep_sent := ep_sent e; ep_inbox := ep_inbox e; ep_eof := ep_eof e; ep_out := ep_out e +:+ bytes;
     ep_room := ep_room e - String.length bytes; ep_closed := ep_closed e; ep_broken := ep_broken e |}.

(** What closing a connection does to the reads and to the writes that are
    waiting on it, or begun later: they return errors by themselves, or go on
    until the peer answers or the connection fails. *)
Record waking := { wk_read : bool; wk_write : bool }.
Definition all_wake : waking := {| wk_read := true; wk_write := true |}.
Definition none_wake : waking := {| wk_read := false; wk_write := false |}.

Section steps.
(** The half-close at the end of the copy from a side: whether it closes the
    whole target connection or only its sending half. *)
Variable full_close : side -> bool.
(** What closing wakes.  [net.Conn] documents that it wakes both.  An
    [ssh.Channel] only sends its close message: a pending read or write
    returns when the client answers it or the connection ends. *)
Variable wakes : side -> waking.

Definition half_close (s : side) (r : relay) : relay :=
  if full_close s then set_end (other s) (close_end (end_of (other s) r)) r else r.

(** Reads of this connection return errors. *)
Definition failing (s : side) (r : relay) : bool :=
  ep_broken (end_of s r) || (ep_closed (end_of s r) && wk_read (wakes s)).

(** Writes do: those that do not wait for room fail on any closed connection. *)
Definition write_refused (s : side) (r : relay) : bool :=
  ep_broken (end_of s r) || (ep_closed (end_of s r) && (wk_write (wakes s) || (0 <? ep_room (end_of s r))%nat)).

(** The steps of the three goroutines.  Reading a connection that fails may
    still give what was buffered; a write that fails may have been taken in
    part. *)
Inductive istep (r : relay) : relay -> Prop :=
  | i_read s c rest : copy_of s r = Copying -> ep_inbox (end_of s r) = c :: rest ->
      istep r (set_copy s (Holding c) (set_end s (read_end rest (end_of s r)) r))
  | i_push s b rest : copy_of s r = Holding (b +:+ rest) -> b <> "" ->
      (String.length b <= ep_room (end_of (other s) r))%nat -> ep_closed (end_of (other s) r) = false ->
      istep r (set_copy s (Holding rest) (set_end (other s) (write_end b (end_of (other s) r)) r))
  | i_written s : copy_of s r = Holding "" -> istep r (set_copy s Copying r)
  | i_write_fails s c : copy_of s r = Holding c -> c <> "" -> write_refused (other s) r = true ->
      istep r (set_copy s Finishing r)
  | i_eof s : copy_of s r = Copying -> ep_inbox (end_of s r) = [] -> ep_eof (end_of s r) = true ->
      istep r (set_copy s Finishing r)
  | i_read_fails s : copy_of s r = Copying -> failing s r = true -> istep r (set_copy s Finishing r)
  | i_finish s : copy_of s r = Finishing ->
      istep r (set_phase (S (rl_done r)) (rl_phase r) (set_copy s Sent (half_close s r)))
  | i_first n : rl_phase r = AwaitFirst -> rl_done r = S n -> istep r (set_phase n ClosingBoth r)
  | i_close : rl_phase r = ClosingBoth -> istep r (set_phase (rl_done r) AwaitSecond (closeBoth r))
  | i_second n : rl_phase r = AwaitSecond -> rl_done r = S n -> istep r (set_phase n Returned r).

Definition arrive (chunk : string) (e : endpoint) : endpoint :=
  {| ep_sent := ep_sent e +:+ chunk; ep_inbox := (ep_inbox e ++ [chunk])%list; ep_eof := ep_eof e; ep_out := ep_out e;
     ep_room := ep_room e; ep_closed := ep_closed e; ep_broken := ep_broken e |}.
Definition end_side (e : endpoint) : endpoint :=
  {| ep_sent := ep_sent e; ep_inbox := ep_inbox e; ep_eof := true; ep_out := ep_out e;
     ep_room := ep_room e; ep_closed := ep_closed e; ep_broken := ep_broken e |}.
Definition grant (n : nat) (e : endpoint) : endpoint :=
  {| ep_sent := ep_sent e; ep_inbox := ep_inbox e; ep_eof := ep_eof e; ep_out := ep_out e;
     ep_room := ep_room e + n; ep_closed := ep_closed e; ep_broken := ep_broken e |}.
Definition break_end (e : endpoint) : endpoint :=
  {| ep_sent := ep_sent e; ep_inbox := ep_inbox e; ep_eof := ep_eof e; ep_out := ep_out e;
     ep_room := ep_room e; ep_closed := ep_closed e; ep_broken := true |}.

(** What comes from outside: the peers send, end their side, and make room; a
    connection fails (a reset, the end of its session, the answer to a close);
    the context ends or the idle timer fires. *)
Inductive rstep (r : relay) : relay -> Prop :=
  | x_arrive s chunk : ep_eof (end_of s r) = false -> rstep r (set_end s (arrive chunk (end_of s r)) r)
  | x_eof s : rstep r (set_end s (end_side (end_of s r)) r)
  | x_room s n : rstep r (set_end s (grant n (end_of s r)) r)
  | x_break s : rstep r (set_end s (break_end (end_of s r)) r)
  | x_stop : rl_phase r <> Returned -> rstep r (closeBoth r)
  | x_internal r' : istep r r' -> rstep r r'.

Definition fresh_end : endpoint :=
  {| ep_sent := ""; ep_inbox := []; ep_eof := false; ep_out := ""; ep_room := 0; ep_closed := false; ep_broken := false |}.
Definition start : relay :=
  {| rl_L := fresh_end; rl_R := fresh_end; rl_copyL := Copying; rl_copyR := Copying; rl_done := 0; rl_phase := AwaitFirst |}.

(** ** The invariant *)

Definition concat_all (l : list string) : string := foldr String.append "" l.

Definition held (c : copier) : string := match c with Holding k => k | _ => "" end.

Definition copy_open (c : copier) : Prop := match c with Copying | Holding _ => True | Finishing | Sent => False end.

(** Neither closed nor failed. *)
Definition intact (e : endpoint) : Prop := ep_closed e = false /\ ep_broken e = false.

(** What is on its way from one connection to the other: nothing is lost while
    the copy runs; what was written is a prefix of what was sent; and a copy
    that is over between intact connections has met the end of its source and
    delivered all of it. *)
Record flow (src tgt : endpoint) (c : copier) : Prop := {
  fl_open : copy_open c -> ep_sent src = ep_out tgt +:+ held c +:+ concat_all (ep_inbox src);
  fl_prefix : exists rest, ep_sent src = ep_out tgt +:+ rest;
  fl_over : ~ copy_open c -> intact src -> intact tgt -> ep_eof src = true /\ ep_sent src = ep_out tgt
}.

Definition sent_token (c : copier) : nat := match c with Sent => 1 | _ => 0 end.
Definition taken (p : phase) : nat :=
  match p with AwaitFirst => 0 | ClosingBoth | AwaitSecond => 1 | Returned => 2 end.

Record relay_ok (r : relay) : Prop := {
  ro_flow s : flow (end_of s r) (end_of (other s) r) (copy_of s r);
  ro_tokens : rl_done r + taken (rl_phase r) = sent_token (rl_copyL r) + sent_token (rl_copyR r);
  ro_closed : rl_phase r = AwaitSecond \/ rl_phase r = Returned -> forall s, ep_closed (end_of s r) = true
}.

Lemma concat_all_app l c : concat_all (l ++ [c])%list = concat_all l +:+ c.
Proof.
  unfold concat_all. induction l as [|x l IH]; simpl; [by rewrite str_app_nil_r|].
  rewrite IH. by rewrite str_app_assoc.
Qed.

Lemma flow_frame src tgt src' tgt' c :
  ep_sent src' = ep_sent src -> ep_inbox src' = ep_inbox src -> ep_out tgt' = ep_out tgt ->
  (ep_eof src = true -> ep_eof src' = true) -> (intact src' -> intact src) -> (intact tgt' -> intact tgt) ->
  flow src tgt c -> flow src' tgt' c.
Proof.
  intros Hs Hi Ho He H1 H2 [Hop Hpr Hov]. constructor; rewrite ?Hs, ?Hi, ?Ho; [done..|].
  intros Hc I1 I2. destruct (Hov Hc (H1 I1) (H2 I2)). auto.
Qed.

Lemma flow_read src tgt c rest :
  ep_inbox src = c :: rest -> flow src tgt Copying -> flow (read_end rest src) tgt (Holding c).
Proof.
  intros Hin [Hop Hpr _]. constructor; simpl; [intros _|done|tauto]. by rewrite (Hop I), Hin.
Qed.

Lemma flow_push src tgt b rest :
  flow src tgt (Holding (b +:+ rest)) -> flow src (write_end b tgt) (Holding rest).
Proof.
  intros [Hop _ _]. specialize (Hop I). simpl in Hop.
  assert (ep_sent src = ep_out (write_end b tgt) +:+ (rest +:+ concat_all (ep_inbox src))) as He.
  { rewrite Hop. simpl. by rewrite !str_app_assoc. }
  constructor; simpl; [done|eauto|tauto].
Qed.

Lemma flow_written src tgt : flow src tgt (Holding "") -> flow src tgt Copying.
Proof. intros [Hop Hpr _]. constructor; [exact Hop|done|simpl; tauto]. Qed.

(** A copy that ends because a connection fails, or at the end of the source. *)
Lemma flow_fails src tgt c c' :
  ~ (intact src /\ intact tgt) -> ~ copy_open c' -> flow src tgt c -> flow src tgt c'.
Proof. intros Hcl Hc [_ Hpr _]. constructor; [tauto|done|tauto]. Qed.

Lemma flow_eof src tgt :
  ep_inbox src = [] -> ep_eof src = true -> flow src tgt Copying -> flow src tgt Finishing.
Proof.
  intros Hin He [Hop Hpr _]. constructor; simpl; [tauto|done|]. intros _ _ _. split; [done|].
  rewrite (Hop I), Hin. simpl. apply str_app_nil_r.
Qed.

Lemma flow_finish src tgt : flow src tgt Finishing -> flow src tgt Sent.
Proof. intros [_ Hpr Hov]. constructor; simpl in *; tauto. Qed.

Lemma flow_arrive src tgt c chunk :
  ep_eof src = false -> flow src tgt c -> flow (arrive chunk src) tgt c.
Proof.
  intros He [Hop Hpr Hov]. constructor; simpl.
  - intros Hc. rewrite (Hop Hc), concat_all_app. by rewrite !str_app_assoc.
  - destruct Hpr as [rest ->]. exists (rest +:+ chunk). by rewrite str_app_assoc.
  - intros Hc [? ?] Ht. destruct (Hov Hc) as [? _]; [by split|done|congruence].
Qed.

Lemma failing_intact s r : failing s r = true -> ~ intact (end_of s r).
Proof. unfold failing. intros Hf [Hc Hb]. rewrite Hc, Hb in Hf. done. Qed.

Lemma refused_intact s r : write_refused s r = true -> ~ intact (end_of s r).
Proof.
  unfold write_refused. intros Hf [Hc Hb]. by rewrite Hc, Hb in Hf.
Qed.

Lemma start_ok : relay_ok start.
Proof.
  split; [|done|by intros [|]]. intros s. destruct s; (constructor; [done|by exists ""|intros Hc; by destruct Hc]).
Qed.

(** A flow across a change that concerns neither of its parts. *)
Ltac frame :=
  (eapply flow_frame; [..|eassumption]; simpl;
   first [done | congruence | auto; fail | by intros [? ?]; simpl in *; split; congruence]).

(** A change of one end or copy, side by side: the flow it concerns by [tac],
    the other one and the rest unchanged. *)
Ltac sides Hcl tac :=
  split; [intros [|]; simpl; first [tac|frame]|simpl in *; lia|];
  intros Hp [|]; simpl; first [done|exact (Hcl Hp L)|exact (Hcl Hp R)].

Lemma istep_ok r r' : relay_ok r -> istep r r' -> relay_ok r'.
Proof.
  intros [Hflow Htok Hcl] Hs. pose proof (Hflow L) as HL. pose proof (Hflow R) as HR. clear Hflow.
  destruct Hs as [s c rest Hc Hin|s b rest Hc Hb Hl Ho|s Hc|s c Hc Hne Hf|s Hc Hin He|s Hc Hf|s Hc|n Hp Hd|Hp|n Hp Hd];
    try apply refused_intact in Hf; try apply failing_intact in Hf;
    destruct r as [eL eR cL cR d p]; try destruct s; simpl in *; subst.
  1-2: sides Hcl ltac:(by apply flow_read).
  1-2: sides Hcl ltac:(by apply flow_push).
  1-2: sides Hcl ltac:(by apply flow_written).
  1-2: sides Hcl ltac:(by eapply flow_fails; [|simpl; tauto|eassumption]; tauto).
  1-2: sides Hcl ltac:(by apply flow_eof).
  1-2: sides Hcl ltac:(by eapply flow_fails; [|simpl; tauto|eassumption]; tauto).
  1-2: apply flow_finish in HL || apply flow_finish in HR;
    unfold half_close; destruct (full_close _); simpl in *; sides Hcl ltac:(fail).
  - split; [intros [|]; simpl; frame|simpl in *; lia|by intros [|]].
  - split; [intros [|]; simpl; frame|simpl in *; lia|by intros _ [|]].
  - split; [intros [|]; simpl; frame|simpl in *; lia|].
    intros _ [|]; [apply (Hcl (or_introl eq_refl) L)|apply (Hcl (or_introl eq_refl) R)].
Qed.

Lemma rstep_ok r r' : relay_ok r -> rstep r r' -> relay_ok r'.
Proof.
  intros Hok Hs. destruct Hs as [s chunk He|s|s n|s|Hp|r' Hi]; [| | | | |by eapply istep_ok].
  all: destruct Hok as [Hflow Htok Hcl]; pose proof (Hflow L) as HL; pose proof (Hflow R) as HR; clear Hflow.
  all: destruct r as [eL eR cL cR d p]; try destruct s; simpl in *.
  1-2: sides Hcl ltac:(by apply flow_arrive).
  1-6: sides Hcl ltac:(fail).
  split; [intros [|]; simpl; frame|done|by intros _ [|]].
Qed.

Lemma relay_reachable_ok r : rtc rstep start r -> relay_ok r.
Proof. revert r. apply rtc_ind_r; [apply start_ok|]. intros y z _ Hs Hy. by apply (rstep_ok y). Qed.

(** ** Termination *)

Definition chunks_left (l : list string) : nat := foldr (fun c n => 2 + String.length c + n) 0 l.
Definition copier_left (c : copier) : nat :=
  match c with Copying => 3 | Holding k => 4 + String.length k | Finishing => 1 | Sent => 0 end.
Definition phase_left (p : phase) : nat :=
  match p with AwaitFirst => 3 | ClosingBoth => 2 | AwaitSecond => 1 | Returned => 0 end.
Definition relay_left (r : relay) : nat :=
  chunks_left (ep_inbox (rl_L r)) + copier_left (rl_copyL r) + chunks_left (ep_inbox (rl_R r)) + copier_left (rl_copyR r) +
  phase_left (rl_phase r).

Lemma str_length_pos b : b <> "" -> 0 < String.length b.
Proof. destruct b; simpl; [done|lia]. Qed.

Lemma istep_left r r' : istep r r' -> relay_left r' < relay_left r.
Proof.
  intros Hs. destruct r as [eL eR cL cR d p]. unfold relay_left.
  destruct Hs as [s c rest Hc Hin|s b rest Hc Hb Hl Ho|s Hc|s c Hc Hne Hf|s Hc Hin He|s Hc Hf|s Hc|n Hp Hd|Hp|n Hp Hd];
    try apply str_length_pos in Hb; try destruct s; simpl in *; subst; simpl; try rewrite Hin; simpl;
    rewrite ?str_length_app; try lia.
  all: unfold half_close; destruct (full_close _); simpl; lia.
Qed.

(** What a copy can wait for: that its source sends, or that its target makes
    room. *)
Definition reading_blocked (s : side) (r : relay) : Prop :=
  copy_of s r = Copying /\ ep_inbox (end_of s r) = [] /\ ep_eof (end_of s r) = false /\ failing s r = false.
Definition writing_blocked (s : side) (r : relay) : Prop :=
  (exists c, copy_of s r = Holding c /\ c <> "") /\ ep_room (end_of (other s) r) = 0 /\ write_refused (other s) r = false.

(** Nothing was closed, and both copies wait. *)
Definition waiting (r : relay) : Prop :=
  rl_phase r = AwaitFirst /\
  forall s, (reading_blocked s r \/ writing_blocked s r) /\ ep_closed (end_of s r) = false.

(** The relay has closed both connections; each copy is through, or still
    inside a read or write of a connection whose closing does not wake it and
    which has not failed yet, and there is one of the latter. *)
Definition lingering (r : relay) : Prop :=
  rl_phase r <> Returned /\ (forall s, ep_closed (end_of s r) = true) /\
  (forall s, copy_of s r = Sent \/ (reading_blocked s r /\ wk_read (wakes s) = false) \/
     (writing_blocked s r /\ wk_write (wakes (other s)) = false)) /\
  exists s, copy_of s r <> Sent.

Definition finished (r : relay) : Prop :=
  rl_phase r = Returned /\ (forall s, copy_of s r = Sent /\ ep_closed (end_of s r) = true).

(** A copier that cannot step waits for one of its ends, or is through. *)
Lemma copier_stuck r s : nf istep r -> copy_of s r = Sent \/ reading_blocked s r \/ writing_blocked s r.
Proof.
  intros Hnf. destruct (copy_of s r) as [|c| |] eqn:Hc; [| | |by left].
  - right; left. split; [done|].
    destruct (ep_inbox (end_of s r)) as [|c rest] eqn:Hin; [|exfalso; apply Hnf; eexists; by eapply i_read].
    destruct (ep_eof (end_of s r)) eqn:He; [exfalso; apply Hnf; eexists; by eapply i_eof|].
    destruct (failing s r) eqn:Hx; [exfalso; apply Hnf; eexists; by eapply i_read_fails|]. done.
  - right; right. destruct c as [|x c]; [exfalso; apply Hnf; eexists; by eapply i_written|].
    destruct (write_refused (other s) r) eqn:Hw; [exfalso; apply Hnf; eexists; by eapply i_write_fails|].
    split; [by exists (String x c)|]. split; [|done].
    destruct (ep_room (end_of (other s) r)) as [|n] eqn:Hr; [done|]. exfalso. apply Hnf.
    destruct (ep_closed (end_of (other s) r)) eqn:Ho.
    { unfold write_refused in Hw. rewrite Ho, Hr, orb_true_r in Hw. by rewrite orb_true_r in Hw. }
    eexists. apply (i_push r s (String x "") c); [exact Hc|done|simpl; lia|done].
  - exfalso. apply Hnf. eexists. by eapply i_finish.
Qed.

Lemma blocked_not_sent r s : reading_blocked s r \/ writing_blocked s r -> copy_of s r <> Sent.
Proof. intros [(Hc & _)|((c & Hc & _) & _)]; by rewrite Hc. Qed.

(** When both connections are closed, only one whose closing does not wake
    can hold a copy. *)
Lemma blocked_closed r s :
  (forall s, ep_closed (end_of s r) = true) -> reading_blocked s r \/ writing_blocked s r ->
  (reading_blocked s r /\ wk_read (wakes s) = false) \/ (writing_blocked s r /\ wk_write (wakes (other s)) = false).
Proof.
  unfold reading_blocked, writing_blocked, failing, write_refused. intros Hcl [H|H].
  - left. split; [done|]. destruct H as (_ & _ & _ & Hf). rewrite Hcl in Hf.
    by apply orb_false_iff in Hf as [_ ?].
  - right. split; [done|]. destruct H as (_ & _ & Hf). rewrite Hcl in Hf.
    apply orb_false_iff in Hf as [_ Hf]. by apply orb_false_iff in Hf as [? _].
Qed.

(** Before the first half-close the relay closes the two together. *)
Definition closed_together (r : relay) : Prop :=
  rl_copyL r <> Sent -> rl_copyR r <> Sent -> ep_closed (rl_L r) = ep_closed (rl_R r).

Lemma closed_together_step r r' : rstep r r' -> closed_together r -> closed_together r'.
Proof.
  unfold closed_together. intros Hs Ht. destruct r as [eL eR cL cR d p].
  destruct Hs as [s chunk He|s|s n|s|Hp|r' Hi]; [destruct s; simpl in *; auto..|done|].
  destruct Hi as [s c rest Hc Hin|s b rest Hc Hb Hl Ho|s Hc|s c Hc Hne Hf|s Hc Hin He|s Hc Hf|s Hc|n Hp Hd|Hp|n Hp Hd];
    try destruct s; simpl in *; subst; simpl; intros; try done; auto.
Qed.

Lemma relay_progress r : relay_ok r -> closed_together r -> nf istep r -> waiting r \/ lingering r \/ finished r.
Proof.
  intros [Hflow Htok Hcl] Htog Hnf. pose proof (copier_stuck r L Hnf) as HL. pose proof (copier_stuck r R Hnf) as HR.
  assert (rl_phase r <> ClosingBoth) as Hp1 by (intros Hp; apply Hnf; eexists; by apply i_close).
  assert (rl_phase r = AwaitFirst -> rl_done r = 0) as Hp2.
  { intros Hp. destruct (rl_done r) eqn:Hd; [done|]. exfalso. apply Hnf. eexists. by eapply i_first. }
  assert (rl_phase r = AwaitSecond -> rl_done r = 0) as Hp3.
  { intros Hp. destruct (rl_done r) eqn:Hd; [done|]. exfalso. apply Hnf. eexists. by eapply i_second. }
  assert (forall c, sent_token c = 1 <-> c = Sent) as Htk by by intros [].
  assert (forall c, sent_token c <= 1) as Hle by (intros []; simpl; lia).
  pose proof (Htk (rl_copyL r)) as TL. pose proof (Htk (rl_copyR r)) as TR.
  pose proof (Hle (rl_copyL r)) as BL. pose proof (Hle (rl_copyR r)) as BR. clear Htk Hle.
  assert ((forall s, ep_closed (end_of s r) = true) -> rl_phase r <> Returned ->
    (exists s, copy_of s r <> Sent) -> lingering r) as Hlin.
  { intros Hc Hp Hs. split_and!; [done..| |done].
    intros [|]; [destruct HL as [HL|HL]|destruct HR as [HR|HR]]; (by left) || (right; by apply blocked_closed). }
  destruct (rl_phase r) eqn:Hp; [|done|..]; simpl in Htok.
  - rewrite Hp2 in Htok by done.
    assert (rl_copyL r <> Sent) as NL by (rewrite <- TL; lia). assert (rl_copyR r <> Sent) as NR by (rewrite <- TR; lia).
    destruct HL as [HL|HL]; [done|]. destruct HR as [HR|HR]; [done|]. specialize (Htog NL NR).
    destruct (ep_closed (rl_L r)) eqn:Ec.
    + right; left. apply Hlin; [by intros [|]|done|by exists L].
    + left. split; [done|]. by intros [|].
  - right; left. rewrite Hp3 in Htok by done. apply Hlin; [apply Hcl; by left|done|].
    destruct (decide (sent_token (rl_copyL r) = 1)) as [E|E]; [exists R|exists L]; simpl; [rewrite <- TR|rewrite <- TL]; lia.
  - right; right. split; [done|]. assert (forall s, ep_closed (end_of s r) = true) as Hclosed by (apply Hcl; by right).
    intros [|]; (split; [|by apply Hclosed]); simpl; [apply TL|apply TR]; lia.
Qed.
End steps.

(** [Relay]'s copy: L is the SSH channel, which has a half-close, R the stream,
    which is closed when it does not have one; reads of bytes read ahead are
    arrivals.  What closing wakes in the stream is its library's affair. *)
Definition Relay_copy (stream_CloseWrite : bool) (stream_wakes : waking) : relay -> relay -> Prop :=
  rstep (fun s => match s with L => negb stream_CloseWrite | R => false end)
        (fun s => match s with L => none_wake | R => stream_wakes end).

(** [relayBytes]: L is the stream, R the VM's connection. *)
Definition relayBytes (vm_CloseWrite : bool) (stream_wakes : waking) : relay -> relay -> Prop :=
  rstep (fun s => match s with L => negb vm_CloseWrite | R => true end)
        (fun s => match s with L => stream_wakes | R => all_wake end).

(** C18: a relay delivers in order and comes to an end, whatever its peers and
    connections do (send, stop reading, end their side, reset, die), and
    whenever its context ends or its timer fires.  In every reachable state,
    in each direction, what was written to one peer is a prefix of what the
    other has sent; and a copy that is over although neither connection was
    closed or failed has met the end of its source and delivered all of it.
    Without further input no execution of the three goroutines is infinite.
    When they cannot go on, then either nothing was closed and each copy waits
    for its source to send or for its target to make room; or the relay has
    returned with both connections closed and both copies over; or it has
    closed both, and what is left are copies inside a read or write of a
    connection whose closing does not wake them and which has not failed.
    So once anything was closed or a copy is over, it returns, if each
    connection is one that closing wakes (as the VM's TCP connection), or has
    failed (the peer has answered the close, or the connection is gone). *)
Theorem relay_correct full_close wakes r :
  rtc (rstep full_close wakes) start r ->
  (forall s, (exists rest, ep_sent (end_of s r) = ep_out (end_of (other s) r) +:+ rest) /\
     (~ copy_open (copy_of s r) -> intact (end_of s r) -> intact (end_of (other s) r) ->
      ep_eof (end_of s r) = true /\ ep_sent (end_of s r) = ep_out (end_of (other s) r))) /\
  sn (istep full_close wakes) r /\
  (forall r', rtc (istep full_close wakes) r r' -> nf (istep full_close wakes) r' ->
     (waiting wakes r' \/ lingering wakes r' \/ finished r') /\
     ((exists s, ep_closed (end_of s r') = true \/ ~ copy_open (copy_of s r')) ->
      (forall s, wakes s = all_wake \/ ep_broken (end_of s r') = true) -> finished r')).
Proof.
  intros Hr. assert (closed_together r) as Htog.
  { clear -Hr. assert (closed_together start) as H0 by done.
    induction Hr; eauto using closed_together_step. }
  apply relay_reachable_ok in Hr. split_and!.
  - intros s. by destruct (ro_flow r Hr s).
  - clear Htog. remember (relay_left r) as n eqn:Hn. revert r Hr Hn. induction (lt_wf n) as [n _ IH]. intros r Hok ->.
    constructor. intros r' Hs. apply (IH (relay_left r')); [by eapply istep_left|by eapply istep_ok|done].
  - intros r' Hrun Hnf. assert (waiting wakes r' \/ lingering wakes r' \/ finished r') as Hrest.
    { assert (relay_ok r' /\ closed_together r') as [? ?]; [|by eapply relay_progress].
      clear Hnf. induction Hrun as [|r r1 r2 Hs _ IH]; [done|].
      apply IH; [by eapply istep_ok|by eapply closed_together_step; [apply x_internal|]]. }
    split; [done|]. intros [s Hs] Hw. destruct Hrest as [(_ & Hwait)|[Hl|?]]; [| |done].
    + exfalso. destruct (Hwait s) as [Hb Ho]. destruct Hs as [Hc|Hc]; [congruence|].
      destruct Hb as [(E & _)|((c & E & _) & _)]; by rewrite E in Hc.
    + exfalso. destruct Hl as (_ & _ & Hall & [s0 Hs0]).
      destruct (Hall s0) as [?|[((_ & _ & _ & Hf) & Hn)|((_ & _ & Hf) & Hn)]]; [done|..];
        [destruct (Hw s0) as [E|E]|destruct (Hw (other s0)) as [E|E]]; try (by rewrite E in Hn);
        unfold failing, write_refused in Hf; by rewrite E in Hf.
Qed.

(** ** Witness and findings *)

Ltac relay_step r := eapply rtc_l; [eapply r; reflexivity|]; cbn.
Tactic Notation "relay_go" open_constr(r) := eapply rtc_l; [apply x_internal; eapply r; (reflexivity || done || (simpl; lia))|]; cbn.

Abbreviation ssh_wakes := (fun s => match s with L => none_wake | R => all_wake end) (only parsing).

(** One direction carries a chunk and ends; the relay is about to close. *)
Definition one_way : relay :=
  set_phase 1 AwaitFirst (set_copy L Sent
    (set_end L {| ep_sent := "get"; ep_inbox := []; ep_eof := true; ep_out := ""; ep_room := 0; ep_closed := false; ep_broken := false |}
       (set_end R {| ep_sent := ""; ep_inbox := []; ep_eof := false; ep_out := "get"; ep_room := 5; ep_closed := false; ep_broken := false |} start))).

Lemma one_way_reachable w : rtc (rstep (fun _ => false) w) start one_way.
Proof.
  relay_step (x_arrive (fun _ => false) w start L "get").
  eapply rtc_l; [apply (x_room _ _ _ R 8)|]; cbn.
  relay_go (i_read (fun _ => false) w _ L).
  relay_go (i_push (fun _ => false) w _ L "get" "").
  relay_go (i_written (fun _ => false) w _ L).
  eapply rtc_l; [apply (x_eof _ _ _ L)|]; cbn.
  relay_go (i_eof (fun _ => false) w _ L).
  relay_go (i_finish (fun _ => false) w _ L).
  apply rtc_refl.
Qed.

Lemma relay_correct_witness :
  ep_sent (rl_L one_way) = ep_out (rl_R one_way) /\ sn (istep (fun _ => false) ssh_wakes) one_way.
Proof.
  destruct (relay_correct (fun _ => false) ssh_wakes one_way (one_way_reachable _)) as (H1 & H2 & _).
  split; [|exact H2]. apply (H1 L); [by intros []|split; reflexivity..].
Defined.

(** The comment at the copy says the half-close signals the end without
    tearing down the other direction; but the relay closes both connections
    as soon as the first copy is over: a client that ends its side after a
    request loses the answer that is on its way. *)
Theorem relay_truncates_other_direction : exists r,
  rtc (rstep (fun _ => false) (fun _ => none_wake)) start r /\ finished r /\
  ep_sent (end_of R r) = "answer" /\ ep_out (end_of L r) = "".
Proof.
  eexists. split; [|split; [|split]].
  - etransitivity; [apply one_way_reachable|].
    eapply rtc_l; [apply (x_room _ _ _ L 8)|]; cbn.
    eapply rtc_l; [eapply (x_arrive _ _ _ R "answer"); reflexivity|]; cbn.
    relay_go (i_first (fun _ => false) (fun _ => none_wake)).
    relay_go (i_close (fun _ => false) (fun _ => none_wake)).
    relay_go (i_read (fun _ => false) (fun _ => none_wake) _ R).
    relay_go (i_write_fails (fun _ => false) (fun _ => none_wake) _ R).
    relay_go (i_finish (fun _ => false) (fun _ => none_wake) _ R).
    relay_go (i_second (fun _ => false) (fun _ => none_wake)).
    apply rtc_refl.
  - split; [reflexivity|]. intros []; split; reflexivity.
  - reflexivity.
  - reflexivity.
Qed.

(** [Relay] waits for both copies, so a client that has not answered the close
    of its channel, and keeps its connection open, keeps the relay from
    returning, also after the context has ended: the copy from the channel is
    still inside its read. *)
Theorem relay_lingers : exists r,
  rtc (Relay_copy false all_wake) start r /\ lingering ssh_wakes r /\
  nf (istep (fun s => match s with L => true | R => false end) ssh_wakes) r.
Proof.
  eexists. split; [|split].
  - unfold Relay_copy. eapply rtc_l; [by apply x_stop|]; cbn.
    eapply rtc_l; [apply x_internal; eapply (i_read_fails _ _ _ R); reflexivity|]; cbn.
    eapply rtc_l; [apply x_internal; eapply (i_finish _ _ _ R); reflexivity|]; cbn.
    eapply rtc_l; [apply x_internal; eapply i_first; reflexivity|]; cbn.
    eapply rtc_l; [apply x_internal; eapply i_close; reflexivity|]; cbn.
    apply rtc_refl.
  - split_and!; [done|by intros []| |by exists L].
    intros []; [right; left; by repeat split|by left].
  - intros [r' Hs]. inversion Hs as [s|s|s|s|s|s|s| | |]; try destruct s; simplify_eq/=.
Qed.
