(* ===== verification/AgentRelay.v ===== *)
(** * compute-agent: a stream from ssh-proxy

    internal/muxclient/handler.go: the header line of an inbound stream, the
    checks before the VM is dialled, and what the relay starts with (the copy
    itself is in Relay). *)

From S2P Require Import Prelude GoStrings Proto Db RateLimiter Wire SSHProxy.
From Stdlib Require Import Ascii.

#[local] Open Scope string_scope.
#[local] Open Scope list_scope.

(** [net.JoinHostPort]. *)
Definition JoinHostPort (host port : string) : string :=
  if has_byte host ":" then "[" +:+ host +:+ "]:" +:+ port else host +:+ ":" +:+ port.

Record StreamHandler := { mh_DialTimeout : Z; mh_IdleTimeout : Z; mh_HeaderReadTimeout : Z }.

(** The timeouts [handleStream] works with; an idle timeout of 0 means
    none. *)
Definition effective (h : StreamHandler) : StreamHandler :=
  {| mh_DialTimeout := or_positive (mh_DialTimeout h) (5 * second);
     mh_IdleTimeout := if (mh_IdleTimeout h <? 0)%Z then 0%Z
                       else if (mh_IdleTimeout h =? 0)%Z then (30 * minute)%Z else mh_IdleTimeout h;
     mh_HeaderReadTimeout := or_positive (mh_HeaderReadTimeout h) (5 * second) |}.

Section agent.
Context `{JSON streamHeader}.

(** The header and the bytes read ahead of the relay; [input] is what arrives
    on the stream until reading ends with [fin]. *)
Definition readHeader (input : string) (fin : error) : result (streamHeader * string) :=
  let '(line, err, after) := ReadBytes "010" input fin in
  match match err with Some e => if bool_decide (e = EOF) then None else Some e | None => None end with
  | Some e => Err e
  | None =>
      if String.eqb line "" then Err (ErrNew "empty header")
      else match json_parse line with
           | Err e => Err (ErrWrap "decode: " e "")
           | Ok h => Ok (h, after)
           end
  end.

(** How an inbound stream is dealt with: closed, with a reason for the
    metrics; or bytes flow to a VM, beginning with those read ahead, with this
    idle bound. *)
Inductive stream_outcome := Dropped (reason : string) | Relaying (addr after : string) (idle : Z).

(** [dial] is the error of dialling the VM (the time in the message of the
    third failure is left out; [fail] only counts and logs). *)
Definition handleStream (h : StreamHandler) (now : Time) (input : string) (fin : error) (dial : option error)
    : stream_outcome :=
  match readHeader input fin with
  | Err _ => Dropped "bad_header"
  | Ok (hdr, after) =>
      if String.eqb (sh_VMInternalIP hdr) "" || (sh_VMPort hdr =? 0)%Z then Dropped "missing_vm"
      else if stale now (sh_ExpiresAt hdr) then Dropped "expired_ticket"
      else match dial with
           | Some _ => Dropped "vm_dial_failed"
           | None => Relaying (JoinHostPort (sh_VMInternalIP hdr) (Itoa (sh_VMPort hdr))) after
                       (mh_IdleTimeout (effective h))
           end
  end.
End agent.

(** ** The header of the proxy, read by the agent *)

(** A header line of the proxy decodes to its header, and every byte after it
    reaches the relay. *)
Lemma readHeader_line `{JSONLaws streamHeader} hdr raw after fin :
  json_text hdr = Ok raw -> plain hdr = true ->
  readHeader (raw +:+ String "010" after) fin = Ok (hdr, after).
Proof.
  intros Ht Hp. unfold readHeader. rewrite ReadBytes_line by by eapply text_line.
  destruct (String.eqb_spec (raw +:+ String "010" "") "") as [He|_].
  { apply (f_equal String.length) in He. rewrite str_length_app in He. simpl in He. lia. }
  destruct (parse_text hdr raw Ht Hp) as [_ Hparse]. change (String "010" "") with newline. by rewrite Hparse.
Qed.

(** The comment promises that at most 4 KiB are read before the newline; the
    buffer's size is only that of its first allocation, and a line of any
    length is read (the same holds of the mux server's [readAuthHeader],
    before the peer has authenticated). *)
Theorem header_line_unbounded (n : nat) fin :
  let line := String.concat "" (replicate n "x") in
  String.length line = n /\ ReadBytes "010" (line +:+ newline) fin = (line +:+ newline, None, "").
Proof.
  assert (forall m, String.length (String.concat "" (replicate m "x")) = m /\
    str_forall (fun c => negb (Ascii.eqb c "010")) (String.concat "" (replicate m "x")) = true) as Hall.
  { induction m as [|[|m] [IHl IHf]]; [done..|].
    change (String.concat "" (replicate (S (S m)) "x")) with (String "x" (String.concat "" (replicate (S m) "x"))).
    split; simpl in *; [by rewrite IHl|done]. }
  destruct (Hall n) as [Hl Hf]. split; [done|]. by apply ReadBytes_line.
Qed.

(** The field's comment says that an idle timeout of zero disables it; zero
    means half an hour, and only a negative value disables it. *)
Theorem zero_idle_timeout_is_half_an_hour h :
  mh_IdleTimeout h = 0%Z -> mh_IdleTimeout (effective h) = (30 * minute)%Z.
Proof. intros Hz. unfold effective. simpl. by rewrite Hz. Qed.
