(* ===== verification/TunnelProof.v ===== *)
(** * A tunnel, end to end

    From the channel an SSH client opens at the proxy to the address the agent
    dials: ssh-proxy's server, router, ticket client and relay over main-api's
    ticket endpoint and the mux registry, and the agent's stream handler on
    the header line the relay writes. *)

From S2P Require Import Prelude GoStrings GoCrypto Proto Db Queries AccountQueries Demo Http Auth AuthHandlers RateLimiter NodeRepo Router SSHKeys SSHTicket TicketEndpoint AgentAuth Wire MuxRegistry MuxServer InternalAPI MuxAuthProof SSHProxy AgentRelay.
From Stdlib Require Import Ascii.

#[local] Open Scope string_scope.
#[local] Open Scope list_scope.
#[local] Open Scope go_scope.

(** ** ASCII texts *)

Lemma ascii_valid s : ascii_text s = true -> valid_utf8 s = true.
Proof.
  unfold ascii_text. induction s as [|c s IH]; [done|]. cbn [str_forall valid_utf8].
  intros [Hc Hs]%andb_true_iff. unfold byte_in. apply N.ltb_lt in Hc.
  assert ((0 <=? N_of_ascii c)%N = true) as -> by (apply N.leb_le; lia).
  assert ((N_of_ascii c <=? 127)%N = true) as -> by (apply N.leb_le; lia). simpl. by apply IH.
Qed.

Lemma ascii_app s t : ascii_text (s +:+ t) = ascii_text s && ascii_text t.
Proof. apply str_forall_app. Qed.

Lemma ascii_lower s : ascii_text s = true -> ascii_text (ToLower s) = true.
Proof.
  unfold ascii_text, ToLower. induction s as [|c s IH]; [done|]. simpl.
  intros [Hc Hs]%andb_true_iff. rewrite IH by done. rewrite andb_true_r.
  destruct c as [[] [] [] [] [] [] [] []]; vm_compute in Hc |- *; congruence.
Qed.

Lemma ascii_trim_suffix s suf : ascii_text s = true -> ascii_text (TrimSuffix s suf) = true.
Proof.
  unfold TrimSuffix. destruct (strip_suffix suf s) as [r|] eqn:E; [|done].
  apply strip_suffix_Some in E as ->. rewrite ascii_app. by intros [? _]%andb_true_iff.
Qed.

Lemma get_ascii n s c : ascii_text s = true -> String.get n s = Some c -> (N_of_ascii c <? 128)%N = true.
Proof.
  unfold ascii_text. revert n. induction s as [|d s IH]; intros n; [by destruct n|]. simpl.
  intros [Hd Hs]%andb_true_iff. destruct n; [by intros [= <-]|]. by apply IH.
Qed.

Lemma base64_ascii l : ascii_text (StdEncoding_EncodeToString l) = true.
Proof.
  assert (forall n, (N_of_ascii (b64_char std_alphabet n) <? 128)%N = true) as Hc.
  { intros n. unfold b64_char. destruct (String.get (N.to_nat n) std_alphabet) as [c|] eqn:E; [|done].
    eapply get_ascii; [|exact E]. vm_compute. reflexivity. }
  unfold StdEncoding_EncodeToString, ascii_text.
  induction l as [|a|a b|a b c l IH] using list_triples; cbn [b64_encode str_forall]; rewrite ?Hc, ?IH; done.
Qed.

Lemma route_ascii target zone route :
  ascii_text target = true -> ExtractRoute target zone = Ok route -> ascii_text (ro_Prefix route) = true.
Proof.
  intros Ht. unfold ExtractRoute. destruct (String.eqb _ ""); [done|]. destruct (negb _); [done|].
  destruct (_ || _); [done|]. intros [= <-]. simpl. by apply ascii_trim_suffix, ascii_lower, ascii_trim_suffix.
Qed.

(** ** The router *)

(** [ExtractRoute] accepts exactly the hosts that are one label in front of
    the zone, in any case and with or without the root's dot. *)
Lemma ExtractRoute_spec target zone route :
  ExtractRoute target zone = Ok route <->
  ro_Zone route = ToLower (TrimPrefix zone ".") /\ ro_Zone route <> "" /\
  ToLower (TrimSuffix target ".") = ro_Prefix route +:+ "." +:+ ro_Zone route /\
  ro_Prefix route <> "" /\ Contains (ro_Prefix route) "." = false.
Proof.
  unfold ExtractRoute. set (z := ToLower (TrimPrefix zone ".")). set (t := ToLower (TrimSuffix target ".")).
  destruct (String.eqb_spec z "") as [Hz|Hz].
  { split; [done|]. intros (E & Hne & _). congruence. }
  destruct (HasSuffix t ("." +:+ z)) eqn:Hs; simpl.
  - apply HasSuffix_spec in Hs as [r Hr]. rewrite Hr, TrimSuffix_app.
    destruct (String.eqb_spec r "") as [->|Hne]; simpl.
    { split; [done|]. intros (E & _ & Ht & Hp & _). rewrite E in Ht.
      apply (f_equal (fun s => TrimSuffix s ("." +:+ z))) in Ht. rewrite !TrimSuffix_app in Ht. congruence. }
    destruct (Contains r ".") eqn:Hc.
    + split; [done|]. intros (E & _ & Ht & _ & Hp). rewrite E in Ht.
      apply (f_equal (fun s => TrimSuffix s ("." +:+ z))) in Ht. rewrite !TrimSuffix_app in Ht. congruence.
    + split; [intros [= <-]; done|]. intros (E & _ & Ht & _ & _). rewrite E in Ht.
      apply (f_equal (fun s => TrimSuffix s ("." +:+ z))) in Ht. rewrite !TrimSuffix_app in Ht.
      destruct route. simpl in *. by subst.
  - split; [done|]. intros (E & _ & Ht & _). rewrite E in Ht.
    assert (HasSuffix t ("." +:+ z) = true) as Hx by (apply HasSuffix_spec; eauto). congruence.
Qed.

(** ** The skew of the expiry check *)

(** The relay's and the agent's comment speaks of a second's tolerance for
    clocks that differ; the check has the opposite sign: a ticket is refused
    during its last second, in which it still verifies. *)
Theorem skew_is_inverted `{TicketJSONLaws} s fresh now t signed now' :
  printable (fill s fresh now t) -> Issue s fresh now t = Ok signed ->
  let exp := tk_ExpiresAt (fill s fresh now t) in
  exp <> zeroTime -> (exp - second < now' <= exp)%Z ->
  SSHTicket.Verify (sn_Secret s) now' signed = Ok (fill s fresh now t) /\ stale now' exp = true.
Proof.
  intros Hp Hi exp Hz Hn. rewrite (Issue_Verify s fresh now t) by done. fold exp.
  destruct (Z.ltb_spec exp now'); [lia|]. split; [done|].
  unfold stale, relay_skew. rewrite bool_decide_eq_false_2 by done. simpl. apply Z.ltb_lt. lia.
Qed.

(** ** The parts wired together *)

(** encoding/json across the types of the two processes: the relay's struct
    names fields of the ticket, uuids being strings in it. *)
Definition payload_of `{UUIDLib} (t : Ticket) : ticketPayload :=
  {| tp_SessionID := tk_SessionID t; tp_InstanceID := uuid_String (tk_InstanceID t);
     tp_NodeID := uuid_String (tk_NodeID t); tp_VMInternalIP := tk_VMInternalIP t; tp_VMPort := tk_VMPort t;
     tp_ExpiresAt := tk_ExpiresAt t |}.

Class PayloadLaws `{UUIDLib, TicketJSON, PayloadJSON} : Prop :=
  payload_ticket t raw : printable t -> json_Marshal t = Ok raw -> payload_Unmarshal raw = Ok (payload_of t).

(** ssh-proxy with main-api behind it; [px_starts] is what became of the
    channels that were handled. *)
Record proxy := { px_api : AuthState; px_reg : Registry; px_starts : list relay_start }.

(** The address of an instance and a node the tunnel leads to. *)
Definition agent_outcome (now exp : Time) (ip after : string) (idle : Z) : stream_outcome :=
  if stale now exp then Dropped "expired_ticket" else Relaying (JoinHostPort ip (Itoa 22)) after idle.

Lemma ticket_error_status `{TicketJSON} deps fresh now body s :
  match (SSHTicketHandler deps fresh now body s).1 with
  | WriteError st _ _ => st <> StatusOK
  | WriteJSON _ _ => True
  | WriteHeader _ => False
  end.
Proof.
  unfold SSHTicketHandler. destruct (parseSSHTicketRequest body) as [req|st code msg] eqn:Hp.
  - destruct (negb _); [done|]. rewrite bind_eq. destruct (LookupUserByFingerprint _ s) as [[owner|e] s1]; [|done].
    simpl. rewrite bind_eq. destruct (resolveInstanceByPrefix owner _ s1) as [[inst|e] s2]; simpl; [|by destruct (errors_Is _ _)].
    unfold ticket_for. destruct (negb _); [done|]. destruct (in_VmInternalIp inst); [|done].
    rewrite bind_eq. destruct (GetNode _ s2) as [[node|e] s3]; simpl; [|done].
    destruct (negb _); [done|]. by destruct (issue_for _ _ _ _ _ _).
  - destruct body as [m|m|raw]; cbn [parseSSHTicketRequest] in Hp; simpl; [by injection Hp as <- _ _..|].
    destruct (String.eqb _ ""); [by injection Hp as <- _ _|]. destruct (_ || _); [by injection Hp as <- _ _|].
    destruct (String.eqb _ ""); [by injection Hp as <- _ _|done].
Qed.

Section tunnel.
Context `{UUIDLib, !UUIDText, Bcrypt, TicketJSON, !TicketJSONLaws, PayloadJSON, !PayloadLaws, SSHWire}.
Context `{JSON AgentAuth.request, JSON wireResponse, JSON error_body}.
Context `{JSON sshTicketRequest, !JSONLaws sshTicketRequest}.
Context `{JSON Signed, !JSONLaws Signed}.
Context `{JSON streamHeader, !JSONLaws streamHeader}.

(** main-api's wiring, draw and clock; the proxy's zone, token and clock, and
    the errors of opening a stream and of writing its header. *)
Variables (rs : Routers) (deps : SSHTicketDeps) (fresh : string) (now1 now2 : Time).
Variables (zone token : string) (now : Time) (yamux write : option error).

#[local] Instance px_main_api : MainAPI proxy := {|
  api_post path authorization body p :=
    let '(r, a) := @api_post _ (main_api rs deps fresh now1 now2) path authorization body (px_api p) in
    (r, {| px_api := a; px_reg := px_reg p; px_starts := px_starts p |})
|}.

#[local] Instance px_tickets : TicketIssuer proxy := client_Issue token.

#[local] Instance px_streams : StreamOpener proxy := fun node p =>
  (match OpenStream node (px_reg p) with
   | Err e => Err e
   | Ok k => match yamux with
             | Some e => Err (ErrWrap ("muxregistry: open stream for " +:+ node +:+ ": ") e "")
             | None => Ok k
             end
   end, p).

(** The handler [main] configures. *)
Definition wired : TunnelHandler := {| th_Tickets := true; th_AfterTicket := Some {| ry_Opener := true |} |}.

#[local] Instance px_handler : Handler proxy := fun info prefix p =>
  let '(start, p') := tunnel_Connect wired now write info prefix p in
  (match start with Closed e => Some e | _ => None end,
   {| px_api := px_api p'; px_reg := px_reg p'; px_starts := start :: px_starts p' |}).

(** A ticket the client got. *)
Lemma issue_ticket_sound prefix fp p :
  clean (as_pg (px_api p)) -> ascii_text prefix = true -> ascii_text fp = true ->
  px_reg (issue_ticket prefix fp p).2 = px_reg p /\ px_starts (issue_ticket prefix fp p).2 = px_starts p /\
  forall signed, (issue_ticket prefix fp p).1 = Ok signed ->
    exists req owner inst ip node,
      parseSSHTicketRequest (Decoded {| tr_SubdomainPrefix := prefix; tr_SSHKeyFingerprint := fp |}) = Pass req /\
      tunnel_target (pg_db (as_pg (px_api p))) (tr_SSHKeyFingerprint req) (tr_SubdomainPrefix req) owner inst ip node /\
      issue_for (td_Signer deps) fresh now1 inst ip node = Ok signed.
Proof.
  intros Hc Hap Haf. unfold issue_ticket, px_tickets, client_Issue.
  set (q := {| tr_SubdomainPrefix := prefix; tr_SSHKeyFingerprint := fp |}).
  assert (plain q = true) as Hq.
  { unfold plain, sshTicketRequest_plain. simpl. by rewrite !ascii_valid. }
  destruct (json_text q) as [body|e] eqn:Hbody; [|done].
  rewrite bind_eq. unfold px_main_api, main_api. cbn [api_post].
  rewrite (bind_eq (S := AuthState)). unfold serve.
  rewrite route_ssh_ticket. destruct (rs_internal rs) as [[aa tok]|]; [|done].
  destruct (bearer_ok tok _); [|done]. rewrite (bind_eq (S := AuthState)). unfold onAuthPg.
  pose proof (ticket_error_status deps fresh now1 (decode_body 1024 body) (as_pg (px_api p))) as Hst.
  pose proof (fun sg => ticket_sound deps fresh now1 (decode_body 1024 body) (as_pg (px_api p)) sg Hc) as Hok.
  destruct (SSHTicketHandler deps fresh now1 (decode_body 1024 body) (as_pg (px_api p))) as [a s'].
  cbn [fst snd ret px_reg px_starts] in *. split; [done|]. split; [done|]. intros signed.
  destruct (render a) as [status text] eqn:Ha. destruct (Z.eqb_spec status StatusOK) as [->|]; [|done]. simpl.
  destruct (json_parse _) as [sg|] eqn:Hsg; [|done]. intros [= ->].
  apply render_200 in Ha as (sg & -> & ->); [|by intros st code msg ->|by intros st ->].
  destruct (Hok sg eq_refl) as (req & owner & inst & ip & node & Hp & Ht & Hi).
  assert (decode_body 1024 body = Decoded q) as Hd.
  { apply parse_Pass in Hp as Hraw. destruct Hraw as (raw & Hraw & _). rewrite Hraw.
    f_equal. by apply (decode_body_sound 1024 q body). }
  rewrite Hd in Hp. exists req, owner, inst, ip, node. split_and!; [done..|].
  assert (plain sg = true) as Hplain.
  { unfold issue_for, Issue in Hi. destruct (json_Marshal _); [|done]. injection Hi as <-.
    unfold plain, Signed_plain, signature. simpl. by rewrite !ascii_valid by apply base64_ascii. }
  destruct (json_text sg) as [raw|e] eqn:Hraw; [|by apply parse_empty in Hsg].
  apply (parse_prefix sg) in Hsg as ->; done.
Qed.

(** The ticket behind [issue_for]. *)
Definition ticket_of (inst : InstanceRow) (ip : Addr) (node : Node) : Ticket :=
  {| tk_SessionID := fresh; tk_InstanceID := in_ID inst; tk_NodeID := nd_ID node; tk_VMInternalIP := ip;
     tk_VMPort := 22; tk_TunnelEndpoint := ""; tk_ExpiresAt := (now1 + sn_TTL (td_Signer deps))%Z |}.

(** What the relay reads in an issued ticket. *)
Lemma read_payload_issued inst ip node signed pl :
  ascii_text fresh = true -> ascii_text ip = true ->
  issue_for (td_Signer deps) fresh now1 inst ip node = Ok signed -> read_payload now signed = Ok pl ->
  pl = payload_of (ticket_of inst ip node) /\ ip <> "" /\ stale now (now1 + sn_TTL (td_Signer deps)) = false.
Proof.
  intros Hf Hip. unfold issue_for, Issue.
  assert (fill (td_Signer deps) fresh now1
    {| tk_SessionID := ""; tk_InstanceID := in_ID inst; tk_NodeID := nd_ID node; tk_VMInternalIP := ip;
       tk_VMPort := 22; tk_TunnelEndpoint := ""; tk_ExpiresAt := zeroTime |} = ticket_of inst ip node) as ->.
  { unfold fill, ticket_of. cbn [tk_SessionID tk_InstanceID tk_NodeID tk_VMInternalIP tk_VMPort
      tk_TunnelEndpoint tk_ExpiresAt]. by rewrite decide_True. }
  destruct (json_Marshal _) as [raw|e] eqn:Hm; [|done]. intros [= <-].
  unfold read_payload. simpl. rewrite StdEncoding_roundtrip by apply bytes_of_bytes.
  rewrite of_bytes_of. rewrite (payload_ticket (ticket_of inst ip node) raw); [|by unfold printable|done].
  destruct (String.eqb _ ""); [done|]. destruct (String.eqb_spec (tp_VMInternalIP (payload_of (ticket_of inst ip node))) "") as [|Hne]; [done|].
  destruct (_ || _); [done|]. simpl. destruct (stale now _) eqn:Hst; [done|]. by intros [= <-].
Qed.

(** What the agent makes of the header line. *)
Lemma agent_reads_header inst ip node raw h now' after fin :
  ascii_text ip = true -> ip <> "" ->
  json_text (header_of (payload_of (ticket_of inst ip node))) = Ok raw ->
  handleStream h now' (raw +:+ newline +:+ after) fin None =
    agent_outcome now' (now1 + sn_TTL (td_Signer deps)) ip after (mh_IdleTimeout (effective h)).
Proof.
  intros Hip Hne Hraw. unfold handleStream.
  assert (plain (header_of (payload_of (ticket_of inst ip node))) = true) as Hp.
  { unfold plain, streamHeader_plain. simpl. by rewrite uuid_valid, ascii_valid. }
  change (newline +:+ after) with (String "010" after).
  rewrite (readHeader_line _ raw after fin Hraw Hp). simpl.
  destruct (String.eqb_spec ip "") as [|_]; [done|]. simpl. unfold agent_outcome. by destruct (stale _ _).
Qed.

(** C15: a tunnel leads to the caller's own running VM and nowhere else.  For
    a channel an SSH client opens at the proxy: nothing happens to the
    registry, and when a stream is opened and a header written, the client
    asked for port 22 of a host that is one label in front of the zone; that
    label is a prefix of the id of exactly one instance of a user who has
    registered a key with the fingerprint the client authenticated with; the
    instance is running with an address and its node is online; the stream is
    on the session the registry holds for that node; the ticket was not about
    to expire; and any agent that reads the header line dials that address on
    port 22, with every byte after the line reaching the VM, or refuses the
    line as expired. *)
Theorem tunnel_end_to_end info nc p :
  clean (as_pg (px_api p)) -> ascii_text fresh = true -> ascii_text (ci_Fingerprint info) = true ->
  (forall req, ssh_Unmarshal (nc_ExtraData nc) = Ok req -> ascii_text (dt_Host req) = true) ->
  (forall i inst ip, db_instances (pg_db (as_pg (px_api p))) !! i = Some inst -> in_VmInternalIp inst = Some ip ->
     ascii_text ip = true) ->
  let '(o, p') := handleDirectTCPIP zone info nc p in
  px_reg p' = px_reg p /\
  forall k line, px_starts p' = Pumping k line :: px_starts p ->
    exists req route owner inst ip node,
      ssh_Unmarshal (nc_ExtraData nc) = Ok req /\ dt_Port req = 22%Z /\
      ExtractRoute (dt_Host req) zone = Ok route /\
      tunnel_target (pg_db (as_pg (px_api p))) (TrimSpace (ci_Fingerprint info))
        (ToLower (TrimSpace (ro_Prefix route))) owner inst ip node /\
      OpenStream (uuid_String (nd_ID node)) (px_reg p) = Ok k /\
      stale now (now1 + sn_TTL (td_Signer deps)) = false /\
      forall raw, json_text (header_of (payload_of (ticket_of inst ip node))) = Ok raw ->
        line = raw +:+ newline /\
        forall h now' after fin, handleStream h now' (line +:+ after) fin None =
          agent_outcome now' (now1 + sn_TTL (td_Signer deps)) ip after (mh_IdleTimeout (effective h)).
Proof.
  intros Hc Hfresh Hfp Hhost Hips. unfold handleDirectTCPIP.
  assert (forall k line, px_starts p <> Pumping k line :: px_starts p) as Hnil.
  { intros k line E. apply (f_equal List.length) in E. simpl in E. lia. }
  destruct (ssh_Unmarshal _) as [req|]; [|by split; [|intros k line E; destruct (Hnil k line)]].
  destruct (ExtractRoute _ _) as [route|] eqn:Hroute; [|by split; [|intros k line E; destruct (Hnil k line)]].
  destruct (Z.eqb_spec (dt_Port req) 22) as [Hport|]; simpl;
    [|by split; [|intros k line E; destruct (Hnil k line)]].
  destruct (nc_accept nc); [by split; [|intros k line E; destruct (Hnil k line)]|].
  assert (ascii_text (ro_Prefix route) = true) as Hpre by (by eapply route_ascii; [apply Hhost|]).
  pose proof (issue_ticket_sound (ro_Prefix route) (ci_Fingerprint info) p Hc Hpre Hfp) as (Hreg & Hst & Hok).
  rewrite bind_eq. unfold Connect, px_handler, tunnel_Connect. simpl.
  destruct (String.eqb (ci_Fingerprint info) ""); simpl; [done|].
  rewrite bind_eq. destruct (issue_ticket (ro_Prefix route) (ci_Fingerprint info) p) as [[signed|e] p1];
    simpl in *; [|by rewrite Hst].
  destruct (Hok signed eq_refl) as (q & owner & inst & ip & node & Hq & Ht & Hi). unfold Relay. simpl.
  assert (ascii_text ip = true) as Hip.
  { destruct Ht as [_ (j & Hj & _) _ Hip' _ _]. by eapply Hips. }
  destruct (read_payload now signed) as [pl|e] eqn:Hpl; [|by simpl; rewrite Hst].
  apply (read_payload_issued inst ip node) in Hpl as (-> & Hne & Hstale); [|done..].
  rewrite bind_eq. unfold open_stream, px_streams. rewrite Hreg. simpl.
  destruct (OpenStream (uuid_String (nd_ID node)) (px_reg p)) as [k0|e] eqn:Ho; simpl; [|by rewrite Hst].
  destruct yamux; simpl; [by rewrite Hst|]. destruct write; simpl; [by rewrite Hst|].
  split; [done|]. rewrite Hst. intros k line [= <- <-].
  destruct (parse_Pass (Decoded {| tr_SubdomainPrefix := ro_Prefix route;
    tr_SSHKeyFingerprint := ci_Fingerprint info |}) q Hq) as (raw & [= <-] & _ & _ & Hq1 & Hq2). simpl in Hq1, Hq2. rewrite Hq1, Hq2 in Ht.
  exists req, route, owner, inst, ip, node. split_and!; [done..|].
  intros hraw Hraw. unfold header_line. rewrite Hraw. split; [done|].
  intros h now' after fin. rewrite str_app_assoc. by apply (agent_reads_header inst ip node).
Qed.
End tunnel.

(** ** Witnesses *)

#[export] Instance streamHeader_eq_dec : EqDecision streamHeader.
Proof. solve_decision. Defined.
#[export] Instance streamHeader_countable : Countable streamHeader.
Proof.
  by refine (inj_countable' (fun h => (sh_InstanceID h, sh_VMInternalIP h, sh_VMPort h, sh_ExpiresAt h))
    (fun '(a, b, c, d) => Build_streamHeader a b c d) _); intros [].
Defined.

Section witnesses.
#[local] Existing Instances demo_bcrypt DemoUUID.lib demo_uuid_text demo_json demo_json_laws.
#[local] Existing Instances DemoJSON.countable_codec DemoJSON.json DemoJSON.laws.

(** A compact text for signed tickets, which are long. *)
#[local] Instance signed_codec : DemoJSON.Codec Signed.
Proof. apply (DemoJSON.pair_codec Build_Signed (fun s => (sg_Payload s, sg_Signature s))). by intros []. Defined.

#[local] Instance demo_payload : PayloadJSON := fun raw =>
  match json_Unmarshal raw with Ok t => Ok (payload_of t) | Err e => Err e end.

#[local] Instance demo_payload_laws : PayloadLaws.
Proof. intros t raw Hp Hm. unfold payload_Unmarshal, demo_payload. by rewrite (Unmarshal_Marshal t raw). Qed.

Definition jump_req : directTCPIPReq :=
  {| dt_Host := "00000000.vm.example"; dt_Port := 22; dt_OriginHost := ""; dt_OriginPort := 0 |}.

#[local] Instance demo_ssh : SSHWire := fun _ => Ok jump_req.

Definition slow_deps : SSHTicketDeps :=
  {| td_Signer := {| sn_Secret := bytes_of "0123456789abcdef"; sn_TTL := 15 * second |}; td_SSHKeys := true |}.

Definition demo_proxy : proxy :=
  {| px_api := {| as_pg := ticket_pg; as_cache := NewHandler 60 |};
     px_reg := Register (uuid_String 3%N) MuxRegistry.New; px_starts := [] |}.

Definition demo_client : ConnInfo := {| ci_Fingerprint := "SHA256:abc"; ci_RemoteAddr := "192.0.2.7:5000" |}.
Definition demo_chan : NewChannel := {| nc_ChannelType := "direct-tcpip"; nc_ExtraData := ""; nc_accept := None |}.

#[local] Notation demo_connect := (handleDirectTCPIP (H := px_handler demo_routers slow_deps "s1" 1000 1001 "int" 1002 None None)
  "vm.example" demo_client demo_chan demo_proxy).

Lemma demo_pumps : match px_starts demo_connect.2 with [Pumping 0 _] => true | _ => false end = true.
Proof. vm_compute. reflexivity. Qed.

Lemma demo_vm i inst ip :
  db_instances (pg_db (as_pg (px_api demo_proxy))) !! i = Some inst -> in_VmInternalIp inst = Some ip ->
  inst = reachable_vm /\ ip = "10.0.0.9".
Proof.
  intros Hi. change (({[ 5%N := reachable_vm ]} : gmap UUID InstanceRow) !! i = Some inst) in Hi.
  apply lookup_singleton_Some in Hi as [_ <-]. intros [= <-]. split; reflexivity.
Qed.

Lemma tunnel_end_to_end_witness : exists line,
  px_starts demo_connect.2 = [Pumping 0 line] /\
  forall h, handleStream h 1003 (line +:+ "SSH-2.0") EOF None =
    Relaying "10.0.0.9:22" "SSH-2.0" (mh_IdleTimeout (effective h)).
Proof.
  pose proof (tunnel_end_to_end demo_routers slow_deps "s1" 1000 1001 "vm.example" "int" 1002 None None
    demo_client demo_chan demo_proxy eq_refl eq_refl eq_refl) as H.
  pose proof demo_pumps as Hs. destruct demo_connect as [o p']. cbn [snd] in Hs |- *.
  destruct H as [_ H].
  - intros req Hr. injection Hr as <-. reflexivity.
  - intros i inst ip Hi Hip. destruct (demo_vm i inst ip Hi Hip) as [_ ->]. reflexivity.
  - destruct (px_starts p') as [|[| |[|k] line] [|]]; try discriminate. exists line. split; [reflexivity|].
    destruct (H 0 line eq_refl) as (req & route & owner & inst & ip & node & _ & _ & _ & Ht & _ & _ & Hline).
    destruct Ht as [_ (i & Hi & _) _ Hip _ _]. destruct (demo_vm i inst ip Hi Hip) as [-> ->].
    destruct (Hline _ eq_refl) as [_ Hh]. intros h. rewrite Hh. reflexivity.
Defined.
End witnesses.
