(* ===== verification/AdminCLI.v ===== *)
(** * The operator CLI (cmd/admin)

    Flag parsing, the node-token and team commands with what they print, and
    what they mean for the agents: the credentials that are accepted after a
    token is created, and after it is revoked. *)

From S2P Require Import Prelude GoStrings GoCrypto Proto Db Queries AccountQueries Demo Http Auth AgentAuth Wire.
From Stdlib Require Import Ascii.

#[local] Open Scope string_scope.
#[local] Open Scope list_scope.
#[local] Open Scope go_scope.

(** ** Package flag, for flags with a text value *)

Definition ErrHelp : error := Sentinel "flag: help requested".

(** A flag's name and what follows the first "=" in it, if anything does. *)
Fixpoint cut_equals (s : string) : string * option string :=
  match s with
  | EmptyString => ("", None)
  | String c s' =>
      if Ascii.eqb c "=" then ("", Some s')
      else let '(name, v) := cut_equals s' in (String c name, v)
  end.

(** An argument as a flag: not one, the end of the flags, or the text after
    its one or two minus signs. *)
Inductive arg_kind := Operand | Terminator | FlagText (name : string).

Definition classify (s : string) : arg_kind :=
  match s with
  | String "-" (String "-" EmptyString) => Terminator
  | String "-" (String "-" rest) => FlagText rest
  | String "-" (String c rest) => FlagText (String c rest)
  | _ => Operand
  end.

Definition bad_name (name : string) : bool :=
  match name with
  | EmptyString => true
  | String c _ => Ascii.eqb c "-" || Ascii.eqb c "="
  end.

(** [Parse] of a flag set with these names; the values given, the last of a
    name counts.  Operands are left alone, and the commands ignore them. *)
Fixpoint flag_Parse (names : list string) (vals : gmap string string) (args : list string)
    : result (gmap string string) :=
  match args with
  | [] => Ok vals
  | a :: rest =>
      match classify a with
      | Operand | Terminator => Ok vals
      | FlagText text =>
          if bad_name text then Err (ErrNew ("bad flag syntax: " +:+ a))
          else
            let '(name, v) := cut_equals text in
            if negb (existsb (String.eqb name) names) then
              Err (if String.eqb name "help" || String.eqb name "h" then ErrHelp
                   else ErrNew ("flag provided but not defined: -" +:+ name))
            else match v, rest with
                 | Some v, _ => flag_Parse names (<[name := v]> vals) rest
                 | None, v :: rest' => flag_Parse names (<[name := v]> vals) rest'
                 | None, [] => Err (ErrNew ("flag needs an argument: -" +:+ name))
                 end
      end
  end.

Definition flags (names args : list string) : result (gmap string string) := flag_Parse names ∅ args.
Definition flag_value (vals : gmap string string) (name : string) : string := default "" (vals !! name).

(** ** [Format] of a UTC time *)

(** Year, month and day of a day counted from 1970-01-01. *)
Definition civil (days : Z) : Z * Z * Z :=
  let z := (days + 719468)%Z in
  let era := (z / 146097)%Z in
  let doe := (z mod 146097)%Z in
  let yoe := ((doe - doe / 1460 + doe / 36524 - doe / 146096) / 365)%Z in
  let doy := (doe - (365 * yoe + yoe / 4 - yoe / 100))%Z in
  let mp := ((5 * doy + 2) / 153)%Z in
  let m := (if mp <? 10 then mp + 3 else mp - 9)%Z in
  ((yoe + era * 400 + (if m <=? 2 then 1 else 0))%Z, m, (doy - (153 * mp + 2) / 5 + 1)%Z).

Fixpoint zeros (n : nat) : string := match n with 0 => "" | S n => String "0" (zeros n) end.
Definition pad (n : nat) (z : Z) : string := zeros (n - String.length (Itoa z)) +:+ Itoa z.

Definition format_utc (t : Time) : string :=
  let secs := (t / second)%Z in
  let '(y, m, d) := civil (secs / 86400)%Z in
  let s := (secs mod 86400)%Z in
  pad 4 y +:+ "-" +:+ pad 2 m +:+ "-" +:+ pad 2 d +:+ "T" +:+
  pad 2 (s / 3600) +:+ ":" +:+ pad 2 (s / 60 mod 60) +:+ ":" +:+ pad 2 (s mod 60) +:+ "Z".

(** ** Statements only the CLI runs *)

Record TeamMembersForTeamRow := { tm_UserID : UUID; tm_JoinedAt : Time; tm_Email : string }.

Definition team_member_row (d : DB) (team : UUID) (m : (UUID * UUID) * Time) : option TeamMembersForTeamRow :=
  let '((t, u), joined) := m in
  if bool_decide (t = team) then
    (fun x => {| tm_UserID := u; tm_JoinedAt := joined; tm_Email := us_Email x |}) <$> db_users d !! u
  else None.

(** join users, order by email *)
Definition teamMembersForTeam `{Collation} (team : UUID) : Stmt (list TeamMembersForTeamRow) :=
  query (fun d => order_by (fun a b => coll_leb (tm_Email a) (tm_Email b))
    (omap (team_member_row d team) (map_to_list (db_team_members d)))).

(** update nodes set access_policy = 'owner_team', owner_team_id = $1 where
    id = $2 *)
Definition owned_by (team : UUID) (n : Node) : Node :=
  {| nd_ID := nd_ID n; nd_ZoneID := nd_ZoneID n; nd_NodeName := nd_NodeName n;
     nd_Hostname := nd_Hostname n; nd_AgentVersion := nd_AgentVersion n; nd_Status := nd_Status n;
     nd_TopologyJson := nd_TopologyJson n; nd_ProfileHash := nd_ProfileHash n;
     nd_LastHeartbeatAt := nd_LastHeartbeatAt n; nd_RegisteredAt := nd_RegisteredAt n;
     nd_UpdatedAt := nd_UpdatedAt n; nd_AccessPolicy := "owner_team"; nd_OwnerTeamID := Some team;
     nd_LastDataPlaneAt := nd_LastDataPlaneAt n; nd_NodeState := nd_NodeState n |}.

Definition pinNodeACL (team node : UUID) : Stmt unit := fun _ d =>
  (Ok tt, set_nodes (alter (owned_by team) node (db_nodes d)) d).

(** select id from users where email = $1 *)
Definition userIDByEmail (email : string) : Stmt UUID :=
  query_one (fun d => us_ID <$> row_where (fun u => String.eqb (us_Email u) email) (db_users d)).

(** ** node_token.go *)

Definition nodeTokenBytes : nat := 32.
Definition nodeTokenBcryptCost : Z := 12.

(** [rnd]: the bytes [rand.Read] delivers, or its error. *)
Definition generateTokenPlaintext (rnd : result (list N)) : result string :=
  match rnd with
  | Err e => Err e
  | Ok buf => Ok (RawURLEncoding_EncodeToString buf)
  end.

(** What a command prints when it succeeds. *)
Abbreviation command := (ST Pg (result string)).

Definition fail (msg : string) : command := ret (Err (ErrNew msg)).

Section commands.
Context `{UUIDLib, Bcrypt, Collation}.

(** The environment of a run: the endpoint printed, the entropy and the salt
    of bcrypt. *)
Record cmdEnv := { ce_muxEndpoint : string; ce_rand : result (list N); ce_salt : N }.

Definition created_text (env : cmdEnv) (plaintext : string) (row : NodeToken) (node : Node) (team : Team) : string :=
  "Token created (visible once — copy it now)." +:+ newline +:+ newline +:+
  "  AGENT_API_TOKEN=" +:+ plaintext +:+ newline +:+
  "  AGENT_MUX_ENDPOINT=" +:+ ce_muxEndpoint env +:+ newline +:+ newline +:+
  "Token id:    " +:+ uuid_String (nt_ID row) +:+ newline +:+
  "Node:        " +:+ nd_NodeName node +:+ " (" +:+ uuid_String (nd_ID node) +:+ ")" +:+ newline +:+
  "Owner team:  " +:+ te_Name team +:+ " (" +:+ uuid_String (te_ID team) +:+ ")" +:+ newline.

Definition nodeTokenCreate (env : cmdEnv) (args : list string) : command :=
  match flags ["node-name"; "owner-team"] args with
  | Err e => ret (Err e)
  | Ok fs =>
      let nodeName := flag_value fs "node-name" in
      let ownerTeam := flag_value fs "owner-team" in
      if String.eqb nodeName "" || String.eqb ownerTeam "" then fail "--node-name and --owner-team are required"
      else
        node <-? wrapErr ("look up node " +:+ Quote nodeName +:+ ": ") (exec (getNodeByName nodeName)) ;;
        team <-? wrapErr ("look up team " +:+ Quote ownerTeam +:+ ": ") (exec (teamGetByName ownerTeam)) ;;
        match generateTokenPlaintext (ce_rand env) with
        | Err e => ret (Err (ErrWrap "generate token: " e ""))
        | Ok plaintext =>
            match GenerateFromPassword (ce_salt env) plaintext nodeTokenBcryptCost with
            | Err e => ret (Err (ErrWrap "hash token: " e ""))
            | Ok hash =>
                row <-? wrapErr "insert token: " (exec (nodeTokenInsert
                  {| ntp_NodeID := nd_ID node; ntp_TokenHash := hash; ntp_CreatedBy := None |})) ;;
                _ <-? wrapErr "pin node ACL: " (exec (pinNodeACL (te_ID team) (nd_ID node))) ;;
                ret (Ok (created_text env plaintext row node team))
            end
        end
  end.

Definition token_line (r : NodeToken) : string :=
  uuid_String (nt_ID r) +:+ "  state=" +:+ (match nt_RevokedAt r with Some _ => "revoked" | None => "active" end) +:+
  "  created=" +:+ format_utc (nt_CreatedAt r) +:+
  "  revoked=" +:+ (match nt_RevokedAt r with Some t => format_utc t | None => "-" end) +:+ newline.

Definition listing {A} (none : string) (line : A -> string) (rows : list A) : string :=
  match rows with
  | [] => none +:+ newline
  | _ => foldr (fun r out => line r +:+ out) "" rows
  end.

Definition nodeTokenList (args : list string) : command :=
  match flags ["node-name"] args with
  | Err e => ret (Err e)
  | Ok fs =>
      let nodeName := flag_value fs "node-name" in
      if String.eqb nodeName "" then fail "--node-name is required"
      else
        node <-? wrapErr "look up node: " (exec (getNodeByName nodeName)) ;;
        rows <-? wrapErr "list tokens: " (exec (listNodeTokens (nd_ID node))) ;;
        ret (Ok (listing "(no tokens)" token_line rows))
  end.

Definition nodeTokenRevoke_command (args : list string) : command :=
  match flags ["token-id"] args with
  | Err e => ret (Err e)
  | Ok fs =>
      let tokenIDStr := flag_value fs "token-id" in
      if String.eqb tokenIDStr "" then fail "--token-id is required"
      else match uuid_Parse tokenIDStr with
           | Err e => ret (Err (ErrWrap "--token-id must be a UUID: " e ""))
           | Ok tokenID =>
               _ <-? wrapErr "revoke: " (exec (nodeTokenRevoke tokenID)) ;;
               ret (Ok ("revoked " +:+ uuid_String tokenID +:+ newline))
           end
  end.

Definition runNodeToken (env : cmdEnv) (args : list string) : command :=
  match args with
  | [] => fail ("node-token: subcommand required (" +:+ Quote "create" +:+ " | " +:+ Quote "list" +:+ " | " +:+
                Quote "revoke" +:+ ")")
  | sub :: rest =>
      if String.eqb sub "create" then nodeTokenCreate env rest
      else if String.eqb sub "list" then nodeTokenList rest
      else if String.eqb sub "revoke" then nodeTokenRevoke_command rest
      else fail ("node-token: unknown subcommand " +:+ Quote sub)
  end.

(** ** team.go *)

Definition teamCreate_command (args : list string) : command :=
  match flags ["name"; "description"] args with
  | Err e => ret (Err e)
  | Ok fs =>
      let name := flag_value fs "name" in
      if String.eqb name "" then fail "--name is required"
      else
        team <-? wrapErr "team create: " (exec (teamCreate name (flag_value fs "description"))) ;;
        ret (Ok ("team created  id=" +:+ uuid_String (te_ID team) +:+ "  name=" +:+ te_Name team +:+ newline))
  end.

(** The team an add-member command names. *)
Definition named_team (idStr name : string) : ST Pg (result UUID) :=
  if negb (String.eqb idStr "") then
    ret match uuid_Parse idStr with
        | Err e => Err (ErrWrap "--team-id must be a UUID: " e "")
        | Ok id => Ok id
        end
  else
    t <-? wrapErr ("look up team " +:+ Quote name +:+ ": ") (exec (teamGetByName name)) ;;
    ret (Ok (te_ID t)).

Definition user_of_email (email : string) : ST Pg (result UUID) :=
  r <- exec (userIDByEmail email) ;;
  ret match r with
      | Ok u => Ok u
      | Err e => Err (if errors_Is e ErrNoRows then ErrNew ("no user with email " +:+ Quote email)
                      else ErrWrap "look up user: " e "")
      end.

Definition teamAddMember (args : list string) : command :=
  match flags ["team-id"; "team-name"; "user-email"] args with
  | Err e => ret (Err e)
  | Ok fs =>
      let teamIDStr := flag_value fs "team-id" in
      let teamName := flag_value fs "team-name" in
      let userEmail := flag_value fs "user-email" in
      if String.eqb userEmail "" then fail "--user-email is required"
      else if String.eqb teamIDStr "" && String.eqb teamName "" then fail "--team-id or --team-name is required"
      else
        teamID <-? named_team teamIDStr teamName ;;
        userID <-? user_of_email userEmail ;;
        _ <-? wrapErr "add member: " (exec (teamMemberAdd teamID userID)) ;;
        ret (Ok ("added user " +:+ userEmail +:+ " (" +:+ uuid_String userID +:+ ") to team " +:+
                 uuid_String teamID +:+ newline))
  end.

Definition member_line (r : TeamMembersForTeamRow) : string :=
  uuid_String (tm_UserID r) +:+ "  " +:+ tm_Email r +:+ "  joined=" +:+ format_utc (tm_JoinedAt r) +:+ newline.

Definition teamListMembers (args : list string) : command :=
  match flags ["team-id"] args with
  | Err e => ret (Err e)
  | Ok fs =>
      let teamIDStr := flag_value fs "team-id" in
      if String.eqb teamIDStr "" then fail "--team-id is required"
      else match uuid_Parse teamIDStr with
           | Err e => ret (Err (ErrWrap "--team-id must be a UUID: " e ""))
           | Ok teamID =>
               rows <-? wrapErr "list members: " (exec (teamMembersForTeam teamID)) ;;
               ret (Ok (listing "(no members)" member_line rows))
           end
  end.

Definition runTeam (args : list string) : command :=
  match args with
  | [] => fail ("team: subcommand required (" +:+ Quote "create" +:+ " | " +:+ Quote "add-member" +:+ " | " +:+
                Quote "list-members" +:+ ")")
  | sub :: rest =>
      if String.eqb sub "create" then teamCreate_command rest
      else if String.eqb sub "add-member" then teamAddMember rest
      else if String.eqb sub "list-members" then teamListMembers rest
      else fail ("team: unknown subcommand " +:+ Quote sub)
  end.

(** ** main.go: whether the usage was printed, and the outcome of the command *)

Definition dispatch (env : cmdEnv) (args : list string) : ST Pg (bool * result string) :=
  match args with
  | [] => ret (false, Err (ErrNew "index out of range"))     (* [run] has refused it *)
  | sub :: rest =>
      if String.eqb sub "node-token" then r <- runNodeToken env rest ;; ret (false, r)
      else if String.eqb sub "team" then r <- runTeam rest ;; ret (false, r)
      else if String.eqb sub "help" || String.eqb sub "-h" || String.eqb sub "--help" then ret (true, Ok "")
      else ret (true, Err (ErrNew ("unknown subcommand " +:+ Quote sub)))
  end.

(** [run]: [dbURL] is DATABASE_URL; [connect] the error of opening the pool. *)
Definition run (dbURL : string) (connect : option error) (env : cmdEnv) (args : list string)
    : ST Pg (bool * result string) :=
  match args with
  | [] => ret (true, Err (ErrNew "a subcommand is required"))
  | _ =>
      if String.eqb dbURL "" then ret (false, Err (ErrNew "DATABASE_URL is required"))
      else match connect with
           | Some e => ret (false, Err (ErrWrap "connect db: " e ""))
           | None => dispatch env args
           end
  end.
End commands.

Example format_ex :
  format_utc 0 = "1970-01-01T00:00:00Z" /\ format_utc (951782400 * second) = "2000-02-29T00:00:00Z" /\
  format_utc (1767225599 * second + 999) = "2025-12-31T23:59:59Z".
Proof. vm_compute. auto. Qed.

Example flags_ex :
  let get r n := match r with Ok fs => flag_value fs n | Err _ => "error" end in
  let names := ["name"; "description"] in
  get (flags names ["--name"; "a"; "-description=b=c"; "--name=d"; "rest"; "-name"; "x"]) "name" = "d" /\
  get (flags names ["-description=b=c"]) "description" = "b=c" /\
  get (flags names ["--"; "-name"; "x"]) "name" = "" /\
  flags names ["-name"] = Err (ErrNew "flag needs an argument: -name") /\
  flags names ["-nam"; "x"] = Err (ErrNew "flag provided but not defined: -nam") /\
  flags names ["---name"] = Err (ErrNew "bad flag syntax: ---name").
Proof. vm_compute. auto 10. Qed.
