(* ===== verification/AdminCLIProof.v ===== *)
(** * What the operator's commands do to the agents' credentials

    A created token is accepted, together with what was accepted before, and
    pins the node to its team; revoking it restores what was accepted before.
    What a failed command leaves behind. *)

From S2P Require Import Prelude GoStrings GoCrypto Proto Db Queries AccountQueries Demo NodeRepo Http Auth AgentAuth Wire AdminCLI.

#[local] Open Scope string_scope.
#[local] Open Scope list_scope.
#[local] Open Scope go_scope.

Lemma nodeTokenInsert_Ok arg e d row d' :
  nodeTokenInsert arg e d = (Ok row, d') ->
  row = new_token e arg /\ db_node_tokens d !! nt_ID row = None /\
  d' = set_node_tokens (<[nt_ID row := row]> (db_node_tokens d)) d.
Proof.
  unfold nodeTokenInsert. intros H. destruct (fk_ok (Some (env_uuid e)) (db_node_tokens d)) eqn:Hf; [done|].
  inv_stmt H. split_and!; [done| |done]. simpl in *. by destruct (db_node_tokens d !! env_uuid e) eqn:E.
Qed.

Section facts.
Context `{UUIDLib, !UUIDLaws, Bcrypt, !BcryptLaws}.

(** Which credentials are accepted after a token was added, and after it was
    revoked again. *)
Lemma active_match_added d d' row key :
  db_node_tokens d !! nt_ID row = None -> nt_RevokedAt row = None ->
  db_node_tokens d' = <[nt_ID row := row]> (db_node_tokens d) ->
  active_match d' key <->
    active_match d key \/ (key.1 = nt_NodeID row /\ CompareHashAndPassword (nt_TokenHash row) key.2 = true).
Proof.
  intros Hf Hr Hd. unfold active_match. rewrite Hd. split.
  - intros (i & t & [[<- <-]|[_ Hi]]%lookup_insert_Some & Hn & Ha & Hc); [by right|left; eauto 10].
  - intros [(i & t & Hi & Hn & Ha & Hc)|[Hn Hc]].
    + exists i, t. rewrite lookup_insert_ne by (intros <-; congruence). auto.
    + exists (nt_ID row), row. rewrite lookup_insert_eq. auto.
Qed.

Lemma active_match_revoked d row t key (revoked := fun n : NodeToken =>
    match nt_RevokedAt n with None => revoke_at t n | Some _ => n end) d' :
  db_node_tokens d !! nt_ID row = None ->
  db_node_tokens d' = alter revoked (nt_ID row) (<[nt_ID row := row]> (db_node_tokens d)) ->
  active_match d' key <-> active_match d key.
Proof.
  intros Hf Hd. unfold active_match. rewrite Hd. split; intros (i & x & Hi & Hn & Ha & Hc); exists i, x.
  - destruct (decide (i = nt_ID row)) as [->|Hne].
    + rewrite lookup_alter_eq, lookup_insert_eq in Hi. injection Hi as <-. exfalso. unfold revoked in Ha.
      destruct (nt_RevokedAt row) eqn:E; [congruence|done].
    + rewrite lookup_alter_ne, lookup_insert_ne in Hi by congruence. auto.
  - assert (nt_ID row <> i) by (intros <-; congruence). rewrite lookup_alter_ne, lookup_insert_ne by done. auto.
Qed.

(** What a successful [node-token create] did. *)
Record created (env : cmdEnv) (args : list string) (out : string) (s s' : Pg) (node : Node) (team : Team)
    (plaintext : string) (row : NodeToken) : Prop := {
  cr_flags : exists fs, flags ["node-name"; "owner-team"] args = Ok fs /\
    nd_NodeName node = flag_value fs "node-name" /\ te_Name team = flag_value fs "owner-team";
  cr_node : db_nodes (pg_db s) !! nd_ID node = Some node;
  cr_team : exists i, db_teams (pg_db s) !! i = Some team;
  cr_plaintext : generateTokenPlaintext (ce_rand env) = Ok plaintext;
  cr_out : out = created_text env plaintext row node team;
  cr_row : nt_NodeID row = nd_ID node /\ nt_RevokedAt row = None /\
    CompareHashAndPassword (nt_TokenHash row) plaintext = true;
  cr_fresh : db_node_tokens (pg_db s) !! nt_ID row = None;
  cr_db : pg_db s' = set_nodes (alter (owned_by (te_ID team)) (nd_ID node) (db_nodes (pg_db s)))
    (set_node_tokens (<[nt_ID row := row]> (db_node_tokens (pg_db s))) (pg_db s))
}.

Lemma nodeTokenCreate_Ok env args s out s' :
  nodes_ok (pg_db s) -> nodeTokenCreate env args s = (Ok out, s') ->
  exists node team plaintext row, created env args out s s' node team plaintext row.
Proof.
  intros [Hkey _]. unfold nodeTokenCreate. destruct (flags _ args) as [fs|e] eqn:Hfs; [|done].
  destruct (_ || _); [done|]. intros Hrun. inv_ok.
  destruct (generateTokenPlaintext _) as [plaintext|e] eqn:Hg; [|done].
  destruct (GenerateFromPassword _ _ _) as [hash|e] eqn:Hh; [|done]. inv_ok.
  unfold getNodeByName in Hok. apply query_one_Ok in Hok as [Hn Hd1].
  unfold teamGetByName in Hok0. apply query_one_Ok in Hok0 as [Ht Hd2].
  apply row_where_Some in Hn as [Hname [i Hi]], Ht as [Htname [j Hj]].
  apply nodeTokenInsert_Ok in Hok1 as (Hrow & Hfresh & Hd3). unfold pinNodeACL in Hok2.
  injection Hok2 as _ Hd4. rewrite Hd2, Hd1 in Hd3, Hfresh. rewrite Hd1 in Hj. rewrite Hd3 in Hd4.
  eexists a, a0, plaintext, a1. split; try done.
  - exists fs. split; [done|]. unfold named in Hname. unfold team_named in Htname.
    apply String.eqb_eq in Hname, Htname. done.
  - by rewrite (Hkey i a Hi).
  - eauto.
  - rewrite Hrow. simpl. split_and!; [done..|]. by eapply Compare_Generate.
Qed.

(** C23: a node token, from creation to revocation.  When [node-token create]
    succeeds, the node and the team are those named on the command line; the
    text printed holds a token that an agent of that node can then
    authenticate with (the answer names the team's policy); besides the
    credentials accepted before, only those matching the new token's hash are
    accepted; every other node is untouched, and the node itself is now
    accessible to exactly the members of the team.  When the token's id, as
    printed, is revoked later, the accepted credentials are again exactly
    those of before the creation. *)
Theorem node_token_lifecycle env args s out s' :
  nodes_ok (pg_db s) -> nodeTokenCreate env args s = (Ok out, s') ->
  exists node team plaintext row,
    (db_nodes (pg_db s) !! nd_ID node = Some node /\ exists i, db_teams (pg_db s) !! i = Some team) /\
    (exists fs, flags ["node-name"; "owner-team"] args = Ok fs /\ nd_NodeName node = flag_value fs "node-name" /\
       te_Name team = flag_value fs "owner-team") /\
    (generateTokenPlaintext (ce_rand env) = Ok plaintext /\ out = created_text env plaintext row node team) /\
    (forall key, active_match (pg_db s') key <->
       active_match (pg_db s) key \/
       (key.1 = nd_ID node /\ CompareHashAndPassword (nt_TokenHash row) key.2 = true)) /\
    (forall now1 now2 ttl, clean s' -> plaintext <> "" ->
       (ServeHTTP now1 now2 "POST" (Decoded {| rq_NodeID := uuid_String (nd_ID node); rq_Token := plaintext |})
          {| as_pg := s'; as_cache := NewHandler ttl |}).1 =
       WriteJSON StatusOK (granted (nd_ID node) (auth_info (owned_by (te_ID team) node) (nd_ID node)))) /\
    (forall id, db_nodes (pg_db s') !! id =
       if decide (id = nd_ID node) then Some (owned_by (te_ID team) node) else db_nodes (pg_db s) !! id) /\
    (forall user, node_accessible (pg_db s') user (owned_by (te_ID team) node) = true <->
       is_Some (db_team_members (pg_db s) !! (te_ID team, user))) /\
    (forall s1 out2 s2, db_node_tokens (pg_db s1) = db_node_tokens (pg_db s') ->
       nodeTokenRevoke_command ["--token-id"; uuid_String (nt_ID row)] s1 = (Ok out2, s2) ->
       forall key, active_match (pg_db s2) key <-> active_match (pg_db s) key).
Proof.
  intros Hok Hrun. destruct (nodeTokenCreate_Ok env args s out s' Hok Hrun)
    as (node & team & plaintext & row & [Hfs Hn Ht Hp Ho (Hr1 & Hr2 & Hr3) Hf Hd]).
  assert (forall key, active_match (pg_db s') key <-> active_match (pg_db s) key \/
    (key.1 = nd_ID node /\ CompareHashAndPassword (nt_TokenHash row) key.2 = true)) as Hact.
  { intros key. rewrite <- Hr1. apply active_match_added; [done|done|by rewrite Hd]. }
  assert (forall id, db_nodes (pg_db s') !! id =
    if decide (id = nd_ID node) then Some (owned_by (te_ID team) node) else db_nodes (pg_db s) !! id) as Hnodes.
  { intros id. rewrite Hd. simpl. destruct (decide (id = nd_ID node)) as [->|Hne].
    - by rewrite lookup_alter_eq, Hn.
    - by rewrite lookup_alter_ne. }
  exists node, team, plaintext, row. split_and!; [done|done|done|done|done|done| |done| |].
  - intros now1 now2 ttl Hc Hpl.
    pose proof (ServeHTTP_spec now1 now2 {| rq_NodeID := uuid_String (nd_ID node); rq_Token := plaintext |}
      (nd_ID node) {| as_pg := s'; as_cache := NewHandler ttl |} Hc (uuid_Parse_String _) Hpl) as Hs.
    cbv zeta in Hs. destruct (ServeHTTP _ _ _ _ _) as [resp sr]. destruct Hs as [_ Hs].
    unfold probe, NewHandler in Hs. cbn [as_cache ac_cacheTTL ac_cache] in Hs. rewrite lookup_empty in Hs.
    assert (forall b : bool, (if b then None else None) = @None NodeAuthInfo) as Hnone by by intros [].
    rewrite Hnone in Hs. destruct Hs as [Hs _].
    apply (Hs (owned_by (te_ID team) node)); [apply Hact; right; done|]. cbn [as_pg]. rewrite Hnodes. by rewrite decide_True.
  - intros user. unfold node_accessible. simpl. rewrite Hd. simpl. by rewrite bool_decide_eq_true.
  - intros s1 out2 s2 Hs1 Hrev. unfold nodeTokenRevoke_command in Hrev.
    set (fs := {["token-id" := uuid_String (nt_ID row)]} : gmap string string).
    replace (flags ["token-id"] ["--token-id"; uuid_String (nt_ID row)]) with (Ok fs) in Hrev by reflexivity.
    cbv beta iota zeta in Hrev. replace (flag_value fs "token-id") with (uuid_String (nt_ID row)) in Hrev by reflexivity.
    destruct (String.eqb _ ""); [done|]. rewrite uuid_Parse_String in Hrev. inv_ok.
    unfold nodeTokenRevoke in Hok0. injection Hok0 as _ Hd2. intros key.
    eapply (active_match_revoked (pg_db s) row (env_now (env_of s1))); [done|].
    rewrite <- Hd2. simpl. by rewrite Hs1, Hd.
Qed.

(** Revoking an id that is not a token's (mistyped, or that of a node) changes
    nothing and reports success. *)
Theorem revoke_unknown_reports_success id s :
  clean s -> db_node_tokens (pg_db s) !! id = None -> uuid_String id <> "" ->
  let '(r, s') := nodeTokenRevoke_command ["--token-id"; uuid_String id] s in
  r = Ok ("revoked " +:+ uuid_String id +:+ newline) /\ db_node_tokens (pg_db s') = db_node_tokens (pg_db s).
Proof.
  intros Hc Hn Hne. unfold nodeTokenRevoke_command.
  set (fs := {["token-id" := uuid_String id]} : gmap string string).
  replace (flags ["token-id"] ["--token-id"; uuid_String id]) with (Ok fs) by reflexivity.
  cbv beta iota zeta. replace (flag_value fs "token-id") with (uuid_String id) by reflexivity.
  rewrite (proj2 (String.eqb_neq _ _) Hne), uuid_Parse_String, bindR_eq, wrapErr_eq, exec_clean by done.
  unfold nodeTokenRevoke. cbn [fst snd pg_db tick ret]. split; [done|]. simpl.
  apply map_eq. intros i. destruct (decide (i = id)) as [->|Hi]; [by rewrite lookup_alter_eq, Hn|by rewrite lookup_alter_ne].
Qed.
End facts.

(** ** Witness *)
Section witness.
#[local] Existing Instances demo_bcrypt demo_bcrypt_laws DemoUUID.lib DemoUUID.laws.

Definition ml_team : Team := {| te_ID := 40; te_Name := "ml"; te_Description := ""; te_CreatedAt := 0 |}.
Definition cli_pg : Pg := on_demo (set_teams {[ 40%N := ml_team ]} demo_db).
Definition cli_env : cmdEnv :=
  {| ce_muxEndpoint := "proxy:2233"; ce_rand := Ok (replicate nodeTokenBytes 7%N); ce_salt := 0 |}.
Definition cli_args : list string := ["--node-name"; "n1"; "-owner-team=ml"].

Lemma node_token_lifecycle_witness : exists out s' node team plaintext,
  nodeTokenCreate cli_env cli_args cli_pg = (Ok out, s') /\ nd_NodeName node = "n1" /\ te_Name team = "ml" /\
  (ServeHTTP 10 11 "POST" (Decoded {| rq_NodeID := uuid_String (nd_ID node); rq_Token := plaintext |})
     {| as_pg := s'; as_cache := NewHandler 60 |}).1 =
  WriteJSON StatusOK (granted (nd_ID node) (auth_info (owned_by (te_ID team) node) (nd_ID node))).
Proof.
  assert (nodes_ok (pg_db cli_pg)) as Hok.
  { split.
    - intros id n Hn. change (({[ 3%N := demo_node ]} : gmap UUID Node) !! id = Some n) in Hn.
      apply lookup_singleton_Some in Hn as [<- <-]. reflexivity.
    - intros i j a b Ha Hb _. change (({[ 3%N := demo_node ]} : gmap UUID Node) !! i = Some a) in Ha.
      change (({[ 3%N := demo_node ]} : gmap UUID Node) !! j = Some b) in Hb.
      apply lookup_singleton_Some in Ha as [<- _], Hb as [<- _]. reflexivity. }
  pose proof (node_token_lifecycle cli_env cli_args cli_pg) as Hall.
  destruct (nodeTokenCreate cli_env cli_args cli_pg) as [[out|e] s'] eqn:Hrun; [|vm_compute in Hrun; discriminate].
  assert (clean s') as Hc.
  { replace s' with (nodeTokenCreate cli_env cli_args cli_pg).2 by (rewrite Hrun; reflexivity). vm_compute. reflexivity. }
  destruct (Hall out s' Hok eq_refl) as (node & team & plaintext & row & _ & (fs & Hfs & Hn & Ht) & [Hp _] & _ & Hs & _).
  exists out, s', node, team, plaintext. vm_compute in Hfs. injection Hfs as <-.
  split; [reflexivity|]. split; [exact Hn|]. split; [exact Ht|]. apply Hs; [exact Hc|].
  vm_compute in Hp. injection Hp as <-. discriminate.
Defined.
End witness.
