(* ===== verification/Config.v ===== *)
(** * Settings (main-api internal/config)

    Environment variables as a function from names to values (the empty text
    for an unset one), the parsers of the standard library the settings go
    through, and [FromEnv]. *)

From S2P Require Import Prelude GoStrings GoCrypto Proto Db RateLimiter.
From Stdlib Require Import Ascii.

#[local] Open Scope string_scope.
#[local] Open Scope list_scope.

(** ** strconv *)

Definition ParseBool (s : string) : result bool :=
  if existsb (String.eqb s) ["1"; "t"; "T"; "TRUE"; "true"; "True"] then Ok true
  else if existsb (String.eqb s) ["0"; "f"; "F"; "FALSE"; "false"; "False"] then Ok false
  else Err (num_error "ParseBool" s ErrSyntax).

Definition digit (c : ascii) : option Z :=
  let n := Z.of_N (N_of_ascii c) in
  if (48 <=? n)%Z && (n <=? 57)%Z then Some (n - 48)%Z else None.

Fixpoint parse_digits (acc : Z) (s : string) : option Z :=
  match s with
  | EmptyString => Some acc
  | String c s' => match digit c with Some d => parse_digits (10 * acc + d)%Z s' | None => None end
  end.

(** A sign and the rest. *)
Definition sign (s : string) : bool * string :=
  match s with
  | String "-" s' => (true, s')
  | String "+" s' => (false, s')
  | _ => (false, s)
  end.

(** [Atoi] of a 64-bit int. *)
Definition Atoi (s : string) : result Z :=
  let '(neg, digits) := sign s in
  if String.eqb digits "" then Err (num_error "Atoi" s ErrSyntax)
  else match parse_digits 0 digits with
       | None => Err (num_error "Atoi" s ErrSyntax)
       | Some z =>
           let v := if neg then (- z)%Z else z in
           if ((- 2 ^ 63 <=? v) && (v <? 2 ^ 63))%Z then Ok v else Err (num_error "Atoi" s ErrRange)
       end.

(** ** [time.ParseDuration] *)

Definition bad_duration (s : string) : error := ErrNew ("time: invalid duration " +:+ Quote s).

Definition max_uint63 : Z := 2 ^ 63.

(** [leadingInt]: [None] when it exceeds 2^63. *)
Fixpoint leadingInt (acc : Z) (s : string) : option (Z * string) :=
  match s with
  | String c s' =>
      match digit c with
      | Some d =>
          if (max_uint63 / 10 <? acc)%Z then None
          else let v := (acc * 10 + d)%Z in if (max_uint63 <? v)%Z then None else leadingInt v s'
      | None => Some (acc, s)
      end
  | EmptyString => Some (acc, s)
  end.

(** [leadingFraction]: digits beyond 2^63 are dropped. *)
Fixpoint leadingFraction (acc scale : Z) (overflow : bool) (s : string) : Z * Z * string :=
  match s with
  | String c s' =>
      match digit c with
      | Some d =>
          let v := (acc * 10 + d)%Z in
          if overflow || ((max_uint63 - 1) / 10 <? acc)%Z || (max_uint63 <? v)%Z
          then leadingFraction acc scale true s'
          else leadingFraction v (scale * 10)%Z false s'
      | None => (acc, scale, s)
      end
  | EmptyString => (acc, scale, s)
  end.

Fixpoint unit_text (s : string) : string * string :=
  match s with
  | String c s' =>
      if Ascii.eqb c "." || (if digit c is Some _ then true else false) then ("", s)
      else let '(u, rest) := unit_text s' in (String c u, rest)
  | EmptyString => ("", "")
  end.

Definition hour : Z := 60 * minute.

(** "us" with the Latin or with one of the two Unicode letters mu. *)
Definition unitMap : list (string * Z) :=
  [("ns", 1%Z); ("us", 1000%Z); (String "194" (String "181" "s"), 1000%Z); (String "206" (String "188" "s"), 1000%Z);
   ("ms", 1000000%Z); ("s", second); ("m", minute); ("h", hour)].

Fixpoint assoc (u : string) (l : list (string * Z)) : option Z :=
  match l with
  | [] => None
  | (k, v) :: l' => if String.eqb k u then Some v else assoc u l'
  end.

(** One number with its unit: nanoseconds and the rest.  Go multiplies the
    fraction in float64, which is exact for a fraction the unit's power of ten
    resolves. *)
Definition component (orig s : string) : result (Z * string) :=
  let starts := match s with
                | String c _ => Ascii.eqb c "." || (if digit c is Some _ then true else false)
                | EmptyString => false
                end in
  if negb starts then Err (bad_duration orig)
  else match leadingInt 0 s with
  | None => Err (bad_duration orig)
  | Some (v, s1) =>
      let pre := negb (String.length s1 =? String.length s)%nat in
      let '(f, scale, s2, post) :=
        match s1 with
        | String "." s' => let '(f, scale, s2) := leadingFraction 0 1 false s' in
                           (f, scale, s2, negb (String.length s2 =? String.length s')%nat)
        | _ => (0%Z, 1%Z, s1, false)
        end in
      if negb (pre || post) then Err (bad_duration orig)
      else
        let '(u, s3) := unit_text s2 in
        if String.eqb u "" then Err (ErrNew ("time: missing unit in duration " +:+ Quote orig))
        else match assoc u unitMap with
             | None => Err (ErrNew ("time: unknown unit " +:+ Quote u +:+ " in duration " +:+ Quote orig))
             | Some unit =>
                 if (max_uint63 / unit <? v)%Z then Err (bad_duration orig)
                 else let total := (v * unit + f * unit / scale)%Z in
                      if (max_uint63 <? total)%Z then Err (bad_duration orig) else Ok (total, s3)
             end
  end.

(** The loop; every component takes at least one byte. *)
Fixpoint components (fuel : nat) (orig : string) (d : Z) (s : string) : result Z :=
  match s with
  | EmptyString => Ok d
  | _ =>
      match fuel with
      | 0 => Err (bad_duration orig)
      | S fuel =>
          match component orig s with
          | Err e => Err e
          | Ok (v, rest) =>
              if (max_uint63 <? d + v)%Z then Err (bad_duration orig) else components fuel orig (d + v) rest
          end
      end
  end.

Definition ParseDuration (orig : string) : result Z :=
  let '(neg, s) := sign orig in
  if String.eqb s "0" then Ok 0%Z
  else if String.eqb s "" then Err (bad_duration orig)
  else match components (String.length s) orig 0 s with
       | Err e => Err e
       | Ok d => if neg then Ok (- d)%Z
                 else if (max_uint63 - 1 <? d)%Z then Err (bad_duration orig) else Ok d
       end.

Example durations :
  ParseDuration "1h30m" = Ok (90 * minute)%Z /\ ParseDuration "-1.5s" = Ok (- (1500 * 1000000))%Z /\
  ParseDuration ".5h" = Ok (30 * minute)%Z /\ ParseDuration "0" = Ok 0%Z /\
  ParseDuration "15" = Err (ErrNew ("time: missing unit in duration " +:+ Quote "15")) /\
  ParseDuration "1d" = Err (ErrNew ("time: unknown unit " +:+ Quote "d" +:+ " in duration " +:+ Quote "1d")) /\
  ParseDuration "3000000h" = Err (bad_duration "3000000h") /\
  ParseDuration "-9223372036854775808ns" = Ok (- 2 ^ 63)%Z.
Proof. vm_compute. auto 10. Qed.

(** ** config.go *)

Record Config := {
  cf_HTTPAddr : string;
  cf_GRPCAddr : string;
  cf_DatabaseURL : string;
  cf_AdminToken : string;
  cf_AgentToken : string;
  cf_InternalToken : string;
  cf_TunnelSecret : list N;
  cf_TicketTTL : Z;
  cf_HeartbeatTTL : Z;
  cf_SweepInterval : Z;
  cf_SessionTTL : Z;
  cf_CookieSecure : bool;
  cf_CookieDomain : string;
  cf_TrustedProxyHops : Z;
  cf_BillingTick : Z;
  cf_BillingRatesPath : string
}.

(** The checks, in order. *)
Definition check_config (c : Config) : result Config :=
  let internal := negb (String.eqb (cf_InternalToken c) "") in
  let secret := List.length (cf_TunnelSecret c) in
  if String.eqb (cf_DatabaseURL c) "" then Err (ErrNew "DATABASE_URL is required")
  else if String.eqb (cf_AdminToken c) "" then Err (ErrNew "MAIN_API_ADMIN_TOKEN is required")
  else if String.eqb (cf_AgentToken c) "" then Err (ErrNew "MAIN_API_AGENT_TOKEN is required")
  else if negb (Bool.eqb (negb internal) (secret =? 0)%nat) then
    Err (ErrNew "MAIN_API_INTERNAL_TOKEN and MAIN_API_TUNNEL_SECRET must be set together")
  else if cf_CookieSecure c && negb internal then
    Err (ErrNew "MAIN_API_INTERNAL_TOKEN and MAIN_API_TUNNEL_SECRET are required when MAIN_API_COOKIE_SECURE=true (production)")
  else if (0 <? secret)%nat && (secret <? 16)%nat then
    Err (ErrNew "MAIN_API_TUNNEL_SECRET must be at least 16 bytes")
  else if cf_CookieSecure c && (String.length (cf_InternalToken c) <? 32)%nat then
    Err (ErrNew "MAIN_API_INTERNAL_TOKEN must be at least 32 bytes in production")
  else Ok c.

(** What an accepted configuration guarantees, exactly. *)
Record acceptable (c : Config) : Prop := {
  ok_database : cf_DatabaseURL c <> "";
  ok_admin : cf_AdminToken c <> "";
  ok_agent : cf_AgentToken c <> "";
  ok_together : cf_InternalToken c = "" <-> cf_TunnelSecret c = [];
  ok_secret : cf_TunnelSecret c <> [] -> 16 <= List.length (cf_TunnelSecret c);
  ok_production : cf_CookieSecure c = true -> 32 <= String.length (cf_InternalToken c)
}.

Lemma check_config_spec r c : check_config r = Ok c <-> c = r /\ acceptable r.
Proof.
  unfold check_config. cbv zeta.
  assert (forall l : list N, (List.length l =? 0)%nat = true <-> l = []) as Hnil.
  { intros [|x l]; simpl; split; congruence. }
  split.
  - destruct (String.eqb_spec (cf_DatabaseURL r) ""); [done|].
    destruct (String.eqb_spec (cf_AdminToken r) ""); [done|]. destruct (String.eqb_spec (cf_AgentToken r) ""); [done|].
    destruct (Bool.eqb _ _) eqn:Ht; [|done]. apply Bool.eqb_prop in Ht. rewrite negb_involutive in Ht. simpl.
    rewrite Ht, negb_involutive. destruct (cf_CookieSecure r && _) eqn:H1; [done|].
    destruct ((0 <? _)%nat && _) eqn:H2; [done|]. destruct (cf_CookieSecure r && (String.length _ <? 32)%nat) eqn:H3; [done|].
    intros [= <-]. split; [done|]. split; try done.
    + rewrite <- Hnil, <- Ht. split; [by intros ->|by intros ?%String.eqb_eq].
    + intros Hs. destruct (cf_TunnelSecret r) as [|x l] eqn:E; [done|]. simpl in *.
      apply Nat.ltb_ge in H2. lia.
    + intros Hc. rewrite Hc in H3. simpl in H3. by apply Nat.ltb_ge.
  - intros [-> [H1 H2 H3 H4 H5 H6]].
    rewrite (proj2 (String.eqb_neq _ _) H1), (proj2 (String.eqb_neq _ _) H2), (proj2 (String.eqb_neq _ _) H3).
    assert (String.eqb (cf_InternalToken r) "" = (List.length (cf_TunnelSecret r) =? 0)%nat) as E.
    { destruct (List.length _ =? 0)%nat eqn:El.
      - apply String.eqb_eq. by apply H4, Hnil.
      - apply String.eqb_neq. intros Hx%H4%Hnil. congruence. }
    rewrite E, negb_involutive, Bool.eqb_reflx. simpl.
    destruct (cf_CookieSecure r) eqn:Hcs; simpl.
    + specialize (H6 eq_refl). destruct (List.length _ =? 0)%nat eqn:El.
      { apply Hnil, H4 in El. rewrite El in H6. simpl in H6. lia. }
      assert (cf_TunnelSecret r <> []) as Hne by (intros Hx%Hnil; congruence). specialize (H5 Hne).
      rewrite (proj2 (Nat.ltb_ge _ 16)) by done. rewrite andb_false_r.
      by rewrite (proj2 (Nat.ltb_ge _ 32)).
    + destruct (cf_TunnelSecret r) as [|x l] eqn:El; [done|]. specialize (H5 ltac:(done)).
      rewrite (proj2 (Nat.ltb_ge _ 16)) by done. by rewrite andb_false_r.
Qed.
Section environment.
Variable Getenv : string -> string.

Definition env (k fallback : string) : string :=
  let v := Getenv k in if negb (String.eqb v "") then v else fallback.

Definition boolEnv (k : string) (fallback : bool) : bool :=
  let v := Getenv k in
  if String.eqb v "" then fallback
  else match ParseBool v with Ok b => b | Err _ => fallback end.

Definition intEnv (k : string) (fallback : Z) : Z :=
  let v := Getenv k in
  if String.eqb v "" then fallback
  else match Atoi v with Ok n => n | Err _ => fallback end.

(** The product wraps like a 64-bit integer. *)
Definition wrap64 (z : Z) : Z := ((z + 2 ^ 63) mod 2 ^ 64 - 2 ^ 63)%Z.

Definition durationEnv (k : string) (fallback : Z) : Z :=
  let v := Getenv k in
  if String.eqb v "" then fallback
  else match ParseDuration v with
       | Ok d => d
       | Err _ => match Atoi v with
                  | Ok secs => wrap64 (secs * second)
                  | Err _ => fallback
                  end
       end.

Definition read_env : Config := {|
  cf_HTTPAddr := env "MAIN_API_HTTP_ADDR" ":8080";
  cf_GRPCAddr := env "MAIN_API_GRPC_ADDR" ":8081";
  cf_DatabaseURL := Getenv "DATABASE_URL";
  cf_AdminToken := Getenv "MAIN_API_ADMIN_TOKEN";
  cf_AgentToken := Getenv "MAIN_API_AGENT_TOKEN";
  cf_InternalToken := Getenv "MAIN_API_INTERNAL_TOKEN";
  cf_TunnelSecret := bytes_of (Getenv "MAIN_API_TUNNEL_SECRET");
  cf_TicketTTL := durationEnv "MAIN_API_TICKET_TTL" (15 * second);
  cf_HeartbeatTTL := durationEnv "MAIN_API_HEARTBEAT_TTL" (60 * second);
  cf_SweepInterval := durationEnv "MAIN_API_SWEEP_INTERVAL" (10 * second);
  cf_SessionTTL := durationEnv "MAIN_API_SESSION_TTL" (7 * 24 * hour);
  cf_CookieSecure := boolEnv "MAIN_API_COOKIE_SECURE" false;
  cf_CookieDomain := Getenv "MAIN_API_COOKIE_DOMAIN";
  cf_TrustedProxyHops := intEnv "MAIN_API_TRUSTED_PROXY_HOPS" 0;
  cf_BillingTick := durationEnv "MAIN_API_BILLING_TICK" (30 * second);
  cf_BillingRatesPath := Getenv "MAIN_API_BILLING_RATES_PATH"
|}.

Definition FromEnv : result Config := check_config read_env.
End environment.
