(* ===== verification/StreamSession.v ===== *)
(** * compute-agent: inside one control session (internal/stream/client.go)

    After the registration [runOnce] runs three goroutines (sendLoop,
    heartbeatTicker, readControl) that share a bounded channel of outgoing
    messages, and hands [sendFn] to the handlers of control messages, whose
    goroutines outlive the session.  A step relation over one session. *)

From S2P Require Import Prelude GoStrings StreamClient.
From stdpp Require Import relations.

#[local] Open Scope string_scope.
#[local] Open Scope list_scope.

Section session.
Context {M : Type}.

(** A call of [sendFn]: in its select, or returned because the channel took
    the message or because the session's context was over. *)
Inductive call := Waiting (m : M) | Accepted (m : M) | Discarded (m : M).

Inductive sender := SLoop | SSending (m : M) | SDone.
Inductive ticker := TIdle | TSending (call : nat) | TDone.
Inductive reader := RRecv | RDone.

(** [runOnce] itself. *)
Inductive phase := AwaitErr | AwaitSender (e : option error) | Over (e : option error).

Record sess := {
  ss_calls : list call;
  ss_out : list M;                  (* outCh *)
  ss_accepted : list M;             (* all that was ever put into it *)
  ss_wire : list M;                 (* what Send has taken *)
  ss_send : sender;
  ss_tick : ticker;
  ss_read : reader;
  ss_errs : list (option error);    (* errCh *)
  ss_cancelled : bool;              (* sessionCtx *)
  ss_main : phase;
  ss_closeSend : bool
}.

Definition out_capacity : nat := 16.
Definition err_capacity : nat := 3.

Definition opened : sess :=
  {| ss_calls := []; ss_out := []; ss_accepted := []; ss_wire := []; ss_send := SLoop; ss_tick := TIdle;
     ss_read := RRecv; ss_errs := []; ss_cancelled := false; ss_main := AwaitErr; ss_closeSend := false |}.

Definition put (i : nat) (m : M) (s : sess) : sess :=
  {| ss_calls := <[i := Accepted m]> (ss_calls s); ss_out := ss_out s ++ [m]; ss_accepted := ss_accepted s ++ [m];
     ss_wire := ss_wire s; ss_send := ss_send s; ss_tick := ss_tick s; ss_read := ss_read s; ss_errs := ss_errs s;
     ss_cancelled := ss_cancelled s; ss_main := ss_main s; ss_closeSend := ss_closeSend s |}.
Definition set_calls (l : list call) (s : sess) : sess :=
  {| ss_calls := l; ss_out := ss_out s; ss_accepted := ss_accepted s; ss_wire := ss_wire s; ss_send := ss_send s;
     ss_tick := ss_tick s; ss_read := ss_read s; ss_errs := ss_errs s; ss_cancelled := ss_cancelled s;
     ss_main := ss_main s; ss_closeSend := ss_closeSend s |}.
Definition set_send (out wire : list M) (x : sender) (errs : list (option error)) (s : sess) : sess :=
  {| ss_calls := ss_calls s; ss_out := out; ss_accepted := ss_accepted s; ss_wire := wire; ss_send := x;
     ss_tick := ss_tick s; ss_read := ss_read s; ss_errs := errs; ss_cancelled := ss_cancelled s;
     ss_main := ss_main s; ss_closeSend := ss_closeSend s |}.
Definition set_tick (x : ticker) (errs : list (option error)) (s : sess) : sess :=
  {| ss_calls := ss_calls s; ss_out := ss_out s; ss_accepted := ss_accepted s; ss_wire := ss_wire s;
     ss_send := ss_send s; ss_tick := x; ss_read := ss_read s; ss_errs := errs; ss_cancelled := ss_cancelled s;
     ss_main := ss_main s; ss_closeSend := ss_closeSend s |}.
Definition set_read (errs : list (option error)) (s : sess) : sess :=
  {| ss_calls := ss_calls s; ss_out := ss_out s; ss_accepted := ss_accepted s; ss_wire := ss_wire s;
     ss_send := ss_send s; ss_tick := ss_tick s; ss_read := RDone; ss_errs := errs; ss_cancelled := ss_cancelled s;
     ss_main := ss_main s; ss_closeSend := ss_closeSend s |}.
Definition set_main (p : phase) (errs : list (option error)) (cancelled closed : bool) (s : sess) : sess :=
  {| ss_calls := ss_calls s; ss_out := ss_out s; ss_accepted := ss_accepted s; ss_wire := ss_wire s;
     ss_send := ss_send s; ss_tick := ss_tick s; ss_read := ss_read s; ss_errs := errs; ss_cancelled := cancelled;
     ss_main := p; ss_closeSend := closed |}.

(** The steps of the goroutines: [sendFn] and the three loops choose among
    what is ready, [Send] succeeds or fails, and [runOnce] waits for the first
    error, cancels the session, waits for sendLoop and closes the stream (and
    then the connection, which ends readControl). *)
Inductive istep (s : sess) : sess -> Prop :=
  | c_put i m : ss_calls s !! i = Some (Waiting m) -> length (ss_out s) < out_capacity -> istep s (put i m s)
  | c_drop i m : ss_calls s !! i = Some (Waiting m) -> ss_cancelled s = true ->
      istep s (set_calls (<[i := Discarded m]> (ss_calls s)) s)
  | s_take m rest : ss_send s = SLoop -> ss_out s = m :: rest ->
      istep s (set_send rest (ss_wire s) (SSending m) (ss_errs s) s)
  | s_ctx : ss_send s = SLoop -> ss_cancelled s = true ->
      istep s (set_send (ss_out s) (ss_wire s) SDone (ss_errs s ++ [None]) s)
  | s_sent m : ss_send s = SSending m ->
      istep s (set_send (ss_out s) (ss_wire s ++ [m]) SLoop (ss_errs s) s)
  | s_fails m e : ss_send s = SSending m ->
      istep s (set_send (ss_out s) (ss_wire s) SDone (ss_errs s ++ [Some (ErrWrap "send: " e "")]) s)
  | t_back i c : ss_tick s = TSending i -> ss_calls s !! i = Some c -> (forall m, c <> Waiting m) ->
      istep s (set_tick TIdle (ss_errs s) s)
  | t_ctx : ss_tick s = TIdle -> ss_cancelled s = true ->
      istep s (set_tick TDone (ss_errs s ++ [Some ctxCanceled]) s)
  | r_closed e e' : ss_read s = RRecv -> ss_main s = Over e -> istep s (set_read (ss_errs s ++ [e']) s)
  | m_first e rest : ss_main s = AwaitErr -> ss_errs s = e :: rest ->
      istep s (set_main (AwaitSender e) rest true (ss_closeSend s) s)
  | m_over e : ss_main s = AwaitSender e -> ss_send s = SDone ->
      istep s (set_main (Over e) (ss_errs s) (ss_cancelled s) true s).

(** What comes from outside: a handler calls [sendFn] (at any time), the
    ticker ticks, receiving ends (nil for EOF), the client's context ends. *)
Inductive step (s : sess) : sess -> Prop :=
  | x_call m : step s (set_calls (ss_calls s ++ [Waiting m]) s)
  | x_tick m : ss_tick s = TIdle ->
      step s (set_tick (TSending (length (ss_calls s))) (ss_errs s) (set_calls (ss_calls s ++ [Waiting m]) s))
  | x_recv_ends e : ss_read s = RRecv -> step s (set_read (ss_errs s ++ [e]) s)
  | x_ctx : step s (set_main (ss_main s) (ss_errs s) true (ss_closeSend s) s)
  | x_internal s' : istep s s' -> step s s'.

(** ** The invariant *)

Definition accepted_of (c : call) : option M := match c with Accepted m => Some m | _ => None end.
Definition is_waiting (c : call) : bool := match c with Waiting _ => true | _ => false end.

(** What the sender took and has not sent. *)
Definition in_hand (x : sender) (lost : list M) : Prop :=
  match x with SLoop => lost = [] | SSending m => lost = [m] | SDone => length lost <= 1 end.

Definition ended (s : sess) : nat :=
  (match ss_send s with SDone => 1 | _ => 0 end) + (match ss_tick s with TDone => 1 | _ => 0 end) +
  (match ss_read s with RDone => 1 | _ => 0 end).
Definition taken (p : phase) : nat := match p with AwaitErr => 0 | _ => 1 end.

Record session_ok (s : sess) : Prop := {
  (* the channel is a queue: nothing lost but the message of a failed Send *)
  so_fifo : exists lost, ss_accepted s = ss_wire s ++ lost ++ ss_out s /\ in_hand (ss_send s) lost;
  so_capacity : length (ss_out s) <= out_capacity;
  (* it takes each accepted call's message once *)
  so_once : ss_accepted s ≡ₚ omap accepted_of (ss_calls s);
  so_dropped : forall i m, ss_calls s !! i = Some (Discarded m) -> ss_cancelled s = true;
  so_errs : length (ss_errs s) + taken (ss_main s) = ended s;
  so_tick : forall i, ss_tick s = TSending i -> i < length (ss_calls s);
  so_cancelled : ss_main s <> AwaitErr -> ss_cancelled s = true;
  so_over : forall e, ss_main s = Over e -> ss_send s = SDone;
  so_close : ss_closeSend s = true <-> exists e, ss_main s = Over e
}.

Lemma opened_ok : session_ok opened.
Proof.
  split; simpl; try done.
  - by exists [].
  - unfold out_capacity. lia.
  - split; [done|by intros [??]].
Qed.

Lemma omap_insert_same (l : list call) i c c' :
  l !! i = Some c -> accepted_of c = None -> accepted_of c' = None ->
  omap accepted_of (<[i := c']> l) = omap accepted_of l.
Proof.
  revert i. induction l as [|x l IH]; intros [|i] Hi H1 H2; csimpl in *; try done.
  - injection Hi as ->. by rewrite H1, H2.
  - by rewrite (IH i Hi H1 H2).
Qed.

Lemma omap_insert_accepted (l : list call) i m :
  l !! i = Some (Waiting m) -> omap accepted_of (<[i := Accepted m]> l) ≡ₚ omap accepted_of l ++ [m].
Proof.
  revert i. induction l as [|x l IH]; intros [|i] Hi; csimpl in *; try done.
  - injection Hi as ->. csimpl. by rewrite Permutation_cons_append.
  - specialize (IH i Hi). destruct (accepted_of x); csimpl; by rewrite IH.
Qed.

Lemma lookup_insert_call (l : list call) i j c x :
  <[i := c]> l !! j = Some x -> x = c \/ l !! j = Some x.
Proof.
  destruct (decide (i = j)) as [->|Hne].
  - intros Hj. destruct (lookup_lt_is_Some_2 (<[j:=c]> l) j) as [y Hy]; [by eapply lookup_lt_Some|].
    left. rewrite list_lookup_insert_eq in Hj; [congruence|]. rewrite <- (length_insert l j c). by eapply lookup_lt_Some.
  - rewrite list_lookup_insert_ne by done. auto.
Qed.

Lemma istep_session_ok s s' : session_ok s -> istep s s' -> session_ok s'.
Proof.
  intros [(lost & Hq & Hh) Hcap Honce Hdrop Herr Htick Hcan Hov Hcl] Hs.
  destruct Hs as [i m Hi Hl|i m Hi Hc|m rest Hx Ho|Hx Hc|m Hx|m e Hx|i c Ht Hi Hc|Ht Hc|e e' Hr Hm|e rest Hm He|e Hm Hx];
    split; simpl; try done; try (rewrite Hx in Hh; simpl in Hh); try (unfold ended in *; simpl; rewrite ?length_app; simpl).
  all: try (unfold ended in *; rewrite ?Hx, ?Ht, ?Hr, ?Hm, ?He in *; simpl in *; lia).
  all: try (by eauto).
  - exists lost. by rewrite Hq, !app_assoc.
  - by rewrite omap_insert_accepted, Honce.
  - intros j x Hj. apply lookup_insert_call in Hj as [?|Hj]; [done|by eapply Hdrop].
  - intros j Hj. rewrite length_insert. by apply Htick.
  - by rewrite (omap_insert_same _ i (Waiting m)).
  - intros j Hj. rewrite length_insert. by apply Htick.
  - exists [m]. subst lost. by rewrite Hq, Ho.
  - rewrite Ho in Hcap. simpl in Hcap. lia.
  - intros e He. specialize (Hov e He). congruence.
  - exists []. subst lost. simpl. split; [done|lia].
  - exists []. subst lost. by rewrite Hq, <- app_assoc.
  - intros e He. specialize (Hov e He). congruence.
  - exists lost. subst lost. done.
  - split; [|by intros [??]]. intros Hc. apply Hcl in Hc as [e' He']. congruence.
  - exists lost. by rewrite Hx.
  - intros _. apply Hcan. congruence.
  - split; eauto.
Qed.

Lemma step_session_ok s s' : session_ok s -> step s s' -> session_ok s'.
Proof.
  intros Hok Hs. destruct Hs as [m|m Ht|e Hr| |s' Hi]; [| | | |by eapply istep_session_ok].
  all: destruct Hok as [(lost & Hq & Hh) Hcap Honce Hdrop Herr Htick Hcan Hov Hcl]; split; simpl; try done.
  all: try (by eauto).
  all: try (unfold ended in *; simpl; rewrite ?length_app, ?Ht, ?Hr in *; simpl in *; lia).
  all: try (rewrite omap_app; simpl; by rewrite app_nil_r).
  all: try (intros i x Hi; apply lookup_app_Some in Hi as [Hi|[_ Hi]]; [by eapply Hdrop|];
            by destruct (i - length (ss_calls s)) as [|[|]]).
  - intros i Hi. rewrite length_app. simpl. specialize (Htick i Hi). lia.
  - intros i [= <-]. rewrite length_app. simpl. lia.
Qed.

Lemma reachable_session_ok s : rtc step opened s -> session_ok s.
Proof. revert s. apply rtc_ind_r; [apply opened_ok|]. intros y z _ Hs Hy. by apply (step_session_ok y). Qed.

(** ** Termination *)

Definition waiting_calls (l : list call) : nat := length (List.filter is_waiting l).

Definition session_left (s : sess) : nat :=
  5 * waiting_calls (ss_calls s) + 3 * length (ss_out s) +
  (match ss_send s with SLoop => 1 | SSending _ => 2 | SDone => 0 end) +
  (match ss_tick s with TIdle => 1 | TSending _ => 2 | TDone => 0 end) +
  (match ss_read s with RRecv => 1 | RDone => 0 end) +
  (match ss_main s with AwaitErr => 2 | AwaitSender _ => 1 | Over _ => 0 end).

Lemma waiting_insert (l : list call) i m c :
  l !! i = Some (Waiting m) -> is_waiting c = false -> S (waiting_calls (<[i := c]> l)) = waiting_calls l.
Proof.
  unfold waiting_calls. revert i. induction l as [|x l IH]; intros [|i] Hi Hc; simpl in *; try done.
  - injection Hi as ->. by rewrite Hc.
  - destruct (is_waiting x); simpl; by rewrite (IH i Hi Hc).
Qed.

Lemma istep_session_left s s' : istep s s' -> session_left s' < session_left s.
Proof.
  intros Hs. unfold session_left.
  destruct Hs as [i m Hi Hl|i m Hi Hc|m rest Hx Ho|Hx Hc|m Hx|m e Hx|i c Ht Hi Hc|Ht Hc|e e' Hr Hm|e rest Hm He|e Hm Hx];
    simpl; rewrite ?length_app; simpl.
  1: pose proof (waiting_insert _ _ _ (Accepted m) Hi eq_refl); lia.
  1: pose proof (waiting_insert _ _ _ (Discarded m) Hi eq_refl); lia.
  all: rewrite ?Hx, ?Ho, ?Ht, ?Hr, ?Hm; simpl; lia.
Qed.

Lemma session_sn s : sn istep s.
Proof.
  remember (session_left s) as n eqn:Hn. revert s Hn. induction (lt_wf n) as [n _ IH]. intros s ->.
  constructor. intros s' Hs. apply (IH (session_left s')); [by apply istep_session_left|done].
Qed.

(** ** Progress *)

(** The session is up and all is quiet. *)
Definition quiet (s : sess) : Prop :=
  ss_main s = AwaitErr /\ ss_send s = SLoop /\ ss_tick s = TIdle /\ ss_read s = RRecv /\ ss_out s = [] /\
  ss_cancelled s = false.

(** It is over: the three goroutines have ended and the stream was closed. *)
Definition over (s : sess) : Prop :=
  (exists e, ss_main s = Over e) /\ ss_send s = SDone /\ ss_tick s = TDone /\ ss_read s = RDone /\ ss_closeSend s = true.

Lemma session_progress s :
  session_ok s -> nf istep s -> (forall i m, ss_calls s !! i <> Some (Waiting m)) /\ (quiet s \/ over s).
Proof.
  intros Hok Hnf. destruct Hok as [_ Hcap _ _ Herr Htick Hcan Hov Hcl].
  assert (forall s', ~ istep s s') as Hno by (intros s' Hs; apply Hnf; by exists s').
  assert (forall m, ss_send s <> SSending m) as Hns by (intros m Hm; by eapply Hno, s_sent).
  assert (ss_send s = SLoop -> ss_out s = []) as Hout.
  { intros Hl. destruct (ss_out s) as [|m rest] eqn:Ho; [done|]. exfalso. by eapply Hno, s_take. }
  assert (ss_cancelled s = true -> ss_send s = SDone) as Hcs.
  { intros Hc. destruct (ss_send s) as [|m|] eqn:Hx; [exfalso; by eapply Hno, s_ctx|by destruct (Hns m)|done]. }
  assert (ss_main s = AwaitErr -> ss_errs s = []) as Hme.
  { intros Hm. destruct (ss_errs s) as [|e rest] eqn:He; [done|]. exfalso. by eapply Hno, m_first. }
  assert (forall e, ss_main s <> AwaitSender e) as Hma.
  { intros e Hm. eapply Hno, m_over; [done|]. apply Hcs, Hcan. congruence. }
  assert (ss_main s = AwaitErr -> ss_send s = SLoop) as Hml.
  { intros Hm. rewrite (Hme Hm), Hm in Herr. unfold ended in Herr. simpl in Herr.
    destruct (ss_send s) as [|m|] eqn:Hx; [done|by destruct (Hns m)|lia]. }
  assert (ss_main s = AwaitErr -> ss_cancelled s = false) as Hmc.
  { intros Hm. destruct (ss_cancelled s) eqn:Hc; [|done]. rewrite (Hcs eq_refl) in Hml. by specialize (Hml Hm). }
  assert (forall i m, ss_calls s !! i <> Some (Waiting m)) as Hw.
  { intros i m Hi. destruct (ss_cancelled s) eqn:Hc; [by eapply Hno, c_drop|].
    destruct (ss_main s) as [|e|e] eqn:Hm; [|by destruct (Hma e)|by specialize (Hcan ltac:(done))].
    eapply Hno, c_put; [done|]. rewrite (Hout (Hml eq_refl)). unfold out_capacity. simpl. lia. }
  assert (forall i, ss_tick s <> TSending i) as Hnt.
  { intros i Ht. destruct (ss_calls s !! i) as [c|] eqn:Hi.
    - eapply Hno, t_back; [done..|]. intros m ->. by eapply Hw.
    - apply lookup_ge_None in Hi. specialize (Htick i Ht). lia. }
  split; [done|]. destruct (ss_main s) as [|e|e] eqn:Hm; [left|by destruct (Hma e)|right].
  - assert (ended s = 0) as He by (rewrite <- Herr, (Hme eq_refl); done). unfold ended in He. unfold quiet.
    rewrite (Hml eq_refl) in *. destruct (ss_tick s) as [|i|] eqn:Ht; [|by destruct (Hnt i)|lia].
    destruct (ss_read s); [|lia]. rewrite Hm. eauto 10.
  - specialize (Hcan ltac:(done)). unfold over. split_and!; [eauto|by eapply Hov| | |by apply Hcl; eauto].
    + destruct (ss_tick s) as [|i|] eqn:Ht; [exfalso; by eapply Hno, t_ctx|by destruct (Hnt i)|done].
    + destruct (ss_read s) eqn:Hr; [|done]. exfalso. eapply Hno. by apply (r_closed s e None).
Qed.

(** C25: a control session sends its messages in order and shuts down cleanly.
    In every reachable state: the messages put into the channel are those of
    the calls that were accepted, each once; what has been sent is, in that
    order, all of it but what is still queued and at most one message in the
    sender's hand; a call is dropped only after the session ended; neither
    channel exceeds its capacity (so no goroutine is stuck on reporting its
    error); and the stream is closed for sending only after the sender has
    stopped.  The goroutines of a session cannot run for ever without input,
    and when they cannot go on no call of [sendFn] is left blocked and either
    the session is up and idle, or it is over with all three goroutines
    ended. *)
Theorem session_delivers s :
  rtc step opened s ->
  (exists lost, ss_accepted s = ss_wire s ++ lost ++ ss_out s /\ length lost <= 1 /\
     (ss_send s = SLoop -> lost = [])) /\
  ss_accepted s ≡ₚ omap accepted_of (ss_calls s) /\
  (forall i m, ss_calls s !! i = Some (Discarded m) -> ss_cancelled s = true) /\
  length (ss_out s) <= out_capacity /\ length (ss_errs s) <= err_capacity /\
  (ss_closeSend s = true -> ss_send s = SDone) /\
  sn istep s /\
  (forall s', rtc istep s s' -> nf istep s' ->
     (forall i m, ss_calls s' !! i <> Some (Waiting m)) /\ (quiet s' \/ over s')).
Proof.
  intros Hok%reachable_session_ok. pose proof Hok as [(lost & Hq & Hh) Hcap Honce Hdrop Herr _ _ Hov Hcl].
  split_and!; [|done|done|done| | |apply session_sn|].
  - exists lost. split_and!; [done| |by intros Hl; rewrite Hl in Hh]. destruct (ss_send s); simpl in Hh; subst; simpl; lia.
  - unfold ended in Herr. unfold err_capacity. destruct (ss_send s), (ss_tick s), (ss_read s); lia.
  - intros [e He]%Hcl. by eapply Hov.
  - intros s' Hrun Hnf. apply session_progress; [|done]. clear -Hok Hrun.
    induction Hrun; eauto using istep_session_ok.
Qed.

(** Once [runOnce] has returned nothing is sent any more, although handlers
    keep their [sendFn]: a status report made after the session ended (a
    machine that came up, or failed, while the agent was reconnecting) is
    dropped, and no later session sends it. *)
Theorem reports_after_session_are_lost s e m :
  rtc step opened s -> ss_main s = Over e ->
  let called := set_calls (ss_calls s ++ [Waiting m]) s in
  step s called /\
  (forall s', rtc step called s' -> ss_wire s' = ss_wire s) /\
  (exists s', rtc istep called s' /\ ss_calls s' !! length (ss_calls s) = Some (Discarded m)).
Proof.
  intros Hok%reachable_session_ok Hm called. split; [by constructor|]. split.
  - assert (forall a b, step a b -> (exists e', ss_main a = Over e') /\ ss_send a = SDone ->
      ((exists e', ss_main b = Over e') /\ ss_send b = SDone) /\ ss_wire b = ss_wire a) as Hstay.
    { intros a b Hs [[e' Ha] Hx]. destruct Hs as [m'|m' Ht|e'' Hr| |b Hi]; simpl; eauto 10.
      destruct Hi as [| |? ? Hx'|Hx'|? Hx'|? ? Hx'| | | |? ? Hm'|? Hm']; simpl; try congruence; eauto 10. }
    intros s' Hrun. assert ((exists e', ss_main called = Over e') /\ ss_send called = SDone) as Hc.
    { split; [by exists e|]. by apply (so_over s Hok e). }
    change (ss_wire s) with (ss_wire called). clearbody called. revert Hc.
    induction Hrun as [x|x y z Hs _ IH]; intros Hc; [done|].
    destruct (Hstay x y Hs Hc) as [Hy Hw]. by rewrite (IH Hy).
  - exists (set_calls (<[length (ss_calls s) := Discarded m]> (ss_calls called)) called). split.
    + apply rtc_once. eapply c_drop; simpl.
      * by rewrite lookup_app_r, Nat.sub_diag by lia.
      * apply (so_cancelled s Hok). congruence.
    + simpl. rewrite list_lookup_insert_eq; [done|]. rewrite length_app. simpl. lia.
Qed.
End session.

Arguments sess : clear implicits.

(** ** Witnesses *)

Ltac session_step r := eapply rtc_l; [eapply r; reflexivity|]; cbn.

(** A session that sent one message and then saw the server's EOF. *)
Definition finished_session : sess string :=
  {| ss_calls := [Accepted "status"]; ss_out := []; ss_accepted := ["status"]; ss_wire := ["status"];
     ss_send := SDone; ss_tick := TDone; ss_read := RDone; ss_errs := [None; Some ctxCanceled]; ss_cancelled := true;
     ss_main := Over None; ss_closeSend := true |}.

Lemma finished_session_reachable : rtc step opened finished_session.
Proof.
  session_step (fun s : sess string => x_call s "status").
  eapply rtc_l; [eapply x_internal, (c_put _ 0); [reflexivity|unfold out_capacity; simpl; lia]|]; cbn.
  eapply rtc_l; [eapply x_internal, s_take; reflexivity|]; cbn.
  eapply rtc_l; [eapply x_internal, s_sent; reflexivity|]; cbn.
  session_step (fun s : sess string => x_recv_ends s None).
  eapply rtc_l; [eapply x_internal, m_first; reflexivity|]; cbn.
  eapply rtc_l; [eapply x_internal, s_ctx; reflexivity|]; cbn.
  eapply rtc_l; [eapply x_internal, t_ctx; reflexivity|]; cbn.
  eapply rtc_l; [eapply x_internal, m_over; reflexivity|]; cbn. apply rtc_refl.
Qed.

Lemma session_delivers_witness :
  ss_accepted finished_session ≡ₚ omap accepted_of (ss_calls finished_session) /\ sn istep finished_session.
Proof.
  pose proof (session_delivers finished_session finished_session_reachable) as (_ & H1 & _ & _ & _ & _ & H2 & _).
  split; [exact H1|exact H2].
Defined.
