(* ===== verification/ServerLoop.v ===== *)
(** * ssh-proxy: the accept loop and its connections (internal/server)

    [Serve] with its connection slots, [handleConn] with its idle timer, the
    goroutines of the channels, and the shutdown, as a step relation.  What
    becomes of one channel is in SSHProxy and Relay. *)

From S2P Require Import Prelude GoStrings SSHProxy.
From stdpp Require Import relations.

#[local] Open Scope list_scope.

(** The idle timer of a connection. *)
Inductive timer := Armed | Stopped | Fired.

(** Where [handleConn] is: before the handshake is done (the deadline of the
    handshake runs), in the loop over the channels, past it, returned. *)
Inductive cphase := Handshaking | Serving | Leaving | Gone.

Record conn := { cn_phase : cphase; cn_timer : timer; cn_closed : bool }.

(** Where [Serve] is. *)
Inductive sphase := Accepting | WaitConns | WaitChannels | Returned.

Record server := {
  sv_slots : nat;                  (* tokens in connSlots *)
  sv_conns : list conn;
  sv_channels : list bool;         (* the goroutines of channelWG: still running? *)
  sv_dropped : nat;                (* connections refused at the cap *)
  sv_cancelled : bool;             (* the context *)
  sv_listening : bool;
  sv_phase : sphase
}.

Definition serving (s : server) (conns : list conn) (channels : list bool) (slots : nat) : server :=
  {| sv_slots := slots; sv_conns := conns; sv_channels := channels; sv_dropped := sv_dropped s;
     sv_cancelled := sv_cancelled s; sv_listening := sv_listening s; sv_phase := sv_phase s |}.
Definition set_phase (s : server) (cancelled listening : bool) (p : sphase) : server :=
  {| sv_slots := sv_slots s; sv_conns := sv_conns s; sv_channels := sv_channels s; sv_dropped := sv_dropped s;
     sv_cancelled := cancelled; sv_listening := listening; sv_phase := p |}.

Definition fresh_conn : conn := {| cn_phase := Handshaking; cn_timer := Stopped; cn_closed := false |}.
Definition at_phase (p : cphase) (t : timer) (c : conn) : conn :=
  {| cn_phase := p; cn_timer := t; cn_closed := cn_closed c |}.
Definition close_conn (t : timer) (c : conn) : conn := {| cn_phase := cn_phase c; cn_timer := t; cn_closed := true |}.

Section loop.
(** [MaxConcurrentConns]. *)
Variable cap : nat.

(** The body of the loop on an accepted connection. *)
Definition accept (s : server) : server :=
  if (sv_slots s <? cap)%nat then serving s (sv_conns s ++ [fresh_conn]) (sv_channels s) (S (sv_slots s))
  else {| sv_slots := sv_slots s; sv_conns := sv_conns s; sv_channels := sv_channels s;
          sv_dropped := S (sv_dropped s); sv_cancelled := sv_cancelled s; sv_listening := sv_listening s;
          sv_phase := sv_phase s |}.

(** The body of the loop over the channels of a connection. *)
Definition new_channel (s : server) (i : nat) (c : conn) (channelType : string) : server :=
  if negb (String.eqb channelType "direct-tcpip") then s
  else serving s (<[i := at_phase Serving (match cn_timer c with Armed => Stopped | t => t end) c]> (sv_conns s))
         (sv_channels s ++ [true]) (sv_slots s).

(** Steps of the server's goroutines. *)
Inductive istep (s : server) : server -> Prop :=
  | i_listener : sv_cancelled s = true -> sv_listening s = true -> istep s (set_phase s true false (sv_phase s))
  | i_loop_ends i c : sv_conns s !! i = Some c -> cn_phase c = Serving -> cn_closed c = true ->
      istep s (serving s (<[i := at_phase Leaving (match cn_timer c with Armed => Stopped | t => t end) c]> (sv_conns s))
                 (sv_channels s) (sv_slots s))
  | i_leave i c : sv_conns s !! i = Some c -> cn_phase c = Leaving ->
      istep s (serving s (<[i := at_phase Gone (cn_timer c) c]> (sv_conns s)) (sv_channels s) (pred (sv_slots s)))
  | i_stop : sv_phase s = Accepting -> sv_listening s = false -> sv_cancelled s = true ->
      istep s (set_phase s true false WaitConns)
  | i_conns : sv_phase s = WaitConns -> Forall (fun c => cn_phase c = Gone) (sv_conns s) ->
      istep s (set_phase s (sv_cancelled s) (sv_listening s) WaitChannels)
  | i_channels : sv_phase s = WaitChannels -> Forall (fun b => b = false) (sv_channels s) ->
      istep s (set_phase s (sv_cancelled s) (sv_listening s) Returned).

(** What comes from outside: connections, handshakes that succeed or fail
    (their deadline included), channels, clients that close, timers, the
    handlers of channels that return, and the context. *)
Inductive step (s : server) : server -> Prop :=
  | x_accept : sv_phase s = Accepting -> sv_listening s = true -> step s (accept s)
  | x_handshake i c : sv_conns s !! i = Some c -> cn_phase c = Handshaking -> cn_closed c = false ->
      step s (serving s (<[i := at_phase Serving Armed c]> (sv_conns s)) (sv_channels s) (sv_slots s))
  | x_handshake_fails i c : sv_conns s !! i = Some c -> cn_phase c = Handshaking ->
      step s (serving s (<[i := at_phase Leaving (cn_timer c) c]> (sv_conns s)) (sv_channels s) (sv_slots s))
  | x_channel i c channelType : sv_conns s !! i = Some c -> cn_phase c = Serving -> cn_closed c = false ->
      step s (new_channel s i c channelType)
  | x_closes i c : sv_conns s !! i = Some c -> cn_phase c = Serving ->
      step s (serving s (<[i := close_conn (cn_timer c) c]> (sv_conns s)) (sv_channels s) (sv_slots s))
  | x_timer i c : sv_conns s !! i = Some c -> cn_phase c = Serving -> cn_timer c = Armed ->
      step s (serving s (<[i := close_conn Fired c]> (sv_conns s)) (sv_channels s) (sv_slots s))
  | x_handler_returns k : sv_channels s !! k = Some true ->
      step s (serving s (sv_conns s) (<[k := false]> (sv_channels s)) (sv_slots s))
  | x_cancel : step s (set_phase s true (sv_listening s) (sv_phase s))
  | x_internal s' : istep s s' -> step s s'.

Definition init : server :=
  {| sv_slots := 0; sv_conns := []; sv_channels := []; sv_dropped := 0; sv_cancelled := false;
     sv_listening := true; sv_phase := Accepting |}.

(** ** The invariant *)

Definition live (c : conn) : bool := match cn_phase c with Gone => false | _ => true end.
Definition live_conns (l : list conn) : nat := length (List.filter live l).

Record server_ok (s : server) : Prop := {
  so_slots : sv_slots s = live_conns (sv_conns s);
  so_cap : sv_slots s <= cap;
  so_listening : sv_listening s = false -> sv_cancelled s = true;
  so_stopped : sv_phase s <> Accepting -> sv_cancelled s = true /\ sv_listening s = false;
  so_conns : sv_phase s = WaitChannels \/ sv_phase s = Returned -> Forall (fun c => cn_phase c = Gone) (sv_conns s);
  so_channels : sv_phase s = Returned -> Forall (fun b => b = false) (sv_channels s)
}.

Lemma live_insert l i c c' :
  l !! i = Some c -> live c = live c' -> live_conns (<[i := c']> l) = live_conns l.
Proof.
  unfold live_conns. revert i. induction l as [|x l IH]; intros [|i] Hi Hc; simpl in *; try done.
  - injection Hi as ->. rewrite Hc. by destruct (live c').
  - destruct (live x); simpl; by rewrite (IH i Hi Hc).
Qed.

Lemma live_leave l i c c' :
  l !! i = Some c -> live c = true -> live c' = false -> S (live_conns (<[i := c']> l)) = live_conns l.
Proof.
  unfold live_conns. revert i. induction l as [|x l IH]; intros [|i] Hi Hc Hc'; simpl in *; try done.
  - injection Hi as ->. by rewrite Hc, Hc'.
  - destruct (live x); simpl; by rewrite (IH i Hi Hc Hc').
Qed.

Lemma gone_lookup l i c : Forall (fun c => cn_phase c = Gone) l -> l !! i = Some c -> cn_phase c = Gone.
Proof. intros Hl Hi. by eapply Forall_lookup_1 in Hl. Qed.

(** A connection that is not gone, so the server is not past its wait. *)
Lemma not_past s i c :
  server_ok s -> sv_conns s !! i = Some c -> cn_phase c <> Gone -> sv_phase s <> WaitChannels /\ sv_phase s <> Returned.
Proof.
  intros [_ _ _ _ Hc _] Hi Hg. split; intros Hp; apply Hg; (eapply gone_lookup; [apply Hc; auto|done]).
Qed.

(** Replacing a live connection by a live one, with more channels. *)
Lemma ok_alive s i c c' channels :
  server_ok s -> sv_conns s !! i = Some c -> live c = true -> live c' = true ->
  server_ok (serving s (<[i := c']> (sv_conns s)) channels (sv_slots s)).
Proof.
  intros Hok Hi Hc Hc'. destruct (not_past s i c Hok Hi) as [H1 H2]; [by intros E; unfold live in Hc; rewrite E in Hc|].
  destruct Hok as [Hs Hcap Hl Hst _ _]. split; simpl; try done; [|intros [?|?]; done].
  by rewrite (live_insert _ i c) by congruence.
Qed.

Lemma istep_server_ok s s' : server_ok s -> istep s s' -> server_ok s'.
Proof.
  intros Hok Hs. destruct Hs as [Hc Hl|i c Hi Hp Hc|i c Hi Hp|Hp Hl Hc|Hp Hg|Hp Hg].
  - destruct Hok as [H1 H2 H3 H4 H5 H6]. by split.
  - eapply ok_alive; [done|done|..]; unfold live; simpl; by rewrite ?Hp.
  - assert (live c = true) as Hlc by (unfold live; by rewrite Hp).
    destruct (not_past s i c Hok Hi) as [N1 N2]; [congruence|].
    pose proof (live_leave _ i c (at_phase Gone (cn_timer c) c) Hi Hlc eq_refl) as Hn.
    destruct Hok as [H1 H2 H3 H4 _ _]. split; simpl; try done; [lia|lia|by intros [?|?]].
  - destruct Hok as [H1 H2 H3 H4 _ _]. split; simpl; try done. by intros [|].
  - destruct Hok as [H1 H2 H3 H4 _ _]. split; simpl; try done. intros _. apply H4. by rewrite Hp.
  - destruct Hok as [H1 H2 H3 H4 H5 _]. split; simpl; try done; [intros _; apply H4; by rewrite Hp|].
    intros _. apply H5. by left.
Qed.

Lemma step_server_ok s s' : server_ok s -> step s s' -> server_ok s'.
Proof.
  intros Hok Hs.
  destruct Hs as [Hp Hl|i c Hi Hp Hc|i c Hi Hp|i c ty Hi Hp Hc|i c Hi Hp|i c Hi Hp Ht|k Hk| |s' Hs];
    [| | | | | | | |by eapply istep_server_ok].
  - unfold accept. destruct (Nat.ltb_spec (sv_slots s) cap); [|by destruct Hok; split].
    destruct Hok as [H1 H2 H3 H4 H5 H6]. split; simpl; try done; [|rewrite Hp; by intros [|]].
    unfold live_conns in *. rewrite List.filter_app, length_app. simpl. lia.
  - eapply ok_alive; [done|done|..]; unfold live; simpl; by rewrite ?Hp.
  - eapply ok_alive; [done|done|..]; unfold live; simpl; by rewrite ?Hp.
  - unfold new_channel. destruct (negb _); [done|]. eapply ok_alive; [done|done|..]; unfold live; simpl; by rewrite ?Hp.
  - eapply ok_alive; [done|done|..]; unfold live; simpl; by rewrite ?Hp.
  - eapply ok_alive; [done|done|..]; unfold live; simpl; by rewrite ?Hp.
  - destruct Hok as [H1 H2 H3 H4 H5 H6]. split; simpl; try done. intros Hp. specialize (H6 Hp).
    exfalso. by eapply Forall_lookup_1 in H6; [|exact Hk].
  - destruct Hok as [H1 H2 H3 H4 H5 H6]. split; simpl; try done. intros Hp. split; [done|]. by apply H4.
Qed.

Lemma server_reachable_ok s : rtc step init s -> server_ok s.
Proof.
  revert s. apply rtc_ind_r; [|intros y z _ Hs Hy; by apply (step_server_ok y)].
  split; simpl; try done; try lia; by intros [|].
Qed.

(** ** Termination and progress *)

Definition conn_left (c : conn) : nat := match cn_phase c with Handshaking => 3 | Serving => 2 | Leaving => 1 | Gone => 0 end.
Fixpoint conns_left (l : list conn) : nat := match l with [] => 0 | c :: l' => conn_left c + conns_left l' end.
Definition server_left (s : server) : nat :=
  conns_left (sv_conns s) + (if sv_listening s then 1 else 0) +
  match sv_phase s with Accepting => 3 | WaitConns => 2 | WaitChannels => 1 | Returned => 0 end.

Lemma conns_left_insert l i c c' :
  l !! i = Some c -> conn_left c' < conn_left c -> conns_left (<[i := c']> l) < conns_left l.
Proof.
  revert i. induction l as [|x l IH]; intros [|i] Hi Hc; simpl in *; try done.
  - injection Hi as ->. lia.
  - specialize (IH i Hi Hc). lia.
Qed.

Lemma istep_server_left s s' : istep s s' -> server_left s' < server_left s.
Proof.
  intros Hs. unfold server_left. destruct Hs as [Hc Hl|i c Hi Hp Hc|i c Hi Hp|Hp Hl Hc|Hp Hg|Hp Hg]; simpl.
  - rewrite Hl. lia.
  - assert (conn_left (at_phase Leaving (match cn_timer c with Armed => Stopped | t => t end) c) < conn_left c) as Hlt
      by (unfold conn_left; rewrite Hp; simpl; lia).
    pose proof (conns_left_insert _ i c _ Hi Hlt). lia.
  - assert (conn_left (at_phase Gone (cn_timer c) c) < conn_left c) as Hlt by (unfold conn_left; rewrite Hp; simpl; lia).
    pose proof (conns_left_insert _ i c _ Hi Hlt). lia.
  - rewrite Hp, Hl. lia.
  - rewrite Hp. lia.
  - rewrite Hp. lia.
Qed.

Lemma server_sn s : sn istep s.
Proof.
  remember (server_left s) as n eqn:Hn. revert s Hn. induction (lt_wf n) as [n _ IH]. intros s ->.
  constructor. intros s' Hs. apply (IH (server_left s')); [by apply istep_server_left|done].
Qed.

(** What can keep a cancelled server from returning: a connection whose
    handshake is not over, or whose client has not closed it, or a handler
    that still runs. *)
Inductive blocked (s : server) : Prop :=
  | b_conn i c : sv_conns s !! i = Some c -> cn_phase c = Handshaking \/ (cn_phase c = Serving /\ cn_closed c = false) ->
      blocked s
  | b_channel k : sv_channels s !! k = Some true -> blocked s.

Lemma not_Forall_lookup {A} (P : A -> Prop) `{!forall x, Decision (P x)} (l : list A) :
  ~ Forall P l -> exists i x, l !! i = Some x /\ ~ P x.
Proof.
  intros Hl. apply not_Forall_Exists in Hl; [|done]. apply Exists_exists in Hl as (x & Hx & Hn).
  apply list_elem_of_lookup in Hx as [i Hi]. eauto.
Qed.

#[local] Instance cphase_eq_dec : EqDecision cphase.
Proof. solve_decision. Defined.

Lemma shutdown_progress s :
  server_ok s -> sv_cancelled s = true -> nf istep s -> sv_phase s = Returned \/ blocked s.
Proof.
  intros Hok Hc Hnf. assert (forall s', ~ istep s s') as Hno by (intros s' Hs; apply Hnf; by exists s').
  destruct (sv_phase s) eqn:Hp; [right|right|right|by left].
  - exfalso. destruct (sv_listening s) eqn:Hl; [by eapply Hno, i_listener|by eapply Hno, i_stop].
  - destruct (decide (Forall (fun c => cn_phase c = Gone) (sv_conns s))) as [Hg|Hg]; [exfalso; by eapply Hno, i_conns|].
    apply not_Forall_lookup in Hg as (i & c & Hi & Hn); [|intros; apply _]. apply (b_conn s i c Hi).
    destruct (cn_phase c) eqn:Hcp; [by left| |exfalso; by eapply Hno, i_leave|done]. right. split; [done|].
    destruct (cn_closed c) eqn:Hcl; [exfalso; by eapply Hno, i_loop_ends|done].
  - destruct (decide (Forall (fun b => b = false) (sv_channels s))) as [Hg|Hg]; [exfalso; by eapply Hno, i_channels|].
    apply not_Forall_lookup in Hg as (k & b & Hk & Hn); [|intros; apply _]. apply (b_channel s k). by destruct b.
Qed.

(** C26: the server keeps to its cap and waits for its work.  In every
    reachable state the connections being handled hold one slot each, at most
    [MaxConcurrentConns] of them; while the context lives the server never
    stops accepting, and when [Serve] has returned every connection is gone
    and the handler of every channel has returned.  Without events from
    outside the server comes to rest; and at rest after its context ended it
    has returned, or is held up by a connection that its client keeps open
    or by a handler that is still running. *)
Theorem serve_cap_and_drain s :
  rtc step init s ->
  sv_slots s = live_conns (sv_conns s) /\ live_conns (sv_conns s) <= cap /\
  (sv_cancelled s = false -> sv_phase s = Accepting /\ sv_listening s = true) /\
  (sv_phase s = Returned -> Forall (fun c => cn_phase c = Gone) (sv_conns s) /\
     Forall (fun b => b = false) (sv_channels s) /\ sv_slots s = 0) /\
  sn istep s /\
  (forall s', rtc istep s s' -> nf istep s' -> sv_cancelled s' = true -> sv_phase s' = Returned \/ blocked s').
Proof.
  intros Hok%server_reachable_ok. pose proof Hok as [H1 H2 H3 H4 H5 H6].
  split_and!; [done|lia| | |apply server_sn|].
  - intros Hc. split.
    + destruct (sv_phase s); try done; destruct H4; congruence.
    + destruct (sv_listening s); [done|]. specialize (H3 eq_refl). congruence.
  - intros Hp. assert (Forall (fun c => cn_phase c = Gone) (sv_conns s)) as Hg by (apply H5; by right).
    split_and!; [done|by apply H6|]. rewrite H1. unfold live_conns. clear -Hg.
    induction Hg as [|c l Hc _ IH]; [done|]. simpl. unfold live at 1. by rewrite Hc.
  - intros s' Hrun Hnf Hc. apply shutdown_progress; [|done|done]. clear -Hok Hrun.
    induction Hrun; eauto using istep_server_ok.
Qed.

(** ** Findings *)

(** A connection whose client asked for a channel once, whose handler has
    returned. *)
Definition held : conn := {| cn_phase := Serving; cn_timer := Stopped; cn_closed := false |}.

Definition holding (n : nat) : server :=
  {| sv_slots := n; sv_conns := replicate n held; sv_channels := replicate n false; sv_dropped := 0;
     sv_cancelled := false; sv_listening := true; sv_phase := Accepting |}.

Lemma insert_last {A} (l : list A) n x y : length l = n -> <[n := y]> (l ++ [x]) = l ++ [y].
Proof. intros <-. rewrite insert_app_r_alt by lia. by rewrite Nat.sub_diag. Qed.

Lemma holding_reachable n : n <= cap -> rtc step init (holding n).
Proof.
  induction n as [|n IH]; intros Hn; [apply rtc_refl|]. etransitivity; [apply IH; lia|].
  eapply rtc_l; [by apply x_accept|]. unfold accept. cbn [holding sv_slots].
  rewrite (proj2 (Nat.ltb_lt n cap)) by lia. unfold serving. cbn [holding sv_slots sv_conns sv_channels sv_dropped sv_cancelled sv_listening sv_phase].
  assert (forall c, (replicate n held ++ [c]) !! n = Some c) as Hlast.
  { intros c. rewrite lookup_app_r by (by rewrite length_replicate). by rewrite length_replicate, Nat.sub_diag. }
  eapply rtc_l; [eapply (x_handshake _ n); [apply Hlast|done|done]|]. unfold serving. cbn.
  rewrite insert_last by apply length_replicate.
  eapply rtc_l; [eapply (x_channel _ n _ "direct-tcpip"%string); [apply Hlast|done|done]|].
  unfold new_channel, serving. cbn. rewrite insert_last by apply length_replicate.
  eapply rtc_l; [eapply (x_handler_returns _ n); cbn|].
  { rewrite lookup_app_r by (by rewrite length_replicate). by rewrite length_replicate, Nat.sub_diag. }
  unfold serving. cbn. rewrite insert_last by apply length_replicate. unfold holding.
  rewrite !replicate_S_end. apply rtc_refl.
Qed.

(** The idle timer is stopped before the request for a channel is looked at,
    so a request that is then rejected (any host, any port) disarms it for
    good: clients with any key can take all slots and keep them; no timer is
    left to free one, and every further connection is dropped. *)
Theorem rejected_channels_hold_every_slot :
  rtc step init (holding cap) /\ nf istep (holding cap) /\
  (forall i c, sv_conns (holding cap) !! i = Some c -> cn_timer c = Stopped) /\
  Forall (fun b => b = false) (sv_channels (holding cap)) /\
  sv_conns (accept (holding cap)) = sv_conns (holding cap) /\ sv_dropped (accept (holding cap)) = 1.
Proof.
  assert (forall i c, replicate cap held !! i = Some c -> c = held) as Hheld by (intros i c Hi; by apply lookup_replicate in Hi as [-> _]).
  split_and!.
  - by apply holding_reachable.
  - intros [s' Hs]. inversion Hs; simpl in *; try done.
    + apply Hheld in H. by subst.
    + apply Hheld in H. by subst.
  - intros i c Hi%Hheld. by subst.
  - simpl. by apply Forall_replicate.
  - unfold accept. cbn [holding sv_slots]. by rewrite Nat.ltb_irrefl.
  - unfold accept. cbn [holding sv_slots]. by rewrite Nat.ltb_irrefl.
Qed.

(** The shutdown does not close client connections: with one client that has
    used a channel and stays connected, a server whose context ended waits in
    [Serve] until that client goes. *)
Theorem shutdown_waits_for_clients :
  1 <= cap ->
  exists s, rtc step init s /\ sv_cancelled s = true /\ nf istep s /\ sv_phase s = WaitConns /\
    Forall (fun b => b = false) (sv_channels s) /\ (forall i c, sv_conns s !! i = Some c -> cn_timer c <> Armed).
Proof.
  intros Hcap. exists (set_phase (holding 1) true false WaitConns). split_and!; try done.
  - etransitivity; [by apply holding_reachable|].
    eapply rtc_l; [apply x_cancel|]. eapply rtc_l; [by apply x_internal, i_listener|].
    eapply rtc_l; [by apply x_internal, i_stop|]. apply rtc_refl.
  - intros [s' Hs]. inversion Hs; simpl in *; try done.
    + by destruct i as [|i]; [injection H as <-|].
    + by destruct i as [|i]; [injection H as <-|].
    + by inversion H0.
  - simpl. by repeat constructor.
  - intros [|i] c Hi; [by injection Hi as <-|done].
Qed.
End loop.

Lemma serve_cap_and_drain_witness :
  live_conns (sv_conns (holding 3)) <= 4 /\ sn (istep) (holding 3).
Proof.
  assert (3 <= 4) as Hle by lia.
  pose proof (serve_cap_and_drain 4 (holding 3) (holding_reachable 4 3 Hle)) as (_ & H1 & _ & _ & H2 & _).
  split; [exact H1|exact H2].
Defined.
