(* ===== verification/Metrics.v ===== *)
(** * Metrics (main-api internal/metrics)

    [Sample] of the domain refresher with its loop, and the durations and
    status codes that the HTTP middleware records.  A vector of gauges is a
    map from label values to values, the histogram a map to the durations
    observed; buckets, registration and exposition are Prometheus's. *)

From S2P Require Import Prelude GoStrings Proto Db Queries AccountQueries Demo SlotRepo NodeRepo.

#[local] Open Scope string_scope.
#[local] Open Scope list_scope.
#[local] Open Scope go_scope.

Record Collectors := {
  cl_InstanceTotal : gmap string Z;              (* by state *)
  cl_GPUSlotUsed : gmap (string * string) Z;     (* by node name and slot index *)
  cl_HTTPDuration : gmap (string * string * string) (list Z)   (* by method, route and status: the durations *)
}.

Definition NewCollectors : Collectors :=
  {| cl_InstanceTotal := ∅; cl_GPUSlotUsed := ∅; cl_HTTPDuration := ∅ |}.

(** The domain refresher's state: the tables and the gauges. *)
Record MetricsState := { ms_pg : Pg; ms_coll : Collectors }.

Definition onMetricsPg {A} (m : ST Pg A) : ST MetricsState A := fun s =>
  let '(a, pg) := m (ms_pg s) in (a, {| ms_pg := pg; ms_coll := ms_coll s |}).

Definition set_gauges (f : Collectors -> Collectors) : ST MetricsState unit := fun s =>
  (tt, {| ms_pg := ms_pg s; ms_coll := f (ms_coll s) |}).

(** The map [counts]: zero for every state, then one more for each row. *)
Definition zero_counts : gmap string Z :=
  foldr (fun st m => <[InstanceState_text st := 0%Z]> m) ∅
    [InstanceStatePending; InstanceStateProvisioning; InstanceStateRunning; InstanceStateStopping;
     InstanceStateStopped; InstanceStateFailed].

Definition count_states (l : list InstanceRow) : gmap string Z :=
  fold_left (fun m i => <[InstanceState_text (in_State i) := (default 0 (m !! InstanceState_text (in_State i)) + 1)%Z]> m)
    l zero_counts.

(** [Set] on every entry; gauges of other states stay. *)
Definition set_totals (counts : gmap string Z) (c : Collectors) : Collectors :=
  {| cl_InstanceTotal := counts ∪ cl_InstanceTotal c; cl_GPUSlotUsed := cl_GPUSlotUsed c;
     cl_HTTPDuration := cl_HTTPDuration c |}.

Definition slot_label (s : SlotAdminRow) : string * string := (sa_NodeName s, Itoa (gs_SlotIndex (sa_Slot s))).
Definition slot_used (s : SlotAdminRow) : Z := if bool_decide (gs_Status (sa_Slot s) = SlotStatusInUse) then 1 else 0.

(** [Reset], then [Set] for every row. *)
Definition set_slots (l : list SlotAdminRow) (c : Collectors) : Collectors :=
  {| cl_InstanceTotal := cl_InstanceTotal c;
     cl_GPUSlotUsed := fold_left (fun m s => <[slot_label s := slot_used s]> m) l ∅;
     cl_HTTPDuration := cl_HTTPDuration c |}.

Definition Sample `{Collation} : ST MetricsState (option error) :=
  r <- onMetricsPg (exec (listInstances None)) ;;
  match r with
  | Err e => ret (Some e)
  | Ok instances =>
      set_gauges (set_totals (count_states instances)) ;;;
      r <- onMetricsPg (exec listSlotsForAdminView) ;;
      match r with
      | Err e => ret (Some e)
      | Ok slots => set_gauges (set_slots slots) ;;; ret None
      end
  end.

(** [Run]: a first sample, then one for each tick until the context ends;
    errors are logged.  The ticks are the wakeups before that. *)
Definition Run `{Collation} (ticks : nat) : ST MetricsState unit :=
  Sample ;;; forRange (seq 0 ticks) (fun _ => Sample ;;; ret tt).

(** [statusRecorder]: the code of the first [WriteHeader], 200 without one. *)
Record statusRecorder := { sr_code : Z; sr_wroteHeader : bool }.
Definition WriteHeader (code : Z) (r : statusRecorder) : statusRecorder :=
  {| sr_code := if sr_wroteHeader r then sr_code r else code; sr_wroteHeader := true |}.
Definition recorded (codes : list Z) : Z :=
  sr_code (fold_left (fun r c => WriteHeader c r) codes {| sr_code := 200; sr_wroteHeader := false |}).

(** How a handler ends: it returns after some calls of [WriteHeader], or it
    panics. *)
Inductive handled := Returned (codes : list Z) | Panicked.

(** [HTTPMiddleware]: one observation of the time that [next] took; a panic
    goes past it. *)
Definition HTTPMiddleware (routePattern method : string) (next : handled) (elapsed : Z) (c : Collectors) : Collectors :=
  match next with
  | Panicked => c
  | Returned codes =>
      let label := (method, routePattern, Itoa (recorded codes)) in
      {| cl_InstanceTotal := cl_InstanceTotal c; cl_GPUSlotUsed := cl_GPUSlotUsed c;
         cl_HTTPDuration := <[label := default [] (cl_HTTPDuration c !! label) ++ [elapsed]]> (cl_HTTPDuration c) |}
  end.

(** ** Properties *)

Lemma InstanceState_text_inj a b :
  is_instance_state a = true -> is_instance_state b = true -> InstanceState_text a = InstanceState_text b -> a = b.
Proof. by destruct a, b. Qed.

Definition count_state (m : gmap string Z) (i : InstanceRow) : gmap string Z :=
  <[InstanceState_text (in_State i) := (default 0 (m !! InstanceState_text (in_State i)) + 1)%Z]> m.

Lemma count_from_lookup l st z m :
  is_instance_state st = true -> Forall (fun i => is_instance_state (in_State i) = true) l ->
  m !! InstanceState_text st = Some z ->
  fold_left count_state l m !! InstanceState_text st =
    Some (z + Z.of_nat (length (List.filter (fun i => bool_decide (in_State i = st)) l)))%Z.
Proof.
  intros Hst Hl. revert z m. induction Hl as [|i l Hi _ IH]; intros z m Hm; simpl.
  - by rewrite Hm, Z.add_0_r.
  - case_bool_decide as He.
    + rewrite (IH (z + 1)%Z); [simpl; f_equal; lia|]. unfold count_state. rewrite He, Hm. by rewrite lookup_insert_eq.
    + apply IH. unfold count_state. rewrite lookup_insert_ne; [done|]. intros E.
      apply He. by apply InstanceState_text_inj.
Qed.

Lemma count_states_lookup l st :
  is_instance_state st = true -> Forall (fun i => is_instance_state (in_State i) = true) l ->
  count_states l !! InstanceState_text st =
    Some (Z.of_nat (length (List.filter (fun i => bool_decide (in_State i = st)) l))).
Proof. intros Hst Hl. apply (count_from_lookup l st 0); [done|done|]. by destruct st. Qed.

Lemma set_slots_lookup (l : list SlotAdminRow) (m : gmap (string * string) Z) (k : string * string) :
  NoDup (slot_label <$> l) ->
  fold_left (fun m s => <[slot_label s := slot_used s]> m) l m !! k =
    match List.find (fun s => bool_decide (slot_label s = k)) l with
    | Some s => Some (slot_used s)
    | None => m !! k
    end.
Proof.
  revert m. induction l as [|s l IH]; intros m Hnd; [done|]. csimpl in Hnd. apply NoDup_cons in Hnd as [Hn Hnd].
  simpl. rewrite IH by done. case_bool_decide as He; [|destruct (List.find _ l); [done|by rewrite lookup_insert_ne]].
  destruct (List.find _ l) as [s'|] eqn:Hf; [|by rewrite He, lookup_insert_eq].
  exfalso. apply Hn. rewrite He. apply find_some in Hf as [Hin Hs]. apply bool_decide_eq_true in Hs as <-.
  apply list_elem_of_fmap. exists s'. split; [done|]. by apply list_elem_of_In.
Qed.

Lemma filter_length_Permutation {A} (f : A -> bool) (l k : list A) :
  l ≡ₚ k -> length (List.filter f l) = length (List.filter f k).
Proof.
  induction 1 as [|x l k _ IH|x y l|l k j _ IH1 _ IH2]; simpl; [done| | |by rewrite IH1].
  - destruct (f x); simpl; by rewrite IH.
  - by destruct (f x), (f y).
Qed.

Lemma omap_slots_sublist (d : DB) (l : list GpuSlot) :
  sa_Slot <$> omap (fun s => (fun n => {| sa_Slot := s; sa_NodeName := nd_NodeName n |}) <$> db_nodes d !! gs_NodeID s) l
    `sublist_of` l.
Proof.
  induction l as [|v l IH]; [done|]. csimpl. destruct (db_nodes d !! gs_NodeID v) as [n|]; csimpl.
  - by constructor.
  - by constructor.
Qed.

Section facts.
Context `{Collation}.

Definition slots_listed (d : DB) : list SlotAdminRow :=
  match (listSlotsForAdminView {| env_now := 0; env_uuid := 0; env_seq := 0 |} d).1 with Ok l => l | Err _ => [] end.

Lemma elem_of_slots_listed d r :
  r ∈ slots_listed d <->
  exists id n, db_gpu_slots d !! id = Some (sa_Slot r) /\ db_nodes d !! gs_NodeID (sa_Slot r) = Some n /\
    sa_NodeName r = nd_NodeName n.
Proof.
  unfold slots_listed, listSlotsForAdminView, query. cbn [fst]. rewrite elem_of_order_by, list_elem_of_omap. split.
  - intros (v & Hv & Hr). apply elem_of_rows in Hv as [id Hv]. destruct (db_nodes d !! gs_NodeID v) as [n|] eqn:Hn; [|done].
    simpl in Hr. injection Hr as <-. simpl. eauto.
  - intros (id & n & Hv & Hn & Hname). exists (sa_Slot r). split; [by apply elem_of_rows; eauto|]. rewrite Hn. simpl.
    destruct r. simpl in *. by subst.
Qed.

Lemma slots_listed_NoDup d : slots_ok d -> nodes_ok d -> NoDup (slot_label <$> slots_listed d).
Proof.
  intros [Hs Hu] [_ Hn]. apply NoDup_fmap_2_strong.
  - intros a b (i & n & Ha & Hna & Ea)%elem_of_slots_listed (j & m & Hb & Hmb & Eb)%elem_of_slots_listed.
    unfold slot_label. rewrite Ea, Eb. intros [= Hname Hidx%Itoa_inj].
    pose proof (Hn _ _ _ _ Hna Hmb Hname) as Hnode. pose proof (Hu _ _ _ _ Ha Hb Hnode Hidx) as <-.
    destruct a, b. simpl in *. congruence.
  - unfold slots_listed, listSlotsForAdminView, query. cbn [fst]. rewrite order_by_Permutation.
    eapply NoDup_fmap_1. eapply sublist_NoDup; [|apply omap_slots_sublist].
    eapply NoDup_fmap_1, (rows_keys_NoDup gs_ID). intros id v Hv. by apply (slots_keyed _ (conj Hs Hu)).
Qed.

(** A sample shows the tables: for every state of the enum the number of
    instances in it, and for exactly the slots that exist, under the name of
    their node and their index, whether they are in use. *)
Theorem Sample_spec s :
  let d := pg_db (ms_pg s) in
  clean (ms_pg s) -> slots_ok d -> nodes_ok d ->
  (forall id i, db_instances d !! id = Some i -> is_instance_state (in_State i) = true) ->
  let '(err, s') := Sample s in
  err = None /\ pg_db (ms_pg s') = d /\
  (forall st, is_instance_state st = true ->
     cl_InstanceTotal (ms_coll s') !! InstanceState_text st =
       Some (count_where (fun i => bool_decide (in_State i = st)) (db_instances d))) /\
  (forall name idx used, cl_GPUSlotUsed (ms_coll s') !! (name, Itoa idx) = Some used <->
     exists id v n, db_gpu_slots d !! id = Some v /\ db_nodes d !! gs_NodeID v = Some n /\ nd_NodeName n = name /\
       gs_SlotIndex v = idx /\ used = (if bool_decide (gs_Status v = SlotStatusInUse) then 1 else 0)%Z).
Proof.
  intros d Hc Hs Hn Hst. unfold Sample. rewrite bind_eq. unfold onMetricsPg. rewrite exec_clean by done.
  cbn [fst snd listInstances query]. rewrite !bind_eq. cbn [fst snd set_gauges ms_pg ms_coll].
  rewrite exec_clean by by apply tick_clean. cbn [fst snd listSlotsForAdminView query].
  rewrite !bind_eq. cbn [fst snd ret set_gauges ms_pg ms_coll set_slots set_totals cl_InstanceTotal cl_GPUSlotUsed tick pg_db].
  fold d. split; [done|]. split; [done|]. split.
  - intros st Hi. apply lookup_union_Some_l. rewrite count_states_lookup; [|done|].
    + unfold instances_of. f_equal. unfold count_where. f_equal. apply filter_length_Permutation.
      by rewrite order_by_Permutation, List.filter_true.
    + apply Forall_forall. intros i Hin. unfold instances_of in Hin. apply elem_of_order_by in Hin.
      apply elem_of_filter_rows in Hin as [_ [id Hin]]. by apply (Hst id).
  - intros name idx used. change (order_by _ _) with (slots_listed d).
    rewrite set_slots_lookup by by apply slots_listed_NoDup. rewrite lookup_empty. split.
    + destruct (List.find _ _) as [r|] eqn:Hf; [|done]. intros [= <-].
      apply find_some in Hf as [Hin%list_elem_of_In Hl]. apply bool_decide_eq_true in Hl.
      apply elem_of_slots_listed in Hin as (id & n & Hv & Hnode & Hname). unfold slot_label in Hl.
      injection Hl as Hna Hidx%Itoa_inj. exists id, (sa_Slot r), n. split_and!; try done. congruence.
    + intros (id & v & n & Hv & Hnode & <- & <- & ->).
      set (r := {| sa_Slot := v; sa_NodeName := nd_NodeName n |}).
      assert (r ∈ slots_listed d) as Hr by (apply elem_of_slots_listed; eauto 10).
      destruct (List.find _ _) as [r'|] eqn:Hf.
      * apply find_some in Hf as [Hin%list_elem_of_In Hl]. apply bool_decide_eq_true in Hl.
        assert (r' = r) as ->; [|done]. pose proof (slots_listed_NoDup d Hs Hn) as Hnd.
        apply list_elem_of_lookup in Hin as [i Hi], Hr as [j Hj].
        assert (i = j) as <-; [|congruence].
        change (slot_label r' = slot_label r) in Hl.
        eapply (NoDup_lookup _ i j (slot_label r') Hnd); rewrite list_lookup_fmap, ?Hi, ?Hj; [done|].
        exact (f_equal Some (eq_sym Hl)).
      * exfalso. apply list_elem_of_In in Hr. pose proof (find_none _ _ Hf r Hr) as Hx.
        apply bool_decide_eq_false in Hx. by destruct Hx.
Qed.
End facts.

(** ** The request durations *)

Record served := { sv_method : string; sv_next : handled; sv_elapsed : Z }.

Definition serve_all (route : string) (l : list served) (c : Collectors) : Collectors :=
  fold_left (fun c r => HTTPMiddleware route (sv_method r) (sv_next r) (sv_elapsed r) c) l c.

(** The durations of the requests of one method whose handler returned with
    one status. *)
Definition durations (method : string) (code : Z) (l : list served) : list Z :=
  omap (fun r => match sv_next r with
                 | Returned codes =>
                     if decide (sv_method r = method /\ recorded codes = code) then Some (sv_elapsed r) else None
                 | Panicked => None
                 end) l.

(** The status that is recorded: that of the first [WriteHeader], or 200. *)
Lemma recorded_spec codes : recorded codes = default 200%Z (head codes).
Proof.
  destruct codes as [|c l]; [done|]. unfold recorded. simpl. unfold WriteHeader at 2. simpl.
  induction l as [|c' l IH]; [done|]. simpl. unfold WriteHeader at 2. simpl. done.
Qed.

(** The histogram has every request that came back, once, under its method
    and first status, in order; the requests whose handler panicked are not
    in it, and the gauges are left alone. *)
Theorem durations_recorded route l c :
  (forall method code,
     default [] (cl_HTTPDuration (serve_all route l c) !! (method, route, Itoa code)) =
       default [] (cl_HTTPDuration c !! (method, route, Itoa code)) ++ durations method code l) /\
  cl_InstanceTotal (serve_all route l c) = cl_InstanceTotal c /\
  cl_GPUSlotUsed (serve_all route l c) = cl_GPUSlotUsed c.
Proof.
  revert c. induction l as [|r l IH]; intros c; [split_and!; [by intros; rewrite app_nil_r|done..]|].
  set (c' := HTTPMiddleware route (sv_method r) (sv_next r) (sv_elapsed r) c).
  change (serve_all route (r :: l) c) with (serve_all route l c'). destruct (IH c') as (Hd & Ht & Hg). split_and!; [|rewrite Ht|rewrite Hg]; subst c'.
  - intros method code. rewrite Hd. csimpl. unfold HTTPMiddleware.
    destruct (sv_next r) as [codes|]; [|done]. simpl. case_decide as E.
    + destruct E as [<- <-]. rewrite lookup_insert_eq. simpl. by rewrite <- app_assoc.
    + rewrite lookup_insert_ne; [done|]. intros [= H1 H2%Itoa_inj]. by apply E.
  - unfold HTTPMiddleware. by destruct (sv_next r).
  - unfold HTTPMiddleware. by destruct (sv_next r).
Qed.
