(* ===== verification/AcceptLoops.v ===== *)
(** * The two accept loops of the data plane

    [Serve] of ssh-proxy's mux server (internal/muxserver/server.go) and
    [AcceptLoop] of compute-agent (internal/muxclient/handler.go) accept in a
    loop, start a goroutine for each connection or stream, and wait for all of
    them before they return; they differ in what an error of accepting does.
    One step relation for both.  What a goroutine does is in MuxServer and
    AgentRelay. *)

From S2P Require Import Prelude GoStrings LibvirtManager Wire.
From stdpp Require Import relations.

#[local] Open Scope list_scope.

Definition net_ErrClosed : error := Sentinel "use of closed network connection".
Definition yamux_ErrSessionShutdown : error := Sentinel "session shutdown".

(** What the body of the loop does with an error: return, or wait and go
    on. *)
Inductive on_error := Return (err : Ctx) | Backoff.

(** [Serve]; [ctx] is the context when the error comes. *)
Definition serve_error (ctx : Ctx) (e : error) : on_error :=
  if ctx is Some c then Return (Some c)
  else if errors_Is e net_ErrClosed then Return None
  else Backoff.

(** [isClosedErr] only decides whether [AcceptLoop] logs. *)
Definition isClosedErr (e : error) : bool :=
  errors_Is e EOF || errors_Is e net_ErrClosed || errors_Is e yamux_ErrSessionShutdown.
Definition loop_error (ctx : Ctx) (e : error) : on_error := Return None.

Inductive lphase := Accepting | Sleeping | Draining (err : Ctx) | Returned (err : Ctx).

Record acceptor := {
  ac_phase : lphase;
  ac_tasks : list bool;              (* the goroutines started: still running? *)
  ac_ctx : Ctx;
  ac_closed : bool                   (* the listener or session *)
}.

Definition at_phase (a : acceptor) (p : lphase) : acceptor :=
  {| ac_phase := p; ac_tasks := ac_tasks a; ac_ctx := ac_ctx a; ac_closed := ac_closed a |}.
Definition with_tasks (a : acceptor) (l : list bool) : acceptor :=
  {| ac_phase := ac_phase a; ac_tasks := l; ac_ctx := ac_ctx a; ac_closed := ac_closed a |}.

Definition start : acceptor := {| ac_phase := Accepting; ac_tasks := []; ac_ctx := None; ac_closed := false |}.

Section loop.
(** The error handling, and whether the end of the context closes the
    listener: [Serve] has a goroutine for that, the session of [AcceptLoop]
    is closed by [Run]. *)
Variable handle : Ctx -> error -> on_error.

Definition accept_error (a : acceptor) (e : error) : acceptor :=
  at_phase a (match handle (ac_ctx a) e with Return r => Draining r | Backoff => Sleeping end).

(** The steps of the loop itself and of its goroutines: an accept on what is
    closed fails, a sleep ends, a goroutine ends, all have ended. *)
Inductive istep (a : acceptor) : acceptor -> Prop :=
  | i_closed e : ac_phase a = Accepting -> ac_closed a = true -> errors_Is e net_ErrClosed = true ->
      istep a (accept_error a e)
  | i_awake : ac_phase a = Sleeping -> istep a (at_phase a Accepting)
  | i_done i : ac_tasks a !! i = Some true -> istep a (with_tasks a (<[i := false]> (ac_tasks a)))
  | i_drained r : ac_phase a = Draining r -> Forall (fun b => b = false) (ac_tasks a) -> istep a (at_phase a (Returned r)).

(** And what comes from outside: a connection, an error of accepting, the end
    of the context, the listener closed. *)
Inductive step (a : acceptor) : acceptor -> Prop :=
  | x_accept : ac_phase a = Accepting -> ac_closed a = false -> step a (with_tasks a (ac_tasks a ++ [true]))
  | x_error e : ac_phase a = Accepting -> step a (accept_error a e)
  | x_cancel e : step a {| ac_phase := ac_phase a; ac_tasks := ac_tasks a; ac_ctx := Some e; ac_closed := ac_closed a |}
  | x_close : step a {| ac_phase := ac_phase a; ac_tasks := ac_tasks a; ac_ctx := ac_ctx a; ac_closed := true |}
  | x_internal a' : istep a a' -> step a a'.

(** It has returned only when every goroutine has. *)
Lemma returned_drained a r : rtc step start a -> ac_phase a = Returned r -> Forall (fun b => b = false) (ac_tasks a).
Proof.
  intros Hr.
  cut (forall r, ac_phase a = Returned r -> Forall (fun b => b = false) (ac_tasks a)); [eauto|].
  assert (forall r, ac_phase start = Returned r -> Forall (fun b => b = false) (ac_tasks start)) as H0 by done.
  induction Hr as [|a a1 a2 Hs _ IH]; [done|]. apply IH. clear IH.
  intros r'. destruct Hs as [Hp _|e Hp|e|  |a' Hs]; simpl; try (rewrite Hp); try done; try apply H0.
  - unfold accept_error. simpl. by case_match.
  - destruct Hs as [e Hp|Hp|i Hi|r1 Hp Hall]; simpl; try done.
    + unfold accept_error. simpl. by case_match.
    + intros Hret. apply Forall_insert; [by eapply H0|done].
Qed.

Definition running (l : list bool) : nat := length (List.filter (fun b => b) l).
Definition lphase_left (p : lphase) : nat :=
  match p with Sleeping => 3 | Accepting => 2 | Draining _ => 1 | Returned _ => 0 end.

Lemma running_done l i : l !! i = Some true -> S (running (<[i := false]> l)) = running l.
Proof.
  unfold running. revert i. induction l as [|b l IH]; intros [|i] Hi; simpl in *; simplify_eq; [done|].
  destruct b; simpl; by rewrite (IH i Hi).
Qed.

Lemma running_0 l : running l = 0 -> Forall (fun b => b = false) l.
Proof. unfold running. induction l as [|[] l IH]; simpl; [by constructor|done|]. intros. constructor; auto. Qed.

(** When an error on a closed listener makes the loop return, nothing goes on
    for ever, and what comes to rest after the listener is closed has
    returned. *)
Hypothesis handle_closed : forall ctx e, errors_Is e net_ErrClosed = true -> exists r, handle ctx e = Return r.

Lemma accept_step_left a a' : istep a a' ->
  running (ac_tasks a') + lphase_left (ac_phase a') < running (ac_tasks a) + lphase_left (ac_phase a).
Proof.
  intros [e Hp _ He|Hp|i Hi|r Hp _]; simpl; rewrite ?Hp; simpl; try lia.
  - destruct (handle_closed (ac_ctx a) e He) as [r ->]. simpl. lia.
  - pose proof (running_done _ _ Hi). lia.
Qed.

Lemma loop_ends a : sn istep a.
Proof.
  remember (running (ac_tasks a) + lphase_left (ac_phase a)) as n eqn:Hn. revert a Hn.
  induction (lt_wf n) as [n _ IH]. intros a ->. constructor. intros a' Hs. by eapply IH; [apply accept_step_left|].
Qed.

Lemma loop_rests a : ac_closed a = true -> nf istep a -> exists r, ac_phase a = Returned r.
Proof.
  intros Hc Hnf. destruct (ac_phase a) as [| |r|r] eqn:Hp; [| | |by eexists]; exfalso; apply Hnf.
  - eexists. by apply (i_closed a net_ErrClosed).
  - eexists. by apply i_awake.
  - destruct (running (ac_tasks a)) as [|n] eqn:Hrun.
    + eexists. eapply i_drained; [done|]. by apply running_0.
    + assert (exists i, ac_tasks a !! i = Some true) as [i Hi]; [|eexists; by eapply i_done].
      destruct (List.filter (fun b => b) (ac_tasks a)) as [|b l] eqn:Hf; [unfold running in Hrun; by rewrite Hf in Hrun|].
      assert (In b (List.filter (fun b => b) (ac_tasks a))) as Hin by (rewrite Hf; by left).
      apply List.filter_In in Hin as [Hin ->]. apply list_elem_of_In, list_elem_of_lookup in Hin. done.
Qed.
End loop.

(** Both loops return once their listener or session is closed and their
    goroutines have ended, and not before. *)
Theorem accept_loops_drain handle a :
  handle = serve_error \/ handle = loop_error ->
  rtc (step handle) start a ->
  (forall r, ac_phase a = Returned r -> Forall (fun b => b = false) (ac_tasks a)) /\
  sn (istep handle) a /\
  (ac_closed a = true -> nf (istep handle) a -> exists r, ac_phase a = Returned r).
Proof.
  intros Hh Hr. assert (forall ctx e, errors_Is e net_ErrClosed = true -> exists r, handle ctx e = Return r) as Hc.
  { intros ctx e He. destruct Hh as [-> | ->]; unfold serve_error, loop_error; [|eauto].
    destruct ctx; [eauto|]. rewrite He. eauto. }
  split_and!; [|by apply loop_ends|by apply loop_rests]. intros r Hp. by eapply returned_drained.
Qed.

Lemma accept_loops_drain_witness : sn (istep serve_error) (with_tasks start [true]).
Proof.
  apply (accept_loops_drain serve_error); [by left|]. apply rtc_once. by apply (x_accept serve_error start).
Defined.

(** After the signal [Serve] returns the error of the context, whatever error
    accepting fails with. *)
Lemma serve_after_cancel c e : serve_error (Some c) e = Return (Some c).
Proof. done. Qed.
