(* ===== verification/EndToEnd.v ===== *)
(** * An instance across the two services

    The composition of main-api's handlers (AdminInstances), the agent's VM
    operations over the libvirt manager (VMHandler, VMLifecycle), and the
    status reports on the way back (AgentStream): after a create has been
    dealt with, the row, the slots and the host agree; a create, a delete, the
    agent's destroy and the final delete leave both sides as they were. *)

From S2P Require Import Prelude GoStrings Proto Db Queries Demo InstanceState InstanceRepo SlotRepo NodeRepo AgentRegistry Dispatcher Http AdminInstances CreateProof UserInstances DeleteProof AgentStream StreamProof DomainXML LibvirtManager IOMMU CloudInit VMHandler VMProof VMLifecycle.

#[local] Open Scope string_scope.
#[local] Open Scope list_scope.
#[local] Open Scope go_scope.

(** ** Reports on their way to main-api *)

Definition sent_status (e : event) : option InstanceStatus :=
  match e with Sent st => Some st | _ => None end.

(** What main-api receives of what an operation left behind. *)
Definition reports (t : list event) : list RecvResult :=
  (fun st => Received (AM_InstanceStatus st)) <$> omap sent_status t.

(** The state after a reported one. *)
Definition advance (from to : State) : State := if CanTransition from to then to else from.

Section reports.
Context `{UUIDLib} (protojson_Marshal : Topology -> result string) (netip_ParseAddr : string -> result Addr).
Context (svc : AgentStreamService) (Hi : svc_Instances svc = true) (Hs : svc_Slots svc = true).

Abbreviation receive := (receiveLoop protojson_Marshal netip_ParseAddr svc).

(** The effect on one instance's row and on the slots of reports that lead it
    from one state to another, ending some of the time in a terminal one. *)
Record reported (id : UUID) (tos : list State) (d d' : DB) : Prop := {
  rd_row i : db_instances d !! id = Some i -> exists i',
    db_instances d' = <[id := i']> (db_instances d) /\ in_State i' = foldl advance (in_State i) tos /\
    in_ID i' = in_ID i /\ in_NodeID i' = in_NodeID i;
  rd_slots k : db_gpu_slots d' !! k =
    (if existsb IsTerminal tos then free_if [id] else fun v => v) <$> db_gpu_slots d !! k
}.

Lemma free_if_idemp id v : free_if [id] (free_if [id] v) = free_if [id] v.
Proof.
  unfold free_if at 2 3. destruct (gs_CurrentInstanceID v) as [i|] eqn:E; [|unfold free_if; by rewrite E].
  case_decide; [done|]. unfold free_if. rewrite E. by rewrite decide_False.
Qed.

Lemma uses_suffix_apply st : uses_suffix (applyInstanceStatus netip_ParseAddr svc st).
Proof.
  unfold applyInstanceStatus. destruct (negb _); [apply uses_suffix_ret|].
  destruct (uuid_Parse _); [|apply uses_suffix_ret]. destruct (mapInstanceState _); [|apply uses_suffix_ret].
  apply uses_suffix_bind; [apply suffix_Transition|]. intros r. cbv zeta.
  match goal with |- uses_suffix (match ?x with Some _ => _ | None => _ end) => destruct x end;
    [apply uses_suffix_ret|].
  apply uses_suffix_bind; [|intros; apply uses_suffix_ret].
  destruct (_ && _); [|apply uses_suffix_ret]. apply uses_suffix_bind; [|intros; apply uses_suffix_ret].
  unfold ReleaseForInstance. apply uses_suffix_exec.
Qed.

(** Reports about one instance whose row exists. *)
Lemma receive_reported node id sts tos pg i :
  Forall2 (fun st to => uuid_Parse (st_InstanceId st) = Ok id /\ mapInstanceState (st_State st) = Ok to) sts tos ->
  clean pg -> db_instances (pg_db pg) !! id = Some i ->
  let '(r, pg') := receive node ((fun st => Received (AM_InstanceStatus st)) <$> sts) pg in
  r = Ok tt /\ clean pg' /\ reported id tos (pg_db pg) (pg_db pg').
Proof.
  intros Hl. revert pg i. induction Hl as [|st to sts tos [Hp Hm] Hl IH]; intros pg i Hc Hrow.
  { simpl. split_and!; [done|done|]. constructor; simpl.
    - intros j Hj. exists j. by rewrite insert_id.
    - intros k. by destruct (_ !! k). }
  cbn [fmap list_fmap receiveLoop handleAgentMessage]. rewrite bind_eq.
  pose proof (applyInstanceStatus_effect netip_ParseAddr svc st pg Hi Hs Hc) as He.
  pose proof (uses_suffix_clean _ _ (uses_suffix_apply st) Hc) as Hc1.
  destruct (applyInstanceStatus netip_ParseAddr svc st pg) as [r1 pg1]. cbn [fst snd] in *.
  unfold status_effect in He. rewrite Hp, Hm, Hrow in He. destruct He as (_ & (i1 & Hd & Hi1) & Hsl).
  assert (db_instances (pg_db pg1) !! id = Some i1) as Hrow1 by (rewrite Hd; apply lookup_insert_eq).
  specialize (IH pg1 i1 Hc1 Hrow1). destruct (receive node _ pg1) as [r pg'].
  destruct IH as (-> & Hc' & [HR HS]). split_and!; [done|done|]. constructor.
  - intros j Hj. destruct (HR i1 Hrow1) as (i' & Hd' & Hst & Hid & Hn). exists i'.
    rewrite Hd', Hd, insert_insert_eq. split; [done|]. simpl. assert (j = i) as -> by congruence.
    unfold advance at 2. rewrite Hst. destruct (CanTransition (in_State i) to).
    + destruct Hi1 as (-> & Hid' & Hn' & _). split_and!; [done|congruence|congruence].
    + by subst.
  - intros k. rewrite HS, Hsl. simpl. destruct (IsTerminal to); simpl; [|by destruct (_ !! k)].
    destruct (_ !! k) as [v|]; [|done]. simpl. destruct (existsb IsTerminal tos); [|done].
    by rewrite free_if_idemp.
Qed.
End reports.

(** ** What the agent's operations report *)
Section host.
Context {L : Type} `{ConnectorLaws L, YAMLLib, ISO9660}.
Implicit Types (h : Host L) (cfg : Config) (req : CreateInstanceMsg).

Lemma silent_cleanup cfg id w h : cleaned cfg id w h -> omap sent_status w = [].
Proof.
  intros [_ Hw]. induction w as [|e w IH]; [done|]. destruct (Hw e ltac:(left)) as (p & x & ->). csimpl.
  apply IH. intros ev Hin. apply Hw. by right.
Qed.

Lemma silent_resets s pcis : omap sent_status (reset_events s pcis) = [].
Proof.
  unfold reset_events. induction pcis as [|p l IH]; [done|]. cbn [flat_map]. rewrite omap_app, IH, app_nil_r.
  destruct (HasResetFile s p); [|done]. by destruct (ResetDevice s p).
Qed.

(** The statuses of a create, and the host it leaves. *)
Lemma create_reports cfg req h :
  lv_domains (ho_mgr h) !! ci_InstanceId req = None ->
  let id := ci_InstanceId req in
  let h' := (handleCreate cfg req h).2 in
  exists t, ho_trace h' = ho_trace h ++ t /\
    delete id (lv_domains (ho_mgr h')) = lv_domains (ho_mgr h) /\
    ((running h' id /\
      omap sent_status t = [status id INSTANCE_STATE_PROVISIONING "" ""; status id INSTANCE_STATE_RUNNING "" ""]) \/
     ((running h' id -> create_start_lost cfg req h) /\
      ~ Sent (status id INSTANCE_STATE_RUNNING "" "") ∈ t /\ exists msg,
      omap sent_status t = [status id INSTANCE_STATE_PROVISIONING "" ""; status id INSTANCE_STATE_FAILED "" msg])).
Proof.
  intros Hnone id h'. destruct (create_domains cfg req h Hnone) as (t & Ht & Hdel & Hr).
  destruct (handleCreate_spec cfg req h) as (_ & _ & t' & Ht' & Ho). fold h' id in Ht, Hdel, Hr, Ht', Ho.
  rewrite Ht in Ht'. apply app_inv_head in Ht' as <-. exists t. split; [done|]. split; [done|].
  destruct Ho as [info id' _ _ _|e w id' _ Hcl|e w id' _ Hcl]; change id' with id in *; clear id'.
  - left. rewrite decide_True in Hr by (rewrite !elem_of_cons; tauto). destruct Hr as (xml & _ & Hx).
    split; [by eexists|done].
  - right. match type of Hr with context [decide (_ ∈ ?l)] => assert (~ Sent (status id INSTANCE_STATE_RUNNING "" "") ∈ l) as Hni end.
    { destruct (no_report cfg id w (ho_sysfs h) [] (status id INSTANCE_STATE_RUNNING "" "") h' Hcl) as [Hn _].
      rewrite elem_of_cons, elem_of_app, !elem_of_cons. intros [?|[?|[?|[?|?%not_elem_of_nil]]]]; done. }
    rewrite decide_False in Hr by done. split; [done|]. split; [done|]. eexists. csimpl.
    rewrite omap_app, (silent_cleanup cfg id w h' Hcl). reflexivity.
  - right. match type of Hr with context [decide (_ ∈ ?l)] => assert (~ Sent (status id INSTANCE_STATE_RUNNING "" "") ∈ l) as Hni end.
    { destruct (no_report cfg id w (ho_sysfs h) (ci_PassthroughPciAddresses req)
                  (status id INSTANCE_STATE_RUNNING "" "") h' Hcl) as [Hn Hn'].
      rewrite elem_of_cons, !elem_of_app, !elem_of_cons. intros [?|[?|[?|[?|[?|?%not_elem_of_nil]]]]]; done. }
    rewrite decide_False in Hr by done. split; [done|]. split; [done|]. eexists. csimpl.
    rewrite !omap_app, (silent_cleanup cfg id w h' Hcl), silent_resets. reflexivity.
Qed.

(** Of a destroy. *)
Lemma destroy_reports cfg id h :
  exists t, ho_trace (handleDestroy cfg id h).2 = ho_trace h ++ t /\
    (omap sent_status t = [status id INSTANCE_STATE_STOPPING "" ""; status id INSTANCE_STATE_STOPPED "" ""] \/
     exists msg, omap sent_status t = [status id INSTANCE_STATE_STOPPING "" ""; status id INSTANCE_STATE_FAILED "" msg]).
Proof.
  destruct (handleDestroy_spec cfg id h) as (_ & _ & t & Ht & Ho). exists t. split; [done|].
  assert (forall p, omap sent_status (read_warning p) = []) as Hw.
  { intros [l|e]; [done|]. simpl. by destruct (errors_Is e ErrDomainNotFound). }
  destruct Ho as [pcis m d w _ _ _ Hcl|pcis m d e _ _ _ _]; [left|right; eexists]; csimpl; rewrite !omap_app, Hw.
  - rewrite (silent_cleanup cfg id w _ Hcl), silent_resets. done.
  - reflexivity.
Qed.
End host.

(** ** The fates of round trips, through the handlers *)
Section clean_worlds.
Context `{UUIDLib, Collation, Dispatcher D} (protojson_Unmarshal : string -> result Topology).

Definition clean_world (w : World D) : Prop := clean (w_pg w).

Lemma onPg_clean {A} (m : ST Pg A) : uses_suffix m -> preserves clean_world (onPg m).
Proof. intros Hm w Hw. rewrite onPg_eq. by apply uses_suffix_clean. Qed.

Lemma onAgents_clean {A} (m : ST D A) : preserves clean_world (onAgents m).
Proof. intros w Hw. by rewrite onAgents_eq. Qed.

Ltac solve_clean :=
  repeat first
    [ apply onAgents_clean
    | apply onPg_clean; (first [apply suffix_Transition | apply suffix_Create | apply suffix_Delete | solve_suffix])
    | apply preserves_bindC; [|intros ?] | pres_step ].

Lemma runCreate_clean h req node owner : preserves clean_world (runCreate protojson_Unmarshal h req node owner).
Proof.
  unfold runCreate, reserveIfNeeded, bind_and_dispatch, markFailed, dispatchCreate, Reserve, ReleaseReserved,
    ReleaseForInstance, BindToInstance. solve_clean.
Qed.

Lemma delete_instance_clean h id inst reason : preserves clean_world (delete_instance h id inst reason).
Proof. unfold delete_instance, ReleaseForInstance. solve_clean. Qed.
End clean_worlds.

(** ** Both sides *)
Section journey.
Context `{UUIDLib, !UUIDLaws, Collation, Dispatcher D, ConnectorLaws L, YAMLLib, ISO9660}.
Context (protojson_Unmarshal : string -> result Topology) (protojson_Marshal : Topology -> result string)
        (netip_ParseAddr : string -> result Addr).
Context (svc : AgentStreamService) (Hi : svc_Instances svc = true) (Hs : svc_Slots svc = true).
Implicit Types (w : World D) (host : Host L).

Abbreviation receive := (receiveLoop protojson_Marshal netip_ParseAddr svc).
Abbreviation tables w := (pg_db (w_pg w)).

(** A new instance holds no other slot than those bound to it. *)
Lemma free_if_new d id k v :
  slots_ok d -> db_instances d !! id = None -> db_gpu_slots d !! k = Some v -> free_if [id] v = v.
Proof.
  intros Hd Hnew Hv. unfold free_if. destruct (gs_CurrentInstanceID v) as [j|] eqn:E; [|done].
  rewrite decide_False; [done|]. intros ->%list_elem_of_singleton.
  destruct (so_inst _ _ _ (proj1 Hd k v Hv) id E) as [_ [? ?]]. congruence.
Qed.

Lemma free_bound d m' req node inst res pci k :
  slots_ok d -> db_instances d !! in_ID inst = None ->
  bound protojson_Unmarshal (db_gpu_slots d) m' req node inst res pci ->
  free_if [in_ID inst] <$> m' !! k = db_gpu_slots d !! k.
Proof.
  intros Hd Hnew [(_ & -> & _)|(p & _ & Hp & Hf & _ & _ & ->)].
  - destruct (_ !! k) as [v|] eqn:Hv; [|done]. simpl. by rewrite (free_if_new d (in_ID inst) k v).
  - rewrite lookup_insert. destruct (decide (gs_ID p = k)) as [<-|Hne].
    + rewrite Hp. simpl. f_equal. unfold free_if. simpl. rewrite decide_True by left.
      etransitivity; [|by apply (free_slot_eta (nd_ID node) (req_GPUCount req) p (db_gpu_slots d) d)]. done.
    + destruct (_ !! k) as [v|] eqn:Hv; [|done]. simpl. by rewrite (free_if_new d (in_ID inst) k v).
Qed.

Lemma two_reports id st1 st2 to1 to2 err :
  mapInstanceState st1 = Ok to1 -> mapInstanceState st2 = Ok to2 ->
  Forall2 (fun st to => uuid_Parse (st_InstanceId st) = Ok id /\ mapInstanceState (st_State st) = Ok to)
    [status (uuid_String id) st1 "" ""; status (uuid_String id) st2 "" err] [to1; to2].
Proof. intros. repeat constructor; simpl; try done; apply uuid_Parse_String. Qed.

(** What both sides know after a create with the events [t]: RUNNING was
    reported, the domain runs, and the row runs and holds its slots; or it was
    not, the row has failed, nothing is held, and no such domain runs, unless
    libvirt reported an error for a start that took effect. *)
Definition agreed cfg (msg : CreateInstanceMsg) host (t : list event) (w : World D) (slots' : gmap UUID GpuSlot)
    (inst row : InstanceRow) pg' : Prop :=
  let id := uuid_String (in_ID inst) in
  let host' := (handleCreate cfg msg host).2 in
  (running host' id /\ in_State row = InstanceStateRunning /\ db_gpu_slots (pg_db pg') = slots') \/
  ((running host' id -> create_start_lost cfg msg host) /\
     ~ Sent (status id INSTANCE_STATE_RUNNING "" "") ∈ t /\
     in_State row = InstanceStateFailed /\ db_gpu_slots (pg_db pg') = db_gpu_slots (tables w)).

Lemma create_reported h req node owner w v w' :
  clean (w_pg w) -> slots_ok (tables w) -> (0 <= req_GPUCount req)%Z ->
  runCreate protojson_Unmarshal h req node owner w = (WriteJSON StatusCreated v, w') ->
  exists inst res pci msg,
    create_message inst res pci = CM_CreateInstance msg /\
    w_agents w' = (dispatch_Send (nd_ID node) (CM_CreateInstance msg) (w_agents w)).2 /\
    in_NodeID inst = nd_ID node /\ db_instances (tables w) !! in_ID inst = None /\
    db_instances (tables w') = <[in_ID inst := inst]> (db_instances (tables w)) /\
    bound protojson_Unmarshal (db_gpu_slots (tables w)) (db_gpu_slots (tables w')) req node inst res pci /\
    forall cfg host, lv_domains (ho_mgr host) !! uuid_String (in_ID inst) = None ->
      let host' := (handleCreate cfg msg host).2 in
      exists t row, ho_trace host' = ho_trace host ++ t /\
        delete (uuid_String (in_ID inst)) (lv_domains (ho_mgr host')) = lv_domains (ho_mgr host) /\
        let '(r, pg') := receive (nd_ID node) (reports t) (w_pg w') in
        r = Ok tt /\ clean pg' /\ in_ID row = in_ID inst /\ in_NodeID row = nd_ID node /\
        db_instances (pg_db pg') = <[in_ID inst := row]> (db_instances (tables w)) /\
        agreed cfg msg host t w (db_gpu_slots (tables w')) inst row pg'.
Proof.
  intros Hc Hd Hg Hrun. pose proof (runCreate_effect protojson_Unmarshal h req node owner w Hc Hd Hg) as He.
  pose proof (runCreate_clean protojson_Unmarshal h req node owner w Hc) as Hc'.
  rewrite Hrun in He, Hc'. destruct He as (_ & inst & res & pci & _ & Hst & _ & Hn & _ & _ & _ & _ & Hnew & Hrows & Ha & Hb).
  eexists inst, res, pci, _. split; [reflexivity|]. split_and!; [done|done|done|done|done|].
  intros cfg host Hnone. cbn zeta. set (msg := Build_CreateInstanceMsg _ _ _ _ _ _ _ _).
  destruct (create_reports cfg msg host Hnone) as (t & Ht & Hdel & Hcase).
  change (ci_InstanceId msg) with (uuid_String (in_ID inst)) in Hcase, Hdel.
  assert (db_instances (tables w') !! in_ID inst = Some inst) as Hrow by (rewrite Hrows; apply lookup_insert_eq).
  pose proof (fun sts tos => receive_reported protojson_Marshal netip_ParseAddr svc Hi Hs (nd_ID node) (in_ID inst)
    sts tos (w_pg w') inst) as HR.
  unfold reports. destruct Hcase as [(Hr & Hsts)|(Hr & Hni & msg' & Hsts)].
  - specialize (HR _ _ (two_reports (in_ID inst) INSTANCE_STATE_PROVISIONING INSTANCE_STATE_RUNNING _ _ "" eq_refl eq_refl) Hc' Hrow).
    exists t. rewrite Hsts. destruct (receive _ _ _) as [r pg']. destruct HR as (-> & Hcl & [HR HS]).
    destruct (HR inst Hrow) as (row & Hrows' & Hst' & Hid' & Hn'). rewrite Hst in Hst'. exists row.
    split_and!; [done|done|done|done|done|congruence|by rewrite Hrows', Hrows, insert_insert_eq|].
    left. split_and!; [done|done|]. apply map_eq. intros k. rewrite HS. simpl. by destruct (_ !! k).
  - specialize (HR _ _ (two_reports (in_ID inst) INSTANCE_STATE_PROVISIONING INSTANCE_STATE_FAILED _ _ msg' eq_refl eq_refl) Hc' Hrow).
    exists t. rewrite Hsts. destruct (receive _ _ _) as [r pg']. destruct HR as (-> & Hcl & [HR HS]).
    destruct (HR inst Hrow) as (row & Hrows' & Hst' & Hid' & Hn'). rewrite Hst in Hst'. exists row.
    split_and!; [done|done|done|done|done|congruence|by rewrite Hrows', Hrows, insert_insert_eq|].
    right. split_and!; [done|done|done|]. apply map_eq. intros k. rewrite HS. simpl.
    by apply (free_bound (tables w) _ req node inst res pci).
Qed.
(** C3: after a create both sides agree.  Whenever a create is answered with
    201, the message that went to the node carries the new row's id.  Whatever
    then happens to the agent's operation on a host whose libvirt has no such
    domain (any system call fails, any call of libvirt fails before or after
    it took effect), once main-api has received what the operation reported:
    either the domain runs on the host, the row is [running] and the slots are
    those bound to it; or RUNNING was not reported, the row is [failed] and
    the slot table is the one before the request, and no such domain runs on
    the host, with one exception: libvirt returned an error from the start of
    this domain although the start took effect.  No other row and no other
    domain changes on the way.  (main-api's database round trips are served,
    its slot table is consistent to begin with ([slots_ok], kept by every
    operation), and the request does not ask for a negative number of GPUs,
    which [validateCreate] has tested.) *)
Theorem create_agrees h req node owner w v w' :
  clean (w_pg w) -> slots_ok (tables w) -> (0 <= req_GPUCount req)%Z ->
  runCreate protojson_Unmarshal h req node owner w = (WriteJSON StatusCreated v, w') ->
  exists inst msg,
    w_agents w' = (dispatch_Send (nd_ID node) (CM_CreateInstance msg) (w_agents w)).2 /\
    ci_InstanceId msg = uuid_String (in_ID inst) /\
    forall cfg host, lv_domains (ho_mgr host) !! ci_InstanceId msg = None ->
      let host' := (handleCreate cfg msg host).2 in
      delete (ci_InstanceId msg) (lv_domains (ho_mgr host')) = lv_domains (ho_mgr host) /\
      exists t row, ho_trace host' = ho_trace host ++ t /\
        let '(r, pg') := receive (nd_ID node) (reports t) (w_pg w') in
        r = Ok tt /\ db_instances (pg_db pg') = <[in_ID inst := row]> (db_instances (tables w)) /\
        agreed cfg msg host t w (db_gpu_slots (tables w')) inst row pg'.
Proof.
  intros Hc Hd Hg Hrun.
  destruct (create_reported h req node owner w v w' Hc Hd Hg Hrun)
    as (inst & res & pci & msg & Hm & Ha & _ & _ & _ & _ & Hall).
  exists inst, msg. unfold create_message in Hm. injection Hm as <-. split; [done|]. split; [done|].
  intros cfg host Hnone host'. destruct (Hall cfg host Hnone) as (t & row & Ht & Hdel & HR).
  split; [exact Hdel|]. exists t, row. split; [done|]. destruct (receive _ _ _) as [r pg'].
  by destruct HR as (? & _ & _ & _ & ? & ?).
Qed.

(** ** From create to delete *)

(** main-api after it received the reports [t]. *)
Definition told (node : UUID) (t : list event) w : World D :=
  Build_World (receive node (reports t) (w_pg w)).2 (w_agents w).

(** The delete of a running row, and the reports of a destroy that worked:
    the row is stopped and its slots are free. *)
Lemma delete_reported h id row reason w w2 resp node t err :
  clean (w_pg w) -> db_instances (tables w) !! id = Some row -> in_State row = InstanceStateRunning ->
  delete_instance h id row reason w = (resp, w2) ->
  omap sent_status t = [status (uuid_String id) INSTANCE_STATE_STOPPING "" "";
                        status (uuid_String id) INSTANCE_STATE_STOPPED "" err] ->
  clean (w_pg (told node t w2)) /\
  (exists row3, db_instances (tables (told node t w2)) = <[id := row3]> (db_instances (tables w)) /\
     in_State row3 = InstanceStateStopped) /\
  (forall k, db_gpu_slots (tables (told node t w2)) !! k = free_if [id] <$> db_gpu_slots (tables w) !! k).
Proof.
  intros Hc Hrow Hst Hdel Ht.
  pose proof (delete_live h id row reason w Hc Hrow) as HL. rewrite Hst in HL.
  specialize (HL eq_refl eq_refl). pose proof (delete_instance_clean h id row reason w Hc) as Hc2.
  rewrite Hdel in HL, Hc2. destruct HL as (_ & _ & Hsl & row2 & Hrows & Hst2).
  change (in_State row2 = InstanceStateStopping) in Hst2.
  assert (db_instances (tables w2) !! id = Some row2) as Hrow2 by (rewrite Hrows; apply lookup_insert_eq).
  pose proof (receive_reported protojson_Marshal netip_ParseAddr svc Hi Hs node id _ _ (w_pg w2) row2
    (two_reports id INSTANCE_STATE_STOPPING INSTANCE_STATE_STOPPED _ _ err eq_refl eq_refl) Hc2 Hrow2) as HR.
  unfold told, reports. cbn [w_pg]. rewrite Ht. destruct (receive _ _ _) as [r pg']. cbn [snd].
  destruct HR as (_ & Hcl & [HR HS]). destruct (HR row2 Hrow2) as (row3 & Hrows3 & Hst3 & _).
  split; [done|]. split.
  - exists row3. rewrite Hrows3, Hrows, insert_insert_eq, Hst3, Hst2. done.
  - intros k. rewrite HS, Hsl. done.
Qed.
(** The events of a destroy that undid the create. *)
Lemma destroyed_events cfg id cl host s pcis :
  cleaned cfg id cl host ->
  let t := report cfg id INSTANCE_STATE_STOPPING "" :: cl ++ reset_events s pcis ++
             [report cfg id INSTANCE_STATE_STOPPED ""; Released] in
  omap sent_status t = [status id INSTANCE_STATE_STOPPING "" ""; status id INSTANCE_STATE_STOPPED "" ""] /\
  forall pci, pci ∈ pcis -> HasResetFile s pci = true ->
    DeviceReset pci ∈ t \/ exists e, WarnReset pci e ∈ t.
Proof.
  intros Hcl t. split.
  - unfold t. csimpl. rewrite !omap_app, (silent_cleanup cfg id cl host Hcl), silent_resets. done.
  - intros pci Hin Hr.
    assert (match ResetDevice s pci with None => DeviceReset pci | Some e => WarnReset pci e end ∈ reset_events s pcis) as He.
    { unfold reset_events. apply list_elem_of_In, in_flat_map. exists pci. rewrite Hr. split; [by apply list_elem_of_In|by left]. }
    assert (forall e, e ∈ reset_events s pcis -> e ∈ t) as Ht.
    { intros e Hx. unfold t. rewrite elem_of_cons, !elem_of_app. auto. }
    destruct (ResetDevice s pci) as [e|]; [right; exists e|left]; by apply Ht.
Qed.

(** C4: an instance leaves nothing behind.  An instance is created on a host
    that does not know its domain; the agent reports RUNNING; it is deleted
    through main-api; the agent, whose libvirt reads the definition and
    destroys the domain without an error, reports; the finished row is deleted.  Then the
    instances and the GPU slots of the database and the domains of the host
    are what they were before the create, the destroy message went to the
    node of the instance, the last request is answered with 204, and every
    device that was passed through and can be reset was reset (or the failure
    to reset it is in the log).  The PCI addresses passed through are in the
    form sysfs and libvirt print them (four, two, two and one lower-case
    hexadecimal digits) and the agent's paths and network name are texts XML
    can hold: other addresses do not survive the way through the domain
    definition.  (As for a create: main-api's database round trips are served,
    its slot table is consistent to begin with, the number of GPUs is not
    negative; and the handlers have the slot repository, as [main] wires them.) *)
Theorem instance_round_trip `{!XMLLaws} h req node owner w v w1 :
  clean (w_pg w) -> slots_ok (tables w) -> (0 <= req_GPUCount req)%Z -> h_Slots h = true ->
  runCreate protojson_Unmarshal h req node owner w = (WriteJSON StatusCreated v, w1) ->
  exists inst msg, ci_InstanceId msg = uuid_String (in_ID inst) /\
  w_agents w1 = (dispatch_Send (nd_ID node) (CM_CreateInstance msg) (w_agents w)).2 /\
  forall cfg host l reason t1,
    let id := in_ID inst in
    let host1 := (handleCreate cfg msg host).2 in
    let pcis := DomainPassthroughPCI None (uuid_String id) (ho_mgr host1) in
    let host2 := (handleDestroy cfg (uuid_String id) host1).2 in
    lv_domains (ho_mgr host) !! uuid_String id = None ->
    ho_trace host1 = ho_trace host ++ t1 ->
    Sent (status (uuid_String id) INSTANCE_STATE_RUNNING "" "") ∈ t1 ->
    forallb canonical_pci (ci_PassthroughPciAddresses msg) = true -> printable_request cfg msg ->
    pcis.1 = Ok l -> (DestroyDomain None (uuid_String id) pcis.2).1 = Ok tt ->
    exists t2, ho_trace host2 = ho_trace host ++ t1 ++ t2 /\
      lv_domains (ho_mgr host2) = lv_domains (ho_mgr host) /\
      (forall pci, pci ∈ ci_PassthroughPciAddresses msg -> HasResetFile (ho_sysfs host) pci = true ->
         DeviceReset pci ∈ t2 \/ exists e, WarnReset pci e ∈ t2) /\
      let w2 := told (nd_ID node) t1 w1 in
      exists row2, db_instances (tables w2) !! id = Some row2 /\
      let w3 := (delete_instance h id row2 reason w2).2 in
      let w4 := told (nd_ID node) t2 w3 in
      w_agents w3 = (dispatch_Send (nd_ID node) (CM_DestroyInstance (uuid_String id)) (w_agents w2)).2 /\
      exists row4, db_instances (tables w4) !! id = Some row4 /\
      let '(resp, w5) := delete_instance h id row4 reason w4 in
      resp = WriteHeader StatusNoContent /\
      db_instances (tables w5) = db_instances (tables w) /\
      db_gpu_slots (tables w5) = db_gpu_slots (tables w).
Proof.
  intros Hc Hd Hg Hsl Hrun.
  destruct (create_reported h req node owner w v w1 Hc Hd Hg Hrun)
    as (inst & res & pci & msg & Hm & Ha & _ & Hnew & _ & Hb & Hall).
  exists inst, msg. assert (ci_InstanceId msg = uuid_String (in_ID inst)) as Hid by (unfold create_message in Hm; by injection Hm as <-).
  split; [done|]. split; [done|]. intros cfg host l reason t1 id host1 pcis host2 Hnone Ht1 Hsent Hcan Hprint Hpci Hdes.
  destruct (Hall cfg host Hnone) as (t1' & row2 & Ht1' & _ & HR). fold id host1 in Ht1', HR.
  rewrite Ht1 in Ht1'. apply app_inv_head in Ht1' as <-.
  pose proof (destroyed_as_created cfg msg host t1 l) as HD. cbv zeta in HD. rewrite Hid in HD.
  fold id host1 in HD. fold host2 in HD.
  destruct (HD Hnone Hcan Hprint Ht1 Hsent) as (Hdom & cl & Hcl & Ht2); [|done|].
  { change (pcis = (Ok l, pcis.2)). rewrite <- Hpci. by destruct pcis. }
  set (t2 := report cfg (uuid_String id) INSTANCE_STATE_STOPPING "" :: _) in Ht2.
  destruct (destroyed_events cfg (uuid_String id) cl host2 (ho_sysfs host) (ci_PassthroughPciAddresses msg) Hcl)
    as [Hrep Hreset]. fold t2 in Hrep, Hreset.
  exists t2. split; [by rewrite Ht2, Ht1, app_assoc|]. split; [done|]. split; [done|].
  intros w2. destruct (receive (nd_ID node) (reports t1) (w_pg w1)) as [r pg2] eqn:Hrec.
  assert (pg2 = w_pg w2) as -> by (unfold w2, told; cbn [w_pg]; by rewrite Hrec).
  clearbody w2.
  destruct HR as (_ & Hc2 & Hi2 & Hn2 & Hrows2 & [(_ & Hst2 & Hsl2)|(_ & Hno & _)]); [|done].
  assert (db_instances (tables w2) !! id = Some row2) as Hrow2 by (rewrite Hrows2; apply lookup_insert_eq).
  exists row2. split; [done|]. intros w3 w4.
  pose proof (delete_reported h id row2 reason w2 w3 (delete_instance h id row2 reason w2).1 (nd_ID node) t2 ""
    Hc2 Hrow2 Hst2 (surjective_pairing _) Hrep) as (Hc4 & (row4 & Hrows4 & Hst4) & Hsl4).
  fold w4 in Hc4, Hrows4, Hsl4.
  split. { pose proof (delete_live h id row2 reason w2 Hc2 Hrow2) as HL. rewrite Hst2 in HL. specialize (HL eq_refl eq_refl).
    unfold w3. destruct (delete_instance h id row2 reason w2) as [resp w3']. rewrite Hn2, Hi2 in HL. by destruct HL. }
  assert (db_instances (tables w4) !! id = Some row4) as Hrow4 by (rewrite Hrows4; apply lookup_insert_eq).
  exists row4. split; [done|].
  pose proof (delete_terminal h id row4 reason w4 Hc4 Hsl Hrow4) as HT. rewrite Hst4 in HT. specialize (HT eq_refl).
  destruct (delete_instance h id row4 reason w4) as [resp w5]. destruct HT as (-> & _ & Hrows5 & _ & Hsl5).
  split; [done|]. split.
  - rewrite Hrows5, Hrows4, Hrows2, delete_insert_eq, delete_insert_id by done. done.
  - apply map_eq. intros k. rewrite Hsl5, Hsl4, Hsl2, (free_bound (tables w) _ req node inst res pci) by done.
    destruct (db_gpu_slots (tables w) !! k) as [x|] eqn:Hx; [|done]. simpl. rewrite decide_False; [done|].
    intros Hcur. destruct (so_inst _ _ _ (proj1 Hd k x Hx) id Hcur) as [_ [? ?]]. unfold id in *. congruence.
Qed.
(** A destroy for which libvirt returns an error leaves the domains as that
    error left them (still running, if libvirt refused to stop the domain) and
    is reported as FAILED, which main-api takes for the end of the instance:
    its slots are free for the next tenant. *)
Theorem failed_destroy_frees_slots node id row w cfg host e m :
  let name := uuid_String id in
  clean (w_pg w) -> db_instances (tables w) !! id = Some row -> in_State row = InstanceStateStopping ->
  DestroyDomain None name (DomainPassthroughPCI None name (ho_mgr host)).2 = (Err e, m) ->
  errors_Is e ErrDomainNotFound = false ->
  let host' := (handleDestroy cfg name host).2 in
  ho_mgr host' = m /\
  exists t, ho_trace host' = ho_trace host ++ t /\
    (exists row', db_instances (tables (told node t w)) = <[id := row']> (db_instances (tables w)) /\
       in_State row' = InstanceStateFailed) /\
    (forall k, db_gpu_slots (tables (told node t w)) !! k = free_if [id] <$> db_gpu_slots (tables w) !! k).
Proof.
  intros name Hc Hrow Hst Hdes He host'.
  destruct (handleDestroy_spec cfg name host) as (_ & _ & t & Ht & Ho). fold host' in Ht, Ho.
  destruct Ho as [pcis m1 d cl Hq Hq' Hf _|pcis m1 d e' Hq Hq' Hf _];
    unfold mgr_DomainPassthroughPCI, mgr_DestroyDomain, LibvirtManager in Hq, Hq'; rewrite Hq in Hdes;
    cbn [snd] in Hdes; rewrite Hq' in Hdes; injection Hdes as -> <-; simpl in Hf; rewrite He in Hf; [done|]. injection Hf as <-.
  split; [done|]. eexists. split; [exact Ht|].
  assert (omap sent_status (report cfg name INSTANCE_STATE_STOPPING "" :: read_warning pcis ++
    [report cfg name INSTANCE_STATE_FAILED (Error e); Released]) =
    [status name INSTANCE_STATE_STOPPING "" ""; status name INSTANCE_STATE_FAILED "" (Error e)]) as Hrep.
  { csimpl. rewrite omap_app. destruct pcis as [l|x]; [done|]. simpl. by destruct (errors_Is x ErrDomainNotFound). }
  pose proof (receive_reported protojson_Marshal netip_ParseAddr svc Hi Hs node id _ _ (w_pg w) row
    (two_reports id INSTANCE_STATE_STOPPING INSTANCE_STATE_FAILED _ _ (Error e) eq_refl eq_refl) Hc Hrow) as HR.
  unfold told, reports. cbn [w_pg]. rewrite Hrep. destruct (receive _ _ _) as [r pg']. cbn [snd].
  destruct HR as (_ & _ & [HR HS]). destruct (HR row Hrow) as (row' & Hrows & Hst' & _).
  split; [exists row'; by rewrite Hst', Hst|]. intros k. by rewrite HS.
Qed.
End journey.

(** ** Witnesses *)
Section witnesses.
#[local] Existing Instances C_collation DemoUUID.lib DemoUUID.laws.
#[local] Existing Instances DemoXML.lib DemoXML.laws DemoVirt.conn DemoVirt.conn_laws DemoSeed.yaml DemoSeed.iso.

(** A dispatcher that keeps what it was given. *)
#[local] Instance recorder : Dispatcher (list ControlMessage) := {
  dispatch_Send n m l := (Ok tt, l ++ [m]);
  dispatch_Connected _ _ := true
}.

Definition demo_service : AgentStreamService :=
  {| svc_Instances := true; svc_Slots := true; svc_Profiles := true; svc_ExpectedToken := "t";
     svc_DefaultZoneID := 1; svc_HeartbeatInterval := 0; svc_SendBuffer := 0 |}.

Definition recorded_world : World (list ControlMessage) := {| w_pg := demo []; w_agents := [] |}.

Definition demo_run := runCreate demo_unmarshal demo_handlers demo_req demo_node (Some 1%N) recorded_world.

Lemma demo_run_created : exists v, demo_run = (WriteJSON StatusCreated v, demo_run.2).
Proof. eexists. vm_compute. reflexivity. Qed.

Definition demo_msg : CreateInstanceMsg :=
  match demo_run.2 with {| w_agents := [CM_CreateInstance m] |} => m | _ => demo_create end.

Abbreviation demo_receive := (receiveLoop (fun _ => Ok "{}") (fun a => Ok a) demo_service).

Lemma create_agrees_witness : exists inst t row,
  ho_trace (handleCreate demo_cfg demo_msg demo_host).2 = ho_trace demo_host ++ t /\
  agreed demo_cfg demo_msg demo_host t recorded_world (db_gpu_slots (pg_db (w_pg demo_run.2))) inst row
    (demo_receive (nd_ID demo_node) (reports t) (w_pg demo_run.2)).2.
Proof.
  destruct demo_run_created as [v Hv].
  destruct (create_agrees demo_unmarshal (fun _ => Ok "{}") (fun a => Ok a) demo_service eq_refl eq_refl
    demo_handlers demo_req demo_node (Some 1%N) recorded_world v demo_run.2 eq_refl demo_slots_ok
    ltac:(vm_compute; discriminate) Hv) as (inst & msg & Ha & Hid & Hall).
  assert (demo_msg = msg) as <-.
  { unfold demo_msg. destruct demo_run.2 as [pg ag]. simpl in *. by subst. }
  destruct (Hall demo_cfg demo_host (lookup_empty _)) as (_ & t & row & Ht & HR).
  exists inst, t, row. split; [exact Ht|]. destruct (demo_receive _ _ _) as [r pg']. apply HR.
Defined.
Lemma demo_msg_of inst msg :
  w_agents demo_run.2 = (dispatch_Send (nd_ID demo_node) (CM_CreateInstance msg) (w_agents recorded_world)).2 ->
  ci_InstanceId msg = uuid_String (in_ID inst) -> msg = demo_msg /\ in_ID inst = 106%N.
Proof.
  intros Ha Hid. assert (demo_msg = msg) as <- by (unfold demo_msg; destruct demo_run.2; simpl in *; by subst).
  split; [done|]. pose proof (uuid_Parse_String (in_ID inst)) as Hp. rewrite <- Hid in Hp. vm_compute in Hp. by simplify_eq.
Qed.

Lemma instance_round_trip_witness : exists (t2 : list event) (w5 : World (list ControlMessage)),
  db_instances (pg_db (w_pg w5)) = db_instances demo_db /\ db_gpu_slots (pg_db (w_pg w5)) = db_gpu_slots demo_db /\
  (DeviceReset "0000:01:00.0" ∈ t2 \/ HasResetFile (ho_sysfs demo_host) "0000:01:00.0" = false \/
   exists e, WarnReset "0000:01:00.0" e ∈ t2).
Proof.
  destruct demo_run_created as [v Hv].
  destruct (instance_round_trip demo_unmarshal (fun _ => Ok "{}") (fun a => Ok a) demo_service eq_refl eq_refl
    demo_handlers demo_req demo_node (Some 1%N) recorded_world v demo_run.2 eq_refl demo_slots_ok
    ltac:(vm_compute; discriminate) eq_refl Hv) as (inst & msg & Hid & Ha & Hall).
  destruct (demo_msg_of inst msg Ha Hid) as [-> Hi].
  specialize (Hall demo_cfg demo_host ["0000:01:00.0"; "0000:01:00.1"] "user_delete"
    (ho_trace (handleCreate demo_cfg demo_msg demo_host).2)). rewrite Hi in Hall.
  destruct Hall as (t2 & _ & _ & Hreset & row2 & _ & _ & row4 & _ & Hdel).
  - apply lookup_empty.
  - reflexivity.
  - assert (nth 2 (ho_trace (handleCreate demo_cfg demo_msg demo_host).2) Released =
      Sent (status (uuid_String 106) INSTANCE_STATE_RUNNING "" "")) as <- by (vm_compute; reflexivity).
    apply list_elem_of_In, nth_In. vm_compute. lia.
  - vm_compute. reflexivity.
  - repeat split; vm_compute; reflexivity.
  - vm_compute. reflexivity.
  - vm_compute. reflexivity.
  - destruct (delete_instance demo_handlers 106 row4 "user_delete" _) as [resp w5] in Hdel.
    exists t2, w5. split; [apply Hdel|]. split; [apply Hdel|].
    destruct (HasResetFile (ho_sysfs demo_host) "0000:01:00.0") eqn:Hr; [|right; left; reflexivity].
    destruct (Hreset "0000:01:00.0") as [Hd|Hw]; [left|exact Hr|left; exact Hd|right; right; exact Hw].
Defined.
End witnesses.
