(* ===== verification/ProxyBoot.v ===== *)
(** * Starting ssh-proxy (cmd/ssh-proxy/main.go, internal/hostkey)

    The host key and the file it lives in, the mux endpoint, the choice of the
    channel handler, and how start-up ends early.  The command line is given
    parsed: the value of each flag that was set.  Listening and signals are
    I/O around it. *)

From S2P Require Import Prelude GoStrings Proto Db Http AgentAuth SSHTicket TicketEndpoint Wire MuxRegistry MuxServer SSHProxy.

#[local] Open Scope string_scope.
#[local] Open Scope list_scope.
#[local] Open Scope go_scope.

(** ** hostkey.go *)

(** crypto/ed25519, x/crypto/ssh and encoding/pem. *)
Class HostKeyLib := {
  Signer : Type;
  PrivateKey : Type;
  Block : Type;
  ed25519_GenerateKey : N -> result PrivateKey;
  ssh_MarshalPrivateKey : PrivateKey -> result Block;
  pem_EncodeToMemory : Block -> string;
  ssh_ParsePrivateKey : string -> result Signer;
  ssh_NewSignerFromKey : PrivateKey -> result Signer
}.

(** A marshalled key parses to the signer of the key. *)
Class HostKeyLaws `{HostKeyLib} : Prop := {
  parse_marshal k b s : ssh_MarshalPrivateKey k = Ok b -> ssh_NewSignerFromKey k = Ok s ->
    ssh_ParsePrivateKey (pem_EncodeToMemory b) = Ok s
}.

Definition os_ErrNotExist : error := Sentinel "file does not exist".

(** How a write of a file ends: done, or an error after the first [kept]
    bytes reached the file (none when it could not even be opened). *)
Inductive write_fate := Written | WriteFailed (e : error) (kept : option nat).

(** One use of the file: an error of reading a file that is there, the
    entropy, the fate of the write. *)
Record key_io := { ki_read : option error; ki_entropy : N; ki_write : write_fate }.

Section hostkey.
Context `{HostKeyLib}.

Definition parsePEM (raw : string) : result Signer :=
  match ssh_ParsePrivateKey raw with
  | Err e => Err (ErrWrap "parse host key: " e "")
  | Ok s => Ok s
  end.

Definition marshalPEM (priv : PrivateKey) : result string :=
  match ssh_MarshalPrivateKey priv with
  | Err e => Err (ErrWrap "marshal private key: " e "")
  | Ok blk => Ok (pem_EncodeToMemory blk)
  end.

(** [os.ReadFile]. *)
Definition read_key (io : key_io) (path : string) (files : gmap string string) : result string :=
  match ki_read io, files !! path with
  | Some e, _ => Err e
  | None, Some raw => Ok raw
  | None, None => Err (ErrWrap ("open " +:+ path +:+ ": ") os_ErrNotExist "")
  end.

(** [os.WriteFile]. *)
Definition write_key (io : key_io) (path raw : string) : ST (gmap string string) (option error) := fun files =>
  match ki_write io with
  | Written => (None, <[path := raw]> files)
  | WriteFailed e None => (Some e, files)
  | WriteFailed e (Some n) => (Some e, <[path := String.substring 0 n raw]> files)
  end.

Definition LoadOrGenerate (io : key_io) (path : string) : ST (gmap string string) (result Signer) := fun files =>
  match read_key io path files with
  | Ok raw => (parsePEM raw, files)
  | Err e =>
      if negb (errors_Is e os_ErrNotExist) then
        (Err (ErrWrap ("read host key " +:+ path +:+ ": ") e ""), files)
      else match ed25519_GenerateKey (ki_entropy io) with
      | Err e => (Err (ErrWrap "generate ed25519: " e ""), files)
      | Ok priv =>
      match marshalPEM priv with
      | Err e => (Err e, files)
      | Ok pemBytes =>
          match write_key io path pemBytes files with
          | (Some e, files) => (Err (ErrWrap ("write host key " +:+ path +:+ ": ") e ""), files)
          | (None, files) => (ssh_NewSignerFromKey priv, files)
          end
      end
      end
  end.
End hostkey.

(** ** main.go *)

Definition env (Getenv : string -> string) (key fallback : string) : string :=
  if String.eqb (Getenv key) "" then fallback else Getenv key.

(** The flags of the program: what the command line sets, by name. *)
Definition flag_String (Flag : string -> option string) (name value : string) : string := default value (Flag name).

Record muxConfig := {
  mc_listen : string;
  mc_certPath : string;
  mc_keyPath : string;
  mc_apiBaseURL : string;
  mc_internalTok : string
}.

Record proxy_flags := {
  pf_listen : string;
  pf_zone : string;
  pf_hostKeyPath : string;
  pf_internalTok : string;
  pf_mux : muxConfig;
  pf_metricsListen : string
}.

Definition read_flags (Getenv : string -> string) (Flag : string -> option string) : proxy_flags :=
  let value name key fallback := flag_String Flag name (env Getenv key fallback) in
  let api := value "api" "SSH_PROXY_API_ENDPOINT" "http://127.0.0.1:8080" in
  let internalTok := value "internal-token" "SSH_PROXY_INTERNAL_TOKEN" "" in
  {| pf_listen := value "listen" "SSH_PROXY_LISTEN" ":22";
     pf_zone := value "zone" "SSH_PROXY_ZONE" "hybrid-cloud.com";
     pf_hostKeyPath := value "host-key" "SSH_PROXY_HOST_KEY" "/var/lib/hybrid/ssh-proxy-hostkey";
     pf_internalTok := internalTok;
     pf_mux := {| mc_listen := value "mux-listen" "SSH_PROXY_MUX_LISTEN" "";
                  mc_certPath := value "mux-cert" "SSH_PROXY_MUX_CERT" "";
                  mc_keyPath := value "mux-key" "SSH_PROXY_MUX_KEY" "";
                  mc_apiBaseURL := api; mc_internalTok := internalTok |};
     pf_metricsListen := value "metrics-listen" "SSH_PROXY_METRICS_LISTEN" "" |}.

(** How the calls outside go: the certificate, the two listeners. *)
Record proxy_io := {
  pi_key : key_io;
  pi_LoadX509KeyPair : string -> string -> option error;
  pi_Listen : string -> option error
}.

(** The mux endpoint that is served. *)
Record mux_endpoint := { me_registry : Registry; me_verifier : HTTPVerifier; me_deps : Deps }.

Inductive startup (A : Type) := Exits (code : Z) | Runs (a : A).
Arguments Exits {A} code.
Arguments Runs {A} a.

(** None when the endpoint is disabled. *)
Definition startMuxIfConfigured (io : proxy_io) (cfg : muxConfig) : startup (option mux_endpoint) :=
  if String.eqb (mc_listen cfg) "" then Runs None
  else if String.eqb (mc_certPath cfg) "" || String.eqb (mc_keyPath cfg) "" then Exits 2
  else if String.eqb (mc_internalTok cfg) "" then Exits 2
  else if pi_LoadX509KeyPair io (mc_certPath cfg) (mc_keyPath cfg) is Some _ then Exits 2
  else if pi_Listen io (mc_listen cfg) is Some _ then Exits 1
  else Runs (Some {|
    me_registry := MuxRegistry.New;
    me_verifier := NewHTTPVerifier (mc_internalTok cfg) 0;
    me_deps := {| dp_TLSConfig := Some (1, false, VersionTLS13); dp_Verifier := true; dp_Registry := true;
                  dp_Log := true; dp_HandshakeTimeout := 0 |} |}).

Definition startMetricsIfConfigured (listen : string) : option string :=
  if String.eqb listen "" then None else Some listen.

(** What becomes of a channel whose target is accepted: it is refused with a
    reason, or a ticket is asked for with the token and the bytes relayed. *)
Inductive channel_handler := Denying (reason : string) | Tunnelling (token : string) (h : TunnelHandler).

Section channel.
Context {S : Type} `{MainAPI S, JSON sshTicketRequest, JSON Signed, StreamOpener S, PayloadJSON, JSON streamHeader}.

(** [Connect] of the handler [main] installs. *)
Definition handler_Connect (h : channel_handler) (now : Time) (write : option error) (info : ConnInfo) (prefix : string)
    : ST S relay_start :=
  match h with
  | Denying reason =>
      err <- DenyHandler reason info prefix ;;
      ret (match err with Some e => Closed e | None => Ended end)
  | Tunnelling token h =>
      let issuer : TicketIssuer S := client_Issue token in tunnel_Connect h now write info prefix
  end.
End channel.

Section main.
Context `{HostKeyLib}.

Record Proxy := {
  px_signer : Signer;
  px_server : ServerConfig;
  px_handler : channel_handler;
  px_mux : option mux_endpoint;
  px_metrics : option string
}.

(** [main], up to the call of [Serve]. *)
Definition main (Getenv : string -> string) (Flag : string -> option string) (io : proxy_io)
    : ST (gmap string string) (startup Proxy) :=
  let fl := read_flags Getenv Flag in
  k <- LoadOrGenerate (pi_key io) (pf_hostKeyPath fl) ;;
  ret match k with
  | Err _ => Exits 2
  | Ok signer =>
  match startMuxIfConfigured io (pf_mux fl) with
  | Exits code => Exits code
  | Runs mux =>
  if negb (String.eqb (pf_internalTok fl) "") && (if mux is None then true else false) then Exits 2
  else
  match NewServer {| sc_Zone := pf_zone fl; sc_HostKeys := 1; sc_HandshakeTimeout := 0; sc_MaxConcurrentConns := 0;
                     sc_IdleTimeout := 0 |} with
  | Err _ => Exits 2
  | Ok srv =>
  if pi_Listen io (pf_listen fl) is Some _ then Exits 1
  else Runs {|
    px_signer := signer; px_server := srv;
    px_handler := if String.eqb (pf_internalTok fl) "" then Denying "internal token not configured"
                  else Tunnelling (pf_internalTok fl)
                         {| th_Tickets := true; th_AfterTicket := Some {| ry_Opener := true |} |};
    px_mux := mux; px_metrics := startMetricsIfConfigured (pf_metricsListen fl) |}
  end end end.
End main.

(** ** What a proxy that started guarantees *)
Section boot.
Context `{HostKeyLaws}.

(** A file that is there is not reported missing. *)
Definition honest_read (io : key_io) : Prop :=
  forall e, ki_read io = Some e -> errors_Is e os_ErrNotExist = false.

(** A signer comes from what the file then holds, and no file changed: it
    was there and is as it was, or was not. *)
Lemma LoadOrGenerate_Ok io path files s files' :
  honest_read io -> LoadOrGenerate io path files = (Ok s, files') ->
  (forall p raw, files !! p = Some raw -> files' !! p = Some raw) /\
  exists raw, files' !! path = Some raw /\ ssh_ParsePrivateKey raw = Ok s.
Proof.
  intros Hio. unfold LoadOrGenerate, read_key, parsePEM.
  destruct (ki_read io) as [e|] eqn:Hr; [rewrite (Hio e Hr); done|].
  destruct (files !! path) as [raw|] eqn:Hf; simpl.
  - destruct (ssh_ParsePrivateKey raw) as [s1|] eqn:Hp; [|done]. intros [= <- <-]. eauto.
  - destruct (ed25519_GenerateKey (ki_entropy io)) as [k|] eqn:Hg; [|done].
    unfold marshalPEM. destruct (ssh_MarshalPrivateKey k) as [b|] eqn:Hm; [|done].
    unfold write_key. destruct (ki_write io) as [|e [n|]]; try done.
    intros [= Hs <-]. split.
    + intros p raw Hp. rewrite lookup_insert_ne; [done|congruence].
    + eexists. split; [apply lookup_insert_eq|]. by apply (parse_marshal k).
Qed.

Lemma startMux_runs io cfg m :
  startMuxIfConfigured io cfg = Runs (Some m) ->
  mc_listen cfg <> "" /\ mc_internalTok cfg <> "" /\ me_registry m = MuxRegistry.New /\
  me_verifier m = NewHTTPVerifier (mc_internalTok cfg) 0 /\ serve_params (me_deps m) = Ok (VersionTLS13, (30 * second)%Z).
Proof.
  unfold startMuxIfConfigured. repeat case_match; intros [= <-]; rewrite ?String.eqb_neq in *. done.
Qed.

Lemma startMux_off io cfg :
  startMuxIfConfigured io cfg = Runs None -> mc_listen cfg = "".
Proof. unfold startMuxIfConfigured. destruct (String.eqb_spec (mc_listen cfg) ""); [done|]. repeat case_match; done. Qed.

(** A verifier without a cache asks main-api for every agent. *)
Lemma verify_uncached tok {S} `{MainAPI S, JSON AgentAuth.request, JSON wireResponse} n1 n2 req (s : S) :
  Verify n1 n2 req (s, NewHTTPVerifier tok 0) =
  let '(r, s') := ask (NewHTTPVerifier tok 0) req s in (r, (s', NewHTTPVerifier tok 0)).
Proof. unfold Verify, vprobe, vstore. simpl. by destruct (ask _ req s) as [[r|e] s']. Qed.

Lemma server_defaults zone srv :
  NewServer {| sc_Zone := zone; sc_HostKeys := 1; sc_HandshakeTimeout := 0; sc_MaxConcurrentConns := 0;
               sc_IdleTimeout := 0 |} = Ok srv ->
  srv = {| sc_Zone := zone; sc_HostKeys := 1; sc_HandshakeTimeout := (15 * second)%Z;
           sc_MaxConcurrentConns := 1024; sc_IdleTimeout := (60 * second)%Z |} /\ zone <> "".
Proof. unfold NewServer. simpl. destruct (String.eqb_spec zone ""); [done|]. by intros [= <-]. Qed.

(** What [main] does when it gets to serving. *)
Lemma main_runs Getenv Flag io files p files' :
  main Getenv Flag io files = (Runs p, files') ->
  let fl := read_flags Getenv Flag in
  LoadOrGenerate (pi_key io) (pf_hostKeyPath fl) files = (Ok (px_signer p), files') /\
  startMuxIfConfigured io (pf_mux fl) = Runs (px_mux p) /\
  negb (String.eqb (pf_internalTok fl) "") && (if px_mux p is None then true else false) = false /\
  NewServer {| sc_Zone := pf_zone fl; sc_HostKeys := 1; sc_HandshakeTimeout := 0; sc_MaxConcurrentConns := 0;
               sc_IdleTimeout := 0 |} = Ok (px_server p) /\
  px_handler p = if String.eqb (pf_internalTok fl) "" then Denying "internal token not configured"
                 else Tunnelling (pf_internalTok fl)
                        {| th_Tickets := true; th_AfterTicket := Some {| ry_Opener := true |} |}.
Proof.
  intros Hm fl. unfold main, bind, ret in Hm. fold fl in Hm.
  destruct (LoadOrGenerate _ _ _) as [[s|e] fs] eqn:Hk; [|done].
  destruct (startMuxIfConfigured _ _) as [|mux] eqn:Hmux; [done|].
  destruct (negb _ && _) eqn:Hreq; [done|]. destruct (NewServer _) as [srv|] eqn:Hsrv; [|done].
  destruct (pi_Listen io _); [done|]. injection Hm as <- <-. simpl. auto.
Qed.

Definition mux_ready (tok : string) (m : mux_endpoint) : Prop :=
  me_registry m = MuxRegistry.New /\ serve_params (me_deps m) = Ok (VersionTLS13, (30 * second)%Z) /\
  forall (S : Type) (api : MainAPI S) (j1 : JSON AgentAuth.request) (j2 : JSON wireResponse) n1 n2 req (s : S),
    Verify n1 n2 req (s, me_verifier m) =
    let '(r, s') := ask (NewHTTPVerifier tok 0) req s in (r, (s', me_verifier m)).

(** C21: what holds of an ssh-proxy that started.  No file that was there was
    changed, and every later start that can read the key file presents the
    same host key.  If no internal token is set every channel is refused with
    that reason; otherwise channels ask for tickets with the token and there
    is a mux registry to relay onto.  A mux endpoint that runs requires TLS
    1.3 and thirty seconds for the handshake, starts with no session, has the
    token, and asks main-api about every agent that connects (no verdict is
    remembered).  The zone is not empty and the limits of the server are the
    defaults. *)
Theorem proxy_boot Getenv Flag io files p files' :
  honest_read (pi_key io) ->
  main Getenv Flag io files = (Runs p, files') ->
  let fl := read_flags Getenv Flag in
  (forall path raw, files !! path = Some raw -> files' !! path = Some raw) /\
  (forall io', ki_read io' = None -> LoadOrGenerate io' (pf_hostKeyPath fl) files' = (Ok (px_signer p), files')) /\
  match px_handler p with
  | Denying reason => pf_internalTok fl = "" /\ px_mux p = None /\
      forall (S : Type) (api : MainAPI S) (j1 : JSON sshTicketRequest) (j2 : JSON Signed) (so : StreamOpener S)
        (pj : PayloadJSON) (j3 : JSON streamHeader) now write info prefix (s : S),
        handler_Connect (px_handler p) now write info prefix s =
        (Closed (ErrNew "proxy: internal token not configured"), s)
  | Tunnelling token h => token = pf_internalTok fl /\ token <> "" /\
      h = {| th_Tickets := true; th_AfterTicket := Some {| ry_Opener := true |} |} /\ is_Some (px_mux p)
  end /\
  (forall m, px_mux p = Some m -> mux_ready (pf_internalTok fl) m) /\
  px_server p = {| sc_Zone := pf_zone fl; sc_HostKeys := 1; sc_HandshakeTimeout := (15 * second)%Z;
                   sc_MaxConcurrentConns := 1024; sc_IdleTimeout := (60 * second)%Z |} /\ pf_zone fl <> "".
Proof.
  intros Hio Hm fl. apply main_runs in Hm as (Hk & Hmux & Hreq & Hsrv & Hhd).
  destruct (LoadOrGenerate_Ok _ _ _ _ _ Hio Hk) as (Hkeep & raw & Hraw & Hparse).
  split; [done|]. split.
  { intros io' Hr. unfold LoadOrGenerate, read_key, parsePEM. rewrite Hr. fold fl in Hraw. by rewrite Hraw, Hparse. }
  split; [|split].
  - rewrite Hhd. fold fl. destruct (String.eqb_spec (pf_internalTok fl) "") as [Htok|Htok].
    + split; [done|]. split; [|done]. destruct (px_mux p) as [m|]; [|done].
      destruct (startMux_runs _ _ _ Hmux) as (_ & Hne & _). by destruct (Hne Htok).
    + fold fl in Hreq. rewrite (proj2 (String.eqb_neq _ _) Htok) in Hreq.
      destruct (px_mux p); [|done]. split_and!; [done|done|done|eauto].
  - intros m Hpm. rewrite Hpm in Hmux. destruct (startMux_runs _ _ _ Hmux) as (_ & _ & Hreg & Hv & Hp).
    split; [done|]. split; [done|]. intros. rewrite Hv. apply verify_uncached.
  - fold fl in Hsrv. by apply server_defaults in Hsrv as [-> Hz].
Qed.

End boot.

(** ** A host key written in part *)

(** A key library for the examples: a key is a number, its block and its
    text are the digits, and the text of a key ends in [END]. *)
Module Demo.

#[export] Instance key_lib : HostKeyLib := {
  Signer := string;
  PrivateKey := N;
  Block := string;
  ed25519_GenerateKey n := Ok n;
  ssh_MarshalPrivateKey n := Ok (Itoa (Z.of_N n));
  pem_EncodeToMemory b := b +:+ "END";
  ssh_ParsePrivateKey raw :=
    if HasSuffix raw "END" then Ok (TrimSuffix raw "END") else Err (ErrNew "ssh: no key found");
  ssh_NewSignerFromKey n := Ok (Itoa (Z.of_N n))
}.

#[export] Instance key_laws : HostKeyLaws.
Proof.
  constructor. intros k b s [= <-] [= <-]. simpl.
  rewrite (proj2 (HasSuffix_spec _ _)) by eauto. by rewrite TrimSuffix_app.
Qed.

Definition fine : key_io := {| ki_read := None; ki_entropy := 7; ki_write := Written |}.
Definition good : proxy_io := {| pi_key := fine; pi_LoadX509KeyPair _ _ := None; pi_Listen _ := None |}.

Definition environ (key : string) : string :=
  default "" ((list_to_map [("SSH_PROXY_INTERNAL_TOKEN", "t0k"); ("SSH_PROXY_MUX_LISTEN", ":2233");
    ("SSH_PROXY_MUX_CERT", "c.pem")] : gmap string string) !! key).
Definition flags (name : string) : option string := if String.eqb name "mux-key" then Some "k.pem" else None.
End Demo.

Lemma proxy_boot_witness :
  exists (p : @Proxy Demo.key_lib) (files' : gmap string string), honest_read (pi_key Demo.good) /\
    main Demo.environ Demo.flags Demo.good ∅ = (Runs p, files') /\
    files' !! "/var/lib/hybrid/ssh-proxy-hostkey" = Some "7END" /\
    px_handler p = Tunnelling "t0k" {| th_Tickets := true; th_AfterTicket := Some {| ry_Opener := true |} |} /\
    is_Some (px_mux p) /\ (forall m, px_mux p = Some m -> mux_ready "t0k" m).
Proof.
  pose proof (fun p f Hr => proxy_boot (H0 := Demo.key_laws) Demo.environ Demo.flags Demo.good ∅ p f Hr) as Hb.
  eexists _, _. split; [by intros e [=]|]. split; [reflexivity|]. split; [reflexivity|].
  split; [reflexivity|]. split; [by eexists|].
  edestruct Hb as (_ & _ & _ & Hm & _); [by intros e [=]|reflexivity|]. exact Hm.
Defined.

(** [os.WriteFile] is not atomic.  A start whose write stops half way fails,
    and leaves a file no later start accepts: none of them writes again. *)
Theorem torn_host_key_blocks `{HostKeyLaws} io path files e n k raw :
  ki_read io = None -> files !! path = None -> ki_write io = WriteFailed e (Some n) ->
  ed25519_GenerateKey (ki_entropy io) = Ok k -> marshalPEM k = Ok raw ->
  let files' := (LoadOrGenerate io path files).2 in
  files' !! path = Some (String.substring 0 n raw) /\
  forall why io', ssh_ParsePrivateKey (String.substring 0 n raw) = Err why ->
    ki_read io' = None ->
    LoadOrGenerate io' path files' = (Err (ErrWrap "parse host key: " why ""), files').
Proof.
  intros Hr Hf Hw Hg Hm files'.
  assert (files' = <[path := String.substring 0 n raw]> files) as ->.
  { unfold files', LoadOrGenerate, read_key. rewrite Hr, Hf. simpl. rewrite Hg, Hm. unfold write_key. by rewrite Hw. }
  rewrite lookup_insert_eq. split; [done|]. intros why io' Hp Hr'.
  unfold LoadOrGenerate, read_key, parsePEM. by rewrite Hr', lookup_insert_eq, Hp.
Qed.

Lemma torn_host_key_blocks_witness :
  let io := {| ki_read := None; ki_entropy := 7; ki_write := WriteFailed (ErrNew "no space left on device") (Some 2) |} in
  let files' := (LoadOrGenerate (H := Demo.key_lib) io "hostkey" ∅).2 in
  files' !! "hostkey" = Some "7E" /\
  LoadOrGenerate (H := Demo.key_lib) Demo.fine "hostkey" files' = (Err (ErrWrap "parse host key: " (ErrNew "ssh: no key found") ""), files').
Proof.
  intros io files'.
  destruct (torn_host_key_blocks (H0 := Demo.key_laws) io "hostkey" ∅ (ErrNew "no space left on device") 2 7%N "7END") as [Hf Hn];
    try reflexivity.
  split; [exact Hf|]. by apply (Hn (ErrNew "ssh: no key found") Demo.fine).
Defined.
