(* ===== verification/AgentBoot.v ===== *)
(** * Starting and running compute-agent (cmd/compute-agent/main.go)

    The settings, the profile that is checked against the host before anything
    else starts, which parts are wired, the one mux client that the first
    registration starts, and the exit code.  The command line is given
    parsed: the value of each flag that was set.  Signals, the logger and the
    wait for running operations at the end (VMOps) are around it. *)

From S2P Require Import Prelude GoStrings GoCrypto Proto Config DomainXML LibvirtManager IOMMU Topology GPUProfile VMOps VMHandler Wire StreamClient MuxServer MuxClient ProxyBoot.
From Stdlib Require Import Ascii.

#[local] Open Scope string_scope.
#[local] Open Scope list_scope.
#[local] Open Scope go_scope.

(** ** Settings *)

(** [SkipSpace] of fmt for [Sscanf]: a newline is an error. *)
Fixpoint skip_space (s : string) : option string :=
  match s with
  | EmptyString => Some ""
  | String c s' => if Ascii.eqb c "010" then None else if is_space c then skip_space s' else Some s
  end.

(** [fmt.Sscanf(s, "%d", &n)] for an [int]: spaces, a sign and digits; what
    follows is left unread. *)
Definition Sscanf_int (s : string) : option Z :=
  match skip_space s with
  | None => None
  | Some s =>
      let '(neg, digits) := Config.sign s in
      match scan_digits None digits with
      | None => None
      | Some z =>
          let n := if neg then (- z)%Z else z in
          if (- 2 ^ 63 <=? n)%Z && (n <? 2 ^ 63)%Z then Some n else None
      end
  end.

(** The flags that were set on the command line. *)
Record CommandLine := {
  cl_String : string -> option string;
  cl_Bool : string -> option bool;
  cl_Int : string -> option Z
}.

Record agent_flags := {
  af_endpoint : string;
  af_nodeName : string;
  af_token : string;
  af_agentVersion : string;
  af_fakeTopology : bool;
  af_disableVMs : bool;
  af_imageDir : string;
  af_seedDir : string;
  af_baseImage : string;
  af_netName : string;
  af_diskGB : Z;
  af_profilePath : string;
  af_muxEndpoint : string;
  af_muxServerName : string;
  af_muxInsecure : bool
}.

Section settings.
Variable Getenv : string -> string.

Definition env (key fallback : string) : string :=
  if String.eqb (Getenv key) "" then fallback else Getenv key.

Definition envInt (key : string) (fallback : Z) : Z :=
  if String.eqb (Getenv key) "" then fallback else default fallback (Sscanf_int (Getenv key)).

Definition read_flags (c : CommandLine) : agent_flags :=
  let text name key fallback := default (env key fallback) (cl_String c name) in
  let on name key := default (String.eqb (env key "") "1") (cl_Bool c name) in
  {| af_endpoint := text "endpoint" "AGENT_API_ENDPOINT" "localhost:8081";
     af_nodeName := text "node-name" "AGENT_NODE_NAME" "";
     af_token := text "agent-token" "AGENT_API_TOKEN" "";
     af_agentVersion := default "0.1.0" (cl_String c "agent-version");
     af_fakeTopology := on "fake-topology" "AGENT_FAKE_TOPOLOGY";
     af_disableVMs := on "disable-vms" "AGENT_DISABLE_VMS";
     af_imageDir := text "image-dir" "AGENT_IMAGE_DIR" "/var/lib/hybrid/images";
     af_seedDir := text "seed-dir" "AGENT_SEED_DIR" "/var/lib/hybrid/seeds";
     af_baseImage := text "base-image" "AGENT_BASE_IMAGE" "";
     af_netName := text "network" "AGENT_LIBVIRT_NETWORK" "default";
     af_diskGB := default (envInt "AGENT_DISK_GB" 50) (cl_Int c "disk-gb");
     af_profilePath := text "profile" "AGENT_PROFILE" "";
     af_muxEndpoint := text "mux-endpoint" "AGENT_MUX_ENDPOINT" "";
     af_muxServerName := text "mux-server-name" "AGENT_MUX_SERVER_NAME" "";
     af_muxInsecure := on "mux-insecure" "AGENT_MUX_INSECURE" |}.
End settings.

(** ** Start-up *)

(** gopkg.in/yaml: the text of a profile. *)
Class ProfileYAML := yaml_Unmarshal : list N -> result File.

Inductive Collector := EmptyCollector | LinuxCollector (p : option Profile).

Definition collector_Collect `{XMLLib} (c : Collector) (smi : option string) (s : Sysfs) : result Topology :=
  match c with
  | EmptyCollector => Static_Collect Empty
  | LinuxCollector p => Ok (Collect p smi s)
  end.

(** The machine: the host name (empty when it cannot be read), its files,
    whether libvirt answers, nvidia-smi and sysfs at start-up. *)
Record agent_io := {
  ai_Hostname : string;
  ai_ReadFile : string -> result (list N);
  ai_libvirt : option error;
  ai_smi : option string;
  ai_sysfs : Sysfs
}.

(** What runs: [ag_vm] is none when VM handling is disabled, [ag_mux] when
    the data plane is. *)
Record Agent := {
  ag_stream : StreamClient.Config;
  ag_collector : Collector;
  ag_vm : option VMHandler.Config;
  ag_mux : option (string (* node_id *) -> MuxClient.Config)
}.

(** [startMuxclient]'s configuration; the other settings get defaults. *)
Definition mux_config (fl : agent_flags) (nodeID : string) : MuxClient.Config :=
  {| MuxClient.cf_Endpoint := af_muxEndpoint fl; MuxClient.cf_ServerName := af_muxServerName fl; MuxClient.cf_NodeID := nodeID;
     MuxClient.cf_AgentToken := af_token fl; MuxClient.cf_AgentVersion := af_agentVersion fl;
     MuxClient.cf_InitialBackoff := 0; MuxClient.cf_MaxBackoff := 0; MuxClient.cf_HandshakeTimeout := 0; MuxClient.cf_OnAttach := true |}.

Section main.
Context `{XMLLib, ProfileYAML}.

(** [profile.Load]. *)
Definition Load (io : agent_io) (path : string) : result (File * list N) :=
  match ai_ReadFile io path with
  | Err e => Err (ErrWrap ("read " +:+ path +:+ ": ") e "")
  | Ok raw =>
      match yaml_Unmarshal raw with
      | Err e => Err (ErrWrap ("parse " +:+ path +:+ ": ") e "")
      | Ok f => Ok (f, raw)
      end
  end.

(** The block of [main] over [profilePath]. *)
Definition resolve_profile (io : agent_io) (fl : agent_flags) : startup (option Profile) :=
  if String.eqb (af_profilePath fl) "" then Runs None
  else match Load io (af_profilePath fl) with
       | Err _ => Exits 2
       | Ok (file, raw) =>
           match Resolve file raw (detectGPUIndices (af_fakeTopology fl) (ai_smi io) (ai_sysfs io)) with
           | Err _ => Exits 2
           | Ok res => Runs (Some (Resolved_Proto res))
           end
       end.

(** [main], up to the call of [Run]. *)
Definition main (Getenv : string -> string) (c : CommandLine) (io : agent_io) : startup Agent :=
  let fl := read_flags Getenv c in
  let nodeName := if String.eqb (af_nodeName fl) "" then ai_Hostname io else af_nodeName fl in
  if String.eqb (af_token fl) "" then Exits 2 else
  match resolve_profile io fl with
  | Exits code => Exits code
  | Runs profile =>
  if negb (af_disableVMs fl) && (if ai_libvirt io is Some _ then true else false) then Exits 1 else
  match StreamClient.New {|
    StreamClient.cf_Endpoint := af_endpoint fl; StreamClient.cf_NodeName := nodeName; StreamClient.cf_Hostname := ai_Hostname io;
    StreamClient.cf_AgentVersion := af_agentVersion fl; StreamClient.cf_AgentToken := af_token fl; StreamClient.cf_Topology := true;
    StreamClient.cf_InitialBackoff := 0; StreamClient.cf_MaxBackoff := 0 |} with
  | Err _ => Exits 2
  | Ok cfg => Runs {|
      ag_stream := cfg;
      ag_collector := if af_fakeTopology fl then EmptyCollector else LinuxCollector profile;
      ag_vm := if af_disableVMs fl then None
               else Some {| VMHandler.cf_ImageDir := af_imageDir fl; VMHandler.cf_SeedDir := af_seedDir fl; VMHandler.cf_BaseImage := af_baseImage fl;
                            VMHandler.cf_NetworkName := af_netName fl; VMHandler.cf_DiskSizeGB := af_diskGB fl |};
      ag_mux := if String.eqb (af_muxEndpoint fl) "" then None else Some (mux_config fl) |}
  end end.
End main.

(** ** Running *)

(** [OnControl] of the VM handler: a goroutine for each create and destroy;
    nothing is installed when VM handling is disabled. *)
Definition OnControl (a : Agent) (m : ControlMessage) (c : Ops) : Ops :=
  if ag_vm a is None then c
  else match m with
       | CM_CreateInstance m => arrive (ci_InstanceId m) opCreate c
       | CM_DestroyInstance id => arrive id opDestroy c
       | CM_Ping | CM_RegisterAck _ _ | CM_None => c
       end.

(** [OnRegistered] behind the [sync.Once]: the mux client that runs. *)
Definition OnRegistered (a : Agent) (nodeID : string) (running : option MuxClient.Config) : option MuxClient.Config :=
  match ag_mux a, running with
  | Some cfg, None => Some (cfg nodeID)
  | _, _ => running
  end.

(** The sessions [Run] went through. *)
Fixpoint sessions_of (cfg : StreamClient.Config) (turns : list StreamClient.turn) : list session :=
  match turns with
  | [] => []
  | t :: rest =>
      if tn_ctx t is Some _ then []
      else tn_session t ::
        let err := (runOnce cfg (tn_session t)).2 in
        if (if err is Some e then errors_Is e ctxCanceled else false) || (if tn_after t is Some _ then true else false)
           || (if tn_wait t is Some _ then true else false)
        then [] else sessions_of cfg rest
  end.

Definition registered (cfg : StreamClient.Config) (s : session) : list string :=
  flat_map (fun e => match e with Registered id _ => [id] | SentRegister _ => [] end) (runOnce cfg s).1.

(** The node ids handed to [OnRegistered], in order. *)
Definition registrations (a : Agent) (turns : list StreamClient.turn) : list string :=
  flat_map (registered (ag_stream a)) (sessions_of (ag_stream a) turns).

Definition mux_client (a : Agent) (turns : list StreamClient.turn) : option MuxClient.Config :=
  fold_left (fun running id => OnRegistered a id running) (registrations a turns) None.

(** The exit code once [Run] has returned. *)
Definition exit_code (runErr : Ctx) : Z :=
  if runErr is Some e then if bool_decide (e = ctxCanceled) then 0 else 1 else 0.

Definition agent_run (a : Agent) (turns : list StreamClient.turn) : option Z :=
  exit_code <$> (StreamClient.Run (ag_stream a) turns).2.

(** ** What an agent that started guarantees *)

Section boot.
Context `{XMLLib, ProfileYAML}.

Lemma sscanf_range s n : Sscanf_int s = Some n -> (- 2 ^ 63 <= n < 2 ^ 63)%Z.
Proof.
  unfold Sscanf_int. destruct (skip_space s) as [s'|]; [|done]. destruct (Config.sign s') as [neg digits].
  destruct (scan_digits None digits); [|done]. case_match eqn:E; [|done]. intros [= <-].
  apply andb_true_iff in E. lia.
Qed.

(** A profile that is used is the active layout of the file, valid for the
    GPUs of the host; with the fake topology only one without slots is. *)
Lemma resolve_profile_runs io fl p :
  resolve_profile io fl = Runs (Some p) ->
  exists file raw active,
    Load io (af_profilePath fl) = Ok (file, raw) /\
    List.find (fun l => String.eqb (ly_Name l) (fl_Active file)) (fl_Layouts file) = Some active /\
    layout_ok (list_to_set (detectGPUIndices (af_fakeTopology fl) (ai_smi io) (ai_sysfs io))) (ly_Slots active) /\
    p = {| pf_Name := fl_Active file; pf_Hash := hex_EncodeToString (Sum256 raw);
           pf_Slots := imap slot_spec (ly_Slots active) |}.
Proof.
  unfold resolve_profile. destruct (String.eqb _ ""); [done|].
  destruct (Load _ _) as [[file raw]|] eqn:HL; [|done].
  destruct (Resolve _ _ _) as [res|] eqn:HR; [|done]. intros [= <-].
  apply Resolve_spec in HR as (active & Hf & Hok & ->). by exists file, raw, active.
Qed.

Lemma resolve_profile_configured io fl p :
  resolve_profile io fl = Runs p -> p = None <-> af_profilePath fl = "".
Proof.
  unfold resolve_profile. destruct (String.eqb_spec (af_profilePath fl) "") as [He|He]; [by intros [= <-]|].
  destruct (Load _ _) as [[file raw]|]; [|done]. destruct (Resolve _ _ _); [|done]. by intros [= <-].
Qed.

Lemma layout_ok_no_gpus l : layout_ok ∅ l -> l = [].
Proof.
  intros [Hs Hk _ _]. destruct l as [|s l]; [done|]. exfalso.
  destruct (Hs s) as [Hp Hn]; [by left|]. destruct (sy_GpuIndices s) as [|g gs] eqn:Hg; simpl in Hn; [lia|].
  apply (not_elem_of_empty (C := gset Z) g), Hk. simpl. rewrite Hg. by left.
Qed.

(** A configuration [New] accepted is complete. *)
Lemma New_Ok cfg cfg' :
  StreamClient.New cfg = Ok cfg' ->
  StreamClient.cf_AgentToken cfg' = StreamClient.cf_AgentToken cfg /\
  StreamClient.cf_AgentVersion cfg' = StreamClient.cf_AgentVersion cfg /\
  StreamClient.New cfg' = Ok cfg'.
Proof.
  unfold StreamClient.New.
  destruct (String.eqb (StreamClient.cf_Endpoint cfg) "") eqn:H1; [done|].
  destruct (String.eqb (cf_NodeName cfg) "") eqn:H2; [done|].
  destruct (String.eqb (StreamClient.cf_AgentToken cfg) "") eqn:H3; [done|].
  intros [= <-]. simpl. rewrite H1, H2, H3. split; [done|]. split; [done|].
  do 2 f_equal; destruct (Z.leb_spec (StreamClient.cf_InitialBackoff cfg) 0), (Z.leb_spec (StreamClient.cf_MaxBackoff cfg) 0);
    f_equal; case_match; lia.
Qed.

Lemma agent_runs Getenv c io a :
  main Getenv c io = Runs a ->
  let fl := read_flags Getenv c in
  af_token fl <> "" /\
  (exists p, resolve_profile io fl = Runs p /\
     ag_collector a = if af_fakeTopology fl then EmptyCollector else LinuxCollector p) /\
  (ag_vm a = None <-> af_disableVMs fl = true) /\
  ag_mux a = (if String.eqb (af_muxEndpoint fl) "" then None else Some (mux_config fl)) /\
  StreamClient.cf_AgentToken (ag_stream a) = af_token fl /\
  StreamClient.cf_AgentVersion (ag_stream a) = af_agentVersion fl /\
  StreamClient.New (ag_stream a) = Ok (ag_stream a).
Proof.
  intros Hm fl. unfold main in Hm. fold fl in Hm. clearbody fl.
  destruct (String.eqb_spec (af_token fl) "") as [|Ht]; [done|].
  destruct (resolve_profile io fl) as [|p]; [done|]. destruct (negb _ && _); [done|].
  destruct (StreamClient.New _) as [cfg|] eqn:Hn; [|done]. injection Hm as <-. cbn [ag_collector ag_vm ag_mux ag_stream].
  split; [done|]. split; [eauto|]. split; [by destruct (af_disableVMs fl)|]. split; [done|].
  by apply New_Ok in Hn as (-> & -> & ?).
Qed.
(** The [sync.Once] keeps the first. *)
Lemma mux_client_first a turns :
  mux_client a turns = match ag_mux a with Some cfg => cfg <$> head (registrations a turns) | None => None end.
Proof.
  unfold mux_client. generalize (registrations a turns) as ids.
  assert (forall ids r, (ag_mux a = None \/ r <> None) -> fold_left (fun r id => OnRegistered a id r) ids r = r) as Hkeep.
  { induction ids as [|id ids IH]; intros r Hr; [done|]. simpl.
    assert (OnRegistered a id r = r) as ->; [|by apply IH].
    unfold OnRegistered. destruct (ag_mux a), r, Hr; congruence. }
  intros ids. destruct (ag_mux a) as [cfg|] eqn:Hm; [|by apply Hkeep; left].
  destruct ids as [|id ids]; [done|]. simpl. assert (OnRegistered a id None = Some (cfg id)) as ->.
  { unfold OnRegistered. by rewrite Hm. }
  apply Hkeep. by right.
Qed.

(** The only end of the context is the signal. *)
Definition by_signal (t : StreamClient.turn) : Prop :=
  forall e, tn_ctx t = Some e \/ tn_after t = Some e \/ tn_wait t = Some e -> e = ctxCanceled.

Lemma run_ends_by_signal cfg turns : forall backoff r,
  (forall t, t ∈ turns -> by_signal t) -> (StreamClient.run cfg backoff turns).2 = Some r -> exit_code r = 0%Z.
Proof.
  induction turns as [|t turns IH]; intros backoff r Ht; simpl; [done|].
  assert (by_signal t) as Hs by (apply Ht; left).
  assert (forall e, e = ctxCanceled -> exit_code (Some e) = 0%Z) as Hz by (by intros _ ->).
  destruct (tn_ctx t) as [e|] eqn:E1; [intros [= <-]; apply Hz, Hs; auto|].
  destruct (_ || _) eqn:E2.
  { intros [= <-]. destruct (tn_after t) eqn:E3; [apply Hz, Hs; auto|done]. }
  destruct (tn_wait t) as [e|] eqn:E3; [intros [= <-]; apply Hz, Hs; auto|].
  destruct (StreamClient.run _ _ turns) as [ds r'] eqn:E4. intros [= ->].
  apply (IH (nextBackoff backoff (StreamClient.cf_MaxBackoff cfg))); [|by rewrite E4].
  intros t' Hin. apply Ht. by right.
Qed.

Lemma register_token cfg s m :
  SentRegister m ∈ (runOnce cfg s).1 -> rg_AgentToken m = StreamClient.cf_AgentToken cfg.
Proof.
  unfold runOnce. repeat case_match; simpl; rewrite ?elem_of_cons; intros Hin;
    decompose [or] Hin; simplify_eq; try done; by apply not_elem_of_nil in Hin || set_solver.
Qed.

(** C22: What holds of a compute-agent that started.  It has a token, and
    every session on the control stream registers with it.  A configured
    profile has resolved: it is the active layout of the file, with the file's
    hash, and is valid for the GPUs the host had at start-up.  With the fake
    topology every collection reports the empty topology, without GPUs and
    without a profile even when one is configured (it can then only be one
    without slots); without it, every collection reports the GPUs the host has
    at that moment, and a profile, the configured one, exactly when one is
    configured.  With VM handling disabled control messages
    have no effect.  However often the stream reconnects, at most one mux
    client runs, for the node id of the first registration, and presents the
    same token; its configuration is accepted unless that id is empty.  When
    the only end of the context is the signal, the process ends with code 0. *)
Theorem agent_boot Getenv c io a turns :
  main Getenv c io = Runs a ->
  let fl := read_flags Getenv c in
  (af_token fl <> "" /\
   forall s m, SentRegister m ∈ (runOnce (ag_stream a) s).1 -> rg_AgentToken m = af_token fl) /\
  (exists profile,
     (profile = None <-> af_profilePath fl = "") /\
     (forall p, profile = Some p -> exists file raw active,
        Load io (af_profilePath fl) = Ok (file, raw) /\
        List.find (fun l => String.eqb (ly_Name l) (fl_Active file)) (fl_Layouts file) = Some active /\
        layout_ok (if af_fakeTopology fl then ∅
                   else list_to_set (map gpu_Index (top_Gpus (Collect None (ai_smi io) (ai_sysfs io)))))
          (ly_Slots active) /\
        p = {| pf_Name := fl_Active file; pf_Hash := hex_EncodeToString (Sum256 raw);
               pf_Slots := imap slot_spec (ly_Slots active) |} /\
        (af_fakeTopology fl = true -> pf_Slots p = [])) /\
     forall smi sysfs, exists top, collector_Collect (ag_collector a) smi sysfs = Ok top /\
       if af_fakeTopology fl then top_Gpus top = [] /\ top_IommuEnabled top = false /\ top_Profile top = None
       else top_Gpus top = top_Gpus (Collect None smi sysfs) /\
            top_IommuEnabled top = IOMMUEnabled sysfs /\ top_Profile top = profile) /\
  (af_disableVMs fl = true -> forall m ops, OnControl a m ops = ops) /\
  match mux_client a turns with
  | None => af_muxEndpoint fl = "" \/ registrations a turns = []
  | Some mc => head (registrations a turns) = Some (MuxClient.cf_NodeID mc) /\
      auth_header mc = {| aq_NodeID := MuxClient.cf_NodeID mc; aq_Token := af_token fl;
                          aq_AgentVersion := af_agentVersion fl |} /\
      (MuxClient.cf_NodeID mc <> "" -> exists mc', MuxClient.validate mc = Ok mc' /\ auth_header mc' = auth_header mc)
  end /\
  ((forall t, t ∈ turns -> by_signal t) -> forall code, agent_run a turns = Some code -> code = 0%Z).
Proof.
  intros Hm fl. apply agent_runs in Hm as (Ht & (p & Hp & Hc) & Hvm & Hmux & Htok & _ & _). fold fl in Ht, Hp, Hc, Hvm, Hmux, Htok.
  clearbody fl. split_and!.
  - done.
  - intros s m Hin. by rewrite (register_token _ _ _ Hin).
  - exists p. split_and!; [by apply resolve_profile_configured in Hp| |].
    + intros q ->. apply resolve_profile_runs in Hp as (file & raw & active & HL & Hf & Hok & ->).
      exists file, raw, active. unfold detectGPUIndices in Hok.
      destruct (af_fakeTopology fl); split_and!; try done. intros _. simpl.
      by rewrite (layout_ok_no_gpus _ Hok).
    + intros smi sysfs. rewrite Hc. destruct (af_fakeTopology fl); by eexists.
  - intros Hd m ops. unfold OnControl. by rewrite (proj2 Hvm Hd).
  - rewrite mux_client_first, Hmux. destruct (String.eqb_spec (af_muxEndpoint fl) "") as [|He]; [by left|].
    destruct (registrations a turns) as [|id ids]; simpl; [by right|]. split; [done|]. split; [done|].
    intros Hid. unfold MuxClient.validate. simpl.
    rewrite (proj2 (String.eqb_neq _ _) He), (proj2 (String.eqb_neq _ _) Hid), (proj2 (String.eqb_neq _ _) Ht).
    by eexists.
  - intros Ht' code. unfold agent_run, StreamClient.Run.
    destruct (StreamClient.run _ _ turns).2 as [r|] eqn:Hr; [|done]. intros [= <-].
    by apply (run_ends_by_signal _ _ _ _ Ht' Hr).
Qed.
End boot.

(** ** Witness and examples *)
Module Demo.
#[export] Instance yaml : ProfileYAML := fun raw =>
  Ok {| fl_Active := "1x1"; fl_Layouts := [{| ly_Name := "1x1"; ly_Slots := [] |}] |}.

Definition environ (key : string) : string :=
  default "" ((list_to_map [("AGENT_API_TOKEN", "t0k"); ("AGENT_PROFILE", "/etc/profile.yaml");
    ("AGENT_MUX_ENDPOINT", "mux:8443"); ("AGENT_DISK_GB", "100GB")] : gmap string string) !! key).
Definition cmdline : CommandLine :=
  {| cl_String _ := None; cl_Bool name := if String.eqb name "disable-vms" then Some true else None; cl_Int _ := None |}.
Definition machine : agent_io :=
  {| ai_Hostname := "gpu-1"; ai_ReadFile _ := Ok [65%N]; ai_libvirt := None; ai_smi := None;
     ai_sysfs := DemoSysfs.host [] |}.
Definition session (id : string) : StreamClient.session :=
  {| sn_dial := None; sn_open := None; sn_topology := Static_Collect Empty; sn_send := None;
     sn_ack := Ok (CM_RegisterAck id 15); sn_end := Some (ErrNew "EOF") |}.
Definition turns : list StreamClient.turn :=
  [{| tn_ctx := None; tn_session := session "n1"; tn_after := None; tn_draw := 0; tn_wait := None |};
   {| tn_ctx := None; tn_session := session "n2"; tn_after := Some ctxCanceled; tn_draw := 0; tn_wait := None |}].
End Demo.

Lemma agent_boot_witness :
  exists a, main (H := DemoXML.lib) (H0 := Demo.yaml) Demo.environ Demo.cmdline Demo.machine = Runs a /\
    registrations a Demo.turns = ["n1"; "n2"] /\
    (MuxClient.cf_NodeID <$> mux_client a Demo.turns) = Some "n1" /\
    (forall m ops, OnControl a m ops = ops) /\ agent_run a Demo.turns = Some 0%Z /\
    (forall code, agent_run a Demo.turns = Some code -> code = 0%Z).
Proof.
  assert (exists a, main (H := DemoXML.lib) (H0 := Demo.yaml) Demo.environ Demo.cmdline Demo.machine = Runs a) as [a Hm]
    by (eexists; vm_compute; reflexivity).
  exists a. destruct (agent_boot _ _ _ a Demo.turns Hm) as (_ & _ & Hvm & _ & Hz).
  split; [exact Hm|]. vm_compute in Hm. injection Hm as <-.
  split; [reflexivity|]. split; [reflexivity|]. split; [by apply Hvm|]. split; [reflexivity|]. apply Hz.
  intros t Ht e He. unfold Demo.turns in Ht. rewrite !elem_of_cons in Ht.
  destruct Ht as [-> | [-> | Ht]]; simpl in He; [naive_solver..|]. by apply not_elem_of_nil in Ht.
Defined.

(** What follows the number in AGENT_DISK_GB is ignored, so that a unit or a
    hexadecimal number silently gives another size; no size at all keeps the
    default. *)
Example disk_gb_prefix :
  map (fun v => envInt (fun _ => v) "AGENT_DISK_GB" 50) ["100GB"; "1e3"; "0x64"; "1_000"; " +7"; "GB"; ""] =
  [100; 1; 0; 1; 7; 50; 50]%Z.
Proof. reflexivity. Qed.
