(* ===== verification/ControlPump.v ===== *)
(** * The sending half of an agent's stream (main-api, agent_stream.go)

    [Stream] runs two goroutines around the channel it registered: the
    receive loop (AgentStream), and the send loop, which takes control
    messages off the channel and sends them.  When receiving ends the channel
    is closed and the send loop is awaited.  A step relation, with the
    messages accepted into the channel and the messages sent, in order. *)

From S2P Require Import Prelude Proto Db AgentRegistry AgentStream.

(** [Stream] after the registration: receiving, receiving has ended, the
    channel is closed and the send loop awaited, returned. *)
Inductive main_phase :=
  | Receiving
  | ToClose (recvErr : option error)
  | AwaitSender (recvErr : option error)
  | ReturnedWith (err : option error).

Inductive sender_phase :=
  | Looping
  | Sending (m : ControlMessage)
  | SenderDone (sendErr : option error).

Record pump := {
  pm_ch : Channel;
  pm_ctx : bool;                      (* the context is done *)
  pm_main : main_phase;
  pm_sender : sender_phase;
  pm_accepted : list ControlMessage;  (* sent into the channel *)
  pm_sent : list ControlMessage       (* sent to the agent *)
}.

Definition pump_init (cap : nat) : pump :=
  {| pm_ch := {| ch_cap := cap; ch_buf := []; ch_closed := false |}; pm_ctx := false; pm_main := Receiving;
     pm_sender := Looping; pm_accepted := []; pm_sent := [] |}.

Definition close_of (c : Channel) : Channel := {| ch_cap := ch_cap c; ch_buf := ch_buf c; ch_closed := true |}.

Definition set_main (p : pump) (m : main_phase) : pump :=
  {| pm_ch := pm_ch p; pm_ctx := pm_ctx p; pm_main := m; pm_sender := pm_sender p;
     pm_accepted := pm_accepted p; pm_sent := pm_sent p |}.
Definition set_sender (p : pump) (s : sender_phase) : pump :=
  {| pm_ch := pm_ch p; pm_ctx := pm_ctx p; pm_main := pm_main p; pm_sender := s;
     pm_accepted := pm_accepted p; pm_sent := pm_sent p |}.

(** What a receive ends the loop with, if it does. *)
Definition receive_end (r : RecvResult) : option (option error) :=
  match r with
  | Received _ => None
  | RecvEOF | RecvCanceled => Some None
  | RecvError e => Some (Some e)
  end.

(** The steps of the two goroutines.  The select of the send loop takes any
    branch that is ready. *)
Inductive istep (p : pump) : pump -> Prop :=
  | s_ctx : pm_sender p = Looping -> pm_ctx p = true -> istep p (set_sender p (SenderDone None))
  | s_take m : pm_sender p = Looping -> head (ch_buf (pm_ch p)) = Some m ->
      istep p {| pm_ch := pop (pm_ch p); pm_ctx := pm_ctx p; pm_main := pm_main p; pm_sender := Sending m;
                 pm_accepted := pm_accepted p; pm_sent := pm_sent p |}
  | s_closed : pm_sender p = Looping -> ch_buf (pm_ch p) = [] -> ch_closed (pm_ch p) = true ->
      istep p (set_sender p (SenderDone None))
  | s_sent m : pm_sender p = Sending m ->
      istep p {| pm_ch := pm_ch p; pm_ctx := pm_ctx p; pm_main := pm_main p; pm_sender := Looping;
                 pm_accepted := pm_accepted p; pm_sent := pm_sent p ++ [m] |}
  | s_fail m e : pm_sender p = Sending m -> istep p (set_sender p (SenderDone (Some e)))
  | m_close r : pm_main p = ToClose r ->
      istep p {| pm_ch := close_of (pm_ch p); pm_ctx := pm_ctx p; pm_main := AwaitSender r; pm_sender := pm_sender p;
                 pm_accepted := pm_accepted p; pm_sent := pm_sent p |}
  | m_return r s : pm_main p = AwaitSender r -> pm_sender p = SenderDone s ->
      istep p (set_main p (ReturnedWith (match r with Some e => Some e | None => s end))).

(** And what comes from outside: a [Send] that finds room (or room again), the
    end of the context, a receive that ends the loop. *)
Inductive step (p : pump) : pump -> Prop :=
  | p_send m : ch_closed (pm_ch p) = false -> length (ch_buf (pm_ch p)) < ch_cap (pm_ch p) ->
      step p {| pm_ch := push (pm_ch p) m; pm_ctx := pm_ctx p; pm_main := pm_main p; pm_sender := pm_sender p;
                pm_accepted := pm_accepted p ++ [m]; pm_sent := pm_sent p |}
  | p_ctx : step p {| pm_ch := pm_ch p; pm_ctx := true; pm_main := pm_main p; pm_sender := pm_sender p;
                      pm_accepted := pm_accepted p; pm_sent := pm_sent p |}
  | p_receive r err : pm_main p = Receiving -> receive_end r = Some err -> step p (set_main p (ToClose err))
  | p_go p' : istep p p' -> step p p'.

(** ** The invariant *)

(** What was accepted has been sent, is being sent or failed to be, or is
    still in the channel, in this order. *)
Definition in_hand (s : sender_phase) (gone : list ControlMessage) : Prop :=
  match s with
  | Looping | SenderDone None => gone = []
  | Sending m => gone = [m]
  | SenderDone (Some _) => length gone = 1
  end.

Definition closing (m : main_phase) : bool :=
  match m with Receiving | ToClose _ => false | AwaitSender _ | ReturnedWith _ => true end.

Record pump_ok (cap : nat) (p : pump) : Prop := {
  po_flow : exists gone, pm_accepted p = pm_sent p ++ gone ++ ch_buf (pm_ch p) /\ in_hand (pm_sender p) gone;
  po_cap : ch_cap (pm_ch p) = cap /\ length (ch_buf (pm_ch p)) <= cap;
  po_done : pm_sender p = SenderDone None ->
    pm_ctx p = true \/ ch_closed (pm_ch p) = true /\ ch_buf (pm_ch p) = [];
  po_closed : ch_closed (pm_ch p) = closing (pm_main p);
  po_ret e : pm_main p = ReturnedWith e -> exists s, pm_sender p = SenderDone s /\ (e = None -> s = None)
}.

Lemma pump_init_ok cap : pump_ok cap (pump_init cap).
Proof. constructor; simpl; try done; [by exists []|lia]. Qed.

Lemma pump_istep_ok cap p p' : istep p p' -> pump_ok cap p -> pump_ok cap p'.
Proof.
  intros Hs [(gone & Hf & Hg) [Hc Hb] Hd Hcl Hr].
  destruct Hs as [Hl Hx|m Hl Hh|Hl He Hx|m Hl|m e Hl|r Hm|r s Hm Hl]; rewrite Hl in * || idtac;
    (constructor; simpl; [|split; [done|] | | |]); try done; try (by eauto).
  - simpl in Hg. subst gone. destruct (ch_buf (pm_ch p)) as [|m' l]; simplify_eq/=. by exists [m].
  - destruct (ch_buf (pm_ch p)); simpl in *; lia.
  - intros e He. destruct (Hr e He) as (? & ? & _). done.
  - exists []. split; [|done]. simpl in Hg. subst gone. by rewrite Hf, <- !app_assoc.
  - intros e He. destruct (Hr e He) as (? & ? & _). done.
  - simpl in Hg. subst gone. by exists [m].
  - intros e' He. destruct (Hr e' He) as (? & ? & _). done.
  - intros Hl. destruct (Hd Hl) as [|[H1 H2]]; auto.
  - rewrite Hl. by exists gone.
  - by rewrite Hl.
  - by rewrite Hcl, Hm.
  - intros e [= <-]. exists s. split; [done|]. by destruct r.
Qed.

Lemma pump_step_ok cap p p' : step p p' -> pump_ok cap p -> pump_ok cap p'.
Proof.
  intros [m Ho Hlt| |r err Hm He|q Hq] Hok; [| | |by eapply pump_istep_ok].
  - destruct Hok as [(gone & Hf & Hg) [Hc Hb] Hd Hcl Hr]. constructor; simpl; try done.
    + exists gone. by rewrite Hf, <- !app_assoc.
    + rewrite length_app. simpl. split; [done|lia].
    + intros Hs. destruct (Hd Hs) as [|[? _]]; [by left|congruence].
  - destruct Hok. constructor; simpl; try done. by left.
  - destruct Hok as [Hf Hc Hd Hcl Hr]. constructor; simpl; try done. by rewrite Hcl, Hm.
Qed.

Lemma pump_reachable_ok cap p : rtc step (pump_init cap) p -> pump_ok cap p.
Proof.
  intros Hr. pose proof (pump_init_ok cap) as H0. induction Hr; eauto using pump_step_ok.
Qed.

(** ** Every execution of the two goroutines ends *)

Definition pump_left (p : pump) : nat :=
  2 * length (ch_buf (pm_ch p)) +
  match pm_sender p with Looping => 1 | Sending _ => 2 | SenderDone _ => 0 end +
  match pm_main p with Receiving | ToClose _ => 2 | AwaitSender _ => 1 | ReturnedWith _ => 0 end.

Lemma istep_decreases p p' : istep p p' -> pump_left p' < pump_left p.
Proof.
  unfold pump_left. intros [Hl _|m Hl Hh|Hl _ _|m Hl|m e Hl|r Hm|r s Hm Hl]; simpl; rewrite ?Hl, ?Hm; try lia.
  destruct (ch_buf (pm_ch p)); simplify_eq/=. lia.
Qed.

Lemma istep_sn p : sn istep p.
Proof.
  remember (pump_left p) as n eqn:Hn. revert p Hn. induction (lt_wf n) as [n _ IH]. intros p ->.
  constructor. intros p' Hs. by eapply IH; [apply istep_decreases|].
Qed.

Lemma pump_progress cap p :
  pump_ok cap p -> nf istep p -> pm_main p = Receiving \/ exists e, pm_main p = ReturnedWith e.
Proof.
  intros Hok Hnf. destruct (pm_main p) as [|r|r|e] eqn:Hm; [by left| | |eauto]; exfalso; apply Hnf.
  - eexists. by eapply m_close.
  - pose proof (po_closed _ _ Hok) as Hcl. rewrite Hm in Hcl.
    destruct (pm_sender p) as [|m|s] eqn:Hs; [|eexists; by eapply s_sent|eexists; by eapply m_return].
    destruct (ch_buf (pm_ch p)) as [|m l] eqn:Hb; [eexists; by apply s_closed|].
    eexists. eapply (s_take _ m); [done|]. by rewrite Hb.
Qed.

(** C24: The sending half of an agent's stream, in every interleaving with the
    callers of Send.  The agent is sent what was accepted, in order, each
    message at most once, and at most one message more than the buffer holds
    is outstanding.  The two goroutines always come to rest; if receiving has
    ended they have returned, and from then on nothing is accepted.  When the
    stream returns without an error while its context is live, every accepted
    message has been sent. *)
Theorem control_messages_in_order cap p :
  rtc step (pump_init cap) p ->
  (exists rest, pm_accepted p = pm_sent p ++ rest /\ length rest <= S cap) /\
  sn istep p /\
  (forall p', rtc istep p p' -> nf istep p' -> pm_main p' = Receiving \/ exists e, pm_main p' = ReturnedWith e) /\
  (forall e, pm_main p = ReturnedWith e ->
     (forall p', step p p' -> pm_accepted p' = pm_accepted p) /\
     (e = None -> pm_ctx p = false -> pm_sent p = pm_accepted p)).
Proof.
  intros Hr%pump_reachable_ok. split_and!.
  - destruct (po_flow _ _ Hr) as (gone & Hf & Hg), (po_cap _ _ Hr) as [_ Hb].
    exists (gone ++ ch_buf (pm_ch p)). split; [done|]. rewrite length_app.
    assert (length gone <= 1); [|lia]. destruct (pm_sender p) as [|m|[e|]]; simpl in Hg; subst; simpl; lia.
  - apply istep_sn.
  - intros p' Hrun. apply (pump_progress cap). induction Hrun; eauto using pump_istep_ok.
  - intros e He. destruct (po_ret _ _ Hr e He) as (s & Hs & Hn). pose proof (po_closed _ _ Hr) as Hcl.
    rewrite He in Hcl. simpl in Hcl. split.
    + intros p' [m Ho _| | |q Hq]; [congruence|done|done|]. by destruct Hq.
    + intros ->. rewrite (Hn eq_refl) in Hs. intros Hctx.
      destruct (po_done _ _ Hr Hs) as [|[_ Hb]]; [congruence|].
      destruct (po_flow _ _ Hr) as (gone & Hf & Hg). rewrite Hs in Hg. simpl in Hg. subst gone.
      by rewrite Hf, Hb, app_nil_r.
Qed.

(** ** Relation to the rest of the service, witness and a finding *)

(** The loop that ends receiving is the receive loop of AgentStream. *)
Lemma receiveLoop_end `{UUIDLib} marshal parse svc node r rest err :
  receive_end r = Some err ->
  receiveLoop marshal parse svc node (r :: rest) = ret (match err with Some e => Err e | None => Ok tt end).
Proof. destruct r; simpl; intros [= <-]; done. Qed.

(** A [Send] that returns nil is a message accepted into the channel, after
    the send loop has taken one if there was no room. *)
Lemma Send_accepts w n m r r' en p :
  Send w n m r = (Returned (Ok tt), r') -> reg_nodes r !! n = Some en -> reg_chans r !! re_ch en = Some (pm_ch p) ->
  0 < ch_cap (pm_ch p) -> length (ch_buf (pm_ch p)) <= ch_cap (pm_ch p) -> pm_sender p = Looping ->
  exists p', rtc step p p' /\ reg_chans r' !! re_ch en = Some (pm_ch p') /\ pm_accepted p' = pm_accepted p ++ [m].
Proof.
  intros HS Hn Hc Hpos Hcap Hl. unfold Send, send_lookup, send_case, take_one in HS. rewrite Hn, Hc in HS.
  destruct (ch_closed (pm_ch p)) eqn:Hcl; [done|].
  destruct (decide (length (ch_buf (pm_ch p)) < ch_cap (pm_ch p))) as [Hlt|Hfull].
  - injection HS as <-. eexists. split; [by apply rtc_once, (p_send p m)|]. simpl. by rewrite lookup_insert_eq.
  - destruct w; [|done]. simpl in HS. rewrite lookup_alter_eq, Hc in HS. simpl in HS. rewrite Hcl in HS.
    destruct (ch_buf (pm_ch p)) as [|m' l] eqn:Hb; simpl in *; [lia|].
    rewrite decide_True in HS by lia. injection HS as <-.
    eexists. split; [eapply rtc_l; [apply p_go, (s_take p m' Hl); by rewrite Hb|]; apply rtc_once, (p_send _ m)|].
    + done.
    + simpl. rewrite Hb. simpl. lia.
    + simpl. by rewrite lookup_insert_eq.
Qed.

(** Two accepted messages, one sent, and the agent hangs up. *)
Definition hung_up : pump :=
  {| pm_ch := {| ch_cap := 16; ch_buf := []; ch_closed := true |}; pm_ctx := false; pm_main := ReturnedWith None;
     pm_sender := SenderDone None; pm_accepted := [CM_Ping; CM_DestroyInstance "5"%string];
     pm_sent := [CM_Ping; CM_DestroyInstance "5"%string] |}.

Lemma hung_up_reachable : rtc step (pump_init 16) hung_up.
Proof.
  eapply rtc_l; [apply (p_send _ CM_Ping); simpl; [done|lia]|]. simpl.
  eapply rtc_l; [eapply p_go, (s_take _ CM_Ping); done|]. simpl.
  eapply rtc_l; [apply (p_send _ (CM_DestroyInstance "5"%string)); simpl; [done|lia]|]. simpl.
  eapply rtc_l; [eapply (p_receive _ RecvEOF); done|]. simpl.
  eapply rtc_l; [eapply p_go, m_close; done|]. simpl.
  eapply rtc_l; [eapply p_go, (s_sent _ CM_Ping); done|]. simpl.
  eapply rtc_l; [eapply p_go, (s_take _ (CM_DestroyInstance "5"%string)); done|]. simpl.
  eapply rtc_l; [eapply p_go, (s_sent _ (CM_DestroyInstance "5"%string)); done|]. simpl.
  eapply rtc_l; [eapply p_go, s_closed; done|]. simpl.
  eapply rtc_l; [eapply p_go, (m_return _ None None); done|]. apply rtc_refl.
Defined.

Lemma control_messages_in_order_witness : pm_sent hung_up = pm_accepted hung_up.
Proof.
  destruct (control_messages_in_order 16 hung_up hung_up_reachable) as (_ & _ & _ & Hr).
  by apply (Hr None).
Defined.

(** A message that [Send] accepted is lost when the stream's context ends
    before the send loop gets to it: the stream returns without an error, the
    message was never sent, and nothing sends it again when the agent
    reconnects. *)
Theorem accepted_message_lost m :
  exists p, rtc step (pump_init 16) p /\ pm_main p = ReturnedWith None /\ pm_accepted p = [m] /\ pm_sent p = [].
Proof.
  eexists. split.
  { eapply rtc_l; [apply (p_send _ m); simpl; [done|lia]|]. simpl.
    eapply rtc_l; [eapply p_ctx|]. simpl.
    eapply rtc_l; [eapply p_go, s_ctx; done|]. simpl.
    eapply rtc_l; [eapply (p_receive _ RecvCanceled); done|]. simpl.
    eapply rtc_l; [eapply p_go, m_close; done|]. simpl.
    eapply rtc_l; [eapply p_go, (m_return _ None None); done|]. apply rtc_refl. }
  done.
Qed.
