(* ===== verification/Schema.v ===== *)
(** * The schema of the database (internal/db/migrations) as an invariant

    What the tables promise: primary keys, unique constraints, foreign keys,
    checks and enumerations.  The statements test the constraints one by one
    where they insert; here it is shown that every statement of the program,
    updates and cascades included, leaves a database of that type. *)

From S2P Require Import Prelude GoStrings Proto Db Queries AccountQueries InstanceRepo SlotRepo CreditRepo NodeRepo Auth SSHKeys AgentStream TicketEndpoint AdminCLI Demo.

#[local] Open Scope string_scope.
#[local] Open Scope list_scope.

(** ** Tables with a primary key, a unique key and a row condition *)

Record table_ok {V X} (id : V -> UUID) (key : V -> X) (P : V -> Prop) (m : gmap UUID V) : Prop := {
  tb_id k v : m !! k = Some v -> id v = k;
  tb_unique k k' v v' : m !! k = Some v -> m !! k' = Some v' -> key v = key v' -> k = k';
  tb_rows k v : m !! k = Some v -> P v
}.

Definition present {V} (m : gmap UUID V) (i : UUID) : Prop := is_Some (m !! i).
Definition present_opt {V} (m : gmap UUID V) (i : option UUID) : Prop := forall j, i = Some j -> present m j.
Definition grows {V} (m m' : gmap UUID V) : Prop := forall i, present m i -> present m' i.

Section tables.
Context {V X : Type} {id : V -> UUID} {key : V -> X}.
Implicit Types (m : gmap UUID V) (P Q : V -> Prop).

Lemma table_empty P : table_ok id key P ∅.
Proof. by constructor. Qed.

Lemma table_mono P Q m : (forall v, P v -> Q v) -> table_ok id key P m -> table_ok id key Q m.
Proof. intros HPQ []. constructor; eauto. Qed.

Lemma table_insert P m v :
  table_ok id key P m -> (forall k v', m !! k = Some v' -> key v' <> key v) -> P v ->
  table_ok id key P (<[id v := v]> m).
Proof.
  intros [Hid Hun Hr] Hk Hv. constructor.
  - intros k v'. rewrite lookup_insert_Some. naive_solver.
  - intros k k' v1 v2. rewrite !lookup_insert_Some. intros [[<- <-]|[? ?]] [[<- <-]|[? ?]] Heq; try done.
    + by destruct (Hk k' v2).
    + by destruct (Hk k v1).
    + by eapply Hun.
  - intros k v'. rewrite lookup_insert_Some. naive_solver.
Qed.

(** Rows changed in place. *)
Lemma table_map P Q m m' :
  table_ok id key P m ->
  (forall k v', m' !! k = Some v' -> exists v, m !! k = Some v /\ id v' = id v /\ key v' = key v /\ (P v -> Q v')) ->
  table_ok id key Q m'.
Proof.
  intros [Hid Hun Hr] Hm. constructor.
  - intros k v' (v & Hk & -> & _)%Hm. eauto.
  - intros k k' v v' (w & Hk & _ & -> & _)%Hm (w' & Hk' & _ & -> & _)%Hm. eauto.
  - intros k v' (v & Hk & _ & _ & HP)%Hm. eauto.
Qed.

Lemma table_sub P m m' : (forall k v, m' !! k = Some v -> m !! k = Some v) -> table_ok id key P m -> table_ok id key P m'.
Proof. intros Hs Hm. eapply table_map; [done|]. intros k v Hk%Hs. eauto. Qed.

Lemma table_delete P m i : table_ok id key P m -> table_ok id key P (delete i m).
Proof. apply table_sub. intros k v. rewrite lookup_delete_Some. tauto. Qed.

Lemma table_filter P (F : UUID * V -> Prop) `{forall kv, Decision (F kv)} m :
  table_ok id key P m -> table_ok id key P (filter F m).
Proof. apply table_sub. intros k v. rewrite map_lookup_filter_Some. tauto. Qed.

Lemma table_update P (b : V -> bool) f m :
  (forall v, id (f v) = id v /\ key (f v) = key v /\ (P v -> P (f v))) ->
  table_ok id key P m -> table_ok id key P (update_where b f m).
Proof.
  intros Hf Hm. eapply table_map; [done|]. intros k v'. rewrite lookup_update_where.
  destruct (m !! k) as [v|]; [|done]. intros [= <-]. exists v. destruct (b v); [|done]. split; [done|]. apply Hf.
Qed.

Lemma table_alter P f m i :
  (forall v, id (f v) = id v /\ key (f v) = key v /\ (P v -> P (f v))) ->
  table_ok id key P m -> table_ok id key P (alter f i m).
Proof.
  intros Hf Hm. eapply table_map; [done|]. intros k v'. rewrite lookup_alter.
  case_decide; [|eauto]. subst. destruct (m !! k) as [v|]; [|done]. intros [= <-]. exists v. split; [done|]. apply Hf.
Qed.

Lemma table_replace P m i v v' :
  m !! i = Some v -> id v' = id v /\ key v' = key v /\ (P v -> P v') ->
  table_ok id key P m -> table_ok id key P (<[i := v']> m).
Proof.
  intros Hi Hv Hm. eapply table_map; [done|]. intros k w. rewrite lookup_insert_Some.
  intros [[<- <-]|[_ Hk]]; eauto.
Qed.

(** A new row, whose key no row has. *)
Lemma table_insert_new P m (b : V -> bool) v :
  exists_row b m = false -> (forall v', key v' = key v -> b v' = true) ->
  table_ok id key P m -> P v -> table_ok id key P (<[id v := v]> m).
Proof.
  intros Hb Hv Hm HP. apply table_insert; [done| |done]. intros k v' Hk Heq%Hv.
  rewrite exists_row_false in Hb. specialize (Hb k v' Hk). congruence.
Qed.

Lemma grows_insert m i v : grows m (<[i := v]> m).
Proof. intros j. unfold present. rewrite lookup_insert. case_decide; eauto. Qed.
Lemma grows_alter m f i : grows m (alter f i m).
Proof. intros j Hj. unfold present. rewrite lookup_alter. case_decide; subst; [by apply fmap_is_Some|done]. Qed.
Lemma grows_update m b f : grows m (update_where b f m).
Proof. intros j Hj. unfold present. rewrite lookup_update_where. by apply fmap_is_Some. Qed.
Lemma same_grows m : grows m m.
Proof. by intros i. Qed.
End tables.

Create HintDb schema discriminated.
#[export] Hint Resolve grows_insert grows_alter grows_update same_grows : schema.

(** ** The type of a database *)

Definition session_ok (d : DB) (s : Session) : Prop := present (db_users d) (se_UserID s).

Definition node_ok (d : DB) (n : Node) : Prop :=
  present (db_zones d) (nd_ZoneID n) /\
  (nd_AccessPolicy n = "public" \/ nd_AccessPolicy n = "owner_team" /\ is_Some (nd_OwnerTeamID n)).

Definition slot_ok (d : DB) (s : GpuSlot) : Prop :=
  present (db_nodes d) (gs_NodeID s) /\ present_opt (db_instances d) (gs_CurrentInstanceID s) /\ (0 < gs_GpuCount s)%Z.

Definition instance_ok (d : DB) (i : InstanceRow) : Prop :=
  present_opt (db_users d) (in_OwnerID i) /\ present (db_nodes d) (in_NodeID i) /\
  is_instance_state (in_State i) = true /\ (0 < in_MemoryMb i)%Z /\ (0 < in_Vcpus i)%Z /\ (0 <= in_GpuCount i)%Z.

Definition event_ok (d : DB) (e : InstanceEvent) : Prop :=
  present (db_instances d) (ev_InstanceID e) /\ is_instance_state (ev_ToState e) = true /\
  forall s, ev_FromState e = Some s -> is_instance_state s = true.

Definition credit_ok (d : DB) (c : Credit) : Prop :=
  present (db_users d) (cr_UserID c) /\ is_int64 (cr_BalanceMilli c) = true.

Definition key_ok (d : DB) (k : SshKey) : Prop := present (db_users d) (sk_UserID k).

Definition token_ok (d : DB) (t : NodeToken) : Prop :=
  present (db_nodes d) (nt_NodeID t) /\ present_opt (db_users d) (nt_CreatedBy t).

(** The tables of [d], with the references looked up in [ref]. *)
Record schema_at (ref d : DB) : Prop := {
  ty_users : table_ok us_ID us_Email (fun _ => True) (db_users d);
  ty_sessions : table_ok se_ID se_TokenHash (session_ok ref) (db_sessions d);
  ty_zones : table_ok zn_ID zn_Name (fun _ => True) (db_zones d);
  ty_nodes : table_ok nd_ID nd_NodeName (node_ok ref) (db_nodes d);
  ty_slots : table_ok gs_ID (fun s => (gs_NodeID s, gs_SlotIndex s)) (slot_ok ref) (db_gpu_slots d);
  ty_instances : table_ok in_ID in_ID (instance_ok ref) (db_instances d);
  ty_events e : e ∈ db_instance_events d -> event_ok ref e;
  ty_credits : table_ok cr_UserID cr_UserID (credit_ok ref) (db_credits d);
  ty_ledger e : e ∈ db_credit_ledger d -> present (db_users ref) (cl_UserID e);
  ty_ledger_keys : NoDup (cl_IdempotencyKey <$> db_credit_ledger d);
  ty_keys : table_ok sk_ID (fun k => (sk_UserID k, sk_Fingerprint k)) (key_ok ref) (db_ssh_keys d);
  ty_tokens : table_ok nt_ID (fun t => (nt_NodeID t, nt_TokenHash t)) (token_ok ref) (db_node_tokens d);
  ty_teams : table_ok te_ID te_Name (fun _ => True) (db_teams d);
  ty_members team user : is_Some (db_team_members d !! (team, user)) ->
    present (db_teams ref) team /\ present (db_users ref) user
}.

Definition schema_ok (d : DB) : Prop := schema_at d d.

(** No row that can be referred to goes. *)
Record grows_db (d d' : DB) : Prop := {
  gr_users : grows (db_users d) (db_users d');
  gr_zones : grows (db_zones d) (db_zones d');
  gr_nodes : grows (db_nodes d) (db_nodes d');
  gr_instances : grows (db_instances d) (db_instances d');
  gr_teams : grows (db_teams d) (db_teams d')
}.

Lemma schema_at_grows ref ref' d : grows_db ref ref' -> schema_at ref d -> schema_at ref' d.
Proof.
  intros [Gu Gz Gn Gi Gt] []. constructor; try done;
    try (eapply table_mono; [|done]);
    unfold session_ok, node_ok, slot_ok, instance_ok, event_ok, credit_ok, key_ok, token_ok, present_opt in *; naive_solver.
Qed.

(** A statement that only adds rows, or changes rows in place, or removes
    rows nothing refers to. *)
Lemma keeps_growing {A} (q : Stmt A) :
  (forall e d, schema_ok d -> (q e d).2 = d \/ schema_at d (q e d).2 /\ grows_db d (q e d).2) -> keeps schema_ok q.
Proof.
  intros Hq e d Hd. destruct (Hq e d Hd) as [->|[Ha Hg]]; [done|]. by eapply schema_at_grows.
Qed.

(** ** Every statement keeps the type *)

Lemma present_fk {V} (i : UUID) (m : gmap UUID V) : negb (fk_ok (Some i) m) = false -> present m i.
Proof. intros H%negb_false_iff. by apply fk_ok_Some in H. Qed.

Lemma present_opt_fk {V} (i : option UUID) (m : gmap UUID V) : negb (fk_ok i m) = false -> present_opt m i.
Proof. intros H%negb_false_iff j ->. by apply fk_ok_Some in H. Qed.
#[export] Hint Resolve present_fk present_opt_fk : schema.

(** A failed test leaves the tables alone; otherwise one table is left to look
    at. *)
Ltac one_table :=
  apply keeps_growing; intros e d Hd;
  cbn beta; repeat (case_match; try (by left)); simpl; try (by left); right;
  (split; [destruct Hd; constructor; simpl; try done|constructor; simpl; auto with schema nocore]).

Section statements.

Lemma schema_createUser arg : keeps schema_ok (createUser arg).
Proof.
  unfold createUser. one_table. eapply (table_insert_new (id := us_ID) _ _ _ (new_user e arg)); [done| |done..].
  intros v' Hk. by apply String.eqb_eq.
Qed.

Lemma schema_createSession arg : keeps schema_ok (createSession arg).
Proof.
  unfold createSession. one_table.
  eapply (table_insert_new (id := se_ID) _ _ _ (new_session e arg)); [done| |done|by apply present_fk].
  intros v' Hk. by apply String.eqb_eq.
Qed.

Lemma schema_createSSHKey arg : keeps schema_ok (createSSHKey arg).
Proof.
  unfold createSSHKey. one_table.
  eapply (table_insert_new (id := sk_ID) _ _ _ (new_key e arg)); [done| |done|by apply present_fk].
  intros v' Hk. injection Hk as Hu Hf. unfold key_of. by rewrite Hu, Hf, bool_decide_true, String.eqb_refl.
Qed.

Lemma schema_nodeTokenInsert arg : keeps schema_ok (nodeTokenInsert arg).
Proof.
  unfold nodeTokenInsert. one_table.
  eapply (table_insert_new (id := nt_ID) _ _ _ (new_token e arg)); [done| |done|].
  - intros v' Hk. injection Hk as Hu Hf. cbn beta. by rewrite Hu, Hf, bool_decide_true, String.eqb_refl.
  - split; simpl; auto with schema nocore.
Qed.

Lemma schema_teamCreate name description : keeps schema_ok (teamCreate name description).
Proof.
  unfold teamCreate. one_table.
  eapply (table_insert_new (id := te_ID) _ _ _ (new_team e name description)); [done| |done..].
  intros v' Hk. by apply String.eqb_eq.
Qed.

Lemma schema_teamMemberAdd team user : keeps schema_ok (teamMemberAdd team user).
Proof.
  unfold teamMemberAdd. one_table. intros t u. rewrite lookup_insert.
  case_decide as Hk; [|by auto]. simplify_eq. intros _. split; auto with schema nocore.
Qed.

Lemma schema_teamMemberRemove team user : keeps schema_ok (teamMemberRemove team user).
Proof.
  unfold teamMemberRemove. one_table. intros t u. rewrite lookup_delete.
  case_decide; [by intros []|by auto].
Qed.

Lemma schema_deleteSession hash : keeps schema_ok (deleteSessionByTokenHash hash).
Proof. unfold deleteSessionByTokenHash. one_table. by apply table_filter. Qed.

Lemma schema_deleteExpired : keeps schema_ok deleteExpiredSessions.
Proof. unfold deleteExpiredSessions. one_table. by apply table_filter. Qed.

Lemma schema_deleteSSHKey id user : keeps schema_ok (deleteSSHKeyForUser id user).
Proof. unfold deleteSSHKeyForUser. one_table. by apply table_delete. Qed.

Lemma schema_nodeTokenRevoke id : keeps schema_ok (nodeTokenRevoke id).
Proof. unfold nodeTokenRevoke. one_table. apply table_alter; [|done]. intros v. by destruct (nt_RevokedAt v). Qed.

Lemma schema_createInstance arg : keeps schema_ok (createInstance arg).
Proof.
  unfold createInstance. one_table. apply (table_insert (id := in_ID) _ _ (new_instance e arg)); [done| |].
  - intros k v' Hk Heq. simpl in Heq.
    pose proof (tb_id _ _ _ _ ty_instances0 k v' Hk) as Hid. rewrite Heq in Hid. subst k.
    rewrite fk_ok_None_lookup in *. simpl in *. congruence.
  - split_and!; simpl; auto with schema nocore; lia.
Qed.

Lemma schema_deleteInstance id : keeps schema_ok (deleteInstance id).
Proof.
  intros e d Hd. unfold deleteInstance. destruct (db_instances d !! id) as [i|]; [|done]. simpl.
  destruct Hd. constructor; simpl; try done.
  - eapply table_map; [exact ty_slots0|]. intros k v'. rewrite lookup_update_where.
    destruct (db_gpu_slots d !! k) as [s|] eqn:Hk; [|done]. intros [= <-]. exists s. split; [done|].
    unfold slot_of_instance, slot_ok, present_opt, present. simpl.
    case_bool_decide as Hc; simpl; (split_and!; [done..|]); intros (Hn & Hi & Hg); split_and!; try done.
    intros j Hj. rewrite lookup_delete_ne by congruence. by apply Hi.
  - eapply table_map; [by apply table_delete|]. eauto.
  - intros ev [Hne Hin]%list_elem_of_filter. destruct (ty_events0 ev Hin) as (Hi & ? & ?).
    split; [|done]. unfold present in *. simpl. by rewrite lookup_delete_ne.
Qed.

Lemma schema_insertInstanceEvent arg : keeps schema_ok (insertInstanceEvent arg).
Proof.
  unfold insertInstanceEvent. one_table; intros ev [Hin|Hin%list_elem_of_singleton]%elem_of_app; auto; subst ev;
    (split_and!; simpl; [by auto with schema nocore|by apply negb_false_iff|]); intros s Hs; [|congruence];
    simplify_eq; by apply negb_false_iff.
Qed.

Lemma schema_updateInstanceState arg : keeps schema_ok (updateInstanceState arg).
Proof.
  unfold updateInstanceState. one_table. eapply table_replace; [done| |done].
  split_and!; [done..|]. intros (? & ? & ? & ? & ? & ?). split_and!; simpl; try done. by apply negb_false_iff.
Qed.

(** Slots change their status and their pointer only. *)
Lemma schema_slots_in_place (b : GpuSlot -> bool) f :
  (forall s, gs_ID (f s) = gs_ID s /\ gs_NodeID (f s) = gs_NodeID s /\ gs_SlotIndex (f s) = gs_SlotIndex s /\
     gs_GpuCount (f s) = gs_GpuCount s /\ (gs_CurrentInstanceID (f s) = gs_CurrentInstanceID s \/ gs_CurrentInstanceID (f s) = None)) ->
  forall {A} (n : DB -> A), keeps schema_ok (fun _ d => (Ok (n d), set_gpu_slots (update_where b f (db_gpu_slots d)) d)).
Proof.
  intros Hf A n. one_table. apply table_update; [|done].
  intros s. destruct (Hf s) as (-> & -> & -> & Hg & Hc). split_and!; [done..|].
  unfold slot_ok. rewrite Hg. destruct (Hf s) as (_ & -> & _). intros (? & Hi & ?). split_and!; [done| |done].
  destruct Hc as [-> | ->]; done.
Qed.

Lemma schema_releaseReserved ids : keeps schema_ok (releaseReservedSlots ids).
Proof. by apply (schema_slots_in_place (reserved_in ids)); eauto 10. Qed.

Lemma schema_releaseOrphans : keeps schema_ok releaseAllOrphanReservedSlots.
Proof. by apply (schema_slots_in_place orphan_reserved); eauto 10. Qed.

Lemma schema_releaseForInstance id : keeps schema_ok (releaseSlotsForInstance id).
Proof. by apply (schema_slots_in_place (slot_of_instance id)); eauto 10. Qed.

Lemma schema_reserveFreeSlots `{Collation} node size limit : keeps schema_ok (reserveFreeSlots node size limit).
Proof.
  intros e d Hd. unfold reserveFreeSlots.
  by apply (schema_slots_in_place (fun s => bool_decide (gs_ID s ∈ gs_ID <$> pick_slots node size limit (db_gpu_slots d)))
    reserve_slot) with (n := fun _ => tt) (e := e); eauto 10.
Qed.

Lemma schema_bindSlot id inst : keeps schema_ok (bindSlotToInstance id inst).
Proof.
  unfold bindSlotToInstance. one_table. eapply table_replace; [done| |done]. split_and!; [done..|].
  intros (? & _ & ?). split_and!; [done| |done]. simpl. intros j ->. by apply fk_ok_Some.
Qed.

Lemma schema_deleteSlots node : keeps schema_ok (deleteSlotsForNode node).
Proof. unfold deleteSlotsForNode. one_table. by apply table_filter. Qed.

Lemma schema_insertSlot arg : keeps schema_ok (insertSlot arg).
Proof.
  unfold insertSlot. one_table.
  eapply (table_insert_new (id := gs_ID) _ _ _ (new_slot e arg _)); [done| |done|].
  - intros v' Hk. injection Hk as Hn Hi. cbn beta. by rewrite bool_decide_true.
  - split_and!; simpl; [by auto with schema nocore|done|]. apply negb_false_iff in H0. lia.
Qed.

(** A node in place: its id, name, zone and access policy stay. *)
Definition same_node (f : Node -> Node) : Prop := forall n,
  nd_ID (f n) = nd_ID n /\ nd_NodeName (f n) = nd_NodeName n /\ nd_ZoneID (f n) = nd_ZoneID n /\
  nd_AccessPolicy (f n) = nd_AccessPolicy n /\ nd_OwnerTeamID (f n) = nd_OwnerTeamID n.

Lemma same_node_ok f d n : same_node f ->
  nd_ID (f n) = nd_ID n /\ nd_NodeName (f n) = nd_NodeName n /\ (node_ok d n -> node_ok d (f n)).
Proof. intros Hf. destruct (Hf n) as (Hi & Hn & Hz & Ha & Ho). unfold node_ok. by rewrite Hi, Hn, Hz, Ha, Ho. Qed.

Lemma schema_updateNodeProfileHash id h : keeps schema_ok (updateNodeProfileHash id h).
Proof. unfold updateNodeProfileHash. one_table. apply table_alter; [|done]. intros n. by apply same_node_ok. Qed.

Lemma schema_touch id : keeps schema_ok (touchNodeHeartbeat id).
Proof. unfold touchNodeHeartbeat. one_table. apply table_alter; [|done]. intros n. apply same_node_ok. by intros ?. Qed.

Lemma schema_markStale cutoff : keeps schema_ok (markStaleNodesOfflineReturning cutoff).
Proof.
  unfold markStaleNodesOfflineReturning. one_table. apply table_update; [|done].
  intros n. apply (same_node_ok (fun n => with_status e NodeStatusOffline (nd_LastHeartbeatAt n) n)). by intros ?.
Qed.

Lemma schema_pinNodeACL team node : keeps schema_ok (pinNodeACL team node).
Proof.
  unfold pinNodeACL. one_table. apply table_alter; [|done]. intros n. split_and!; [done..|].
  intros [Hz _]. split; [done|]. right. simpl. eauto.
Qed.

Lemma schema_upsertNode arg : keeps schema_ok (upsertNode arg).
Proof.
  unfold upsertNode. one_table.
  - apply row_where_Some in H as [_ [k Hk]]. rewrite (tb_id _ _ _ _ ty_nodes0 k _ Hk).
    eapply table_replace; [done| |done]. apply (same_node_ok (refresh_node e arg)). by intros ?.
  - apply (table_insert (id := nd_ID) _ _ (new_node e arg)); [done| |].
    + intros k v' Hk Heq. rewrite row_where_None in H. specialize (H k v' Hk).
      unfold named in H. rewrite Heq in H. by rewrite String.eqb_refl in H.
    + split; simpl; [by apply present_fk|by left].
Qed.

Lemma schema_insertCreditLedgerEntry arg : keeps schema_ok (insertCreditLedgerEntry arg).
Proof.
  unfold insertCreditLedgerEntry. one_table.
  - intros c [Hin|Hin%list_elem_of_singleton]%elem_of_app; [by auto|]. subst c. by apply present_fk.
  - rewrite fmap_app. apply NoDup_app. split; [done|]. split; [|apply NoDup_singleton].
    intros k (c & -> & Hc)%list_elem_of_fmap Hk%list_elem_of_singleton.
    assert (existsb (has_key (lep_IdempotencyKey arg)) (db_credit_ledger d) = true); [|congruence].
    apply existsb_exists. exists c. split; [by apply list_elem_of_In|]. by apply String.eqb_eq.
Qed.

Lemma schema_upsertCredits user delta : is_int64 delta = true -> keeps schema_ok (upsertCredits user delta).
Proof.
  intros Hint. unfold upsertCredits. one_table.
  - eapply table_replace; [done| |done]. simpl.
    pose proof (tb_id _ _ _ _ ty_credits0 _ _ H) as Hid. split_and!; [done..|]. intros [Hu _]. by rewrite Hid in Hu.
  - apply (table_insert (id := cr_UserID) _ _ {| cr_UserID := user; cr_BalanceMilli := delta; cr_UpdatedAt := env_now e |});
      [done| |].
    + intros k v' Hk Heq. simpl in Heq. pose proof (tb_id _ _ _ _ ty_credits0 k v' Hk). congruence.
    + split; simpl; [by apply present_fk|done].
Qed.
End statements.


Lemma schema_getSession hash : keeps schema_ok (getSessionByTokenHash hash).
Proof. intros e d Hd. unfold getSessionByTokenHash. by case_match. Qed.

#[export] Hint Resolve schema_createUser schema_createSession schema_createSSHKey schema_nodeTokenInsert schema_teamCreate
  schema_teamMemberAdd schema_teamMemberRemove schema_deleteSession schema_deleteExpired schema_deleteSSHKey
  schema_nodeTokenRevoke schema_createInstance schema_deleteInstance schema_insertInstanceEvent
  schema_updateInstanceState schema_releaseReserved schema_releaseOrphans schema_releaseForInstance
  schema_reserveFreeSlots schema_bindSlot schema_deleteSlots schema_insertSlot schema_updateNodeProfileHash
  schema_touch schema_markStale schema_pinNodeACL schema_upsertNode schema_insertCreditLedgerEntry
  schema_upsertCredits schema_getSession : pres.

(** ** Every operation keeps it, whatever round trips fail *)

Ltac schema_op := repeat first [solve [eauto 4 with pres nocore] | pres_step | apply inTx_body_preserves].

Section operations.
Context `{UUIDLib, Bcrypt, SSHLib, Collation}.

Lemma op_Create inp : preserves (on_db schema_ok) (InstanceRepo.Create inp).
Proof. unfold InstanceRepo.Create. schema_op. Qed.

Lemma op_Transition id to opts : preserves (on_db schema_ok) (Transition id to opts).
Proof. unfold Transition, transition_store. schema_op. Qed.

Lemma op_Reserve node size count : preserves (on_db schema_ok) (Reserve node size count).
Proof. unfold Reserve. schema_op. Qed.

Lemma op_Bind r i : preserves (on_db schema_ok) (BindToInstance r i).
Proof. unfold BindToInstance. schema_op. Qed.

Lemma op_ReleaseReserved r : preserves (on_db schema_ok) (ReleaseReserved r).
Proof. unfold ReleaseReserved. schema_op. Qed.

Lemma op_ReleaseForInstance id : preserves (on_db schema_ok) (ReleaseForInstance id).
Proof. unfold ReleaseForInstance. schema_op. Qed.

Lemma op_SyncFromProfile node hash slots : preserves (on_db schema_ok) (SyncFromProfile node hash slots).
Proof. unfold SyncFromProfile, insert_profile_slots. schema_op. Qed.

Lemma op_Post inp : is_int64 (pi_DeltaMilli inp) = true -> preserves (on_db schema_ok) (Post inp).
Proof. intros Hint. unfold Post, post_insert. schema_op. Qed.

Lemma op_CreateUser salt email password : preserves (on_db schema_ok) (CreateUser salt email password).
Proof. unfold CreateUser. schema_op. Qed.

Lemma op_CreateSession rnd now user ttl : preserves (on_db schema_ok) (CreateSession rnd now user ttl).
Proof. unfold CreateSession. schema_op. Qed.

Lemma op_LookupSession raw : preserves (on_db schema_ok) (LookupSession raw).
Proof. unfold LookupSession. schema_op. Qed.

Lemma op_Add user label pubkey : preserves (on_db schema_ok) (Add user label pubkey).
Proof. unfold Add. schema_op. Qed.
#[local] Hint Resolve op_Transition op_ReleaseForInstance op_SyncFromProfile : pres.

Lemma op_message pa ma svc node msg : preserves (on_db schema_ok) (handleAgentMessage pa ma svc node msg).
Proof. unfold handleAgentMessage, applyInstanceStatus, TouchHeartbeat, UpdateTopology. schema_op. Qed.

Lemma op_handshake pa svc first ack : preserves (on_db schema_ok) (handshake pa svc first ack).
Proof. unfold handshake, sync_profile, UpsertOnline. schema_op. Qed.

Lemma op_sweep_tick svc ttl now : preserves (on_db schema_ok) (sweep_tick svc ttl now).
Proof.
  unfold sweep_tick, reapInstancesForOfflineNode, reap_instance, MarkStaleOffline, NonTerminalInstancesForNode. schema_op.
Qed.

Lemma op_cli env args : preserves (on_db schema_ok) (dispatch env args).
Proof.
  unfold dispatch, runNodeToken, runTeam, nodeTokenCreate, nodeTokenList, nodeTokenRevoke_command, teamCreate_command,
    teamAddMember, teamListMembers, named_team, user_of_email, fail. schema_op.
Qed.

(** ** Histories of the database *)

(** The statements of the program, with any arguments of their Go types. *)
Inductive statement : forall {A : Type}, Stmt A -> Prop :=
  | st_createUser arg : statement (createUser arg)
  | st_createSession arg : statement (createSession arg)
  | st_deleteSession hash : statement (deleteSessionByTokenHash hash)
  | st_deleteExpired : statement deleteExpiredSessions
  | st_createSSHKey arg : statement (createSSHKey arg)
  | st_deleteSSHKey id user : statement (deleteSSHKeyForUser id user)
  | st_nodeTokenInsert arg : statement (nodeTokenInsert arg)
  | st_nodeTokenRevoke id : statement (nodeTokenRevoke id)
  | st_pinNodeACL team node : statement (pinNodeACL team node)
  | st_teamCreate name description : statement (teamCreate name description)
  | st_teamMemberAdd team user : statement (teamMemberAdd team user)
  | st_teamMemberRemove team user : statement (teamMemberRemove team user)
  | st_createInstance arg : statement (createInstance arg)
  | st_updateInstanceState arg : statement (updateInstanceState arg)
  | st_insertInstanceEvent arg : statement (insertInstanceEvent arg)
  | st_deleteInstance id : statement (deleteInstance id)
  | st_reserveFreeSlots node size limit : statement (reserveFreeSlots node size limit)
  | st_bindSlot id inst : statement (bindSlotToInstance id inst)
  | st_releaseReserved ids : statement (releaseReservedSlots ids)
  | st_releaseOrphans : statement releaseAllOrphanReservedSlots
  | st_releaseForInstance id : statement (releaseSlotsForInstance id)
  | st_insertSlot arg : statement (insertSlot arg)
  | st_deleteSlots node : statement (deleteSlotsForNode node)
  | st_upsertNode arg : statement (upsertNode arg)
  | st_touch id : statement (touchNodeHeartbeat id)
  | st_markStale cutoff : statement (markStaleNodesOfflineReturning cutoff)
  | st_profileHash id h : statement (updateNodeProfileHash id h)
  | st_insertLedger arg : statement (insertCreditLedgerEntry arg)
  | st_upsertCredits user delta : is_int64 delta = true -> statement (upsertCredits user delta)
  | st_read {A} (q : Stmt A) : (forall e d, (q e d).2 = d) -> statement q.

Lemma schema_statement {A} (q : Stmt A) : statement q -> keeps schema_ok q.
Proof. intros []; eauto with pres nocore. intros e d Hd. by rewrite H3. Qed.

(** The operations that change the database, with their transactions. *)
Inductive operation : forall {A : Type}, ST Pg A -> Prop :=
  | o_statement {A} (q : Stmt A) : statement q -> operation (exec q)
  | o_create inp : operation (InstanceRepo.Create inp)
  | o_transition id to opts : operation (Transition id to opts)
  | o_reserve node size count : operation (Reserve node size count)
  | o_bind r i : operation (BindToInstance r i)
  | o_releaseReserved r : operation (ReleaseReserved r)
  | o_sync node hash slots : operation (SyncFromProfile node hash slots)
  | o_post inp : is_int64 (pi_DeltaMilli inp) = true -> operation (Post inp)
  | o_createUser salt email password : operation (CreateUser salt email password)
  | o_createSession rnd now user ttl : operation (CreateSession rnd now user ttl)
  | o_add user label pubkey : operation (Add user label pubkey)
  | o_handshake ma svc first ack : operation (handshake ma svc first ack)
  | o_message ma pa svc node msg : operation (handleAgentMessage ma pa svc node msg)
  | o_sweep svc ttl now : operation (sweep_tick svc ttl now)
  | o_cli env args : operation (dispatch env args).

Lemma schema_operation {A} (m : ST Pg A) : operation m -> preserves (on_db schema_ok) m.
Proof.
  intros [? q Hq| | | | | | | | | | | | | |]; eauto using exec_keeps, schema_statement, op_Create, op_Transition, op_Reserve,
    op_Bind, op_ReleaseReserved, op_SyncFromProfile, op_Post, op_CreateUser, op_CreateSession, op_Add, op_handshake,
    op_message, op_sweep_tick, op_cli.
Qed.

(** An operation on the server, or the server moving on by itself: its
    clock, its random identifiers, the faults of the connection to come. *)
Inductive history : Pg -> Pg -> Prop :=
  | h_operation {A} (m : ST Pg A) s : operation m -> history s (m s).2
  | h_world s s' : pg_db s' = pg_db s -> history s s'.

(** What the migrations leave: the seeded zone. *)
Definition migrated (z : Zone) : DB :=
  {| db_users := ∅; db_sessions := ∅; db_zones := {[zn_ID z := z]}; db_nodes := ∅; db_gpu_slots := ∅; db_instances := ∅;
     db_instance_events := []; db_credits := ∅; db_credit_ledger := []; db_ssh_keys := ∅; db_node_tokens := ∅;
     db_teams := ∅; db_team_members := ∅ |}.

Lemma migrated_ok z : schema_ok (migrated z).
Proof.
  constructor; simpl; try apply table_empty; try (by intros ? ?%not_elem_of_nil); [|constructor|].
  - apply (table_insert (id := zn_ID)); [apply table_empty|done|done].
  - intros team user [? ?]. by rewrite lookup_empty in *.
Qed.

(** Type soundness of the database.  Whatever sequence of operations and
    single statements runs, with whatever arguments, in whatever order, and
    whichever round trips to the server are refused or lose their answer, the
    database keeps the type the migrations give it: primary keys, unique
    columns (e-mails, session hashes, node names, slot indices per node,
    idempotency keys, fingerprints per user, team names), every foreign key,
    the checks on sizes and access policies, the enumerations of states, and
    balances within a bigint. *)
Theorem schema_sound z s s' :
  pg_db s = migrated z -> rtc history s s' -> schema_ok (pg_db s').
Proof.
  intros Hs Hr. assert (on_db schema_ok s) as Hok by (unfold on_db; rewrite Hs; apply migrated_ok). clear Hs.
  induction Hr as [s|s s1 s' Hstep _ IH]; [done|]. apply IH. clear IH.
  destruct Hstep as [A m s Hm|s s1 Heq]; [by apply (schema_operation m)|]. unfold on_db. by rewrite Heq.
Qed.
End operations.

(** ** Witness *)

#[local] Existing Instances demo_bcrypt demo_ssh DemoUUID.lib C_collation.

Module Demo.
Definition zone : Zone :=
  {| zn_ID := 1; zn_Name := "dc-seoul-1"; zn_Description := ""; zn_IsDefault := true; zn_CreatedAt := 0 |}.
Definition start : Pg := on_demo (migrated zone).
Definition joined : Pg := (UpsertOnline {| ui_ZoneID := 1; ui_NodeName := "gpu-1"; ui_Hostname := "gpu-1";
  ui_AgentVersion := "0.1.0"; ui_TopologyJSON := "{}" |} start).2.
Definition created (node : UUID) : Pg := (InstanceRepo.Create {| cin_OwnerID := None; cin_NodeID := node; cin_Name := "vm";
  cin_MemoryMiB := 1024; cin_VCPUs := 2; cin_GPUCount := 1; cin_SlotIndices := None; cin_SSHPubkeys := None;
  cin_ImageRef := "" |} joined).2.
End Demo.

(** A node joins and an instance is created on it; one on a node that does
    not exist is refused. *)
Lemma schema_sound_witness :
  exists node, let s := Demo.created node in
  length (rows (db_instances (pg_db s))) = 1 /\ length (db_instance_events (pg_db s)) = 1 /\
  length (rows (db_instances (pg_db (Demo.created (node + 1))))) = 0 /\ schema_ok (pg_db s).
Proof.
  exists (default 0%N (nd_ID <$> row_where (named "gpu-1") (db_nodes (pg_db Demo.joined)))).
  split; [vm_compute; reflexivity|]. split; [vm_compute; reflexivity|]. split; [vm_compute; reflexivity|].
  apply (schema_sound Demo.zone Demo.start); [reflexivity|].
  eapply rtc_l; [eapply (h_operation (UpsertOnline _)), o_statement, st_upsertNode|].
  eapply rtc_once, (h_operation (InstanceRepo.Create _)), o_create.
Defined.
