(* ===== verification/StoredRows.v ===== *)
(** * What the rows of accounts hold

    The database does not look into the texts it stores; the Go code in front
    of it does (internal/auth, internal/sshkeys, internal/credit, cmd/admin).
    Every row of a user, session, SSH key, node token and ledger entry that
    the program ever stores has gone through those checks: addresses are
    normalised and valid, passwords and tokens are stored as hashes of
    admissible ones only, keys are canonical and match their fingerprint. *)

From S2P Require Import Prelude GoStrings GoCrypto Proto Db Queries AccountQueries InstanceRepo SlotRepo CreditRepo Billing NodeRepo Auth SSHKeys AgentStream AgentAuth AdminCLI Demo.

#[local] Open Scope string_scope.
#[local] Open Scope list_scope.

Section rows.
Context `{UUIDLib, Bcrypt, SSHLib, Collation}.

Definition user_row (u : User) : Prop :=
  NormalizeEmail (us_Email u) = us_Email u /\ ValidateEmail (us_Email u) = Ok tt /\ us_IsAdmin u = false /\
  exists salt pw, (10 <= String.length pw <= 72)%nat /\
    GenerateFromPassword salt pw BcryptCost = Ok (us_PasswordHash u).

Definition session_row (s : Session) : Prop :=
  exists rnd raw, GenerateSessionToken (Ok rnd) = Ok (raw, se_TokenHash s).

Definition key_row (k : SshKey) : Prop :=
  (1 <= String.length (sk_Label k) <= 64)%nat /\ TrimSpace (sk_Label k) = sk_Label k /\
  exists line key, (String.length line <= 4096)%nat /\ ParseAuthorizedKey line = Ok key /\
    sk_Pubkey k = TrimSpace (MarshalAuthorizedKey key) /\ sk_Fingerprint k = Fingerprint key.

Definition token_row (t : NodeToken) : Prop :=
  exists rnd salt plaintext, generateTokenPlaintext rnd = Ok plaintext /\
    GenerateFromPassword salt plaintext nodeTokenBcryptCost = Ok (nt_TokenHash t).

Definition entry_row (e : CreditLedger) : Prop := cl_IdempotencyKey e <> "" /\ cl_Metadata e <> "".

Record stored_ok (d : DB) : Prop := {
  so_users id u : db_users d !! id = Some u -> user_row u;
  so_sessions id s : db_sessions d !! id = Some s -> session_row s;
  so_keys id k : db_ssh_keys d !! id = Some k -> key_row k;
  so_tokens id t : db_node_tokens d !! id = Some t -> token_row t;
  so_ledger e : e ∈ db_credit_ledger d -> entry_row e
}.

(** ** Statements *)

Lemma stored_frame d d' :
  db_users d' = db_users d -> db_sessions d' = db_sessions d -> db_ssh_keys d' = db_ssh_keys d ->
  db_node_tokens d' = db_node_tokens d -> db_credit_ledger d' = db_credit_ledger d ->
  stored_ok d -> stored_ok d'.
Proof. intros H1' H2' H3' H4' H5' [? ? ? ? ?]. constructor; rewrite ?H1', ?H2', ?H3', ?H4', ?H5'; done. Qed.

Lemma stored_insert {V} (P : V -> Prop) (m : gmap UUID V) k v :
  (forall i w, m !! i = Some w -> P w) -> P v -> forall i w, <[k := v]> m !! i = Some w -> P w.
Proof. intros Hm Hv i w. rewrite lookup_insert. case_decide; [by intros [= <-]|apply Hm]. Qed.

Lemma stored_filter {V} (P : V -> Prop) (Q : UUID * V -> Prop) `{forall kv, Decision (Q kv)} (m : gmap UUID V) :
  (forall i w, m !! i = Some w -> P w) -> forall i w, filter Q m !! i = Some w -> P w.
Proof. intros Hm i w [Hi _]%map_lookup_filter_Some. by apply (Hm i). Qed.

(** A statement that leaves the five tables alone. *)
Ltac other_table :=
  intros ? d Hd; cbn beta; repeat (case_match; try exact Hd); try exact Hd;
  (apply (stored_frame d); [reflexivity..|exact Hd]).

Lemma stored_createUser arg :
  NormalizeEmail (cup_Email arg) = cup_Email arg -> ValidateEmail (cup_Email arg) = Ok tt -> cup_IsAdmin arg = false ->
  (exists salt pw, (10 <= String.length pw <= 72)%nat /\ GenerateFromPassword salt pw BcryptCost = Ok (cup_PasswordHash arg)) ->
  keeps stored_ok (createUser arg).
Proof.
  intros Hn Hv Ha Hp e d [? ? ? ? ?]. unfold createUser. repeat (case_match; try done). constructor; simpl; try done.
  by eapply (stored_insert user_row).
Qed.

Lemma stored_createSession arg :
  (exists rnd raw, GenerateSessionToken (Ok rnd) = Ok (raw, csp_TokenHash arg)) -> keeps stored_ok (createSession arg).
Proof.
  intros Hs e d [? ? ? ? ?]. unfold createSession. repeat (case_match; try done). constructor; simpl; try done.
  by eapply (stored_insert session_row).
Qed.

Lemma stored_createSSHKey user label pubkey arg :
  parse_key user label pubkey = Ok arg -> keeps stored_ok (createSSHKey arg).
Proof.
  unfold parse_key, MaxLabelLen, MaxPubkeyLen. intros Hp e d [? ? ? ? ?].
  destruct (String.eqb_spec (TrimSpace label) "") as [|Hne]; [done|].
  destruct (Nat.ltb_spec 64 (String.length (TrimSpace label))); [done|].
  destruct (Nat.ltb_spec 4096 (String.length pubkey)); [done|].
  destruct (ParseAuthorizedKey pubkey) as [key|] eqn:Hk; [|done]. injection Hp as <-.
  unfold createSSHKey. repeat (case_match; try done). constructor; simpl; try done.
  eapply (stored_insert key_row); [done|]. unfold key_row. simpl. split_and!; [|done|apply TrimSpace_idem|by exists pubkey, key].
  destruct (TrimSpace label); [done|]. simpl. lia.
Qed.

Lemma stored_nodeTokenInsert node rnd salt plaintext hash by_ :
  generateTokenPlaintext rnd = Ok plaintext -> GenerateFromPassword salt plaintext nodeTokenBcryptCost = Ok hash ->
  keeps stored_ok (nodeTokenInsert {| ntp_NodeID := node; ntp_TokenHash := hash; ntp_CreatedBy := by_ |}).
Proof.
  intros Hg Hh e d [? ? ? ? ?]. unfold nodeTokenInsert. repeat (case_match; try done). constructor; simpl; try done.
  eapply (stored_insert token_row); [done|]. by exists rnd, salt, plaintext.
Qed.

Lemma stored_insertLedger arg :
  lep_IdempotencyKey arg <> "" -> lep_Metadata arg <> "" -> keeps stored_ok (insertCreditLedgerEntry arg).
Proof.
  intros Hk Hm e d Hd. unfold insertCreditLedgerEntry. repeat (case_match; try done).
  destruct Hd. constructor; simpl; try done. intros x [Hx|Hx%list_elem_of_singleton]%elem_of_app; [auto|by subst].
Qed.

Lemma stored_nodeTokenRevoke id : keeps stored_ok (nodeTokenRevoke id).
Proof.
  intros e d Hd. unfold nodeTokenRevoke. destruct Hd as [? ? ? Ht ?]. constructor; simpl; try done.
  intros i t. rewrite lookup_alter. case_decide; [subst|by apply Ht].
  destruct (_ !! i) as [t0|] eqn:E; [|done]. simpl. intros [= <-]. specialize (Ht i t0 E).
  unfold token_row in *. by repeat case_match.
Qed.

Lemma stored_deleteSession h : keeps stored_ok (deleteSessionByTokenHash h).
Proof. intros e d [? ? ? ? ?]. constructor; simpl; try done. by eapply (stored_filter session_row). Qed.

Lemma stored_deleteExpired : keeps stored_ok deleteExpiredSessions.
Proof. intros e d [? ? ? ? ?]. constructor; simpl; try done. by eapply (stored_filter session_row). Qed.

Lemma stored_deleteSSHKey id user : keeps stored_ok (deleteSSHKeyForUser id user).
Proof.
  intros e d Hd. unfold deleteSSHKeyForUser. repeat (case_match; try done). destruct Hd as [? ? Hk ? ?].
  constructor; simpl; try done. intros i k [_ Hi]%lookup_delete_Some. by apply (Hk i).
Qed.
Lemma stored_createInstance arg : keeps stored_ok (createInstance arg).
Proof. unfold createInstance. other_table. Qed.
Lemma stored_deleteInstance id : keeps stored_ok (deleteInstance id).
Proof. unfold deleteInstance. other_table. Qed.
Lemma stored_insertInstanceEvent arg : keeps stored_ok (insertInstanceEvent arg).
Proof. unfold insertInstanceEvent. other_table. Qed.
Lemma stored_updateInstanceState arg : keeps stored_ok (updateInstanceState arg).
Proof. unfold updateInstanceState. other_table. Qed.
Lemma stored_releaseReservedSlots ids : keeps stored_ok (releaseReservedSlots ids).
Proof. unfold releaseReservedSlots. other_table. Qed.
Lemma stored_releaseAllOrphanReservedSlots : keeps stored_ok releaseAllOrphanReservedSlots.
Proof. unfold releaseAllOrphanReservedSlots. other_table. Qed.
Lemma stored_releaseSlotsForInstance id : keeps stored_ok (releaseSlotsForInstance id).
Proof. unfold releaseSlotsForInstance. other_table. Qed.
Lemma stored_reserveFreeSlots node size limit : keeps stored_ok (reserveFreeSlots node size limit).
Proof. unfold reserveFreeSlots. other_table. Qed.
Lemma stored_bindSlotToInstance id inst : keeps stored_ok (bindSlotToInstance id inst).
Proof. unfold bindSlotToInstance. other_table. Qed.
Lemma stored_deleteSlotsForNode node : keeps stored_ok (deleteSlotsForNode node).
Proof. unfold deleteSlotsForNode. other_table. Qed.
Lemma stored_insertSlot arg : keeps stored_ok (insertSlot arg).
Proof. unfold insertSlot. other_table. Qed.
Lemma stored_updateNodeProfileHash id h : keeps stored_ok (updateNodeProfileHash id h).
Proof. unfold updateNodeProfileHash. other_table. Qed.
Lemma stored_touchNodeHeartbeat id : keeps stored_ok (touchNodeHeartbeat id).
Proof. unfold touchNodeHeartbeat. other_table. Qed.
Lemma stored_markStaleNodesOfflineReturning cutoff : keeps stored_ok (markStaleNodesOfflineReturning cutoff).
Proof. unfold markStaleNodesOfflineReturning. other_table. Qed.
Lemma stored_pinNodeACL team node : keeps stored_ok (pinNodeACL team node).
Proof. unfold pinNodeACL. other_table. Qed.
Lemma stored_upsertNode arg : keeps stored_ok (upsertNode arg).
Proof. unfold upsertNode. other_table. Qed.
Lemma stored_upsertCredits user delta : keeps stored_ok (upsertCredits user delta).
Proof. unfold upsertCredits. other_table. Qed.
Lemma stored_getSessionByTokenHash h : keeps stored_ok (getSessionByTokenHash h).
Proof. unfold getSessionByTokenHash. other_table. Qed.
Lemma stored_teamCreate name description : keeps stored_ok (teamCreate name description).
Proof. unfold teamCreate. other_table. Qed.
Lemma stored_teamMemberAdd team user : keeps stored_ok (teamMemberAdd team user).
Proof. unfold teamMemberAdd. other_table. Qed.

#[local] Hint Resolve stored_createUser stored_createSession stored_createSSHKey stored_nodeTokenInsert stored_insertLedger
  stored_nodeTokenRevoke stored_deleteSession stored_deleteExpired stored_deleteSSHKey stored_createInstance stored_deleteInstance stored_insertInstanceEvent stored_updateInstanceState stored_releaseReservedSlots stored_releaseAllOrphanReservedSlots stored_releaseSlotsForInstance stored_reserveFreeSlots stored_bindSlotToInstance stored_deleteSlotsForNode stored_insertSlot stored_updateNodeProfileHash stored_touchNodeHeartbeat stored_markStaleNodesOfflineReturning stored_pinNodeACL stored_upsertNode stored_upsertCredits stored_getSessionByTokenHash stored_teamCreate stored_teamMemberAdd : pres.

(** ** Operations *)

Ltac stored_op := repeat first [solve [eauto 4 with pres nocore] | pres_step | apply inTx_body_preserves].

Lemma stored_CreateUser salt email pw : preserves (on_db stored_ok) (CreateUser salt email pw).
Proof.
  unfold CreateUser. destruct (ValidateEmail _) as [[]|] eqn:Hv; [|apply preserves_ret].
  destruct (HashPassword salt pw) as [hash|] eqn:Hh; [|apply preserves_ret].
  apply preserves_bind; [|intros; apply preserves_ret]. apply exec_keeps, stored_createUser; simpl; try done.
  - apply NormalizeEmail_idem.
  - unfold HashPassword, ValidatePassword, MinPasswordLength in Hh. exists salt, pw.
    destruct (Nat.ltb_spec (String.length pw) 10); [done|].
    destruct (Nat.ltb_spec 72 (String.length pw)); [done|].
    destruct (GenerateFromPassword salt pw BcryptCost) eqn:Hg; [|done]. injection Hh as ->. split; [lia|done].
Qed.

Lemma stored_CreateSession rnd now user ttl : preserves (on_db stored_ok) (CreateSession rnd now user ttl).
Proof.
  unfold CreateSession. destruct (_ <=? _)%Z; [apply preserves_ret|].
  destruct (GenerateSessionToken rnd) as [[raw hash]|e] eqn:Hg; [|apply preserves_ret].
  apply preserves_bindR; [|intros; apply preserves_ret]. apply preserves_wrapErr, exec_keeps, stored_createSession.
  destruct rnd as [buf|]; [|done]. by exists buf, raw.
Qed.

Lemma stored_LookupSession raw : preserves (on_db stored_ok) (LookupSession raw).
Proof. unfold LookupSession. stored_op. Qed.

Lemma stored_RevokeSession raw : preserves (on_db stored_ok) (RevokeSession raw).
Proof. unfold RevokeSession. stored_op. Qed.

Lemma stored_Add user label pubkey : preserves (on_db stored_ok) (Add user label pubkey).
Proof.
  unfold Add. destruct (parse_key user label pubkey) as [arg|] eqn:Hp; [|apply preserves_ret].
  apply preserves_bind; [|intros; apply preserves_ret]. apply exec_keeps. by eapply stored_createSSHKey.
Qed.

Lemma stored_DeleteKey user id : preserves (on_db stored_ok) (DeleteKey user id).
Proof. unfold DeleteKey. stored_op. Qed.

Lemma stored_Post inp : preserves (on_db stored_ok) (Post inp).
Proof.
  unfold Post. destruct (String.eqb_spec (pi_IdempotencyKey inp) "") as [|Hne]; [apply preserves_ret|].
  assert (preserves (on_db stored_ok) (post_insert inp)) as Hi.
  { unfold post_insert. apply preserves_bind; [|intros; apply preserves_ret].
    apply exec_keeps, stored_insertLedger; simpl; [done|]. by destruct (String.eqb_spec (pi_Metadata inp) ""). }
  stored_op.
Qed.

Lemma stored_Create inp : preserves (on_db stored_ok) (InstanceRepo.Create inp).
Proof. unfold InstanceRepo.Create. stored_op. Qed.

Lemma stored_Transition id to opts : preserves (on_db stored_ok) (Transition id to opts).
Proof. unfold Transition, transition_store. stored_op. Qed.

Lemma stored_Reserve node size count : preserves (on_db stored_ok) (Reserve node size count).
Proof. unfold Reserve. stored_op. Qed.

Lemma stored_Bind r i : preserves (on_db stored_ok) (BindToInstance r i).
Proof. unfold BindToInstance. stored_op. Qed.

Lemma stored_ReleaseReserved r : preserves (on_db stored_ok) (ReleaseReserved r).
Proof. unfold ReleaseReserved. stored_op. Qed.

Lemma stored_ReleaseForInstance id : preserves (on_db stored_ok) (ReleaseForInstance id).
Proof. unfold ReleaseForInstance. stored_op. Qed.

Lemma stored_SyncFromProfile node hash slots : preserves (on_db stored_ok) (SyncFromProfile node hash slots).
Proof. unfold SyncFromProfile, insert_profile_slots. stored_op. Qed.
#[local] Hint Resolve stored_Transition stored_ReleaseForInstance stored_SyncFromProfile stored_Post : pres.

Lemma stored_message pa ma svc node msg : preserves (on_db stored_ok) (handleAgentMessage pa ma svc node msg).
Proof. unfold handleAgentMessage, applyInstanceStatus, TouchHeartbeat, UpdateTopology. stored_op. Qed.

Lemma stored_handshake pa svc first ack : preserves (on_db stored_ok) (handshake pa svc first ack).
Proof. unfold handshake, sync_profile, UpsertOnline. stored_op. Qed.

Lemma stored_sweep_tick svc ttl now : preserves (on_db stored_ok) (sweep_tick svc ttl now).
Proof.
  unfold sweep_tick, reapInstancesForOfflineNode, reap_instance, MarkStaleOffline, NonTerminalInstancesForNode. stored_op.
Qed.

Lemma stored_node_token_create env args : preserves (on_db stored_ok) (nodeTokenCreate env args).
Proof.
  unfold nodeTokenCreate, fail. destruct (flags _ _) as [fs|]; [|apply preserves_ret].
  cbv zeta. destruct (_ || _); [apply preserves_ret|].
  apply preserves_bindR; [stored_op|intros node]. apply preserves_bindR; [stored_op|intros team].
  destruct (generateTokenPlaintext _) as [p|] eqn:Hg; [|apply preserves_ret].
  destruct (GenerateFromPassword _ p _) as [hash|] eqn:Hh; [|apply preserves_ret]. stored_op.
Qed.
#[local] Hint Resolve stored_node_token_create : pres.

Lemma stored_cli env args : preserves (on_db stored_ok) (dispatch env args).
Proof.
  unfold dispatch, runNodeToken, runTeam, nodeTokenList, nodeTokenRevoke_command, teamCreate_command,
    teamAddMember, teamListMembers, named_team, user_of_email, fail. stored_op.
Qed.

Lemma stored_charge w now : preserves (on_db stored_ok) (charge w now).
Proof. unfold charge, charge_row. stored_op. Qed.

(** ** Histories *)

(** The operations of the program that change the database. *)
Inductive stored_op : forall {A : Type}, ST Pg A -> Prop :=
  | so_register salt email pw : stored_op (CreateUser salt email pw)
  | so_login rnd now user ttl : stored_op (CreateSession rnd now user ttl)
  | so_lookup raw : stored_op (LookupSession raw)
  | so_revoke raw : stored_op (RevokeSession raw)
  | so_expire : stored_op SweepExpired
  | so_key_add user label pubkey : stored_op (Add user label pubkey)
  | so_key_delete user id : stored_op (DeleteKey user id)
  | so_post inp : stored_op (Post inp)
  | so_charge w now : stored_op (charge w now)
  | so_create inp : stored_op (InstanceRepo.Create inp)
  | so_transition id to opts : stored_op (Transition id to opts)
  | so_delete id : stored_op (Delete id)
  | so_reserve node size count : stored_op (Reserve node size count)
  | so_bind r i : stored_op (BindToInstance r i)
  | so_release r : stored_op (ReleaseReserved r)
  | so_release_for id : stored_op (ReleaseForInstance id)
  | so_sync node hash slots : stored_op (SyncFromProfile node hash slots)
  | so_handshake pa svc first ack : stored_op (handshake pa svc first ack)
  | so_message pa ma svc node msg : stored_op (handleAgentMessage pa ma svc node msg)
  | so_sweep svc ttl now : stored_op (sweep_tick svc ttl now)
  | so_cli env args : stored_op (dispatch env args).

Lemma stored_operation {A} (m : ST Pg A) : stored_op m -> preserves (on_db stored_ok) m.
Proof.
  intros []; eauto using stored_CreateUser, stored_CreateSession, stored_LookupSession, stored_RevokeSession, stored_Add,
    stored_DeleteKey, stored_Post, stored_charge, stored_Create, stored_Transition, stored_Reserve, stored_Bind,
    stored_ReleaseReserved, stored_ReleaseForInstance, stored_SyncFromProfile, stored_handshake, stored_message,
    stored_sweep_tick, stored_cli, exec_keeps, stored_deleteExpired, stored_deleteInstance.
Qed.

(** One step: an operation, or the server moving on by itself, its clock,
    its random identifiers and the faults of the connection to come. *)
Inductive stored_step : Pg -> Pg -> Prop :=
  | ss_operation {A} (m : ST Pg A) s : stored_op m -> stored_step s (m s).2
  | ss_world s s' : pg_db s' = pg_db s -> stored_step s s'.

(** A database before anyone has registered: the five tables are empty, the
    rest (zones, nodes, slots, instances) is anything. *)
Record no_accounts (d : DB) : Prop := {
  na_users : db_users d = ∅;
  na_sessions : db_sessions d = ∅;
  na_keys : db_ssh_keys d = ∅;
  na_tokens : db_node_tokens d = ∅;
  na_ledger : db_credit_ledger d = []
}.

Lemma no_accounts_ok d : no_accounts d -> stored_ok d.
Proof.
  intros [Hu Hs Hk Ht Hl]. constructor; [rewrite Hu|rewrite Hs|rewrite Hk|rewrite Ht|rewrite Hl];
    try (intros ? ?; rewrite lookup_empty; done). by intros ? ?%not_elem_of_nil.
Qed.

(** C5: What the program stores about accounts.  Start from a database in
    which the tables of users, sessions, SSH keys, node tokens and ledger
    entries are empty, and run any sequence of the operations of [stored_op]
    (registration, login, logout, keys, ledger posts, the charge of a
    minute, instances and slots, the agents' handshakes and messages, the
    sweep, the admin commands), one after the other, with any arguments, and
    with any round trip to the server refused or its answer lost.  Then every
    user's address is normalised and valid, the user is not an administrator
    and the stored hash is bcrypt's, at the configured cost, of a password of
    10 to 72 bytes; every session row holds the hash of a generated session
    token; every SSH key has a trimmed label of 1 to 64 bytes, and its text
    and fingerprint are those of one parsed key that came in a line of at most
    4096 bytes; every node token is the bcrypt hash of a generated one; no
    ledger entry has an empty idempotency key or empty metadata. *)
Theorem stored_rows_canonical s s' :
  no_accounts (pg_db s) -> rtc stored_step s s' -> stored_ok (pg_db s').
Proof.
  intros Hs%no_accounts_ok Hr. change (on_db stored_ok s) in Hs. induction Hr as [s|s s1 s' Hstep _ IH]; [done|].
  apply IH. destruct Hstep as [A m s Hm|s s1 Heq]; [by apply (stored_operation m)|]. unfold on_db. by rewrite Heq.
Qed.

End rows.

(** ** Witness *)

#[local] Existing Instances demo_bcrypt demo_ssh DemoUUID.lib C_collation.

Definition blank : DB :=
  {| db_users := ∅; db_sessions := ∅; db_zones := db_zones demo_db; db_nodes := db_nodes demo_db;
     db_gpu_slots := db_gpu_slots demo_db; db_instances := ∅; db_instance_events := []; db_credits := ∅;
     db_credit_ledger := []; db_ssh_keys := ∅; db_node_tokens := ∅; db_teams := ∅; db_team_members := ∅ |}.

(** Bob registers, logs in, adds a key and is credited. *)
Definition registered : Pg := (CreateUser 0 " Bob@X.io " "correct horse" (on_demo blank)).2.
Definition logged_in (user : UUID) : Pg := (CreateSession (Ok (repeat 7%N 32)) 100 user 50 registered).2.
Definition with_key (user : UUID) : Pg := (Add user " laptop " "ssh-ed25519 AAAA" (logged_in user)).2.
Definition credited (user : UUID) : Pg :=
  (Post {| pi_UserID := user; pi_DeltaMilli := 500; pi_Reason := "recharge"; pi_InstanceID := None;
           pi_IdempotencyKey := "k1"; pi_Metadata := "" |} (with_key user)).2.

Lemma stored_rows_canonical_witness :
  exists user, let d := pg_db (credited user) in
  us_Email <$> rows (db_users d) = ["bob@x.io"] /\ length (rows (db_sessions d)) = 1 /\
  sk_Label <$> rows (db_ssh_keys d) = ["laptop"] /\ cl_Metadata <$> db_credit_ledger d = ["{}"] /\ stored_ok d.
Proof.
  exists (default 0%N (us_ID <$> row_where (fun _ => true) (db_users (pg_db registered)))).
  split; [vm_compute; reflexivity|]. split; [vm_compute; reflexivity|].
  split; [vm_compute; reflexivity|]. split; [vm_compute; reflexivity|].
  apply (stored_rows_canonical (on_demo blank)); [by constructor|].
  eapply rtc_l; [eapply (ss_operation (CreateUser _ _ _)), so_register|].
  eapply rtc_l; [eapply (ss_operation (CreateSession _ _ _ _)), so_login|].
  eapply rtc_l; [eapply (ss_operation (Add _ _ _)), so_key_add|].
  eapply rtc_once, (ss_operation (Post _)), so_post.
Defined.
