(* ===== verification/Shutdown.v ===== *)
(** * Stopping main-api and compute-agent

    The second half of [main] of main-api (cmd/main-api/main.go): the
    goroutines it starts under one WaitGroup, the signal, and the sequence of
    [Shutdown], [GracefulStop] and [Wait] that follows; and [Wait] of the VM
    handler (compute-agent internal/vm/handler.go).  Step relations over the
    goroutines; what each of them does while it serves is in the files of the
    components.

    gRPC's server is a library: [GracefulStop] accepts nothing new and
    returns when every RPC in progress has returned, and [Serve] returns once
    it was called. *)

From S2P Require Import Prelude GoStrings Proto Db Demo Boot.
From stdpp Require Import relations.

#[local] Open Scope list_scope.

(** ** The goroutines of main-api *)

Inductive goroutine :=
  | GrpcServe
  | HttpServe
  | SweeperLoop
  | BillingLoop
  | MetricsLoop.

#[export] Instance goroutine_eq_dec : EqDecision goroutine.
Proof. solve_decision. Defined.

(** Where [main] is: waiting for the signal, in one of the calls that follow
    it, in the deferred [pool.Close], gone. *)
Inductive main_at :=
  | AwaitSignal
  | InShutdown
  | InGracefulStop
  | InWait
  | InPoolClose
  | Gone.

Record process := {
  pr_main : main_at;
  pr_ctx : bool;                     (* the signal has come *)
  pr_wg : Z;                         (* the counter of the WaitGroup *)
  pr_running : list goroutine;
  pr_requests : list bool;           (* HTTP requests in progress: holding a connection of the pool? *)
  pr_streams : list UUID             (* Stream RPCs in progress, by their node *)
}.

Definition at_main (m : main_at) (p : process) : process :=
  {| pr_main := m; pr_ctx := pr_ctx p; pr_wg := pr_wg p; pr_running := pr_running p;
     pr_requests := pr_requests p; pr_streams := pr_streams p |}.
Definition with_requests (l : list bool) (p : process) : process :=
  {| pr_main := pr_main p; pr_ctx := pr_ctx p; pr_wg := pr_wg p; pr_running := pr_running p;
     pr_requests := l; pr_streams := pr_streams p |}.
Definition with_streams (l : list UUID) (p : process) : process :=
  {| pr_main := pr_main p; pr_ctx := pr_ctx p; pr_wg := pr_wg p; pr_running := pr_running p;
     pr_requests := pr_requests p; pr_streams := l |}.
Definition signalled (p : process) : process :=
  {| pr_main := pr_main p; pr_ctx := true; pr_wg := pr_wg p; pr_running := pr_running p;
     pr_requests := pr_requests p; pr_streams := pr_streams p |}.

(** [wg.Add], the go statement, and the end of a goroutine with its deferred
    [wg.Done]. *)
Definition wg_Add (n : Z) (p : process) : process :=
  {| pr_main := pr_main p; pr_ctx := pr_ctx p; pr_wg := pr_wg p + n; pr_running := pr_running p;
     pr_requests := pr_requests p; pr_streams := pr_streams p |}.
Definition spawn (g : goroutine) (p : process) : process :=
  {| pr_main := pr_main p; pr_ctx := pr_ctx p; pr_wg := pr_wg p; pr_running := g :: pr_running p;
     pr_requests := pr_requests p; pr_streams := pr_streams p |}.
Definition ended (g : goroutine) (p : process) : process :=
  {| pr_main := pr_main p; pr_ctx := pr_ctx p; pr_wg := pr_wg p - 1;
     pr_running := List.filter (fun h => negb (bool_decide (h = g))) (pr_running p);
     pr_requests := pr_requests p; pr_streams := pr_streams p |}.

Definition blank : process :=
  {| pr_main := AwaitSignal; pr_ctx := false; pr_wg := 0; pr_running := []; pr_requests := []; pr_streams := [] |}.

Definition startBillingWorker (s : Server) (p : process) : process :=
  if sv_billing s is Some _ then spawn BillingLoop (wg_Add 1 p) else p.
Definition startMetricsRefresher (p : process) : process := spawn MetricsLoop (wg_Add 1 p).

(** [main] from the start-up of Boot to the wait for the signal. *)
Definition serving (s : Server) : process :=
  startMetricsRefresher (startBillingWorker s
    (spawn SweeperLoop (spawn HttpServe (spawn GrpcServe (wg_Add 3 blank))))).

(** Whether [httpServer.Shutdown] and [grpcServer.GracefulStop] have been
    called. *)
Definition shutdown_called (m : main_at) : bool := if m is AwaitSignal then false else true.
Definition graceful_called (m : main_at) : bool :=
  match m with AwaitSignal | InShutdown => false | _ => true end.

(** What makes a goroutine return, by itself. *)
Definition returns (g : goroutine) (p : process) : bool :=
  match g with
  | GrpcServe => graceful_called (pr_main p)
  | HttpServe => shutdown_called (pr_main p)
  | SweeperLoop | BillingLoop | MetricsLoop => pr_ctx p
  end.

(** The steps the process takes by itself.  [Shutdown] returns when the
    requests are done or after its ten seconds, and [main] ignores which. *)
Inductive istep (p : process) : process -> Prop :=
  | i_goroutine g : g ∈ pr_running p -> returns g p = true -> istep p (ended g p)
  | i_request i b : pr_main p <> Gone -> pr_requests p !! i = Some b ->
      istep p (with_requests (delete i (pr_requests p)) p)
  | i_signal : pr_main p = AwaitSignal -> pr_ctx p = true -> istep p (at_main InShutdown p)
  | i_shutdown : pr_main p = InShutdown -> istep p (at_main InGracefulStop p)
  | i_graceful : pr_main p = InGracefulStop -> pr_streams p = [] -> istep p (at_main InWait p)
  | i_wait : pr_main p = InWait -> pr_wg p = 0%Z -> istep p (at_main InPoolClose p)
  | i_pool : pr_main p = InPoolClose -> Forall (fun b => b = false) (pr_requests p) -> istep p (at_main Gone p).

(** And what comes from outside: the signal, a request, a request taking or
    giving back a connection, an agent connecting or going, a server whose
    listening or accepting fails (which leaves the connections it has). *)
Inductive step (p : process) : process -> Prop :=
  | x_signal : pr_main p <> Gone -> step p (signalled p)
  | x_request : shutdown_called (pr_main p) = false ->
      step p (with_requests (pr_requests p ++ [false]) p)
  | x_acquire i b : pr_main p <> InPoolClose -> pr_main p <> Gone -> i < length (pr_requests p) ->
      step p (with_requests (<[i := b]> (pr_requests p)) p)
  | x_agent node : graceful_called (pr_main p) = false ->
      step p (with_streams (pr_streams p ++ [node]) p)
  | x_agent_gone i : i < length (pr_streams p) -> step p (with_streams (delete i (pr_streams p)) p)
  | x_fails g : g ∈ pr_running p -> g = GrpcServe \/ g = HttpServe -> step p (ended g p)
  | x_internal q : istep p q -> step p q.

(** ** The invariant *)

Definition stage (m : main_at) : nat :=
  match m with AwaitSignal => 0 | InShutdown => 1 | InGracefulStop => 2 | InWait => 3 | InPoolClose => 4 | Gone => 5 end.

Record process_ok (p : process) : Prop := {
  pk_wg : pr_wg p = Z.of_nat (length (pr_running p)) /\ NoDup (pr_running p);
  pk_ctx : 1 <= stage (pr_main p) -> pr_ctx p = true;
  pk_streams : 3 <= stage (pr_main p) -> pr_streams p = [];
  pk_running : 4 <= stage (pr_main p) -> pr_running p = [];
  pk_requests : 5 <= stage (pr_main p) -> Forall (fun b => b = false) (pr_requests p)
}.

(** The goroutines of a server, with and without billing. *)
Ltac serving_cases s := unfold serving, startMetricsRefresher, startBillingWorker in *; destruct (sv_billing s).

Lemma serving_ok s : process_ok (serving s).
Proof.
  serving_cases s; constructor; simpl; try (by intros ?%Nat.nle_succ_0 || lia); split; try lia.
  all: repeat (apply NoDup_cons; split; [set_solver|]); by apply NoDup_nil.
Qed.

Lemma without_length (g : goroutine) l :
  NoDup l -> g ∈ l -> S (length (List.filter (fun h => negb (bool_decide (h = g))) l)) = length l.
Proof.
  induction 1 as [|h l Hn Hnd IH]; simpl; [by intros ?%not_elem_of_nil|].
  case_bool_decide as E; simpl.
  - intros _. subst h. f_equal. rewrite List.filter_ext_in with (g := fun _ => true); [by rewrite List.filter_true|].
    intros h Hh. apply list_elem_of_In in Hh. rewrite bool_decide_eq_false_2; [done|]. by intros ->.
  - intros [?|Hl]%elem_of_cons; [done|]. by rewrite IH.
Qed.

Lemma without_NoDup (f : goroutine -> bool) l : NoDup l -> NoDup (List.filter f l).
Proof.
  induction 1 as [|h l Hn _ IH]; simpl; [by apply NoDup_nil|]. destruct (f h); [|done].
  apply NoDup_cons. split; [|done]. contradict Hn. apply list_elem_of_In in Hn. apply List.filter_In in Hn as [Hn _].
  by apply list_elem_of_In.
Qed.

Lemma ended_ok g p : g ∈ pr_running p -> process_ok p -> process_ok (ended g p).
Proof.
  intros Hg [[Hw Hn] Hc Hs Hr Hq]. constructor; simpl; try done.
  - split; [|by apply without_NoDup]. pose proof (without_length g _ Hn Hg). lia.
  - intros H4. by rewrite (Hr H4).
Qed.

Lemma stop_step_ok p q : istep p q -> process_ok p -> process_ok q.
Proof.
  intros Hs Hp. destruct Hs as [g Hg Hret|i b Hm Hi|Hm Hc|Hm|Hm He|Hm Hw|Hm Hall]; [by apply ended_ok|..];
    destruct Hp as [[Hw' Hn] Hc' Hs' Hr Hq]; constructor; simpl in *; rewrite ?Hm in *; simpl in *;
    try done; try (intros; lia); try by (intros; auto with lia).
  - intros H5. by apply Forall_delete, Hq.
  - intros _. apply length_zero_iff_nil. lia.
Qed.

Lemma step_ok p q : step p q -> process_ok p -> process_ok q.
Proof.
  intros [Hm|Hm|i b H1 H2 Hi|node Hm|i Hi|g Hg _|q' Hq] Hp; [| | | | |by apply ended_ok|by eapply stop_step_ok];
    destruct Hp as [[Hw' Hn] Hc' Hs' Hr Hq]; constructor; simpl in *; try done.
  all: destruct (pr_main p); simpl in *; try done; try lia; auto.
  all: intros; by rewrite (Hs' ltac:(lia)).
Qed.

Lemma reachable_ok s p : rtc step (serving s) p -> process_ok p.
Proof.
  intros Hr. pose proof (serving_ok s) as H. induction Hr as [|x y z Hs _ IH]; [done|]. apply IH. by eapply step_ok.
Qed.

(** ** How the process stops *)

Definition work_left (p : process) : nat :=
  length (pr_running p) + length (pr_requests p) + (5 - stage (pr_main p)).

Lemma stop_step_left p q : istep p q -> process_ok p -> work_left q < work_left p.
Proof.
  unfold work_left. intros Hs Hp.
  destruct Hs as [g Hg _|i b _ Hi|Hm _|Hm|Hm _|Hm _|Hm _]; simpl; rewrite ?Hm; simpl; try lia.
  - pose proof (without_length g _ (proj2 (pk_wg _ Hp)) Hg). lia.
  - pose proof (lookup_lt_Some _ _ _ Hi). rewrite length_delete by eauto. lia.
Qed.

Lemma stop_ends p : process_ok p -> sn istep p.
Proof.
  remember (work_left p) as n eqn:Hn. revert p Hn.
  induction (lt_wf n) as [n _ IH]. intros p -> Hp. constructor. intros q Hs.
  eapply IH; [by apply stop_step_left|done|by eapply stop_step_ok].
Qed.

(** By itself the process neither ends an agent's stream nor takes back the
    signal. *)
Lemma istep_keeps p q : istep p q -> pr_streams q = pr_streams p /\ pr_ctx q = pr_ctx p.
Proof. by destruct 1. Qed.

Lemma isteps_keep p q : rtc istep p q -> pr_streams q = pr_streams p /\ pr_ctx q = pr_ctx p.
Proof.
  induction 1 as [|x y z [Hs Hc]%istep_keeps _ [IHs IHc]]; [done|]. by rewrite IHs, IHc.
Qed.

Lemma isteps_ok p q : rtc istep p q -> process_ok p -> process_ok q.
Proof. induction 1 as [|x y z Hs _ IH]; [done|]. intros Hp. apply IH. by eapply stop_step_ok. Qed.

Lemma all_return p : graceful_called (pr_main p) = true -> pr_ctx p = true -> nf istep p -> pr_running p = [].
Proof.
  intros Hg Hc Hnf. destruct (pr_running p) as [|g l] eqn:Hl; [done|]. exfalso. apply Hnf.
  exists (ended g p). apply i_goroutine; [rewrite Hl; by left|].
  destruct g; simpl; try done. by destruct (pr_main p).
Qed.

(** Where a process that was told to stop comes to rest. *)
Lemma stop_rests p :
  process_ok p -> pr_ctx p = true -> nf istep p ->
  pr_main p = Gone \/ pr_main p = InGracefulStop /\ pr_streams p <> [].
Proof.
  intros Hp Hc Hnf. destruct (pr_main p) eqn:Hm; try by left.
  - exfalso. apply Hnf. eexists. by apply i_signal.
  - exfalso. apply Hnf. eexists. by apply i_shutdown.
  - right. split; [done|]. intros He. apply Hnf. eexists. by apply i_graceful.
  - exfalso. apply Hnf. eexists. apply i_wait; [done|].
    rewrite (proj1 (pk_wg _ Hp)), (all_return p); [done| |done|done]. by rewrite Hm.
  - exfalso. apply Hnf. destruct (pr_requests p) as [|b l] eqn:Hq.
    + eexists. apply i_pool; [done|]. by rewrite Hq.
    + eexists. apply (i_request p 0 b); [congruence|]. by rewrite Hq.
Qed.

(** Whether there is a step can be decided, so every process told to stop
    does come to rest. *)
Lemma istep_or_rest p : (exists q, istep p q) \/ nf istep p.
Proof.
  destruct (decide (Exists (fun g => returns g p = true) (pr_running p))) as [(g & Hg & Hret)%Exists_exists|Hno].
  { left. eexists. by apply (i_goroutine p g). }
  assert ((exists q, istep p q) \/ forall q, istep p q -> exists g, g ∈ pr_running p /\ returns g p = true) as [?|H].
  2: { by left. }
  2: { right. intros [q (g & Hg & Hret)%H]. apply Hno, Exists_exists. eauto. }
  destruct (pr_main p) eqn:Hm.
  6: { right. intros q [g ? ?|? ? ? ?|?|?|?|?|?]; try congruence; by exists g. }
  all: destruct (pr_requests p) as [|b l] eqn:Hq;
    [|left; eexists; apply (i_request p 0 b); [congruence|by rewrite Hq]].
  - destruct (pr_ctx p) eqn:Hc; [left; eexists; by apply i_signal|].
    right. intros q [g ? ?|? ? ? Hi|?|?|?|?|?]; rewrite ?Hq in *; try done; try congruence; by exists g.
  - left. eexists. by apply i_shutdown.
  - destruct (pr_streams p) eqn:Hs; [left; eexists; by apply i_graceful|].
    right. intros q [g ? ?|? ? ? Hi|?|?|?|?|?]; rewrite ?Hq in *; try done; try congruence; by exists g.
  - destruct (decide (pr_wg p = 0%Z)); [left; eexists; by apply i_wait|].
    right. intros q [g ? ?|? ? ? Hi|?|?|?|?|?]; rewrite ?Hq in *; try done; try congruence; by exists g.
  - left. eexists. apply i_pool; [done|]. by rewrite Hq.
Qed.

Lemma comes_to_rest p : process_ok p -> exists q, rtc istep p q /\ nf istep q.
Proof.
  intros Hp%stop_ends. induction Hp as [p _ IH]. destruct (istep_or_rest p) as [[q Hq]|Hnf].
  - destruct (IH q Hq) as (r & Hr & Hnf). exists r. split; [by eapply rtc_l|done].
  - by exists p.
Qed.

(** C31: how main-api stops.  In every execution from a server that started:
    the counter of the WaitGroup is the number of goroutines that run (so
    [Done] never makes it negative and [Wait] does not return early); the
    process is gone only after the signal, when every goroutine has returned,
    no agent's stream is open and no request holds a connection of the pool;
    the steps it takes by itself end; and once the signal has come, the state
    in which they end is the end of the process exactly when no agent is
    connected: [GracefulStop] has no time limit, and no step of the process
    ends the stream of an agent. *)
Theorem stop_waits_for_agents s p :
  rtc step (serving s) p ->
  pr_wg p = Z.of_nat (length (pr_running p)) /\
  (pr_main p = Gone ->
     pr_ctx p = true /\ pr_running p = [] /\ pr_streams p = [] /\ Forall (fun b => b = false) (pr_requests p)) /\
  sn istep p /\
  (pr_ctx p = true -> forall q, rtc istep p q -> nf istep q ->
     (pr_main q = Gone <-> pr_streams p = []) /\
     (pr_streams p <> [] -> pr_main q = InGracefulStop /\ pr_streams q = pr_streams p)).
Proof.
  intros Hr%reachable_ok. pose proof Hr as [[Hw _] Hc Hs Hrun Hq]. split_and!.
  - done.
  - intros Hm. rewrite Hm in *. simpl in *. auto 10 with lia.
  - by apply stop_ends.
  - intros Hctx q Hpq Hnf. pose proof (isteps_ok _ _ Hpq Hr) as Hok. destruct (isteps_keep _ _ Hpq) as [Es Ec].
    destruct (stop_rests q Hok) as [Hm|[Hm Hne]]; [congruence|done|..]; rewrite Es in *.
    + assert (pr_streams p = []) as H0 by (rewrite <- Es; apply (pk_streams _ Hok); rewrite Hm; simpl; lia).
      by rewrite Hm, H0.
    + rewrite Hm. split; [|done]. by split.
Qed.

(** ** Witness and findings *)

(** A server with one agent connected that is told to stop. *)
Definition stopping (s : Server) (node : UUID) : process := signalled (with_streams [node] (serving s)).

Lemma stopping_reachable s node : rtc step (serving s) (stopping s node).
Proof.
  unfold stopping. serving_cases s;
    (eapply rtc_l; [by apply (x_agent _ node)|]; eapply rtc_l; [by apply x_signal|done]).
Qed.

Lemma stop_waits_for_agents_witness : exists srv s' q,
  main (demo_env []) demo_startup (demo []) = (Started srv, s') /\
  rtc istep (stopping srv 7%N) q /\ nf istep q /\ pr_main q = InGracefulStop.
Proof.
  destruct (main (demo_env []) demo_startup (demo [])) as [[code|srv] s'] eqn:Hrun; [vm_compute in Hrun; discriminate|].
  exists srv, s'. pose proof (stopping_reachable srv 7%N) as Hr.
  destruct (comes_to_rest (stopping srv 7%N) (reachable_ok _ _ Hr)) as (q & Hq & Hnf).
  exists q. split; [reflexivity|]. split; [done|]. split; [done|].
  apply (stop_waits_for_agents srv _ Hr); done.
Defined.

(** A server that cannot listen on its HTTP address says so in the log and
    goes on without: nothing ends it or starts HTTP again. *)
Theorem http_failure_is_survived s : exists p,
  rtc step (serving s) p /\ HttpServe ∉ pr_running p /\ pr_main p = AwaitSignal /\ nf istep p.
Proof.
  exists (ended HttpServe (serving s)). split_and!.
  - apply rtc_once, x_fails; [|by right]. serving_cases s; simpl; set_solver.
  - serving_cases s; simpl; set_solver.
  - by serving_cases s.
  - intros [q Hq]. serving_cases s; inversion Hq as [g Hg Hret|? ? ? Hi|? Hc|Hm|Hm|Hm|Hm]; simpl in *; try done;
      by destruct g.
Qed.

(** ** [Wait] of the VM handler

    [main] of compute-agent calls it once the control stream has ended, so no
    handler is started any more.  It closes the channel the pollers watch,
    lets a goroutine wait for the handlers, and takes whichever comes first,
    that goroutine or the grace period. *)
Record waiter := {
  wt_handlers : list bool;           (* the handlers started: still running? *)
  wt_shutdown : bool;                (* the channel [shutdown] is closed *)
  wt_done : bool;                    (* the channel [done] is closed *)
  wt_timer : bool;                   (* the grace period is over *)
  wt_result : option bool
}.

(** [Wait] up to its select. *)
Definition Wait (handlers : list bool) : waiter :=
  {| wt_handlers := handlers; wt_shutdown := true; wt_done := false; wt_timer := false; wt_result := None |}.

Definition set_result (b : bool) (w : waiter) : waiter :=
  {| wt_handlers := wt_handlers w; wt_shutdown := wt_shutdown w; wt_done := wt_done w;
     wt_timer := wt_timer w; wt_result := Some b |}.

Inductive wstep (w : waiter) : waiter -> Prop :=
  | w_handler i : wt_handlers w !! i = Some true ->
      wstep w {| wt_handlers := <[i := false]> (wt_handlers w); wt_shutdown := wt_shutdown w;
                 wt_done := wt_done w; wt_timer := wt_timer w; wt_result := wt_result w |}
  | w_waited : wt_done w = false -> Forall (fun b => b = false) (wt_handlers w) ->
      wstep w {| wt_handlers := wt_handlers w; wt_shutdown := wt_shutdown w; wt_done := true;
                 wt_timer := wt_timer w; wt_result := wt_result w |}
  | w_timer : wt_timer w = false ->
      wstep w {| wt_handlers := wt_handlers w; wt_shutdown := wt_shutdown w; wt_done := wt_done w;
                 wt_timer := true; wt_result := wt_result w |}
  | w_drained : wt_result w = None -> wt_done w = true -> wstep w (set_result true w)
  | w_expired : wt_result w = None -> wt_timer w = true -> wstep w (set_result false w).

Definition waiter_ok (w : waiter) : Prop :=
  wt_shutdown w = true /\
  (wt_done w = true -> Forall (fun b => b = false) (wt_handlers w)) /\
  (wt_result w = Some true -> wt_done w = true) /\
  (wt_result w = Some false -> wt_timer w = true).

Lemma wstep_ok w w' : wstep w w' -> waiter_ok w -> waiter_ok w'.
Proof.
  intros Hs (H1 & H2 & H3 & H4). destruct Hs as [i Hi|Hd Hall|Ht|Hr Hd|Hr Ht]; split_and!; simpl; try done; auto.
  intros Hd. apply Forall_insert; [by apply H2|done].
Qed.

(** [Wait] returns true only when every handler has returned and false only
    when the grace period is over; it always returns once one of the two has
    happened. *)
Theorem Wait_spec l w :
  rtc wstep (Wait l) w ->
  (wt_result w = Some true -> Forall (fun b => b = false) (wt_handlers w)) /\
  (wt_result w = Some false -> wt_timer w = true) /\
  (wt_timer w = true \/ Forall (fun b => b = false) (wt_handlers w) ->
     nf wstep w -> is_Some (wt_result w)).
Proof.
  intros Hr. assert (waiter_ok w) as (_ & H2 & H3 & H4).
  { assert (waiter_ok (Wait l)) as H by done. induction Hr as [|x y z Hs _ IH]; [done|]. apply IH. by eapply wstep_ok. }
  split_and!; [auto|auto|]. intros Hor Hnf. destruct (wt_result w) as [b|] eqn:Hres; [by eexists|]. exfalso. apply Hnf.
  destruct Hor as [Ht|Hall]; [eexists; by apply w_expired|].
  destruct (wt_done w) eqn:Hd; eexists; [by apply w_drained|by apply w_waited].
Qed.

Lemma Wait_spec_witness : wt_result (set_result true (Wait [])) = Some true -> Forall (fun b => b = false) (wt_handlers (Wait [])).
Proof.
  apply (Wait_spec [] {| wt_handlers := []; wt_shutdown := true; wt_done := true; wt_timer := false; wt_result := Some true |}).
  eapply rtc_l; [by apply w_waited; [|constructor]|]. eapply rtc_l; [by apply w_drained|done].
Defined.
