(* ===== verification/SpareQueries.v ===== *)
(** * Statements that no service runs (internal/db/dbstore)

    The queries of sqlc that only the integration tests call, or nothing: what
    they return, in terms of the statements that the services do run in their
    place. *)

From S2P Require Import Prelude GoStrings Proto Db Queries AccountQueries InstanceRepo SlotRepo NodeRepo AgentAuth Schema Demo.

#[local] Open Scope string_scope.
#[local] Open Scope list_scope.

(** ** instances.sql, slots.sql, nodes.sql *)

Definition older_event (a b : InstanceEvent) : bool := (ev_CreatedAt a <=? ev_CreatedAt b)%Z.

(** where instance_id = $1 order by created_at *)
Definition listInstanceEvents (id : UUID) : Stmt (list InstanceEvent) :=
  query (fun d => order_by older_event
    (List.filter (fun e => bool_decide (ev_InstanceID e = id)) (db_instance_events d))).

Definition countFreeSlotsByGPUCount (node : UUID) (size : Z) : Stmt Z :=
  query (fun d => count_where (free_slot node size) (db_gpu_slots d)).

Definition by_index (a b : GpuSlot) : bool := (gs_SlotIndex a <=? gs_SlotIndex b)%Z.
Definition on_node (node : UUID) (s : GpuSlot) : bool := bool_decide (gs_NodeID s = node).

Definition listSlotsForNode (node : UUID) : Stmt (list GpuSlot) :=
  query (fun d => order_by by_index (List.filter (on_node node) (rows (db_gpu_slots d)))).

(** The same update as [markStaleNodesOfflineReturning]; the number of rows. *)
Definition markStaleNodesOffline (cutoff : Time) : Stmt Z := fun env d =>
  (Ok (count_where (stale cutoff) (db_nodes d)),
   set_nodes (update_where (stale cutoff)
                (fun n => with_status env NodeStatusOffline (nd_LastHeartbeatAt n) n) (db_nodes d)) d).

(** ** node_tokens.sql, ssh_keys.sql, teams.sql *)

Definition active_with_hash (node : UUID) (hash : string) (t : NodeToken) : bool :=
  bool_decide (nt_NodeID t = node) && String.eqb (nt_TokenHash t) hash && bool_decide (nt_RevokedAt t = None).

Definition getActiveNodeToken (node : UUID) (hash : string) : Stmt NodeToken :=
  query_one (fun d => row_where (active_with_hash node hash) (db_node_tokens d)).

Definition getSSHKeyForUser (id user : UUID) : Stmt SshKey :=
  query_one (fun d =>
    match db_ssh_keys d !! id with
    | Some k => if decide (sk_UserID k = user) then Some k else None
    | None => None
    end).

Definition teamGet (id : UUID) : Stmt Team := query_one (fun d => db_teams d !! id).

Definition teamList `{Collation} : Stmt (list Team) :=
  query (fun d => order_by (fun a b => coll_leb (te_Name a) (te_Name b)) (rows (db_teams d))).

Definition team_of (user : UUID) (m : (UUID * UUID) * Time) : option UUID :=
  let '((team, u), _) := m in if decide (u = user) then Some team else None.

Definition teamIDsForUser (user : UUID) : Stmt (list UUID) :=
  query (fun d => omap (team_of user) (map_to_list (db_team_members d))).

(** ** Against the statements that run *)

(** The sweep without the ids marks the same nodes, and counts them. *)
Theorem markStaleNodesOffline_counts cutoff env d :
  exists ids, markStaleNodesOfflineReturning cutoff env d = (Ok ids, (markStaleNodesOffline cutoff env d).2) /\
    (markStaleNodesOffline cutoff env d).1 = Ok (Z.of_nat (length ids)).
Proof. eexists. split; [done|]. unfold markStaleNodesOffline, count_where. simpl. by rewrite length_map. Qed.

(** The count is what a reservation can get: it takes the number of slots
    asked for, or all that are counted. *)
Theorem countFree_is_reservable `{Collation} node size limit env d :
  (0 <= limit)%Z ->
  exists n l, countFreeSlotsByGPUCount node size env d = (Ok n, d) /\
    (reserveFreeSlots node size limit env d).1 = Ok l /\ Z.of_nat (length l) = Z.min limit n.
Proof.
  intros Hl. do 2 eexists. split; [done|]. split; [done|]. rewrite length_fmap. by apply pick_length.
Qed.

Lemma countFree_is_reservable_witness : exists n l,
  countFreeSlotsByGPUCount 3 1 {| env_now := 0; env_uuid := 0; env_seq := 0 |} demo_db = (Ok n, demo_db) /\
  (reserveFreeSlots (H := C_collation) 3 1 2 {| env_now := 0; env_uuid := 0; env_seq := 0 |} demo_db).1 = Ok l /\
  Z.of_nat (length l) = Z.min 2 n.
Proof. apply (countFree_is_reservable (H := C_collation) 3 1 2). lia. Defined.

(** The slots of a node, each once, in the order of their indices. *)
Theorem listSlotsForNode_spec node env d l :
  slots_ok d -> listSlotsForNode node env d = (Ok l, d) ->
  NoDup l /\ StronglySorted (leb_rel by_index) l /\
  (forall s, s ∈ l <-> gs_NodeID s = node /\ exists id, db_gpu_slots d !! id = Some s).
Proof.
  intros Hd [= <-]. split_and!.
  - rewrite order_by_Permutation. apply (NoDup_fmap_1 gs_ID), filter_rows_keys_NoDup, slots_keyed, Hd.
  - apply order_by_sorted; unfold by_index; intros; rewrite ?Z.leb_le in *; lia.
  - intros s. rewrite elem_of_order_by, elem_of_filter_rows. unfold on_node. by rewrite bool_decide_eq_true.
Qed.

Lemma listSlotsForNode_spec_witness : exists l,
  listSlotsForNode 3 {| env_now := 0; env_uuid := 0; env_seq := 0 |} empty_db = (Ok l, empty_db) /\ NoDup l.
Proof.
  eexists. split; [reflexivity|].
  eapply (listSlotsForNode_spec 3 {| env_now := 0; env_uuid := 0; env_seq := 0 |} empty_db); [|reflexivity].
  split; done.
Defined.

(** The active token of a node with a given hash is found exactly when the
    list that the authentication compares against has it: hashes are unique
    for a node.  The comparison is of hashes, so a presented token cannot be
    looked up this way. *)
Theorem getActiveNodeToken_spec node hash t env d :
  schema_ok d ->
  (getActiveNodeToken node hash env d).1 = Ok t <-> t ∈ active_tokens node d /\ nt_TokenHash t = hash.
Proof.
  intros Hd. unfold getActiveNodeToken, query_one, active_tokens. rewrite elem_of_filter_rows, bool_decide_eq_true.
  assert (forall v, active_with_hash node hash v = true <-> (nt_NodeID v = node /\ nt_RevokedAt v = None) /\ nt_TokenHash v = hash) as Hb.
  { intros v. unfold active_with_hash. rewrite !andb_true_iff, !bool_decide_eq_true, String.eqb_eq. tauto. }
  split.
  - destruct (row_where _ _) as [v|] eqn:Hr; [|done]. intros [= <-]. apply row_where_Some in Hr as [Hv Hi].
    apply Hb in Hv. tauto.
  - intros [[Hv [i Hi]] Hh]. destruct (row_where _ _) as [v|] eqn:Hr.
    + apply row_where_Some in Hr as [(Hv' & Hh')%Hb [j Hj]].
      assert (i = j) as -> by (apply (tb_unique _ _ _ _ (ty_tokens _ _ Hd) i j t v); [done..|]; simpl; intuition congruence). simpl. congruence.
    + rewrite row_where_None in Hr. specialize (Hr i t Hi). rewrite (proj2 (Hb t)) in Hr; [done|tauto].
Qed.

Definition at_zero : Env := {| env_now := 0; env_uuid := 0; env_seq := 0 |}.

Lemma empty_db_ok : schema_ok empty_db.
Proof. constructor; simpl; try apply table_empty; try done; try (by intros ? ?%not_elem_of_nil);
  [by apply NoDup_nil|by intros ? ? [? ?%lookup_empty_Some]]. Qed.

Lemma getActiveNodeToken_spec_witness t :
  (getActiveNodeToken 1 "h" at_zero empty_db).1 = Ok t <-> t ∈ active_tokens 1 empty_db /\ nt_TokenHash t = "h".
Proof. apply getActiveNodeToken_spec, empty_db_ok. Defined.

Lemma teams_NoDup user (l : list ((UUID * UUID) * Time)) : NoDup l.*1 -> NoDup (omap (team_of user) l).
Proof.
  induction l as [|[[t u] j] l IH]; csimpl; [intros _; by apply NoDup_nil|].
  intros [Hn Hl]%NoDup_cons. case_decide as Hu; [|by apply IH]. apply NoDup_cons. split; [|by apply IH].
  intros ([[t' u'] j'] & Hin & Ht)%list_elem_of_omap. simpl in Ht. case_decide; simplify_eq.
  apply Hn, list_elem_of_fmap. by exists (t, user, j').
Qed.

(** The teams of a user are those that the membership query says yes to, each
    once, and the nodes that the ACL lets a user see are the public ones and
    those of these teams. *)
Theorem teamIDsForUser_spec user env d :
  exists l, teamIDsForUser user env d = (Ok l, d) /\ NoDup l /\
    (forall team, team ∈ l <-> (isUserInTeam user team env d).1 = Ok true) /\
    (forall n, node_accessible d user n = true <->
       nd_AccessPolicy n = "public" \/
       nd_AccessPolicy n = "owner_team" /\ exists team, nd_OwnerTeamID n = Some team /\ team ∈ l).
Proof.
  eexists. split; [reflexivity|].
  assert (forall team, team ∈ omap (team_of user) (map_to_list (db_team_members d)) <->
            is_Some (db_team_members d !! (team, user))) as Hin.
  { intros team. rewrite list_elem_of_omap. split.
    - intros ([[t u] j] & Hm%elem_of_map_to_list & Ht). simpl in Ht. case_decide; simplify_eq. by eexists.
    - intros [j Hj]. exists ((team, user), j). split; [by apply elem_of_map_to_list|]. simpl. by rewrite decide_True. }
  split_and!.
  - apply teams_NoDup, NoDup_fst_map_to_list.
  - intros team. rewrite Hin. simpl. split; [intros ?; by rewrite bool_decide_eq_true_2|].
    intros [= H]. by apply bool_decide_eq_true in H.
  - intros n. unfold node_accessible. rewrite orb_true_iff, andb_true_iff, !String.eqb_eq.
    destruct (nd_OwnerTeamID n) as [t|]; [rewrite bool_decide_eq_true|]; setoid_rewrite Hin; naive_solver.
Qed.

(** The events of an instance, all of them, by time.  Events whose times do
    not go back come in the order of the log. *)
Theorem listInstanceEvents_spec id env d l :
  listInstanceEvents id env d = (Ok l, d) ->
  l ≡ₚ List.filter (fun e => bool_decide (ev_InstanceID e = id)) (db_instance_events d) /\
  StronglySorted (leb_rel older_event) l.
Proof.
  intros [= <-]. split; [apply order_by_Permutation|].
  apply order_by_sorted; unfold older_event; intros; rewrite ?Z.leb_le in *; lia.
Qed.

Lemma listInstanceEvents_spec_witness :
  exists l, listInstanceEvents 1 at_zero empty_db = (Ok l, empty_db) /\ StronglySorted (leb_rel older_event) l.
Proof. eexists. split; [reflexivity|]. by eapply (listInstanceEvents_spec 1 at_zero empty_db). Defined.

(** A user's key is one that the user's list has, by its id. *)
Theorem getSSHKeyForUser_spec id user k env d :
  schema_ok d ->
  (getSSHKeyForUser id user env d).1 = Ok k <-> k ∈ keys_of user d /\ sk_ID k = id.
Proof.
  intros Hd. unfold getSSHKeyForUser, query_one, keys_of. rewrite elem_of_order_by, elem_of_filter_rows.
  rewrite bool_decide_eq_true. split.
  - destruct (db_ssh_keys d !! id) as [k'|] eqn:Hk; [|done]. case_decide; [|done]. intros [= <-].
    split_and!; [done|by eexists|by apply (tb_id _ _ _ _ (ty_keys _ _ Hd))].
  - intros [[Hu [i Hi]] Hid]. pose proof (tb_id _ _ _ _ (ty_keys _ _ Hd) i k Hi) as E.
    assert (id = i) as -> by congruence. rewrite Hi. by rewrite decide_True.
Qed.

Lemma getSSHKeyForUser_spec_witness :
  (getSSHKeyForUser 1 2 at_zero empty_db).1 = Err ErrNoRows /\ forall k, ~ (k ∈ keys_of 2 empty_db /\ sk_ID k = 1%N).
Proof. split; [reflexivity|]. intros k Hk. by apply (getSSHKeyForUser_spec 1 2 k at_zero empty_db empty_db_ok) in Hk. Defined.

(** The teams by name, each once; a team found by its id is the one found by
    its name. *)
Theorem teamList_spec `{Collation} env d l :
  schema_ok d -> teamList env d = (Ok l, d) ->
  NoDup l /\ StronglySorted (leb_rel (fun a b => coll_leb (te_Name a) (te_Name b))) l /\
  (forall t, t ∈ l <-> (teamGet (te_ID t) env d).1 = Ok t) /\
  (forall t, (teamGet (te_ID t) env d).1 = Ok t <-> (teamGetByName (te_Name t) env d).1 = Ok t).
Proof.
  intros Hd [= <-]. destruct (ty_teams _ _ Hd) as [Hid Hun _].
  assert (forall t, (teamGet (te_ID t) env d).1 = Ok t <-> exists i, db_teams d !! i = Some t) as Hget.
  { intros t. unfold teamGet, query_one. split.
    - destruct (db_teams d !! te_ID t) eqn:Ht; [|done]. intros [= <-]. eauto.
    - intros [i Hi]. pose proof (Hid i t Hi) as ->. by rewrite Hi. }
  split_and!.
  - rewrite order_by_Permutation. apply (NoDup_fmap_1 te_ID), (rows_keys_NoDup te_ID). exact Hid.
  - apply order_by_sorted; intros; [apply coll_total|by eapply coll_trans].
  - intros t. by rewrite elem_of_order_by, elem_of_rows, Hget.
  - intros t. rewrite Hget. unfold teamGetByName, query_one. split.
    + intros [i Hi]. destruct (row_where _ _) as [u|] eqn:Hr.
      * apply row_where_Some in Hr as [Hn%String.eqb_eq [j Hj]]. pose proof (Hun j i u t Hj Hi Hn) as ->. simpl. congruence.
      * rewrite row_where_None in Hr. specialize (Hr i t Hi). unfold team_named in Hr. by rewrite String.eqb_refl in Hr.
    + destruct (row_where _ _) as [u|] eqn:Hr; [|done]. intros [= <-]. by apply row_where_Some in Hr as [_ ?].
Qed.

Lemma teamList_spec_witness : exists l, teamList (H := C_collation) at_zero empty_db = (Ok l, empty_db) /\ NoDup l.
Proof.
  eexists. split; [reflexivity|]. by eapply (teamList_spec (H := C_collation) at_zero empty_db); [apply empty_db_ok|].
Defined.

Lemma schema_markStaleNodesOffline cutoff : keeps schema_ok (markStaleNodesOffline cutoff).
Proof. exact (schema_markStale cutoff). Qed.
