(* ===== verification/SlotConcurrency.v ===== *)
(** * Reservations in concurrent transactions (internal/slot/repo.go)

    SlotRepo runs each transaction by itself.  Here the creates of many
    requests run at the same time, each going through [Reserve], then
    [BindToInstance] or [ReleaseReserved], and in the end
    [ReleaseForInstance], on a server at READ COMMITTED: a statement sees what
    is committed when it starts and its own transaction's writes; it visits
    the rows it found one by one, waits while another transaction has written
    the row, and looks at the row's new version before it writes.  The
    advisory lock of [Reserve] is held until the transaction ends.

    The step relation goes row by row; the theorems show that with the lock
    no statement ever waits for a row or finds it changed, that reservations
    are exclusive, and that [Reserve] returns what the statement of Queries.v
    returns on the tables it started from. *)

From S2P Require Import Prelude GoStrings Proto Db Queries Demo InstanceRepo SlotRepo.
From stdpp Require Import relations.

#[local] Open Scope string_scope.
#[local] Open Scope list_scope.

Abbreviation Slots := (gmap UUID GpuSlot).

(** What a create asks for: [instanceID] is the row it binds to. *)
Record request := {
  rq_nodeID : UUID;
  rq_gpuSize : Z;
  rq_count : Z;
  rq_instanceID : UUID
}.

(** The updates that run over the rows they found. *)
Inductive update := UBind | URelease | UFree.

(** Where a create is.  [todo] are the rows its statement has not visited. *)
Inductive at_point :=
  | Begin
  | Locked                            (* in Reserve, with the advisory lock *)
  | Picking (todo : list UUID)        (* in reserveFreeSlots *)
  | Holding                           (* Reserve has returned the rows *)
  | Updating (u : update) (todo : list UUID)
  | Bound
  | Leaked                            (* Reserve committed, but its answer was lost *)
  | Ended.

Record client := {
  ct_req : request;
  ct_at : at_point;
  ct_slots : list GpuSlot;            (* the rows picked so far, then the reservation *)
  ct_writes : Slots;                  (* what its open transaction has written *)
  ct_seen : Slots                     (* the committed rows when reserveFreeSlots started *)
}.

Record sys := { sy_slots : Slots; sy_clients : list client }.

(** ** Reading and writing in a transaction *)

Definition goto (p : at_point) (c : client) : client :=
  {| ct_req := ct_req c; ct_at := p; ct_slots := ct_slots c; ct_writes := ct_writes c; ct_seen := ct_seen c |}.
Definition write (id : UUID) (v : GpuSlot) (c : client) : client :=
  {| ct_req := ct_req c; ct_at := ct_at c; ct_slots := ct_slots c; ct_writes := <[id := v]> (ct_writes c);
     ct_seen := ct_seen c |}.
Definition pick (v : GpuSlot) (c : client) : client :=
  {| ct_req := ct_req c; ct_at := ct_at c; ct_slots := ct_slots c ++ [v]; ct_writes := ct_writes c;
     ct_seen := ct_seen c |}.
Definition start_at (m : Slots) (c : client) : client :=
  {| ct_req := ct_req c; ct_at := ct_at c; ct_slots := ct_slots c; ct_writes := ct_writes c; ct_seen := m |}.
(** The end of a transaction as the client sees it: its writes are gone or in
    the table. *)
Definition closed (c : client) : client :=
  {| ct_req := ct_req c; ct_at := ct_at c; ct_slots := ct_slots c; ct_writes := ∅; ct_seen := ct_seen c |}.
(** The create is over. *)
Definition over (c : client) : client :=
  {| ct_req := ct_req c; ct_at := Ended; ct_slots := []; ct_writes := ∅; ct_seen := ct_seen c |}.

(** The version of a row that a transaction sees. *)
Definition visible (m : Slots) (c : client) (id : UUID) : option GpuSlot :=
  match ct_writes c !! id with Some v => Some v | None => m !! id end.

Definition set_client (i : nat) (c : client) (s : sys) : sys :=
  {| sy_slots := sy_slots s; sy_clients := <[i := c]> (sy_clients s) |}.

(** [tx.Commit] and the deferred [tx.Rollback]. *)
Definition commit (i : nat) (c c' : client) (s : sys) : sys :=
  {| sy_slots := ct_writes c ∪ sy_slots s; sy_clients := <[i := closed c']> (sy_clients s) |}.
Definition rollback (i : nat) (c' : client) (s : sys) : sys := set_client i (closed c') s.

(** Another transaction has written the row and is still open. *)
Definition row_locked (s : sys) (i : nat) (id : UUID) : Prop :=
  exists j c, j <> i /\ sy_clients s !! j = Some c /\ is_Some (ct_writes c !! id).

(** Its transaction has the advisory lock. *)
Definition has_lock (c : client) : bool :=
  match ct_at c with Locked | Picking _ => true | _ => false end.

(** ** The statements *)

Section system.
Context `{Collation}.

(** [hashtextextended] of the node's text. *)
Variable lock_key : UUID -> Z.

Definition key_of_client (c : client) : Z := lock_key (rq_nodeID (ct_req c)).

(** The rows that reserveFreeSlots finds, in its order. *)
Definition free_slots (rq : request) (m : Slots) : list GpuSlot :=
  order_by slot_leb (List.filter (free_slot (rq_nodeID rq) (rq_gpuSize rq)) (rows m)).

(** [where] and [set] of the three updates: bindSlotToInstance (once for each
    row), releaseReservedSlots, releaseSlotsForInstance. *)
Definition u_where (u : update) (c : client) (v : GpuSlot) : bool :=
  match u with
  | UBind => bool_decide (gs_Status v = SlotStatusReserved)
  | URelease => reserved_in (gs_ID <$> ct_slots c) v
  | UFree => slot_of_instance (rq_instanceID (ct_req c)) v
  end.
Definition u_set (u : update) (c : client) (v : GpuSlot) : GpuSlot :=
  match u with
  | UBind => slot_with SlotStatusInUse (Some (rq_instanceID (ct_req c))) v
  | URelease | UFree => slot_with SlotStatusFree None v
  end.
(** The rows the update visits. *)
Definition u_rows (u : update) (c : client) (m : Slots) : list UUID :=
  match u with
  | UBind => gs_ID <$> ct_slots c
  | _ => gs_ID <$> List.filter (u_where u c) (rows m)
  end.
(** Where the create is before the update, when it failed, and after it. *)
Definition u_from (u : update) : at_point := match u with UBind | URelease => Holding | UFree => Bound end.
Definition u_done (u : update) (c : client) : client :=
  match u with UBind => goto Bound c | URelease | UFree => over c end.

Inductive cstep (s : sys) (i : nat) (c : client) : sys -> Prop :=
  | k_lock : ct_at c = Begin -> (0 < rq_count (ct_req c))%Z ->
      (forall j c', j <> i -> sy_clients s !! j = Some c' -> has_lock c' = true ->
         key_of_client c' <> key_of_client c) ->
      cstep s i c (set_client i (goto Locked c) s)
  | k_select : ct_at c = Locked ->
      cstep s i c (set_client i (start_at (sy_slots s)
        (goto (Picking (gs_ID <$> free_slots (ct_req c) (sy_slots s))) c)) s)
  | k_pick id todo v : ct_at c = Picking (id :: todo) -> (Z.of_nat (length (ct_slots c)) < rq_count (ct_req c))%Z ->
      ~ row_locked s i id -> visible (sy_slots s) c id = Some v ->
      free_slot (rq_nodeID (ct_req c)) (rq_gpuSize (ct_req c)) v = true ->
      cstep s i c (set_client i (goto (Picking todo) (pick (reserve_slot v) (write id (reserve_slot v) c))) s)
  | k_skip id todo : ct_at c = Picking (id :: todo) -> (Z.of_nat (length (ct_slots c)) < rq_count (ct_req c))%Z ->
      ~ row_locked s i id ->
      (forall v, visible (sy_slots s) c id = Some v ->
         free_slot (rq_nodeID (ct_req c)) (rq_gpuSize (ct_req c)) v = false) ->
      cstep s i c (set_client i (goto (Picking todo) c) s)
  | k_reserved todo p : ct_at c = Picking todo -> Z.of_nat (length (ct_slots c)) = rq_count (ct_req c) ->
      p = Holding \/ p = Leaked ->
      cstep s i c (commit i c (goto p c) s)
  | k_short : ct_at c = Picking [] -> (Z.of_nat (length (ct_slots c)) < rq_count (ct_req c))%Z ->
      cstep s i c (rollback i (over c) s)
  | k_refused : ct_at c = Begin \/ has_lock c = true ->
      cstep s i c (rollback i (over c) s)
  | k_update u : ct_at c = u_from u ->
      cstep s i c (set_client i (goto (Updating u (u_rows u c (sy_slots s))) c) s)
  | k_row u id todo v : ct_at c = Updating u (id :: todo) -> ~ row_locked s i id ->
      visible (sy_slots s) c id = Some v -> u_where u c v = true ->
      cstep s i c (set_client i (goto (Updating u todo) (write id (u_set u c v) c)) s)
  | k_miss u id todo : ct_at c = Updating u (id :: todo) -> ~ row_locked s i id ->
      (forall v, visible (sy_slots s) c id = Some v -> u_where u c v = false) ->
      cstep s i c (match u with
                   | UBind => rollback i (goto Holding c) s
                   | _ => set_client i (goto (Updating u todo) c) s
                   end)
  | k_done u : ct_at c = Updating u [] -> cstep s i c (commit i c (u_done u c) s)
  | k_undone u todo : ct_at c = Updating u todo -> cstep s i c (rollback i (goto (u_from u) c) s).

Inductive step (s : sys) : sys -> Prop :=
  | s_client i c s' : sy_clients s !! i = Some c -> cstep s i c s' -> step s s'.

(** Before anything runs: creates for different instances, none of which has
    a slot yet, on a table of slots. *)
Definition fresh (rq : request) : client :=
  {| ct_req := rq; ct_at := Begin; ct_slots := []; ct_writes := ∅; ct_seen := ∅ |}.

Record starting (m : Slots) (rqs : list request) : Prop := {
  sg_keyed id v : m !! id = Some v -> gs_ID v = id;
  sg_used id v x : m !! id = Some v -> gs_CurrentInstanceID v = Some x -> gs_Status v = SlotStatusInUse;
  sg_unbound id v rq : m !! id = Some v -> rq ∈ rqs -> gs_CurrentInstanceID v <> Some (rq_instanceID rq);
  sg_instances : NoDup (rq_instanceID <$> rqs)
}.

Definition initial (m : Slots) (rqs : list request) : sys :=
  {| sy_slots := m; sy_clients := fresh <$> rqs |}.

(** ** The invariant *)

Definition claims (c : client) : list UUID := gs_ID <$> ct_slots c.

Definition fits (c : client) (v : GpuSlot) : bool := free_slot (rq_nodeID (ct_req c)) (rq_gpuSize (ct_req c)) v.

(** What a reservation is: as many rows as asked for, those that the statement
    picks from the tables seen. *)
Definition reserved_ok (c : client) : Prop :=
  Z.of_nat (length (ct_slots c)) = rq_count (ct_req c) /\
  ct_slots c = reserve_slot <$> pick_slots (rq_nodeID (ct_req c)) (rq_gpuSize (ct_req c)) (rq_count (ct_req c)) (ct_seen c).

Definition before (u : update) (c : client) (v : GpuSlot) : GpuSlot :=
  match u with UBind | URelease => v | UFree => u_set UBind c v end.

Definition at_ok (m : Slots) (c : client) : Prop :=
  match ct_at c with
  | Begin | Locked | Ended => ct_slots c = [] /\ ct_writes c = ∅
  | Picking todo => exists rest,
      todo = gs_ID <$> rest /\
      ct_slots c ++ (reserve_slot <$> rest) = reserve_slot <$> free_slots (ct_req c) (ct_seen c) /\
      NoDup (claims c ++ todo) /\
      (forall v, v ∈ rest -> m !! gs_ID v = Some v /\ fits c v = true) /\
      (forall v, v ∈ ct_slots c -> exists v0, m !! gs_ID v = Some v0 /\ fits c v0 = true) /\
      (forall id v, ct_writes c !! id = Some v <-> v ∈ ct_slots c /\ gs_ID v = id)
  | Holding | Leaked => ct_writes c = ∅ /\ reserved_ok c /\ (forall v, v ∈ ct_slots c -> m !! gs_ID v = Some v)
  | Bound => ct_writes c = ∅ /\ reserved_ok c /\ (forall v, v ∈ ct_slots c -> m !! gs_ID v = Some (u_set UBind c v))
  | Updating u todo =>
      reserved_ok c /\ NoDup todo /\ (forall id, id ∈ todo -> id ∈ claims c) /\
      (forall v, v ∈ ct_slots c -> m !! gs_ID v = Some (before u c v)) /\
      (forall id w, ct_writes c !! id = Some w -> id ∈ claims c) /\
      (forall v, v ∈ ct_slots c -> ct_writes c !! gs_ID v =
         if decide (gs_ID v ∈ todo) then None else Some (u_set u c v))
  end.

Record client_ok (m : Slots) (c : client) : Prop := {
  co_keys : NoDup (claims c);
  co_shape v : v ∈ ct_slots c ->
    gs_NodeID v = rq_nodeID (ct_req c) /\ gs_GpuCount v = rq_gpuSize (ct_req c) /\
    gs_Status v = SlotStatusReserved /\ gs_CurrentInstanceID v = None;
  co_at : at_ok m c;
  co_bound id v : m !! id = Some v -> gs_CurrentInstanceID v = Some (rq_instanceID (ct_req c)) -> id ∈ claims c
}.

Record sys_ok (s : sys) : Prop := {
  so_keyed id v : sy_slots s !! id = Some v -> gs_ID v = id;
  so_used id v x : sy_slots s !! id = Some v -> gs_CurrentInstanceID v = Some x -> gs_Status v = SlotStatusInUse;
  so_client i c : sy_clients s !! i = Some c -> client_ok (sy_slots s) c;
  so_disjoint i j c c' id : i <> j -> sy_clients s !! i = Some c -> sy_clients s !! j = Some c' ->
    id ∈ claims c -> id ∉ claims c';
  so_lock i j c c' : i <> j -> sy_clients s !! i = Some c -> sy_clients s !! j = Some c' ->
    has_lock c = true -> has_lock c' = true -> key_of_client c <> key_of_client c';
  so_instances i j c c' : i <> j -> sy_clients s !! i = Some c -> sy_clients s !! j = Some c' ->
    rq_instanceID (ct_req c) <> rq_instanceID (ct_req c')
}.

Lemma slots_initial_ok m rqs : starting m rqs -> sys_ok (initial m rqs).
Proof.
  intros [Hk Hu Hb Hi].
  assert (forall i c, (fresh <$> rqs) !! i = Some c -> exists rq, rqs !! i = Some rq /\ c = fresh rq) as Hf.
  { intros i c. rewrite list_lookup_fmap. destruct (rqs !! i); [|done]. intros [= <-]. eauto. }
  constructor; simpl; [done|done| | | |].
  - intros i c (rq & Hrq & ->)%Hf. constructor; simpl; [by apply NoDup_nil|by intros v ?%not_elem_of_nil|done|].
    intros id v Hv Hx. exfalso. eapply Hb; [done| |done]. by eapply list_elem_of_lookup_2.
  - intros i j c c' id _ (rq & _ & ->)%Hf _ ?%not_elem_of_nil. done.
  - by intros i j c c' _ (rq & _ & ->)%Hf.
  - intros i j c c' Hij (rq & Hrq & ->)%Hf (rq' & Hrq' & ->)%Hf Heq. apply Hij.
    eapply (NoDup_lookup _ i j (rq_instanceID rq) Hi); rewrite list_lookup_fmap; [by rewrite Hrq|].
    rewrite Hrq'. simpl in *. congruence.
Qed.

(** *** The rows a client depends on *)

Definition watches (m : Slots) (c : client) (id : UUID) : Prop :=
  id ∈ claims c \/
  has_lock c = true /\ exists v, m !! id = Some v /\ fits c v = true.

Lemma fits_spec c v : fits c v = true <->
  gs_NodeID v = rq_nodeID (ct_req c) /\ gs_Status v = SlotStatusFree /\ gs_GpuCount v = rq_gpuSize (ct_req c).
Proof. unfold fits, free_slot. apply bool_decide_eq_true. Qed.

Lemma in_claims c v : v ∈ ct_slots c -> gs_ID v ∈ claims c.
Proof. apply list_elem_of_fmap_2. Qed.

Lemma at_ok_elsewhere m m' c :
  at_ok m c -> (forall id, watches m c id -> m' !! id = m !! id) -> at_ok m' c.
Proof.
  unfold at_ok, watches. intros Hat Hm.
  assert (forall v, v ∈ ct_slots c -> m' !! gs_ID v = m !! gs_ID v) as Hc.
  { intros v Hv. apply Hm. left. by apply in_claims. }
  destruct (ct_at c) eqn:Hp; try done.
  - destruct Hat as (rest & Ht & Hs & Hnd & Hr & Hpk & Hw). exists rest. split_and!; try done.
    + intros v Hv. destruct (Hr v Hv) as [Hv1 Hv2]. split; [|done]. rewrite Hm; [done|].
      right. split; [unfold has_lock; by rewrite Hp|]. eauto.
    + intros v Hv. rewrite Hc by done. by apply Hpk.
  - destruct Hat as (? & ? & Hv). split_and!; [done..|]. intros v Hin. rewrite Hc by done. by apply Hv.
  - destruct Hat as (? & ? & ? & Hv & ? & ?). split_and!; try done. intros v Hin. rewrite Hc by done. by apply Hv.
  - destruct Hat as (? & ? & Hv). split_and!; [done..|]. intros v Hin. rewrite Hc by done. by apply Hv.
  - destruct Hat as (? & ? & Hv). split_and!; [done..|]. intros v Hin. rewrite Hc by done. by apply Hv.
Qed.

(** What is committed of a claimed row is not free, or free for a client with
    the lock. *)
Lemma claimed_row m c id :
  client_ok m c -> id ∈ claims c ->
  exists v, m !! id = Some v /\
    (gs_Status v <> SlotStatusFree \/ has_lock c = true /\ fits c v = true).
Proof.
  intros [_ Hsh Hat _] (v & -> & Hv)%list_elem_of_fmap. destruct (Hsh v Hv) as (_ & _ & Hst & _).
  unfold at_ok, has_lock in *. destruct (ct_at c) as [| |todo| |u todo| | |] eqn:Hp.
  1,2,8: by destruct Hat as [Hat _]; rewrite Hat in Hv; apply not_elem_of_nil in Hv.
  - destruct Hat as (rest & _ & _ & _ & _ & Hpk & _). destruct (Hpk v Hv) as (v0 & Hm & Hf). eauto.
  - destruct Hat as (_ & _ & Hm). exists v. split; [by apply Hm|]. left. by rewrite Hst.
  - destruct Hat as (_ & _ & _ & Hm & _). exists (before u c v). split; [by apply Hm|]. left.
    by destruct u; simpl; rewrite ?Hst.
  - destruct Hat as (_ & _ & Hm). eexists. split; [by apply Hm|]. by left.
  - destruct Hat as (_ & _ & Hm). exists v. split; [by apply Hm|]. left. by rewrite Hst.
Qed.

(** A transaction writes only rows of its own client. *)
Lemma written_claim m c id w : client_ok m c -> ct_writes c !! id = Some w -> id ∈ claims c.
Proof.
  intros [_ _ Hat _] Hw. unfold at_ok in Hat. destruct (ct_at c) eqn:Hp.
  1,2,8: by destruct Hat as [_ Hat]; rewrite Hat in Hw.
  2,4,5: by destruct Hat as [Hat _]; rewrite Hat in Hw.
  - destruct Hat as (rest & _ & _ & _ & _ & _ & Hwr). apply Hwr in Hw as [Hv <-]. by apply in_claims.
  - destruct Hat as (_ & _ & _ & _ & Hin & _). by apply (Hin id w).
Qed.

Lemma written_new m c id w :
  client_ok m c -> ct_writes c !! id = Some w ->
  gs_ID w = id /\ (gs_CurrentInstanceID w = None \/
    gs_CurrentInstanceID w = Some (rq_instanceID (ct_req c)) /\ gs_Status w = SlotStatusInUse).
Proof.
  intros [_ Hsh Hat _] Hw. unfold at_ok in Hat. destruct (ct_at c) eqn:Hp.
  1,2,8: by destruct Hat as [_ Hat]; rewrite Hat in Hw.
  2,4,5: by destruct Hat as [Hat _]; rewrite Hat in Hw.
  - destruct Hat as (rest & _ & _ & _ & _ & _ & Hwr). apply Hwr in Hw as [Hv <-].
    split; [done|]. left. by apply Hsh.
  - destruct Hat as (_ & _ & _ & _ & Hin & Hwr). pose proof (Hin id w Hw) as Hid.
    apply list_elem_of_fmap in Hid as (v & -> & Hv). rewrite (Hwr v Hv) in Hw. case_decide; simplify_eq.
    split; [by destruct u|]. destruct u; simpl; auto.
Qed.

(** The state after client [i] has changed, and the table at most where it
    wrote. *)
Lemma changed_ok s m i c c' :
  sys_ok s -> sy_clients s !! i = Some c ->
  (forall id, m !! id = sy_slots s !! id \/ exists w, ct_writes c !! id = Some w /\ m !! id = Some w) ->
  ct_req c' = ct_req c -> client_ok m c' ->
  (forall j cj id, j <> i -> sy_clients s !! j = Some cj -> id ∈ claims c' -> id ∉ claims c -> id ∉ claims cj) ->
  (forall j cj, j <> i -> sy_clients s !! j = Some cj -> has_lock c' = true -> has_lock c = false ->
     has_lock cj = true -> key_of_client cj <> key_of_client c) ->
  sys_ok {| sy_slots := m; sy_clients := <[i := c']> (sy_clients s) |}.
Proof.
  intros [Hk Hu Hcl Hd Hl Hin] Hi Hm Hreq Hc' Hnew Hlock. pose proof (Hcl i c Hi) as Hc.
  pose proof (lookup_lt_Some _ _ _ Hi) as Hlt.
  assert (key_of_client c' = key_of_client c) as Hkey by by (unfold key_of_client; rewrite Hreq).
  assert (forall j cj id, j <> i -> sy_clients s !! j = Some cj -> id ∈ claims c' -> id ∉ claims cj) as Hd'.
  { intros j cj id Hj Hcj Hid Hid'. destruct (decide (id ∈ claims c)); [|by eapply (Hnew j cj id)].
    by eapply (Hd i j c cj id). }
  assert (forall j cj, j <> i -> sy_clients s !! j = Some cj -> has_lock c' = true -> has_lock cj = true ->
            key_of_client cj <> key_of_client c) as Hl'.
  { intros j cj Hj Hcj H1 H2. destruct (has_lock c) eqn:Hh; [by eapply (Hl j i)|by eapply Hlock]. }
  constructor; simpl.
  - intros id v Hv. destruct (Hm id) as [E|(w & Hw & E)]; rewrite E in Hv; [by apply Hk|]. simplify_eq.
    by apply (written_new _ _ _ _ Hc).
  - intros id v x Hv Hx. destruct (Hm id) as [E|(w & Hw & E)]; rewrite E in Hv; [by eapply Hu|]. simplify_eq.
    destruct (written_new _ _ _ _ Hc Hw) as [_ [?|[_ ?]]]; [congruence|done].
  - intros j cj [(<- & <- & _)|[Hj Hcj]]%list_lookup_insert_Some; [done|].
    destruct (Hcl j cj Hcj) as [Hkeys Hsh Hat Hb]. constructor; [done|done| |].
    + apply (at_ok_elsewhere (sy_slots s)); [done|]. intros id Hwatch.
      destruct (Hm id) as [E|(w & Hw & _)]; [done|]. exfalso.
      pose proof (written_claim _ _ _ _ Hc Hw) as Hid. destruct (claimed_row _ _ _ Hc Hid) as (v & Hv & Hst).
      destruct Hwatch as [Hidj|(Hlj & v' & Hv' & (Hn & Hf & _)%fits_spec)]; [by eapply (Hd i j)|].
      simplify_eq. destruct Hst as [?|[Hli [Hni _]%fits_spec]]; [done|]. eapply (Hl i j); try done.
      unfold key_of_client. congruence.
    + intros id v Hv Hx. destruct (Hm id) as [E|(w & Hw & E)]; rewrite E in Hv; [by eapply Hb|]. simplify_eq.
      exfalso. destruct (written_new _ _ _ _ Hc Hw) as [_ [?|[Hx' _]]]; [congruence|].
      eapply (Hin i j); try done. congruence.
  - intros j k cj ck id Hjk [(<- & <- & _)|[Hj Hcj]]%list_lookup_insert_Some
      [(<- & <- & _)|[Hk' Hck]]%list_lookup_insert_Some Hid;
      [done|by apply (Hd' k ck id)| |by apply (Hd j k cj ck id)].
    intros Hid'. by apply (Hd' j cj id).
  - intros j k cj ck Hjk [(<- & <- & _)|[Hj Hcj]]%list_lookup_insert_Some
      [(<- & <- & _)|[Hk' Hck]]%list_lookup_insert_Some H1 H2;
      [done| | |by apply (Hl j k)].
    + rewrite Hkey. apply not_eq_sym. by apply (Hl' k).
    + rewrite Hkey. by apply (Hl' j).
  - intros j k cj ck Hjk [(<- & <- & _)|[Hj Hcj]]%list_lookup_insert_Some
      [(<- & <- & _)|[Hk' Hck]]%list_lookup_insert_Some; [done| | |by apply (Hin j k)]; rewrite Hreq;
      [by apply (Hin i k)|by apply (Hin j i)].
Qed.

Lemma set_client_ok s i c c' :
  sys_ok s -> sy_clients s !! i = Some c -> ct_req c' = ct_req c -> client_ok (sy_slots s) c' ->
  (forall j cj id, j <> i -> sy_clients s !! j = Some cj -> id ∈ claims c' -> id ∉ claims c -> id ∉ claims cj) ->
  (forall j cj, j <> i -> sy_clients s !! j = Some cj -> has_lock c' = true -> has_lock c = false ->
     has_lock cj = true -> key_of_client cj <> key_of_client c) ->
  sys_ok (set_client i c' s).
Proof. intros. eapply changed_ok; try done. by left. Qed.

(** A client that claims nothing new and does not take the lock. *)
Lemma same_client_ok s i c c' :
  sys_ok s -> sy_clients s !! i = Some c -> ct_req c' = ct_req c -> client_ok (sy_slots s) c' ->
  (forall id, id ∈ claims c' -> id ∈ claims c) -> (has_lock c' = true -> has_lock c = true) ->
  sys_ok (set_client i c' s).
Proof.
  intros Hs Hi Hr Hc Hcl Hl. eapply set_client_ok; try done.
  - intros j cj id _ _ H1 H2. by destruct H2; apply Hcl.
  - intros j cj _ _ H1 H2. rewrite Hl in H2; done.
Qed.

Lemma commit_ok s i c c' :
  sys_ok s -> sy_clients s !! i = Some c -> ct_req c' = ct_req c ->
  client_ok (ct_writes c ∪ sy_slots s) (closed c') ->
  (forall id, id ∈ claims c' -> id ∈ claims c) -> has_lock c' = false ->
  sys_ok (commit i c c' s).
Proof.
  intros Hs Hi Hr Hc Hcl Hl. eapply changed_ok; try done.
  - intros id. rewrite lookup_union. destruct (ct_writes c !! id) as [w|]; [right; exists w|left];
      by destruct (sy_slots s !! id).
  - intros j cj id _ _ H1 H2. by destruct H2; apply Hcl.
  - intros j cj _ _ H1. change (has_lock c' = true) in H1. congruence.
Qed.

(** *** The next row of a statement *)

(** A free row that a client with the lock wants is claimed by nobody else. *)
Lemma free_unclaimed s i c j cj v :
  sys_ok s -> sy_clients s !! i = Some c -> has_lock c = true ->
  sy_slots s !! gs_ID v = Some v -> fits c v = true ->
  j <> i -> sy_clients s !! j = Some cj -> gs_ID v ∉ claims cj.
Proof.
  intros Hs Hi Hl Hv (Hn & Hf & _)%fits_spec Hj Hcj Hin.
  destruct (claimed_row _ _ _ (so_client _ Hs j cj Hcj) Hin) as (v' & Hv' & [?|[Hlj (Hn' & _)%fits_spec]]); simplify_eq.
  eapply (so_lock _ Hs i j); try done. unfold key_of_client. congruence.
Qed.

Lemma unlocked s i id :
  sys_ok s -> (forall j cj, j <> i -> sy_clients s !! j = Some cj -> id ∉ claims cj) -> ~ row_locked s i id.
Proof.
  intros Hs Hn (j & cj & Hj & Hcj & [w Hw]). apply (Hn j cj Hj Hcj).
  by eapply written_claim; [eapply so_client|].
Qed.

Lemma next_pick s i c id todo :
  sys_ok s -> sy_clients s !! i = Some c -> ct_at c = Picking (id :: todo) ->
  ~ row_locked s i id /\ exists v, visible (sy_slots s) c id = Some v /\ fits c v = true.
Proof.
  intros Hs Hi Hp. pose proof (so_client _ Hs i c Hi) as Hc. pose proof (co_at _ _ Hc) as Hat.
  unfold at_ok in Hat. rewrite Hp in Hat. destruct Hat as ([|v rest] & Ht & _ & Hnd & Hr & _ & Hw); [done|].
  simplify_eq/=. destruct (Hr v) as [Hv Hf]; [by left|]. split.
  - apply unlocked; [done|]. intros j cj Hj Hcj. eapply (free_unclaimed s i c); try done.
    unfold has_lock. by rewrite Hp.
  - exists v. split; [|done]. unfold visible.
    destruct (ct_writes c !! gs_ID v) as [w|] eqn:E; [|done]. exfalso.
    apply (written_claim _ _ _ _ Hc) in E. apply NoDup_app in Hnd as (_ & Hnd & _). eapply Hnd; [done|by left].
Qed.

Lemma next_update s i c u id todo :
  sys_ok s -> sy_clients s !! i = Some c -> ct_at c = Updating u (id :: todo) ->
  ~ row_locked s i id /\ exists v, v ∈ ct_slots c /\ gs_ID v = id /\
    visible (sy_slots s) c id = Some (before u c v) /\ u_where u c (before u c v) = true.
Proof.
  intros Hs Hi Hp. pose proof (so_client _ Hs i c Hi) as Hc. pose proof (co_at _ _ Hc) as Hat.
  unfold at_ok in Hat. rewrite Hp in Hat. destruct Hat as (_ & _ & Hin & Hm & _ & Hw).
  pose proof (Hin id) as Hid. specialize (Hid ltac:(by left)). split.
  - apply unlocked; [done|]. intros j cj Hj Hcj Hid'. by eapply (so_disjoint _ Hs i j c cj).
  - apply list_elem_of_fmap in Hid as (v & -> & Hv). exists v. split; [done|]. split; [done|].
    destruct (co_shape _ _ Hc v Hv) as (_ & _ & Hst & _). split.
    + unfold visible. rewrite (Hw v Hv), decide_True by by left. by apply Hm.
    + destruct u; simpl; [by rewrite bool_decide_eq_true| |].
      * unfold reserved_in. apply bool_decide_eq_true. split; [by apply in_claims|done].
      * unfold slot_of_instance. by apply bool_decide_eq_true.
Qed.

(** *** Every step keeps the invariant *)

Lemma client_ok_at m c c' :
  client_ok m c -> ct_req c' = ct_req c -> ct_slots c' = ct_slots c -> at_ok m c' -> client_ok m c'.
Proof.
  intros [Hk Hsh _ Hb] Hr Hs Hat. constructor; unfold claims in *; rewrite ?Hs, ?Hr; done.
Qed.

(** Nobody is bound to the instance of a create that has not got to [Bound]. *)
Lemma unbound s i c :
  sys_ok s -> sy_clients s !! i = Some c -> ct_at c = Begin \/ has_lock c = true ->
  forall id v, sy_slots s !! id = Some v -> gs_CurrentInstanceID v <> Some (rq_instanceID (ct_req c)).
Proof.
  intros Hs Hi Hp id v Hv Hx. pose proof (so_client _ Hs i c Hi) as Hc.
  pose proof (co_bound _ _ Hc id v Hv Hx) as Hid. pose proof (co_at _ _ Hc) as Hat. unfold at_ok in Hat.
  apply list_elem_of_fmap in Hid as (w & -> & Hw). unfold has_lock in Hp.
  destruct (ct_at c); try (by destruct Hp); try (by destruct Hat as [Hat _]; rewrite Hat in Hw; apply not_elem_of_nil in Hw).
  destruct Hat as (rest & _ & _ & _ & _ & Hpk & _). destruct (Hpk w Hw) as (v0 & Hv0 & (_ & Hf & _)%fits_spec).
  simplify_eq. by rewrite (so_used _ Hs _ _ _ Hv Hx) in Hf.
Qed.

Lemma over_ok s i c :
  sys_ok s -> sy_clients s !! i = Some c -> ct_at c = Begin \/ has_lock c = true -> sys_ok (rollback i (over c) s).
Proof.
  intros Hs Hi Hp. eapply same_client_ok; try done; [|by intros id ?%not_elem_of_nil].
  constructor; simpl; [by apply NoDup_nil|by intros v ?%not_elem_of_nil|done|].
  intros id v Hv Hx. exfalso. by eapply unbound.
Qed.

Lemma lock_ok s i c :
  sys_ok s -> sy_clients s !! i = Some c -> ct_at c = Begin ->
  (forall j c', j <> i -> sy_clients s !! j = Some c' -> has_lock c' = true -> key_of_client c' <> key_of_client c) ->
  sys_ok (set_client i (goto Locked c) s).
Proof.
  intros Hs Hi Hp Hl. eapply set_client_ok; try done; [|by intros j cj ? ?; eauto].
  pose proof (so_client _ Hs i c Hi) as Hc. eapply client_ok_at; [done..|].
  pose proof (co_at _ _ Hc) as Hat. unfold at_ok in *. by rewrite Hp in Hat.
Qed.

Lemma free_slots_row c m v :
  v ∈ free_slots (ct_req c) m -> (exists id, m !! id = Some v) /\ fits c v = true.
Proof. unfold free_slots. intros [? ?]%elem_of_order_by%elem_of_filter_rows. done. Qed.

Lemma select_ok s i c :
  sys_ok s -> sy_clients s !! i = Some c -> ct_at c = Locked ->
  sys_ok (set_client i (start_at (sy_slots s) (goto (Picking (gs_ID <$> free_slots (ct_req c) (sy_slots s))) c)) s).
Proof.
  intros Hs Hi Hp. pose proof (so_client _ Hs i c Hi) as Hc. pose proof (co_at _ _ Hc) as Hat.
  unfold at_ok in Hat. rewrite Hp in Hat. destruct Hat as [Hsl Hwr].
  eapply same_client_ok; try done; [|by unfold has_lock; rewrite Hp].
  eapply client_ok_at; [done..|]. unfold at_ok. simpl. exists (free_slots (ct_req c) (sy_slots s)).
  unfold claims. simpl. rewrite Hsl, Hwr. split_and!; try done.
  - simpl. unfold free_slots. rewrite order_by_Permutation. apply (filter_rows_keys_NoDup gs_ID), Hs.
  - intros v [[id Hv] Hf]%free_slots_row. split; [|done]. by rewrite (so_keyed _ Hs id v Hv).
  - by intros v ?%not_elem_of_nil.
  - intros id v. rewrite lookup_empty. split; [done|]. by intros [?%not_elem_of_nil _].
Qed.

Lemma pick_ok s i c id todo v :
  sys_ok s -> sy_clients s !! i = Some c -> ct_at c = Picking (id :: todo) ->
  (Z.of_nat (length (ct_slots c)) < rq_count (ct_req c))%Z -> visible (sy_slots s) c id = Some v ->
  sys_ok (set_client i (goto (Picking todo) (pick (reserve_slot v) (write id (reserve_slot v) c))) s).
Proof.
  intros Hs Hi Hp Hlt Hv. pose proof (so_client _ Hs i c Hi) as Hc. pose proof (co_at _ _ Hc) as Hat.
  destruct (next_pick _ _ _ _ _ Hs Hi Hp) as (_ & v' & Hv' & Hf). simplify_eq.
  unfold at_ok in Hat. rewrite Hp in Hat. destruct Hat as ([|v0 rest] & Ht & Hsl & Hnd & Hr & Hpk & Hw); [done|].
  simplify_eq/=. destruct (Hr v0) as [Hv0 Hf0]; [by left|].
  assert (gs_ID v0 ∉ claims c) as Hnew.
  { intros Hin. apply NoDup_app in Hnd as (_ & Hnd & _). eapply Hnd; [done|by left]. }
  assert (v = v0) as ->.
  { unfold visible in Hv. destruct (ct_writes c !! gs_ID v0) as [w|] eqn:E; [|congruence].
    by apply (written_claim _ _ _ _ Hc) in E. }
  assert (claims (goto (Picking (gs_ID <$> rest)) (pick (reserve_slot v0) (write (gs_ID v0) (reserve_slot v0) c))) =
    claims c ++ [gs_ID v0]) as Ecl by by unfold claims; simpl; rewrite fmap_app.
  eapply set_client_ok; try done.
  - constructor; rewrite ?Ecl.
    + apply NoDup_app. split; [apply Hc|]. split; [|by apply NoDup_singleton].
      intros x Hx ->%list_elem_of_singleton. done.
    + intros x [Hx| ->%list_elem_of_singleton]%elem_of_app; [by apply Hc|]. apply fits_spec in Hf0 as (Hn & Hst & Hg).
      simpl. split_and!; try done. destruct (gs_CurrentInstanceID v0) eqn:E; [|done].
      by rewrite (so_used _ Hs _ _ _ Hv0 E) in Hst.
    + unfold at_ok. cbn [goto ct_at]. exists rest. unfold claims. simpl. split_and!; try done.
      * by rewrite <- app_assoc.
      * rewrite fmap_app, <- app_assoc. done.
      * intros x Hx. by apply Hr; right.
      * intros x [Hx| ->%list_elem_of_singleton]%elem_of_app; [by apply Hpk|]. by exists v0.
      * intros x w. rewrite elem_of_app, list_elem_of_singleton. rewrite lookup_insert_Some, Hw.
        split; [|intros [[Hx| ->] <-]].
        -- intros [[<- <-]|[Hne [Hx <-]]]; [split; [by right|done]|split; [by left|done]].
        -- right. split; [|done]. intros E. apply Hnew. rewrite E. by apply in_claims.
        -- by left.
    + intros x w Hx Hi'. apply elem_of_app. left. by eapply (co_bound _ _ Hc).
  - intros j cj x Hj Hcj. rewrite Ecl. intros [Hx| ->%list_elem_of_singleton]%elem_of_app Hn; [done|].
    eapply (free_unclaimed s i c); try done. unfold has_lock. by rewrite Hp.
  - intros j cj _ _ _. unfold has_lock. by rewrite Hp.
Qed.

(** What is in the table after a commit, of a row that is the client's. *)
Lemma commit_row c m id :
  (ct_writes c ∪ m) !! id = match ct_writes c !! id with Some w => Some w | None => m !! id end.
Proof. rewrite lookup_union. by destruct (ct_writes c !! id), (m !! id). Qed.

(** The client of a commit keeps its part of the invariant when its rows fit
    where it goes, and a row bound to its instance stays claimed. *)
Lemma commit_client_ok s i c c' :
  sys_ok s -> sy_clients s !! i = Some c -> ct_req c' = ct_req c -> ct_slots c' = ct_slots c ->
  at_ok (ct_writes c ∪ sy_slots s) (closed c') -> client_ok (ct_writes c ∪ sy_slots s) (closed c').
Proof.
  intros Hs Hi Hr Hsl Hat. pose proof (so_client _ Hs i c Hi) as Hc. constructor; unfold claims; simpl; rewrite ?Hsl, ?Hr.
  - apply Hc.
  - apply Hc.
  - done.
  - intros id v Hv Hx. rewrite commit_row in Hv. destruct (ct_writes c !! id) as [w|] eqn:E.
    + by eapply written_claim.
    + by eapply (co_bound _ _ Hc).
Qed.

Lemma take_picked c todo rest :
  ct_slots c ++ (reserve_slot <$> rest) = reserve_slot <$> free_slots (ct_req c) (ct_seen c) ->
  todo = gs_ID <$> rest -> Z.of_nat (length (ct_slots c)) = rq_count (ct_req c) -> reserved_ok c.
Proof.
  intros Hsl _ Hn. split; [done|]. unfold pick_slots. fold (free_slots (ct_req c) (ct_seen c)).
  rewrite <- Hn, Nat2Z.id, fmap_take, <- Hsl, take_app_length. done.
Qed.

Lemma reserved_step_ok s i c todo p :
  sys_ok s -> sy_clients s !! i = Some c -> ct_at c = Picking todo ->
  Z.of_nat (length (ct_slots c)) = rq_count (ct_req c) -> p = Holding \/ p = Leaked ->
  sys_ok (commit i c (goto p c) s).
Proof.
  intros Hs Hi Hp Hn Hpp. pose proof (so_client _ Hs i c Hi) as Hc. pose proof (co_at _ _ Hc) as Hat.
  unfold at_ok in Hat. rewrite Hp in Hat. destruct Hat as (rest & Ht & Hsl & _ & _ & _ & Hw).
  eapply commit_ok; try done; [|by destruct Hpp as [-> | ->]]. apply (commit_client_ok s i c); try done.
  assert (reserved_ok c) as Hres by by eapply take_picked.
  assert (forall v, v ∈ ct_slots c -> (ct_writes c ∪ sy_slots s) !! gs_ID v = Some v) as Hrow.
  { intros v Hv. rewrite commit_row. by rewrite (proj2 (Hw (gs_ID v) v)). }
  unfold at_ok. by destruct Hpp as [-> | ->].
Qed.

Lemma begin_update_ok s i c u :
  sys_ok s -> sy_clients s !! i = Some c -> ct_at c = u_from u ->
  sys_ok (set_client i (goto (Updating u (u_rows u c (sy_slots s))) c) s).
Proof.
  intros Hs Hi Hp. pose proof (so_client _ Hs i c Hi) as Hc. pose proof (co_at _ _ Hc) as Hat.
  assert (ct_writes c = ∅ /\ reserved_ok c /\ forall v, v ∈ ct_slots c -> sy_slots s !! gs_ID v = Some (before u c v))
    as (Hw & Hres & Hm) by (unfold at_ok in Hat; rewrite Hp in Hat; destruct u; exact Hat).
  assert (forall id, id ∈ u_rows u c (sy_slots s) <-> id ∈ claims c) as Hrows.
  { intros id. destruct u; [done|..]; simpl; rewrite list_elem_of_fmap; split.
    - intros (v & -> & (Hv & x & Hx)%elem_of_filter_rows). unfold reserved_in in Hv.
      apply bool_decide_eq_true in Hv as [Hv _]. exact Hv.
    - intros (v & -> & Hv)%list_elem_of_fmap. exists v. split; [done|]. apply elem_of_filter_rows. split; [|eauto].
      apply bool_decide_eq_true. split; [by apply in_claims|]. by apply (co_shape _ _ Hc).
    - intros (v & -> & (Hv & x & Hx)%elem_of_filter_rows). apply bool_decide_eq_true in Hv.
      rewrite (so_keyed _ Hs x v Hx). by eapply (co_bound _ _ Hc).
    - intros (v & -> & Hv)%list_elem_of_fmap. exists (before UFree c v). split; [done|]. apply elem_of_filter_rows. split; [|eauto].
      by apply bool_decide_eq_true. }
  eapply same_client_ok; try done. eapply client_ok_at; [done..|]. unfold at_ok. cbn [goto ct_at ct_slots ct_writes].
  split_and!; try done.
  - destruct u; [apply Hc|apply (filter_rows_keys_NoDup gs_ID), Hs..].
  - intros id. apply Hrows.
  - intros id w. by rewrite Hw, lookup_empty.
  - intros v Hv. rewrite Hw, decide_True; [done|]. apply Hrows. by apply in_claims.
Qed.

Lemma row_ok s i c u id todo v :
  sys_ok s -> sy_clients s !! i = Some c -> ct_at c = Updating u (id :: todo) ->
  visible (sy_slots s) c id = Some v ->
  sys_ok (set_client i (goto (Updating u todo) (write id (u_set u c v) c)) s).
Proof.
  intros Hs Hi Hp Hv. pose proof (so_client _ Hs i c Hi) as Hc. pose proof (co_at _ _ Hc) as Hat.
  destruct (next_update _ _ _ _ _ _ Hs Hi Hp) as (_ & v0 & Hv0 & <- & Hvis & _).
  assert (v = before u c v0) as -> by congruence. clear Hv Hvis.
  unfold at_ok in Hat. rewrite Hp in Hat. destruct Hat as (Hres & [Hn Hnd]%NoDup_cons & Hin & Hm & Hwc & Hw).
  eapply same_client_ok; try done. eapply client_ok_at; [done..|]. unfold at_ok. cbn [goto write ct_at ct_slots ct_writes].
  split_and!; try done.
  - intros id Hid. by apply Hin; right.
  - intros id w. rewrite lookup_insert_Some. intros [[<- <-]|[_ Hx]]; [by apply in_claims|by eapply Hwc].
  - intros x Hx. destruct (decide (gs_ID x = gs_ID v0)) as [E|E].
    + assert (x = v0) as ->.
      { pose proof (co_keys _ _ Hc) as Hk. apply list_elem_of_lookup in Hx as [a Ha], Hv0 as [b Hb].
        assert (a = b) as ->; [|congruence].
        eapply (NoDup_lookup _ a b (gs_ID x) Hk); unfold claims; rewrite list_lookup_fmap, ?Ha, ?Hb; simpl; congruence. }
      rewrite lookup_insert_eq, decide_False by done. by destruct u.
    + rewrite lookup_insert_ne by done. rewrite (Hw x Hx).
      destruct (decide (gs_ID x ∈ todo)) as [Ht|Ht]; [by rewrite decide_True by by right|].
      rewrite decide_False; [done|]. by intros [?|?]%elem_of_cons.
Qed.

Lemma done_ok s i c u :
  sys_ok s -> sy_clients s !! i = Some c -> ct_at c = Updating u [] -> sys_ok (commit i c (u_done u c) s).
Proof.
  intros Hs Hi Hp. pose proof (so_client _ Hs i c Hi) as Hc. pose proof (co_at _ _ Hc) as Hat.
  unfold at_ok in Hat. rewrite Hp in Hat. destruct Hat as (Hres & _ & _ & _ & Hwc & Hw).
  assert (forall v, v ∈ ct_slots c -> (ct_writes c ∪ sy_slots s) !! gs_ID v = Some (u_set u c v)) as Hrow.
  { intros v Hv. rewrite commit_row. by rewrite (Hw v Hv), decide_False by apply not_elem_of_nil. }
  destruct u; eapply commit_ok; try done; try (by intros id ?%not_elem_of_nil); [by apply (commit_client_ok s i c)|..].
  all: constructor; simpl; [by apply NoDup_nil|by intros v ?%not_elem_of_nil|done|].
  all: intros id v Hv Hx; exfalso; rewrite commit_row in Hv.
  all: destruct (ct_writes c !! id) as [w|] eqn:E;
    [pose proof (Hwc id w E) as Hid|pose proof (co_bound _ _ Hc id v Hv Hx) as Hid].
  all: apply list_elem_of_fmap in Hid as (v0 & -> & Hv0); rewrite (Hw v0 Hv0) in E;
    rewrite decide_False in E by apply not_elem_of_nil; by simplify_eq.
Qed.

Lemma undone_ok s i c u todo :
  sys_ok s -> sy_clients s !! i = Some c -> ct_at c = Updating u todo -> sys_ok (rollback i (goto (u_from u) c) s).
Proof.
  intros Hs Hi Hp. pose proof (so_client _ Hs i c Hi) as Hc. pose proof (co_at _ _ Hc) as Hat.
  unfold at_ok in Hat. rewrite Hp in Hat. destruct Hat as (Hres & _ & _ & Hm & _ & _).
  eapply same_client_ok; try done; [|by destruct u]. eapply client_ok_at; [done..|]. by destruct u.
Qed.

(** A row that a statement of the program visits has not changed, so it is
    neither skipped nor missed. *)
Lemma slots_step_ok s s' : step s s' -> sys_ok s -> sys_ok s'.
Proof.
  intros [i c s1 Hi Hstep] Hs.
  destruct Hstep as [Hp _ Hl|Hp|id todo v Hp Hlt _ Hv _|id todo Hp _ _ Hno|todo p Hp Hn Hpp|Hp _|Hp|u Hp
    |u id todo v Hp _ Hv _|u id todo Hp _ Hno|u Hp|u todo Hp].
  - by apply lock_ok.
  - by apply select_ok.
  - by apply pick_ok.
  - destruct (next_pick _ _ _ _ _ Hs Hi Hp) as (_ & v & Hv & Hf). unfold fits in Hf. by rewrite (Hno v Hv) in Hf.
  - by eapply reserved_step_ok.
  - apply over_ok; try done. right. unfold has_lock. by rewrite Hp.
  - by apply over_ok.
  - by apply begin_update_ok.
  - by eapply row_ok.
  - destruct (next_update _ _ _ _ _ _ Hs Hi Hp) as (_ & v & _ & _ & Hv & Hf). by rewrite (Hno _ Hv) in Hf.
  - by apply done_ok.
  - by eapply undone_ok.
Qed.

Lemma slots_reachable_ok m rqs s : starting m rqs -> rtc step (initial m rqs) s -> sys_ok s.
Proof.
  intros Hm%slots_initial_ok Hr. induction Hr as [|x y z Hxy _ IH]; [done|]. apply IH. by eapply slots_step_ok.
Qed.

(** ** The tables a reservation was made from *)

(** The client has run reserveFreeSlots. *)
Definition has_seen (c : client) : bool :=
  match ct_at c with Begin | Locked | Ended => false | _ => true end.

Definition seen_ok (s0 s : sys) : Prop :=
  forall i c, sy_clients s !! i = Some c -> has_seen c = true ->
    exists s1, rtc step s0 s1 /\ rtc step s1 s /\ ct_seen c = sy_slots s1.

Lemma step_seen s s' j c' :
  step s s' -> sy_clients s' !! j = Some c' -> has_seen c' = true ->
  ct_seen c' = sy_slots s \/ exists c, sy_clients s !! j = Some c /\ has_seen c = true /\ ct_seen c' = ct_seen c.
Proof.
  intros [i c s1 Hi Hstep] Hj Hseen.
  assert (forall c1, <[i := c1]> (sy_clients s) !! j = Some c' ->
    (has_seen c1 = true -> ct_seen c1 = sy_slots s \/ has_seen c = true /\ ct_seen c1 = ct_seen c) ->
    ct_seen c' = sy_slots s \/ exists c, sy_clients s !! j = Some c /\ has_seen c = true /\ ct_seen c' = ct_seen c) as Hupd.
  { intros c1 [(<- & <- & _)|[Hne Hj']]%list_lookup_insert_Some H1; [|right; eauto].
    destruct (H1 Hseen) as [?|[? ?]]; [by left|right; eauto]. }
  destruct Hstep as [Hp _ _|Hp|id todo v Hp _ _ _ _|id todo Hp _ _ _|todo p Hp _ _|Hp _|_|u Hp
    |u id todo v Hp _ _ _|u id todo Hp _ _|u Hp|u todo Hp]; try destruct u;
    (eapply Hupd; [exact Hj|]); unfold has_seen; simpl; rewrite ?Hp; auto; done.
Qed.

Lemma reachable_seen s0 s : (forall i c, sy_clients s0 !! i = Some c -> has_seen c = false) ->
  rtc step s0 s -> seen_ok s0 s.
Proof.
  intros H0. revert s. apply (rtc_ind_r (seen_ok s0)); [intros i c Hi Hc; by rewrite (H0 i c Hi) in Hc|].
  intros s s' Hr Hstep IH i c Hi Hc.
  destruct (step_seen _ _ _ _ Hstep Hi Hc) as [E|(c0 & Hi0 & Hc0 & E)].
  - exists s. split_and!; [done|by apply rtc_once|done].
  - destruct (IH i c0 Hi0 Hc0) as (s1 & H1 & H2 & E1). exists s1. split_and!; [done|by eapply rtc_r|congruence].
Qed.

Lemma initial_seen m rqs i c : sy_clients (initial m rqs) !! i = Some c -> has_seen c = false.
Proof. simpl. rewrite list_lookup_fmap. destruct (rqs !! i); [|done]. by intros [= <-]. Qed.

Lemma picked_all c (todo : list UUID) :
  (exists rest, todo = gs_ID <$> rest /\
    ct_slots c ++ (reserve_slot <$> rest) = reserve_slot <$> free_slots (ct_req c) (ct_seen c)) ->
  todo = [] ->
  Z.of_nat (length (ct_slots c)) = count_where (free_slot (rq_nodeID (ct_req c)) (rq_gpuSize (ct_req c))) (ct_seen c).
Proof.
  intros (rest & -> & Hsl) Hn. apply fmap_nil_inv in Hn as ->. rewrite app_nil_r in Hsl.
  rewrite Hsl, length_fmap. unfold free_slots, count_where. by rewrite (Permutation_length (order_by_Permutation _ _)).
Qed.

(** C6: reservations are exclusive however their transactions interleave.
    Creates for different instances run concurrently, with any interleaving
    of their statements' visits to rows, any failure at any point and lost
    answers of commits.  In every state: no slot is picked, reserved or bound
    for two of them.  What [Reserve] returned is what its statement alone
    returns on tables committed at some moment before, exactly as many slots
    as asked for, and they are still reserved in the table; the slots of a
    bound instance, and no others, are in use by it.  A create that gives up
    for want of slots has seen committed tables with too few free ones.  And
    because of the advisory lock no statement waits for a row of another
    transaction, so that they cannot deadlock. *)
Theorem concurrent_reservations m rqs s :
  starting m rqs -> rtc step (initial m rqs) s ->
  (forall i j c c' id, i <> j -> sy_clients s !! i = Some c -> sy_clients s !! j = Some c' ->
     id ∈ claims c -> id ∉ claims c') /\
  (forall i c, sy_clients s !! i = Some c ->
     let rq := ct_req c in
     (ct_at c = Holding ->
        Z.of_nat (length (ct_slots c)) = rq_count rq /\
        (forall v, v ∈ ct_slots c -> sy_slots s !! gs_ID v = Some v /\ gs_Status v = SlotStatusReserved) /\
        exists s1, rtc step (initial m rqs) s1 /\ rtc step s1 s /\ forall env d,
          (reserveFreeSlots (rq_nodeID rq) (rq_gpuSize rq) (rq_count rq) env (set_gpu_slots (sy_slots s1) d)).1 =
            Ok (ct_slots c)) /\
     (ct_at c = Bound -> Z.of_nat (length (claims c)) = rq_count rq /\ NoDup (claims c) /\ forall id,
        id ∈ claims c <-> exists v, sy_slots s !! id = Some v /\ gs_CurrentInstanceID v = Some (rq_instanceID rq)) /\
     (ct_at c = Picking [] -> (Z.of_nat (length (ct_slots c)) < rq_count rq)%Z ->
        exists s1, rtc step (initial m rqs) s1 /\ rtc step s1 s /\
          (count_where (free_slot (rq_nodeID rq) (rq_gpuSize rq)) (sy_slots s1) < rq_count rq)%Z) /\
     (forall id todo, ct_at c = Picking (id :: todo) \/ (exists u, ct_at c = Updating u (id :: todo)) ->
        ~ row_locked s i id)).
Proof.
  intros Hm Hr. pose proof (slots_reachable_ok _ _ _ Hm Hr) as Hs.
  pose proof (reachable_seen _ _ (initial_seen m rqs) Hr) as Hseen.
  split; [apply (so_disjoint _ Hs)|]. intros i c Hi rq.
  pose proof (so_client _ Hs i c Hi) as Hc. pose proof (co_at _ _ Hc) as Hat. unfold at_ok in Hat. split_and!.
  - intros Hp. rewrite Hp in Hat. destruct Hat as (_ & [Hn Hsl] & Hrow). split_and!; [done| |].
    + intros v Hv. split; [by apply Hrow|by apply (co_shape _ _ Hc)].
    + destruct (Hseen i c Hi) as (s1 & H1 & H2 & E); [unfold has_seen; by rewrite Hp|].
      exists s1. split_and!; [done..|]. intros env d. simpl. rewrite <- E. f_equal. symmetry. exact Hsl.
  - intros Hp. rewrite Hp in Hat. destruct Hat as (_ & [Hn _] & Hrow).
    split_and!; [unfold claims; by rewrite length_fmap|apply Hc|]. intros id. split.
    + intros (v & -> & Hv)%list_elem_of_fmap. eexists. split; [by apply Hrow|done].
    + intros (v & Hv & Hx). by eapply (co_bound _ _ Hc).
  - intros Hp Hlt. rewrite Hp in Hat. destruct Hat as (rest & Ht & Hsl & _).
    destruct (Hseen i c Hi) as (s1 & H1 & H2 & E); [unfold has_seen; by rewrite Hp|].
    exists s1. split_and!; [done..|]. pose proof (picked_all c [] (ex_intro _ rest (conj Ht Hsl)) eq_refl) as Ec.
    rewrite <- E. unfold rq in *. lia.
  - intros id todo [Hp|[u Hp]]; [by eapply next_pick|by eapply next_update].
Qed.

(** ** An executable scheduler

    The step of one client when nothing fails: with it an interleaving is a
    list of client numbers. *)

Definition others (s : sys) (i : nat) (f : client -> bool) : bool :=
  forallb (fun p : nat * client => bool_decide (p.1 = i) || f p.2) (imap pair (sy_clients s)).

Definition lock_free (s : sys) (i : nat) (c : client) : bool :=
  others s i (fun c' => negb (has_lock c' && (key_of_client c' =? key_of_client c)%Z)).
Definition row_free (s : sys) (i : nat) (id : UUID) : bool :=
  others s i (fun c' => bool_decide (ct_writes c' !! id = None)).

Definition next (i : nat) (s : sys) : option sys :=
  match sy_clients s !! i with
  | None => None
  | Some c =>
      match ct_at c with
      | Begin => if (0 <? rq_count (ct_req c))%Z && lock_free s i c then Some (set_client i (goto Locked c) s) else None
      | Locked => Some (set_client i (start_at (sy_slots s)
                    (goto (Picking (gs_ID <$> free_slots (ct_req c) (sy_slots s))) c)) s)
      | Picking todo =>
          if (Z.of_nat (length (ct_slots c)) =? rq_count (ct_req c))%Z then Some (commit i c (goto Holding c) s)
          else if (Z.of_nat (length (ct_slots c)) <? rq_count (ct_req c))%Z then
            match todo with
            | [] => Some (rollback i (over c) s)
            | id :: todo =>
                match visible (sy_slots s) c id with
                | Some v => if row_free s i id && fits c v
                            then Some (set_client i (goto (Picking todo) (pick (reserve_slot v) (write id (reserve_slot v) c))) s)
                            else None
                | None => None
                end
            end
          else None
      | Holding => Some (set_client i (goto (Updating UBind (u_rows UBind c (sy_slots s))) c) s)
      | Bound => Some (set_client i (goto (Updating UFree (u_rows UFree c (sy_slots s))) c) s)
      | Updating u [] => Some (commit i c (u_done u c) s)
      | Updating u (id :: todo) =>
          match visible (sy_slots s) c id with
          | Some v => if row_free s i id && u_where u c v
                      then Some (set_client i (goto (Updating u todo) (write id (u_set u c v) c)) s)
                      else None
          | None => None
          end
      | Leaked | Ended => None
      end
  end.

Lemma others_spec s i f :
  others s i f = true -> forall j c, j <> i -> sy_clients s !! j = Some c -> f c = true.
Proof.
  unfold others. rewrite forallb_forall. intros Hall j c Hj Hc.
  assert (In (j, c) (imap pair (sy_clients s))) as Hin.
  { apply list_elem_of_In, list_elem_of_lookup. exists j. by rewrite list_lookup_imap, Hc. }
  apply Hall in Hin. simpl in Hin. by rewrite bool_decide_eq_false_2 in Hin.
Qed.

Lemma row_free_spec s i id : row_free s i id = true -> ~ row_locked s i id.
Proof.
  intros Hf (j & c & Hj & Hc & [w Hw]). pose proof (others_spec _ _ _ Hf j c Hj Hc) as H1.
  apply bool_decide_eq_true in H1. congruence.
Qed.

Lemma next_sound i s s' : next i s = Some s' -> step s s'.
Proof.
  unfold next. destruct (sy_clients s !! i) as [c|] eqn:Hi; [|done]. intros Hn. apply (s_client _ i c); [done|].
  destruct (ct_at c) as [| |[|id todo]| |u [|id todo]| | |] eqn:Hp; try done.
  - destruct (Z.ltb_spec 0 (rq_count (ct_req c))); [|done]. simpl in Hn. destruct (lock_free s i c) eqn:Hl; [|done].
    simplify_eq. apply k_lock; [done..|]. intros j c' Hj Hc' Hh Hk.
    pose proof (others_spec _ _ _ Hl j c' Hj Hc') as H1. simpl in H1. by rewrite Hh, Hk, Z.eqb_refl in H1.
  - simplify_eq. by apply k_select.
  - destruct (Z.eqb_spec (Z.of_nat (length (ct_slots c))) (rq_count (ct_req c))); [simplify_eq; eapply k_reserved; eauto|].
    destruct (Z.ltb_spec (Z.of_nat (length (ct_slots c))) (rq_count (ct_req c))); simplify_eq. by apply k_short.
  - destruct (Z.eqb_spec (Z.of_nat (length (ct_slots c))) (rq_count (ct_req c))); [simplify_eq; eapply k_reserved; eauto|].
    destruct (Z.ltb_spec (Z.of_nat (length (ct_slots c))) (rq_count (ct_req c))); [|done].
    destruct (visible _ _ _) as [v|] eqn:Hv; [|done]. destruct (row_free s i id) eqn:Hf; [|done]. simpl in Hn.
    destruct (fits c v) eqn:Hfit; [|done]. simplify_eq. by eapply k_pick; [| |apply row_free_spec| |].
  - simplify_eq. by apply k_update.
  - simplify_eq. by apply k_done.
  - destruct (visible _ _ _) as [v|] eqn:Hv; [|done]. destruct (row_free s i id) eqn:Hf; [|done]. simpl in Hn.
    destruct (u_where u c v) eqn:Hw; [|done]. simplify_eq. by eapply k_row; [|apply row_free_spec| |].
  - simplify_eq. by apply k_update.
Qed.

Fixpoint schedule (l : list nat) (s : sys) : option sys :=
  match l with [] => Some s | i :: l => match next i s with Some s1 => schedule l s1 | None => None end end.

Lemma schedule_sound l s s' : schedule l s = Some s' -> rtc step s s'.
Proof.
  revert s. induction l as [|i l IH]; simpl; intros s Hs; [by simplify_eq|].
  destruct (next i s) as [s1|] eqn:Hn; [|done]. eapply rtc_l; [by eapply next_sound|by apply IH].
Qed.
End system.

(** ** Two creates that interleave *)

Definition demo_key (node : UUID) : Z := Z.of_N node.
Definition demo_request (inst : UUID) : request :=
  {| rq_nodeID := 3; rq_gpuSize := 1; rq_count := 1; rq_instanceID := inst |}.
Definition demo_requests : list request := [demo_request 21; demo_request 22].
Definition demo_slots : Slots := db_gpu_slots demo_db.

Lemma demo_starting : starting demo_slots demo_requests.
Proof.
  assert (forall id v, demo_slots !! id = Some v ->
    gs_ID v = id /\ (gs_CurrentInstanceID v = None \/ gs_CurrentInstanceID v = Some 5%N /\ gs_Status v = SlotStatusInUse)) as H.
  { intros id v Hv. apply elem_of_map_to_list in Hv. vm_compute in Hv.
    repeat (apply elem_of_cons in Hv as [E|Hv]; [injection E as -> ->; simpl; auto|]). by apply not_elem_of_nil in Hv. }
  constructor.
  - intros id v Hv. by apply H.
  - intros id v x Hv Hx. destruct (H id v Hv) as [_ [?|[_ ?]]]; [congruence|done].
  - intros id v rq Hv Hrq Hx. destruct (H id v Hv) as [_ [?|[? _]]]; [congruence|].
    apply elem_of_cons in Hrq as [->|[->|?%not_elem_of_nil]%elem_of_cons]; simpl in *; congruence.
  - apply (bool_decide_unpack _). vm_compute. done.
Qed.

(** The first picks and commits, the second starts, the first binds, the
    second picks and commits. *)
Definition demo_schedule : list nat := [0; 0; 0; 0; 1; 1; 0; 0; 0; 1; 1].

Lemma concurrent_reservations_witness :
  exists s c c' v, rtc (step (H := C_collation) demo_key) (initial demo_slots demo_requests) s /\
    sy_clients s !! 0 = Some c /\ sy_clients s !! 1 = Some c' /\ ct_at c = Bound /\ ct_at c' = Holding /\
    ct_slots c' = [v] /\ gs_ID v ∉ claims c /\ sy_slots s !! gs_ID v = Some v.
Proof.
  destruct (schedule (H := C_collation) demo_key demo_schedule (initial demo_slots demo_requests)) as [s|] eqn:Hs;
    [|vm_compute in Hs; discriminate].
  pose proof (schedule_sound _ _ _ _ Hs) as Hr.
  destruct (concurrent_reservations demo_key _ _ _ demo_starting Hr) as [Hd Hc].
  vm_compute in Hs. injection Hs as Hs.
  eexists s, _, _, _. split; [exact Hr|]. rewrite <- Hs in *.
  split; [reflexivity|]. split; [reflexivity|]. split; [reflexivity|]. split; [reflexivity|]. split; [reflexivity|].
  split.
  - eapply (Hd 1 0); [discriminate|reflexivity|reflexivity|]. left.
  - destruct (Hc 1 _ eq_refl) as (Hh & _). destruct (Hh eq_refl) as (_ & Hrow & _). apply Hrow. left.
Defined.

(** ** A profile that is synchronised meanwhile

    [SyncFromProfile] counts the slots that are not free and deletes the
    slots of the node in two statements, and does not take the advisory lock.
    [between] is what other transactions commit between the two. *)

#[local] Open Scope go_scope.

Definition SyncFromProfile_with {A} (nodeID : UUID) (profileHash : string) (slots : list ProfileSlot)
    (between : ST Pg (result A)) : ST Pg (result (SyncResult * option A)) :=
  node <-? wrapErr "load node: " (exec (getNode nodeID)) ;;
  if String.eqb (nd_ProfileHash node) profileHash && negb (String.eqb profileHash "")
  then ret (Ok (SyncUnchanged, None))
  else inTx
    (inUse <-? wrapErr "count non-free: " (exec (countNonFreeSlotsForNode nodeID)) ;;
     if (0 <? inUse)%Z then ret (Ok (SyncDegraded, None))
     else
       a <-? between ;;
       _ <-? wrapErr "delete existing: " (exec (deleteSlotsForNode nodeID)) ;;
       _ <-? insert_profile_slots nodeID slots ;;
       _ <-? wrapErr "update profile_hash: " (exec (updateNodeProfileHash nodeID profileHash)) ;;
       ret (Ok (SyncReplaced, Some a))).

(** A create that gets through meanwhile: it reserves and binds. *)
Definition reserve_and_bind `{UUIDLib, Collation} (nodeID : UUID) (gpuSize count : Z) (inst : UUID)
    : ST Pg (result Reservation) :=
  r <-? Reserve nodeID gpuSize count ;;
  _ <-? BindToInstance r inst ;;
  ret (Ok r).

Definition free_db : DB :=
  set_gpu_slots {[ 11%N := demo_slot 11 1 "nv0" SlotStatusFree None; 12%N := demo_slot 12 2 "" SlotStatusFree None ]} demo_db.

Definition new_profile : list ProfileSlot :=
  [{| ps_SlotIndex := 1; ps_GpuCount := 1; ps_GpuIndices := Some [1%Z]; ps_NvlinkDomain := "" |}].

(** A create that commits between the two statements loses its slots: the
    profile is replaced although a slot is in use, no slot is left that
    belongs to the instance, and the next reservation hands out its GPU
    again. *)
Theorem sync_frees_used_gpus `{UUIDLib} : exists s' r r2 s2,
  SyncFromProfile_with 3 "p1" new_profile (reserve_and_bind (H0 := C_collation) 3 1 1 5) (on_demo free_db) =
    (Ok (SyncReplaced, Some r), s') /\
  (forall id v, db_gpu_slots (pg_db s') !! id = Some v -> gs_CurrentInstanceID v = None) /\
  Reserve (H0 := C_collation) 3 1 1 s' = (Ok r2, s2) /\
  gs_GpuIndices <$> rsv_Slots r2 = gs_GpuIndices <$> rsv_Slots r.
Proof.
  do 4 eexists. split; [vm_compute; reflexivity|]. split.
  - intros id v Hv. apply elem_of_map_to_list in Hv. vm_compute in Hv.
    apply elem_of_cons in Hv as [E|Hv]; [by injection E as _ ->|]. by apply not_elem_of_nil in Hv.
  - split; vm_compute; reflexivity.
Qed.

(** With nothing in between it is [SyncFromProfile]. *)
Lemma SyncFromProfile_with_nothing nodeID hash slots s :
  (SyncFromProfile_with nodeID hash slots (ret (Ok tt)) s).2 = (SyncFromProfile nodeID hash slots s).2 /\
  match (SyncFromProfile_with nodeID hash slots (ret (Ok tt)) s).1, (SyncFromProfile nodeID hash slots s).1 with
  | Ok r, Ok r' => r.1 = r'
  | Err e, Err e' => e = e'
  | _, _ => False
  end.
Proof.
  unfold SyncFromProfile_with, SyncFromProfile. rewrite !bindR_eq.
  destruct (wrapErr _ (exec (getNode nodeID)) s) as [[n|e] s1]; [|done].
  destruct (String.eqb _ _ && _); [done|]. unfold inTx. rewrite !bindR_eq.
  destruct (wrapErr _ begin_tx s1) as [[[]|e] s2]; [|done]. rewrite !bind_eq, !bindR_eq.
  destruct (wrapErr _ _ s2) as [[k|e] s3]; [|done].
  destruct (0 <? k)%Z; [cbn [ret fst snd]; unfold commit_tx; by destruct (next_fault s3)|].
  rewrite !bindR_eq. cbn [ret]. rewrite !bindR_eq. destruct (wrapErr _ _ s3) as [[x|e] s4]; [|done].
  rewrite !bindR_eq. destruct (insert_profile_slots nodeID slots s4) as [[y|e] s5]; [|done].
  rewrite !bindR_eq. destruct (wrapErr _ _ s5) as [[z|e] s6]; [|done].
  cbn [ret fst snd]. unfold commit_tx. by destruct (next_fault s6).
Qed.
