(* ===== verification/CreditConcurrency.v ===== *)
(** * Ledger posts in concurrent transactions (internal/credit/repo.go)

    CreditRepo runs each [Post] by itself.  Here recharges, the charges of the
    billing worker and any other posts run at the same time, on a server at
    READ COMMITTED: a transaction's writes are invisible until it commits; an
    insert waits for an open transaction that has inserted the same
    idempotency key, and the upsert of a balance waits for an open transaction
    that has written the user's row, and then adds to the row as committed.

    The theorem is that this is as good as one at a time: the committed tables
    come from running the bodies of the committed posts alone, in the order
    of their commits. *)

From S2P Require Import Prelude GoStrings Proto Db Queries Demo CreditRepo.
From stdpp Require Import relations.

#[local] Open Scope string_scope.
#[local] Open Scope list_scope.

(** Where a [Post] is: before its insert, after it, after the upsert, and
    with its result.  The rows are what the open transaction has written. *)
Inductive post_at :=
  | Posting
  | Inserted (row : CreditLedger)
  | Upserted (row : CreditLedger) (c : Credit)
  | Returned (r : result CreditLedger).

Record posting := { po_in : PostInput; po_at : post_at }.

Record posts := { ps_db : DB; ps_clients : list posting }.

Definition entry_of (p : posting) : option CreditLedger :=
  match po_at p with Inserted row | Upserted row _ => Some row | _ => None end.
Definition row_of (p : posting) : option Credit :=
  match po_at p with Upserted _ c => Some c | _ => None end.

Definition moved (i : nat) (p : posting) (a : post_at) (s : posts) : posts :=
  {| ps_db := ps_db s; ps_clients := <[i := {| po_in := po_in p; po_at := a |}]> (ps_clients s) |}.

(** [tx.Commit]. *)
Definition written (row : CreditLedger) (c : Credit) (d : DB) : DB :=
  set_credits (<[cr_UserID c := c]> (db_credits d)) (set_credit_ledger (db_credit_ledger d ++ [row]) d).

Definition committed (i : nat) (p : posting) (row : CreditLedger) (c : Credit) (r : result CreditLedger) (s : posts) : posts :=
  {| ps_db := written row c (ps_db s);
     ps_clients := <[i := {| po_in := po_in p; po_at := Returned r |}]> (ps_clients s) |}.

(** Another transaction is open that has inserted the key, or written the
    balance of the user. *)
Definition key_locked (s : posts) (i : nat) (key : string) : Prop :=
  exists j p row, j <> i /\ ps_clients s !! j = Some p /\ entry_of p = Some row /\ cl_IdempotencyKey row = key.
Definition balance_locked (s : posts) (i : nat) (user : UUID) : Prop :=
  exists j p c, j <> i /\ ps_clients s !! j = Some p /\ row_of p = Some c /\ cr_UserID c = user.

(** The statements of [Post], each on the committed tables and with the clock
    and sequence of its moment; any failure rolls back; the answer of a
    commit may be lost. *)
Inductive pstep (s : posts) (i : nat) (p : posting) : posts -> Prop :=
  | p_refused : po_at p = Posting -> pi_IdempotencyKey (po_in p) = "" ->
      pstep s i p (moved i p (Returned (Err (ErrNew "credit: idempotency_key required"))) s)
  | p_insert env row d : po_at p = Posting -> pi_IdempotencyKey (po_in p) <> "" ->
      ~ key_locked s i (pi_IdempotencyKey (po_in p)) ->
      insertCreditLedgerEntry (ledger_params (po_in p)) env (ps_db s) = (Ok row, d) ->
      pstep s i p (moved i p (Inserted row) s)
  | p_insert_fails env e d : po_at p = Posting -> pi_IdempotencyKey (po_in p) <> "" ->
      ~ key_locked s i (pi_IdempotencyKey (po_in p)) ->
      insertCreditLedgerEntry (ledger_params (po_in p)) env (ps_db s) = (Err e, d) ->
      pstep s i p (moved i p (Returned (Err (insert_error e))) s)
  | p_upsert env row d c : po_at p = Inserted row -> ~ balance_locked s i (pi_UserID (po_in p)) ->
      upsertCredits (pi_UserID (po_in p)) (pi_DeltaMilli (po_in p)) env (ps_db s) = (Ok tt, d) ->
      db_credits d !! pi_UserID (po_in p) = Some c ->
      pstep s i p (moved i p (Upserted row c) s)
  | p_upsert_fails env row e d : po_at p = Inserted row -> ~ balance_locked s i (pi_UserID (po_in p)) ->
      upsertCredits (pi_UserID (po_in p)) (pi_DeltaMilli (po_in p)) env (ps_db s) = (Err e, d) ->
      pstep s i p (moved i p (Returned (Err (ErrWrap "update balance: " e ""))) s)
  | p_commit row c : po_at p = Upserted row c -> pstep s i p (committed i p row c (Ok row) s)
  | p_commit_lost row c e : po_at p = Upserted row c -> e <> ErrDuplicateIdempotency ->
      pstep s i p (committed i p row c (Err e) s)
  | p_fails e : (forall r, po_at p <> Returned r) -> e <> ErrDuplicateIdempotency ->
      pstep s i p (moved i p (Returned (Err e)) s).

Inductive step (s : posts) : posts -> Prop :=
  | s_post i p s' : ps_clients s !! i = Some p -> pstep s i p s' -> step s s'.

Definition initial (d : DB) (l : list PostInput) : posts :=
  {| ps_db := d; ps_clients := (fun inp => {| po_in := inp; po_at := Posting |}) <$> l |}.

(** The body of [Post] by itself: the two statements, one after the other. *)
Inductive post_alone (inp : PostInput) (row : CreditLedger) (d d2 : DB) : Prop :=
  | alone env1 env2 d1 : pi_IdempotencyKey inp <> "" ->
      insertCreditLedgerEntry (ledger_params inp) env1 d = (Ok row, d1) ->
      upsertCredits (pi_UserID inp) (pi_DeltaMilli inp) env2 d1 = (Ok tt, d2) ->
      post_alone inp row d d2.

Definition one_post (l : list PostInput) (d d2 : DB) : Prop := exists inp row, inp ∈ l /\ post_alone inp row d d2.

(** ** The invariant *)

(** An entry that is not committed can still be: its key is not taken. *)
Definition entry_ok (d : DB) (inp : PostInput) (row : CreditLedger) : Prop :=
  pi_IdempotencyKey inp <> "" /\
  exists env, insertCreditLedgerEntry (ledger_params inp) env d =
    (Ok row, set_credit_ledger (db_credit_ledger d ++ [row]) d).

(** A balance that is not committed is the committed one and the delta. *)
Definition balance_row_ok (d : DB) (inp : PostInput) (c : Credit) : Prop :=
  cr_UserID c = pi_UserID inp /\ exists env,
    upsertCredits (pi_UserID inp) (pi_DeltaMilli inp) env d = (Ok tt, set_credits (<[pi_UserID inp := c]> (db_credits d)) d).

Definition posting_ok (d : DB) (p : posting) : Prop :=
  match po_at p with
  | Posting => True
  | Inserted row => entry_ok d (po_in p) row
  | Upserted row c => entry_ok d (po_in p) row /\ balance_row_ok d (po_in p) c
  | Returned (Ok row) => row ∈ db_credit_ledger d /\ cl_IdempotencyKey row = pi_IdempotencyKey (po_in p)
  | Returned (Err e) => e = ErrDuplicateIdempotency ->
      pi_IdempotencyKey (po_in p) ∈ cl_IdempotencyKey <$> db_credit_ledger d
  end.

Record posts_ok (s : posts) : Prop := {
  pk_client i p : ps_clients s !! i = Some p -> posting_ok (ps_db s) p;
  pk_keys i j p q row row' : i <> j -> ps_clients s !! i = Some p -> ps_clients s !! j = Some q ->
    entry_of p = Some row -> entry_of q = Some row' -> cl_IdempotencyKey row <> cl_IdempotencyKey row';
  pk_balances i j p q c c' : i <> j -> ps_clients s !! i = Some p -> ps_clients s !! j = Some q ->
    row_of p = Some c -> row_of q = Some c' -> cr_UserID c <> cr_UserID c'
}.

Lemma entry_ok_key d inp row : entry_ok d inp row -> cl_IdempotencyKey row = pi_IdempotencyKey inp.
Proof. by intros (_ & env & (_ & -> & _)%insertLedger_Ok). Qed.

Lemma insert_after d row c inp env r d1 :
  insertCreditLedgerEntry (ledger_params inp) env d = (Ok r, d1) -> cl_IdempotencyKey row <> pi_IdempotencyKey inp ->
  insertCreditLedgerEntry (ledger_params inp) env (written row c d) =
    (Ok r, set_credit_ledger (db_credit_ledger (written row c d) ++ [r]) (written row c d)).
Proof.
  unfold insertCreditLedgerEntry. simpl. rewrite existsb_app. simpl.
  destruct (existsb _ (db_credit_ledger d)); [done|]. simpl. unfold has_key at 1. intros H Hk.
  rewrite (proj2 (String.eqb_neq _ _) Hk). simpl. change (db_users (written row c d)) with (db_users d).
  destruct (negb _); simplify_eq. done.
Qed.

Lemma entry_ok_written d row c inp r :
  entry_ok d inp r -> cl_IdempotencyKey row <> cl_IdempotencyKey r -> entry_ok (written row c d) inp r.
Proof.
  intros Hr Hk. pose proof (entry_ok_key _ _ _ Hr) as Ek. destruct Hr as (Hne & env & Hi). split; [done|].
  exists env. eapply insert_after; [done|congruence].
Qed.

Lemma balance_ok_written d row c inp c' :
  balance_row_ok d inp c' -> cr_UserID c <> cr_UserID c' -> balance_row_ok (written row c d) inp c'.
Proof.
  intros (Hu & env & Hup) Hne. split; [done|]. exists env. rewrite Hu in Hne. unfold upsertCredits in *. simpl.
  rewrite lookup_insert_ne by done. change (db_users (written row c d)) with (db_users d).
  destruct (db_credits d !! pi_UserID inp) as [c0|]; [destruct (is_int64 _)|destruct (negb _)]; try done.
  all: apply (f_equal (fun r => db_credits r.2 !! pi_UserID inp)) in Hup; simpl in Hup; rewrite !lookup_insert_eq in Hup;
    injection Hup as <-; done.
Qed.

(** A commit of one post leaves what the others have written good. *)
Lemma posting_ok_written d row c p :
  posting_ok d p -> (forall r, entry_of p = Some r -> cl_IdempotencyKey row <> cl_IdempotencyKey r) ->
  (forall c', row_of p = Some c' -> cr_UserID c <> cr_UserID c') -> posting_ok (written row c d) p.
Proof.
  unfold posting_ok, entry_of, row_of. intros Hp Hk Hb. destruct (po_at p) as [|r|r c'|[r|e]]; simpl.
  - done.
  - apply entry_ok_written; [done|]. by apply Hk.
  - destruct Hp. split; [apply entry_ok_written; [done|by apply Hk]|apply balance_ok_written; [done|by apply Hb]].
  - destruct Hp. split; [|done]. apply elem_of_app. by left.
  - intros He. rewrite fmap_app. apply elem_of_app. left. by apply Hp.
Qed.

Lemma moved_ok s i p a :
  posts_ok s -> ps_clients s !! i = Some p -> posting_ok (ps_db s) {| po_in := po_in p; po_at := a |} ->
  (forall row, entry_of {| po_in := po_in p; po_at := a |} = Some row ->
     entry_of p = Some row \/ ~ key_locked s i (cl_IdempotencyKey row)) ->
  (forall c, row_of {| po_in := po_in p; po_at := a |} = Some c ->
     row_of p = Some c \/ ~ balance_locked s i (cr_UserID c)) ->
  posts_ok (moved i p a s).
Proof.
  intros [Hc Hk Hb] Hi Ha Hkey Hbal. constructor; simpl.
  - intros j q [(<- & <- & _)|[_ Hj]]%list_lookup_insert_Some; [done|by apply (Hc j)].
  - intros j k q q' r r' Hjk [(<- & <- & _)|[Hj Hq]]%list_lookup_insert_Some
      [(<- & <- & _)|[Hk' Hq']]%list_lookup_insert_Some Hr Hr'; [done| | |by eapply (Hk j k)].
    + destruct (Hkey r Hr) as [Hp|Hl]; [by eapply (Hk i k)|]. intros E. apply Hl. by exists k, q', r'.
    + destruct (Hkey r' Hr') as [Hp|Hl]; [by eapply (Hk j i)|]. intros E. apply Hl. by exists j, q, r.
  - intros j k q q' c c' Hjk [(<- & <- & _)|[Hj Hq]]%list_lookup_insert_Some
      [(<- & <- & _)|[Hk' Hq']]%list_lookup_insert_Some Hr Hr'; [done| | |by eapply (Hb j k)].
    + destruct (Hbal c Hr) as [Hp|Hl]; [by eapply (Hb i k)|]. intros E. apply Hl. by exists k, q', c'.
    + destruct (Hbal c' Hr') as [Hp|Hl]; [by eapply (Hb j i)|]. intros E. apply Hl. by exists j, q, c.
Qed.

Lemma upsert_after_insert d l inp env c :
  upsertCredits (pi_UserID inp) (pi_DeltaMilli inp) env d = (Ok tt, set_credits (<[pi_UserID inp := c]> (db_credits d)) d) ->
  upsertCredits (pi_UserID inp) (pi_DeltaMilli inp) env (set_credit_ledger l d) =
    (Ok tt, set_credits (<[pi_UserID inp := c]> (db_credits d)) (set_credit_ledger l d)).
Proof.
  unfold upsertCredits. simpl. change (db_users (set_credit_ledger l d)) with (db_users d). intros Hup.
  destruct (db_credits d !! pi_UserID inp) as [c0|]; [destruct (is_int64 _)|destruct (negb _)]; try done.
  all: apply (f_equal (fun r => db_credits r.2 !! pi_UserID inp)) in Hup; simpl in Hup; rewrite !lookup_insert_eq in Hup;
    by injection Hup as <-.
Qed.

(** A commit is the body of [Post] run alone, now. *)
Lemma commit_alone d p row c :
  posting_ok d p -> po_at p = Upserted row c -> post_alone (po_in p) row d (written row c d).
Proof.
  intros Hp Ha. unfold posting_ok in Hp. rewrite Ha in Hp. destruct Hp as [(Hk & env1 & Hi) (Hu & env2 & Hup)].
  econstructor; [done|exact Hi|]. unfold written. rewrite Hu. by apply upsert_after_insert.
Qed.

Lemma committed_ok s i p row c r :
  posts_ok s -> ps_clients s !! i = Some p -> po_at p = Upserted row c ->
  r = Ok row \/ (exists e, r = Err e /\ e <> ErrDuplicateIdempotency) ->
  posts_ok (committed i p row c r s).
Proof.
  intros [Hc Hk Hb] Hi Ha Hr. assert (entry_of p = Some row) as Ee by (unfold entry_of; by rewrite Ha).
  assert (row_of p = Some c) as Er by (unfold row_of; by rewrite Ha). constructor; simpl.
  - intros j q [(<- & <- & _)|[Hj Hq]]%list_lookup_insert_Some.
    + pose proof (Hc i p Hi) as Hp. unfold posting_ok in Hp. rewrite Ha in Hp. destruct Hp as [He _].
      unfold posting_ok. destruct Hr as [-> | (e & -> & Hne)]; simpl; [|by intros E].
      split; [apply elem_of_app; right; by apply list_elem_of_singleton|by eapply entry_ok_key].
    + apply posting_ok_written; [by apply (Hc j)|intros r' Hr'; by eapply (Hk i j)|intros c' Hc'; by eapply (Hb i j)].
  - intros j k q q' r1 r2 Hjk [(<- & <- & _)|[Hj Hq]]%list_lookup_insert_Some
      [(<- & <- & _)|[Hk' Hq']]%list_lookup_insert_Some; try done. by apply (Hk j k).
  - intros j k q q' r1 r2 Hjk [(<- & <- & _)|[Hj Hq]]%list_lookup_insert_Some
      [(<- & <- & _)|[Hk' Hq']]%list_lookup_insert_Some; try done. by apply (Hb j k).
Qed.

Lemma insert_error_dup inp env d e d1 :
  insertCreditLedgerEntry (ledger_params inp) env d = (Err e, d1) -> insert_error e = ErrDuplicateIdempotency ->
  pi_IdempotencyKey inp ∈ cl_IdempotencyKey <$> db_credit_ledger d.
Proof.
  unfold insertCreditLedgerEntry. destruct (existsb _ _) eqn:Hex; [intros _ _; by apply has_key_elem in Hex|].
  destruct (negb _); [|done]. by intros [= <- _].
Qed.

(** Every step keeps the invariant, and changes the committed tables as one
    post alone or not at all. *)
Lemma posts_step_ok s s' :
  step s s' -> posts_ok s ->
  posts_ok s' /\ (ps_db s' = ps_db s \/
    exists i p row, ps_clients s !! i = Some p /\ post_alone (po_in p) row (ps_db s) (ps_db s')).
Proof.
  intros [i p s1 Hi Hstep] Hs. pose proof (pk_client _ Hs i p Hi) as Hp.
  destruct Hstep as [Ha _|env row d Ha Hne Hl Hins|env e d Ha Hne Hl Hins|env row d c Ha Hl Hup Hc|env row e d Ha Hl Hup
    |row c Ha|row c e Ha Hne|e Ha Hne].
  6,7: split; [eapply committed_ok; eauto|right; exists i, p, row; split; [done|by apply commit_alone]].
  all: (split; [|by left]); apply moved_ok; try done; unfold posting_ok in *; simpl; rewrite ?Ha in Hp; simpl in Hp.
  - pose proof (insertLedger_Ok _ _ _ _ _ Hins) as (_ & _ & ->). split; [done|]. by exists env.
  - intros r [= <-]. right. pose proof (insertLedger_Ok _ _ _ _ _ Hins) as (_ & -> & _). done.
  - intros Hd. by eapply insert_error_dup.
  - pose proof (upsertCredits_Ok _ _ _ _ _ _ Hup) as (c1 & -> & Hu & _). simpl in Hc. rewrite lookup_insert_eq in Hc.
    simplify_eq. split; [done|]. split; [done|]. by exists env.
  - intros r Hr. left. unfold entry_of. by rewrite Ha.
  - intros c' [= <-]. right. pose proof (upsertCredits_Ok _ _ _ _ _ _ Hup) as (c1 & -> & Hu & _). simpl in Hc.
    rewrite lookup_insert_eq in Hc. simplify_eq. by rewrite Hu.
  - by intros E.
Qed.

Lemma step_inputs s s' : step s s' -> po_in <$> ps_clients s' = po_in <$> ps_clients s.
Proof.
  intros [i p s1 Hi Hstep].
  assert (forall a, po_in <$> <[i := {| po_in := po_in p; po_at := a |}]> (ps_clients s) = po_in <$> ps_clients s) as H.
  { intros a. rewrite list_fmap_insert. simpl. apply list_insert_id. by rewrite list_lookup_fmap, Hi. }
  destruct Hstep; apply H.
Qed.

Lemma posts_initial_ok d l : posts_ok (initial d l).
Proof.
  assert (forall i p, ps_clients (initial d l) !! i = Some p -> po_at p = Posting) as H.
  { intros i p. simpl. rewrite list_lookup_fmap. destruct (l !! i); [|done]. by intros [= <-]. }
  constructor.
  - intros i p Hp%H. unfold posting_ok. by rewrite Hp.
  - intros i j p q r r' _ Hp%H _. unfold entry_of. by rewrite Hp.
  - intros i j p q r r' _ Hp%H _. unfold row_of. by rewrite Hp.
Qed.

Lemma one_post_ledger l d d2 : ledger_ok d -> one_post l d d2 -> ledger_ok d2.
Proof. intros Hd (inp & row & _ & [env1 env2 d1 Hk Hi Hup]). by eapply body_ledger. Qed.

Lemma posts_ledger l d d2 : ledger_ok d -> rtc (one_post l) d d2 -> ledger_ok d2.
Proof. intros Hd. induction 1 as [|x y z Hxy _ IH]; [done|]. apply IH. by eapply one_post_ledger. Qed.

(** C7: concurrent posts are serializable.  Whatever posts run concurrently,
    in any interleaving of their statements, with any failures and lost
    answers: the committed tables are reached from the initial ones by the
    bodies of posts, each run alone (so every balance stays the sum of its
    ledger and no update is lost); a post that returned an entry has it in
    the ledger under its key, and one that was told its key is a duplicate
    finds the key there; no key is in the ledger twice. *)
Theorem concurrent_posts d l s :
  ledger_ok d -> rtc step (initial d l) s ->
  rtc (one_post l) d (ps_db s) /\
  ledger_ok (ps_db s) /\
  (forall i p row, ps_clients s !! i = Some p -> po_at p = Returned (Ok row) ->
     row ∈ db_credit_ledger (ps_db s) /\ cl_IdempotencyKey row = pi_IdempotencyKey (po_in p)) /\
  (forall i p, ps_clients s !! i = Some p -> po_at p = Returned (Err ErrDuplicateIdempotency) ->
     pi_IdempotencyKey (po_in p) ∈ cl_IdempotencyKey <$> db_credit_ledger (ps_db s)).
Proof.
  intros Hd Hr.
  assert (posts_ok s /\ rtc (one_post l) d (ps_db s) /\ po_in <$> ps_clients s = l) as (Hs & Hrun & _).
  { revert s Hr. apply (rtc_ind_r (fun s => posts_ok s /\ rtc (one_post l) d (ps_db s) /\ po_in <$> ps_clients s = l)).
    - split; [apply posts_initial_ok|]. split; [done|]. simpl. by rewrite <- list_fmap_compose, list_fmap_id.
    - intros s s' _ Hstep (Hs & Hrun & Hin). destruct (posts_step_ok _ _ Hstep Hs) as [Hs' Hdb].
      split; [done|]. split; [|by rewrite (step_inputs _ _ Hstep)].
      destruct Hdb as [-> |(i & p & row & Hi & Ha)]; [done|]. eapply rtc_r; [done|]. exists (po_in p), row.
      split; [|done]. rewrite <- Hin. apply list_elem_of_fmap_2. by eapply list_elem_of_lookup_2. }
  split; [done|]. split; [by eapply posts_ledger|]. split.
  - intros i p row Hi Ha. pose proof (pk_client _ Hs i p Hi) as Hp. unfold posting_ok in Hp. by rewrite Ha in Hp.
  - intros i p Hi Ha. pose proof (pk_client _ Hs i p Hi) as Hp. unfold posting_ok in Hp. rewrite Ha in Hp. by apply Hp.
Qed.

(** ** Witness: two posts of one user that interleave *)

Definition demo_inputs : list PostInput := [recharge "k1" 70; recharge "k2" (-20)].
Definition demo_clock : Env := {| env_now := 60; env_uuid := 0; env_seq := 2 |}.

(** No other post of a concrete state is in the way. *)
Ltac nobody_else :=
  let j := fresh in intros (j & ? & ? & ? & ? & ? & ?); destruct j as [|[|j]];
    unfold entry_of, row_of in *; by simplify_eq/=.

Ltac post_step i c :=
  eapply rtc_l; [eapply (s_post _ i); [reflexivity|]; c; first [reflexivity|discriminate|nobody_else]|]; simpl.

(** The first inserts, the second inserts, the first writes the balance and
    commits, then the second. *)
Lemma demo_run : exists s,
  rtc step (initial demo_db demo_inputs) s /\ balance_of (ps_db s) 1 = 550%Z /\
  po_at <$> ps_clients s !! 1 = Some (Returned (Ok (new_entry demo_clock (ledger_params (recharge "k2" (-20)))))).
Proof.
  eexists. split.
  - post_step 0 ltac:(eapply (p_insert _ _ _ demo_clock)).
    post_step 1 ltac:(eapply (p_insert _ _ _ demo_clock)).
    post_step 0 ltac:(eapply (p_upsert _ _ _ demo_clock)).
    post_step 0 ltac:(eapply p_commit).
    post_step 1 ltac:(eapply (p_upsert _ _ _ demo_clock)).
    post_step 1 ltac:(eapply p_commit).
    apply rtc_refl.
  - split; [vm_compute; reflexivity|reflexivity].
Qed.

Lemma concurrent_posts_witness : exists s,
  rtc step (initial demo_db demo_inputs) s /\ balance_of (ps_db s) 1 = 550%Z /\
  rtc (one_post demo_inputs) demo_db (ps_db s) /\
  new_entry demo_clock (ledger_params (recharge "k2" (-20))) ∈ db_credit_ledger (ps_db s).
Proof.
  destruct demo_run as (s & Hr & Hb & Hc). exists s. split; [exact Hr|]. split; [exact Hb|].
  destruct (concurrent_posts demo_db demo_inputs s demo_ledger_ok Hr) as (Hrun & _ & Hok & _).
  split; [exact Hrun|]. destruct (ps_clients s !! 1) as [p|] eqn:Hp; [|discriminate].
  injection Hc as Hc. by apply (Hok 1 p).
Defined.
