(* ===== verification/EnumScan.v ===== *)
(** * Enumerations between Go and the driver (dbstore/models.go)

    The three enumerations of the schema are Go strings; [Scan] takes them
    from what the driver delivers and [Value] gives a nullable one back.  The
    rest of the library uses inductive types for them (Db.v); here is that
    nothing is lost on the way through the driver, and what [Scan] does with
    anything else. *)

From S2P Require Import Prelude GoStrings Proto Db.

#[local] Open Scope string_scope.

(** A value of the driver: NULL, text in one of its two forms, or another Go
    type, by its name. *)
Inductive driver_value :=
  | VNil
  | VBytes (s : string)
  | VString (s : string)
  | VOther (type : string).

(** [Scan], of the enumeration with the given name: the new value, or the old
    one is kept. *)
Definition Scan (name : string) (src : driver_value) (e : string) : option error * string :=
  let unsupported t := (Some (ErrNew ("unsupported scan type for " +:+ name +:+ ": " +:+ t)), e) in
  match src with
  | VBytes s | VString s => (None, s)
  | VNil => unsupported "<nil>"
  | VOther t => unsupported t
  end.

Record NullEnum := { ne_Enum : string; ne_Valid : bool }.

Definition NullScan (name : string) (value : driver_value) (ns : NullEnum) : option error * NullEnum :=
  match value with
  | VNil => (None, {| ne_Enum := ""; ne_Valid := false |})
  | _ => let '(err, e) := Scan name value (ne_Enum ns) in (err, {| ne_Enum := e; ne_Valid := true |})
  end.

Definition Value (ns : NullEnum) : driver_value :=
  if ne_Valid ns then VString (ne_Enum ns) else VNil.

(** The methods of the three types. *)
Definition InstanceState_Scan := Scan "InstanceState".
Definition NullInstanceState_Scan := NullScan "InstanceState".
Definition NodeStatus_Scan := Scan "NodeStatus".
Definition NullNodeStatus_Scan := NullScan "NodeStatus".
Definition SlotStatus_Scan := Scan "SlotStatus".
Definition NullSlotStatus_Scan := NullScan "SlotStatus".
Definition NullInstanceState_Value := Value.
Definition NullNodeStatus_Value := Value.
Definition NullSlotStatus_Value := Value.

(** ** The inductive types behind the texts *)

Class Enum (T : Type) := {
  enum_text : T -> string;
  enum_of_text : string -> option T
}.

Class EnumLaws (T : Type) `{Enum T} := {
  enum_of_text_text x : enum_of_text (enum_text x) = Some x;
  enum_text_of_text s x : enum_of_text s = Some x -> enum_text x = s
}.

#[export] Instance InstanceState_enum : Enum InstanceState := {
  enum_text := InstanceState_text;
  enum_of_text s := Some (
    if String.eqb s "pending" then InstanceStatePending
    else if String.eqb s "provisioning" then InstanceStateProvisioning
    else if String.eqb s "running" then InstanceStateRunning
    else if String.eqb s "stopping" then InstanceStateStopping
    else if String.eqb s "stopped" then InstanceStateStopped
    else if String.eqb s "failed" then InstanceStateFailed
    else InstanceStateOther s)
}.

#[export] Instance NodeStatus_enum : Enum NodeStatus := {
  enum_text st :=
    match st with
    | NodeStatusOffline => "offline" | NodeStatusOnline => "online"
    | NodeStatusDegraded => "degraded" | NodeStatusDraining => "draining"
    end;
  enum_of_text s :=
    if String.eqb s "offline" then Some NodeStatusOffline
    else if String.eqb s "online" then Some NodeStatusOnline
    else if String.eqb s "degraded" then Some NodeStatusDegraded
    else if String.eqb s "draining" then Some NodeStatusDraining
    else None
}.

#[export] Instance SlotStatus_enum : Enum SlotStatus := {
  enum_text st :=
    match st with
    | SlotStatusFree => "free" | SlotStatusReserved => "reserved"
    | SlotStatusInUse => "in_use" | SlotStatusDraining => "draining"
    end;
  enum_of_text s :=
    if String.eqb s "free" then Some SlotStatusFree
    else if String.eqb s "reserved" then Some SlotStatusReserved
    else if String.eqb s "in_use" then Some SlotStatusInUse
    else if String.eqb s "draining" then Some SlotStatusDraining
    else None
}.

(** Reading the branches of [enum_of_text]. *)
Ltac of_text := simpl; intros; repeat (case_match; simplify_eq/=; try done);
  repeat match goal with H : String.eqb _ _ = true |- _ => apply String.eqb_eq in H end; by subst.

#[export] Instance NodeStatus_laws : EnumLaws NodeStatus.
Proof. split; [by intros []|of_text]. Qed.

#[export] Instance SlotStatus_laws : EnumLaws SlotStatus.
Proof. split; [by intros []|of_text]. Qed.

(** A state of the schema, or a text that is none of them. *)
Definition canonical (s : InstanceState) : Prop := forall t, s = InstanceStateOther t ->
  enum_of_text t = Some (InstanceStateOther t).

Lemma InstanceState_roundtrip s : canonical s -> enum_of_text (enum_text s) = Some s.
Proof. destruct s; try done. intros H. by apply H. Qed.

Lemma InstanceState_text_back t : exists s, enum_of_text t = Some s /\ enum_text s = t /\ canonical s.
Proof.
  simpl. eexists. split; [reflexivity|].
  repeat match goal with |- context [String.eqb t ?s] => destruct (String.eqb_spec t s) as [->|]; [done|] end.
  split; [done|]. intros t' [= <-]. simpl.
  by rewrite !(proj2 (String.eqb_neq _ _)).
Qed.

(** ** Through the driver and back *)

(** What [Value] writes [Scan] reads back, NULL included; the text of a value
    of an enumeration arrives as that value; and anything that is not text is
    refused and leaves the value as it was (a nullable one becomes valid all
    the same). *)
Theorem enum_roundtrip `{EnumLaws T} name ns old :
  (ne_Valid ns = false -> ne_Enum ns = "") ->
  NullScan name (Value ns) old = (None, ns) /\
  (forall (x : T) e, Scan name (VString (enum_text x)) e = (None, enum_text x) /\ enum_of_text (enum_text x) = Some x) /\
  (forall t e, exists err, Scan name (VOther t) e = (Some err, e) /\
     NullScan name (VOther t) old = (Some err, {| ne_Enum := ne_Enum old; ne_Valid := true |})).
Proof.
  intros Hn. split; [|split].
  - destruct ns as [s []]; simpl in *; [done|]. by rewrite Hn.
  - intros x e. split; [done|]. apply enum_of_text_text.
  - intros t e. eexists. done.
Qed.

Lemma enum_roundtrip_witness :
  NullScan "SlotStatus" (Value {| ne_Enum := "in_use"; ne_Valid := true |}) {| ne_Enum := ""; ne_Valid := false |} =
    (None, {| ne_Enum := "in_use"; ne_Valid := true |}).
Proof.
  apply (enum_roundtrip (T := SlotStatus) "SlotStatus" {| ne_Enum := "in_use"; ne_Valid := true |}). done.
Defined.
